(* ===== verification/_CoqProject ===== *)
-Q . S2P
Prelude.v
StdMap.v
Types.v
Allocator.v
Pool.v
PoolLaws.v
Bytes.v
Fnv.v
Decimal.v
Keys.v
Text.v
Messages.v
Protocol.v
LOB.v
OrderBook.v
OrderBookInv.v
OrderBookRefine.v
OrderBookQuery.v
BookCheck.v
BookInterface.v
BookTheorems.v
LFQueue.v
Registry.v
Position.v
Market.v
Engine.v
EngineFields.v
EngineSequence.v
EngineInv.v
EngineSteps.v
EngineCommit.v
EngineSubmit.v
EngineProcess.v
EngineTheorems.v
EngineSamples.v
Replica.v
ReplicaTheorems.v
ReplicaSamples.v
Features.v
Strategy.v
StrategyTheorems.v
Journal.v
JournalTheorems.v
JournalSamples.v
Decoder.v
Itch.v
Pitch.v
DecoderTheorems.v
FeedBooks.v
FeedView.v
FeedBooksTheorems.v
FeedBooksSamples.v
EventIO.v
Rules.v
RulesTheorems.v
