(* ===== verification/Prelude.v ===== *)
(** * The order book and trading system: a verification library

    HEADER-PLACEHOLDER *)
From stdpp Require Export base gmap sorting list fin_maps strings.
From Stdlib Require Export ZArith Lia.

#[global] Open Scope Z_scope.

(** ** Failure as a value

    A C++ function of this program either returns or throws.  [Undefined] is
    not an exception of the language: it marks a step whose behaviour the C++
    standard leaves undefined (a dangling iterator, an index out of range), so
    that "this never happens" is a theorem and not an assumption. *)
Inductive exn :=
| BadAlloc
| OutOfRange
| LogicError (what : string)
| InvalidArgument (what : string)
| RuntimeError (what : string)
| FeedError (what : string)
| SystemError (what : string)
| Undefined (what : string).

#[export] Instance exn_eq_dec : EqDecision exn.
Proof. solve_decision. Defined.

Inductive outcome (A : Type) :=
| Ret (a : A)
| Throw (e : exn).
Arguments Ret {A} _.
Arguments Throw {A} _.

#[export] Instance outcome_eq_dec {A} `{EqDecision A} : EqDecision (outcome A).
Proof. solve_decision. Defined.

#[export] Instance outcome_ret : MRet outcome := fun A a => Ret a.
#[export] Instance outcome_bind : MBind outcome := fun A B f m =>
  match m with Ret a => f a | Throw e => Throw e end.
#[export] Instance outcome_fmap : FMap outcome := fun A B f m =>
  match m with Ret a => Ret (f a) | Throw e => Throw e end.

Definition from_option_or {A} (e : exn) (o : option A) : outcome A :=
  match o with Some a => Ret a | None => Throw e end.

(** A left fold whose step may throw, and the same for building a list. *)
Fixpoint foldM {A S} (f : S -> A -> outcome S) (s : S) (l : list A) : outcome S :=
  match l with
  | [] => Ret s
  | a :: l => s' ← f s a; foldM f s' l
  end.

Fixpoint mapO {A B} (f : A -> outcome B) (l : list A) : outcome (list B) :=
  match l with
  | [] => Ret []
  | a :: l => b ← f a; bs ← mapO f l; Ret (b :: bs)
  end.

Definition is_ret {A} (m : outcome A) : Prop := exists a, m = Ret a.

Create HintDb lob discriminated.

Lemma bind_Ret {A B} (a : A) (f : A -> outcome B) : Ret a ≫= f = f a.
Proof. done. Qed.

Lemma bind_Ret_inv {A B} (m : outcome A) (f : A -> outcome B) b :
  m ≫= f = Ret b -> exists a, m = Ret a /\ f a = Ret b.
Proof. destruct m; simpl; [eauto | discriminate]. Qed.

Lemma from_option_or_Ret {A} e (o : option A) a :
  from_option_or e o = Ret a <-> o = Some a.
Proof. destruct o; simpl; naive_solver. Qed.

Lemma foldM_app {A S} (f : S -> A -> outcome S) s l1 l2 :
  foldM f s (l1 ++ l2) = (s' ← foldM f s l1; foldM f s' l2).
Proof.
  revert s. induction l1 as [|a l1 IH]; intros s; simpl; [done|].
  destruct (f s a); simpl; auto.
Qed.

Lemma mapO_Ret {A B} (f : A -> outcome B) (g : A -> B) l :
  (forall x, x ∈ l -> f x = Ret (g x)) -> mapO f l = Ret (g <$> l).
Proof.
  induction l as [|x l IH]; intros Hf; simpl; [done|].
  rewrite Hf by left. simpl. rewrite IH; [done|]. intros y Hy. apply Hf. by right.
Qed.

(** Every fold whose step preserves an invariant and cannot throw under it
    returns, and returns a state with the invariant. *)
Lemma foldM_inv {A S} (P : list A -> S -> Prop) (f : S -> A -> outcome S) l :
  (forall done a rest s, l = done ++ a :: rest -> P done s ->
     exists s', f s a = Ret s' /\ P (done ++ [a]) s') ->
  forall s, P [] s -> exists s', foldM f s l = Ret s' /\ P l s'.
Proof.
  intros Hstep s H0.
  assert (forall todo done s, l = done ++ todo -> P done s ->
    exists s', foldM f s todo = Ret s' /\ P l s') as Hgen.
  { induction todo as [|a todo IH]; intros done s1 -> HP; simpl.
    - exists s1. by rewrite app_nil_r.
    - destruct (Hstep done a todo s1 eq_refl HP) as (s2 & -> & HP2). simpl.
      apply (IH (done ++ [a])); [by rewrite <- app_assoc | done]. }
  by apply (Hgen l []).
Qed.

(** Inverts a successful bind in a hypothesis, as often as it can. *)
Ltac inv_bind H :=
  let a := fresh "r" in
  let Ha := fresh "Hr" in
  let H' := fresh "H" in
  apply bind_Ret_inv in H as (a & Ha & H').

(** ** Machine integers

    A w-bit unsigned integer is a [Z] kept in [0, 2^w); every operation of the
    source that can leave the range is followed by the reduction below. *)
Definition u8 (x : Z) : Z := x mod 2 ^ 8.
Definition u16 (x : Z) : Z := x mod 2 ^ 16.
Definition u32 (x : Z) : Z := x mod 2 ^ 32.
Definition u64 (x : Z) : Z := x mod 2 ^ 64.

Definition is_u8 (x : Z) : Prop := 0 <= x < 2 ^ 8.
Definition is_u16 (x : Z) : Prop := 0 <= x < 2 ^ 16.
Definition is_u32 (x : Z) : Prop := 0 <= x < 2 ^ 32.
Definition is_u64 (x : Z) : Prop := 0 <= x < 2 ^ 64.

Lemma u32_range x : is_u32 (u32 x).
Proof. apply Z.mod_pos_bound. lia. Qed.
Lemma u64_range x : is_u64 (u64 x).
Proof. apply Z.mod_pos_bound. lia. Qed.
Lemma u8_small x : is_u8 x -> u8 x = x.
Proof. apply Z.mod_small. Qed.
Lemma u16_small x : is_u16 x -> u16 x = x.
Proof. apply Z.mod_small. Qed.
Lemma u32_small x : is_u32 x -> u32 x = x.
Proof. apply Z.mod_small. Qed.
Lemma u64_small x : is_u64 x -> u64 x = x.
Proof. apply Z.mod_small. Qed.
Lemma is_u32_u64 x : is_u32 x -> is_u64 x.
Proof. unfold is_u32, is_u64. lia. Qed.

Create Rewrite HintDb u64.

Lemma u64_add_l x y : u64 (u64 x + y) = u64 (x + y).
Proof. apply Zplus_mod_idemp_l. Qed.
Lemma u64_add_r x y : u64 (x + u64 y) = u64 (x + y).
Proof. apply Zplus_mod_idemp_r. Qed.
Lemma u64_sub_l x y : u64 (u64 x - y) = u64 (x - y).
Proof. apply Zminus_mod_idemp_l. Qed.
Lemma u64_sub_r x y : u64 (x - u64 y) = u64 (x - y).
Proof. apply Zminus_mod_idemp_r. Qed.

#[export] Hint Resolve u32_range u64_range is_u32_u64 : lob.
#[export] Hint Rewrite u64_add_l u64_add_r u64_sub_l u64_sub_r : u64.

Fixpoint sumZ (l : list Z) : Z :=
  match l with [] => 0 | x :: l => x + sumZ l end.

Lemma sumZ_app l1 l2 : sumZ (l1 ++ l2) = sumZ l1 + sumZ l2.
Proof. induction l1; simpl; lia. Qed.

Lemma sumZ_perm l1 l2 : l1 ≡ₚ l2 -> sumZ l1 = sumZ l2.
Proof. induction 1; simpl; lia. Qed.

Lemma sumZ_nonneg l : Forall (fun x => 0 <= x) l -> 0 <= sumZ l.
Proof. induction 1; simpl; lia. Qed.

(** ** Lists *)
Section filter_lemmas.
Context {A : Type} (P : A -> Prop) `{!forall x, Decision (P x)}.

Lemma filter_all (l : list A) : (forall x, x ∈ l -> P x) -> filter P l = l.
Proof.
  induction l as [|x l IH]; intros Hl; [done|].
  rewrite filter_cons_True by (apply Hl; left). f_equal. apply IH. intros. apply Hl. by right.
Qed.

Lemma filter_none (l : list A) : (forall x, x ∈ l -> ~ P x) -> filter P l = [].
Proof.
  induction l as [|x l IH]; intros Hl; [done|].
  rewrite filter_cons_False by (apply Hl; left). apply IH. intros. apply Hl. by right.
Qed.

Lemma StronglySorted_filter (S : relation A) (l : list A) :
  StronglySorted S l -> StronglySorted S (filter P l).
Proof.
  induction 1 as [|x l _ IH Hx]; [constructor|].
  rewrite filter_cons. case_decide; [constructor|]; try done.
  rewrite Forall_forall in *. intros y [_ ?]%list_elem_of_filter. auto.
Qed.
End filter_lemmas.
