(* ===== verification/StdMap.v ===== *)
(** * [std::map]: finite maps iterated in key order

    A [std::map<K, V, Compare>] is a stdpp [gmap K V] together with a total
    order on the keys; its iteration sequence is the list of its bindings
    sorted by key ([ordered]).  Lookups and updates are those of [gmap]; this
    file relates them to the iteration sequence. *)
From S2P Require Import Prelude.

Section ordered.
Context {K V : Type} `{Countable K} (R : relation K).
Context `{!RelDecision R, !Transitive R, !Total R, !AntiSymm (=) R}.

Definition key_rel : relation (K * V) := fun p q => R p.1 q.1.

#[export] Instance key_rel_dec : RelDecision key_rel.
Proof. intros p q. unfold key_rel. apply _. Defined.
#[export] Instance key_rel_trans : Transitive key_rel.
Proof. intros p q r. unfold key_rel. apply transitivity. Qed.
#[export] Instance key_rel_total : Total key_rel.
Proof. intros p q. apply (total R). Qed.

(** The iteration sequence [for (auto& [k, v] : m)]. *)
Definition ordered (m : gmap K V) : list (K * V) :=
  merge_sort key_rel (map_to_list m).

(** [m.begin()], and whether it is [m.end()]. *)
Definition map_begin (m : gmap K V) : option (K * V) := head (ordered m).

Lemma ordered_Permutation m : ordered m ≡ₚ map_to_list m.
Proof. apply merge_sort_Permutation. Qed.

Lemma ordered_sorted m : StronglySorted key_rel (ordered m).
Proof. apply StronglySorted_merge_sort; apply _. Qed.

Lemma elem_of_ordered m k v : (k, v) ∈ ordered m <-> m !! k = Some v.
Proof. rewrite ordered_Permutation. apply elem_of_map_to_list. Qed.

Lemma NoDup_ordered_keys m : NoDup (ordered m).*1.
Proof. rewrite ordered_Permutation. apply NoDup_fst_map_to_list. Qed.

Lemma length_ordered m : length (ordered m) = size m.
Proof. rewrite (Permutation_length (ordered_Permutation m)). apply length_map_to_list. Qed.

Lemma ordered_empty : ordered ∅ = [].
Proof. unfold ordered. by rewrite map_to_list_empty. Qed.

Lemma ordered_nil_inv m : ordered m = [] -> m = ∅.
Proof. intros E. apply map_to_list_empty_iff, Permutation_nil. by rewrite <- ordered_Permutation, E. Qed.

(** A strictly sorted enumeration of the bindings is the iteration sequence. *)
Lemma ordered_unique m l :
  StronglySorted key_rel l -> l ≡ₚ map_to_list m -> ordered m = l.
Proof.
  intros Hs Hp.
  apply (StronglySorted_unique_strong key_rel); [| apply ordered_sorted | done |].
  2: { by rewrite ordered_Permutation. }
  intros [k1 v1] [k2 v2] H1 H2 R12 R21. unfold key_rel in *; simpl in *.
  rewrite ordered_Permutation, elem_of_map_to_list in H1.
  rewrite Hp, elem_of_map_to_list in H2.
  assert (k1 = k2) as -> by by apply (anti_symm R). congruence.
Qed.

Definition binding (k : K) (o : option V) : list (K * V) :=
  match o with Some v => [(k, v)] | None => [] end.

(** Updating one key changes the iteration sequence at one place, the same for
    every new value: the bindings before and after the key stay as they are. *)
Lemma ordered_zip m k :
  exists l1 l2,
    Forall (fun p => R p.1 k /\ p.1 <> k) l1 /\
    Forall (fun p => R k p.1 /\ p.1 <> k) l2 /\
    forall o, ordered (partial_alter (fun _ => o) k m) = l1 ++ binding k o ++ l2.
Proof.
  set (l := ordered (delete k m)).
  assert (forall p, p ∈ l -> p.1 <> k) as Hk.
  { intros [k' v] Hp; simpl; intros ->. apply elem_of_ordered in Hp. by rewrite lookup_delete_eq in Hp. }
  exists (filter (fun p => R p.1 k) l), (filter (fun p => ~ R p.1 k) l).
  split; [|split].
  - apply Forall_forall. intros p [? ?]%list_elem_of_filter. auto.
  - apply Forall_forall. intros p [Hn ?]%list_elem_of_filter. split; [|by auto].
    by destruct (total R p.1 k).
  - intros o. apply ordered_unique.
    + apply StronglySorted_app. split_and!.
      * intros p q [Hp _]%list_elem_of_filter Hq. unfold key_rel.
        apply elem_of_app in Hq as [Hq|[Hq _]%list_elem_of_filter].
        -- destruct o; simpl in Hq; [|by apply not_elem_of_nil in Hq].
           apply list_elem_of_singleton in Hq as ->. done.
        -- destruct (total R q.1 k); [done|]. by transitivity k.
      * apply StronglySorted_filter, ordered_sorted.
      * destruct o as [v|]; simpl; [|apply StronglySorted_filter, ordered_sorted].
        constructor; [apply StronglySorted_filter, ordered_sorted|].
        apply Forall_forall. intros q [Hq _]%list_elem_of_filter. unfold key_rel; simpl.
        by destruct (total R q.1 k).
    + rewrite Permutation_app_comm, <- app_assoc, (Permutation_app_comm (filter _ l)).
      assert (filter (fun p => R p.1 k) l ++ filter (fun p => ~ R p.1 k) l ≡ₚ
              map_to_list (delete k m)) as Hp.
      { rewrite (Permutation_app_comm (filter _ _)).
        unfold l. rewrite <- ordered_Permutation. symmetry.
        rewrite Permutation_app_comm.
        clear. induction (ordered (delete k m)) as [|p l IH]; simpl; [done|].
        rewrite !filter_cons. destruct (decide (R p.1 k)) as [r|r].
        - rewrite (decide_False (P := ~ R p.1 k)) by tauto. simpl. by f_equiv.
        - rewrite (decide_True (P := ~ R p.1 k)) by tauto. simpl.
          rewrite <- Permutation_middle. by f_equiv. }
      rewrite Hp. destruct o as [v|]; simpl.
      * rewrite <- map_to_list_insert by apply lookup_delete_eq.
        f_equiv. apply map_eq. intros i. rewrite lookup_partial_alter.
        destruct (decide (k = i)) as [->|?]; [by rewrite lookup_insert_eq|].
        by rewrite lookup_insert_ne, lookup_delete_ne.
      * done.
Qed.

(** The same for the insertion and the deletion of one key. *)
Lemma ordered_update m k :
  exists l1 l2,
    Forall (fun p => R p.1 k /\ p.1 <> k) l1 /\
    Forall (fun p => R k p.1 /\ p.1 <> k) l2 /\
    ordered m = l1 ++ binding k (m !! k) ++ l2 /\
    (forall v, ordered (<[k := v]> m) = l1 ++ (k, v) :: l2) /\
    ordered (delete k m) = l1 ++ l2.
Proof.
  destruct (ordered_zip m k) as (l1 & l2 & H1 & H2 & Ho).
  exists l1, l2. split_and!; [done|done| | |].
  - rewrite <- Ho. f_equal. symmetry. by apply partial_alter_self.
  - intros v. apply (Ho (Some v)).
  - apply (Ho None).
Qed.

(** The same for any rewriting of the value at one key. *)
Lemma ordered_alter_parts m k :
  exists l1 l2,
    Forall (fun p => R p.1 k /\ p.1 <> k /\ m !! p.1 = Some p.2) l1 /\
    Forall (fun p => R k p.1 /\ p.1 <> k /\ m !! p.1 = Some p.2) l2 /\
    ordered m = l1 ++ binding k (m !! k) ++ l2 /\
    (forall f, ordered (partial_alter f k m) = l1 ++ binding k (f (m !! k)) ++ l2).
Proof.
  destruct (ordered_zip m k) as (l1 & l2 & H1 & H2 & Ho).
  assert (ordered m = l1 ++ binding k (m !! k) ++ l2) as E.
  { rewrite <- Ho. f_equal. symmetry. by apply partial_alter_self. }
  assert (forall p, p ∈ l1 ++ l2 -> m !! p.1 = Some p.2) as Hm.
  { intros [k' v] Hp. apply elem_of_ordered. rewrite E. set_solver. }
  rewrite Forall_forall in H1, H2.
  exists l1, l2. split_and!; [| |done|].
  - apply Forall_forall. intros p Hp. specialize (H1 p Hp). split_and!; [tauto..|].
    apply Hm. set_solver.
  - apply Forall_forall. intros p Hp. specialize (H2 p Hp). split_and!; [tauto..|].
    apply Hm. set_solver.
  - intros f. rewrite <- Ho. f_equal. apply map_eq. intros i.
    rewrite !lookup_partial_alter. by case_decide; subst.
Qed.

(** [begin()] is the least key. *)
Lemma map_begin_Some m k v :
  map_begin m = Some (k, v) <->
  m !! k = Some v /\ forall k', is_Some (m !! k') -> R k k'.
Proof.
  unfold map_begin. pose proof (ordered_sorted m) as Hs. split.
  - destruct (ordered m) as [|p l] eqn:E; simpl; [done|]. intros [= ->].
    split; [apply elem_of_ordered; rewrite E; left|].
    intros k' [v' Hv']. apply elem_of_ordered in Hv'. rewrite E in Hv'.
    apply StronglySorted_cons in Hs as [Hf _]. rewrite Forall_forall in Hf.
    apply elem_of_cons in Hv' as [[= -> ->]|Hv']; [by destruct (total R k k)|].
    apply (Hf _ Hv').
  - intros [Hk Hmin].
    assert ((k, v) ∈ ordered m) as Hin by by apply elem_of_ordered.
    destruct (ordered m) as [|[k1 v1] l] eqn:E; simpl; [by apply not_elem_of_nil in Hin|].
    assert (m !! k1 = Some v1) as H1 by (apply elem_of_ordered; rewrite E; left).
    apply elem_of_cons in Hin as [?|Hin]; [by f_equal|].
    apply StronglySorted_cons in Hs as [Hf _]. rewrite Forall_forall in Hf.
    pose proof (Hf _ Hin) as Hr. unfold key_rel in Hr; simpl in Hr.
    assert (k1 = k) as -> by (apply (anti_symm R); [done|]; apply Hmin; eauto).
    congruence.
Qed.

Lemma map_begin_None m : map_begin m = None <-> m = ∅.
Proof.
  unfold map_begin. split.
  - intros E. apply ordered_nil_inv. by destruct (ordered m).
  - intros ->. by rewrite ordered_empty.
Qed.

End ordered.

Lemma ordered_fmap {K V W} `{Countable K} (R : relation K)
    `{!RelDecision R, !Transitive R, !Total R, !AntiSymm (=) R} (f : V -> W) (m : gmap K V) :
  ordered R (f <$> m) = prod_map id f <$> ordered R m.
Proof.
  apply (ordered_unique R).
  - pose proof (ordered_sorted R m) as Hs.
    induction Hs as [|p l Hs IH Hf]; simpl; constructor; [done|].
    rewrite Forall_forall in Hf. apply Forall_forall. intros q (p' & -> & Hp')%list_elem_of_fmap. by apply (Hf p').
  - by rewrite map_to_list_fmap, <- (ordered_Permutation R m).
Qed.

(** Bindings that contribute nothing may as well be absent. *)
Lemma ordered_filter {K V} `{Countable K} (R : relation K)
    `{!RelDecision R, !Transitive R, !Total R, !AntiSymm (=) R} (P : K * V -> Prop) `{!forall x, Decision (P x)}
    (m : gmap K V) :
  ordered R (filter P m) = filter P (ordered R m).
Proof.
  apply (ordered_unique R); [apply StronglySorted_filter, (ordered_sorted R)|].
  apply NoDup_Permutation; [|apply NoDup_map_to_list|].
  - apply NoDup_filter. eapply NoDup_fmap_1, (NoDup_ordered_keys R).
  - intros [k v]. rewrite list_elem_of_filter, (elem_of_ordered R), elem_of_map_to_list, map_lookup_filter_Some. tauto.
Qed.

Lemma concat_ordered_filter {K V A} `{Countable K} (R : relation K)
    `{!RelDecision R, !Transitive R, !Total R, !AntiSymm (=) R} (P : K * V -> Prop) `{!forall x, Decision (P x)}
    (g : K * V -> list A) (m : gmap K V) :
  (forall kv, ~ P kv -> g kv = []) -> concat (g <$> ordered R m) = concat (g <$> ordered R (filter P m)).
Proof.
  intros Hg. rewrite (ordered_filter R P m). induction (ordered R m) as [|kv l IH]; csimpl; [done|].
  rewrite filter_cons. case_decide as HP; csimpl; rewrite IH; [done|]. by rewrite Hg.
Qed.

(** [std::less] on integer keys, [std::greater] on prices. *)
#[export] Instance Z_ge_dec' : RelDecision (flip Z.le).
Proof. intros x y. unfold flip. apply _. Defined.
#[export] Instance Z_ge_trans : Transitive (flip Z.le).
Proof. intros x y z. unfold flip. lia. Qed.
#[export] Instance Z_ge_total : Total (flip Z.le).
Proof. intros x y. unfold flip. lia. Qed.
#[export] Instance Z_ge_antisymm : AntiSymm (=) (flip Z.le).
Proof. intros x y. unfold flip. lia. Qed.

(** ** Sums over a map *)
Section sum.
Context {K V : Type} `{Countable K} (f : K -> V -> Z).
Implicit Types (m : gmap K V).

Definition map_sum m : Z := sumZ ((fun kv => f kv.1 kv.2) <$> map_to_list m).

Lemma map_sum_empty : map_sum ∅ = 0.
Proof. unfold map_sum. by rewrite map_to_list_empty. Qed.

Lemma map_sum_insert m k v : m !! k = None -> map_sum (<[k := v]> m) = f k v + map_sum m.
Proof.
  intros Hk. unfold map_sum. rewrite (sumZ_perm _ ((fun kv => f kv.1 kv.2) <$> (k, v) :: map_to_list m)).
  - done.
  - by rewrite map_to_list_insert.
Qed.

Lemma map_sum_delete m k v : m !! k = Some v -> map_sum m = f k v + map_sum (delete k m).
Proof.
  intros Hk. rewrite <- map_sum_insert by apply lookup_delete_eq.
  by rewrite insert_delete_eq, insert_id.
Qed.

Lemma map_sum_put m k v :
  map_sum (<[k := v]> m) = f k v + map_sum (delete k m).
Proof. rewrite <- insert_delete_eq. apply map_sum_insert, lookup_delete_eq. Qed.

Lemma map_sum_update m k v v' :
  m !! k = Some v -> map_sum (<[k := v']> m) = map_sum m + f k v' - f k v.
Proof. intros Hk. rewrite map_sum_put, (map_sum_delete m k v Hk). lia. Qed.

Lemma map_sum_delete_None m k : m !! k = None -> map_sum (delete k m) = map_sum m.
Proof. intros Hk. by rewrite delete_id. Qed.

Lemma map_sum_nonneg m : (forall k v, m !! k = Some v -> 0 <= f k v) -> 0 <= map_sum m.
Proof.
  intros Hf. apply sumZ_nonneg, Forall_fmap, Forall_forall. intros [k v] Hkv%elem_of_map_to_list.
  by apply Hf.
Qed.

Lemma map_sum_perm m l : l ≡ₚ map_to_list m -> sumZ ((fun kv => f kv.1 kv.2) <$> l) = map_sum m.
Proof. intros Hl. unfold map_sum. apply sumZ_perm. by rewrite Hl. Qed.
End sum.

Lemma map_sum_ext {K V} `{Countable K} (f g : K -> V -> Z) (m : gmap K V) :
  (forall k v, m !! k = Some v -> f k v = g k v) -> map_sum f m = map_sum g m.
Proof.
  intros Hfg. unfold map_sum. f_equal. apply list_fmap_ext. intros i [k v] Hi.
  apply Hfg, elem_of_map_to_list. by eapply list_elem_of_lookup_2.
Qed.
