(* ===== verification/Types.v ===== *)
(** * Core data types

    [include/order_book/core/types.hpp] and [core/events.hpp]: identifiers,
    sides, results and the three market events.  Integers are [Z]; the
    predicates [*_ok] say that every field is in the range of its C++ type. *)
From S2P Require Import Prelude StdMap.

(** [using Sequence = std::uint64_t] and the other aliases of types.hpp. *)
Abbreviation Sequence := Z (only parsing).
Abbreviation OrderId := Z (only parsing).
Abbreviation InstrumentId := Z (only parsing).
Abbreviation Price := Z (only parsing).
Abbreviation Quantity := Z (only parsing).

(** [enum class Side : std::uint8_t].  A C++ enum with a fixed underlying type
    can hold any byte, and the program tests for it: [SideOther] is a byte that
    is not one of the enumerators. *)
Inductive Side :=
| Bid
| Ask
| SideOther (byte : Z).

#[export] Instance Side_eq_dec : EqDecision Side.
Proof. solve_decision. Defined.

Definition side_to_string (s : Side) : string :=
  if decide (s = Bid) then "bid" else "ask".

Definition valid_side (s : Side) : Prop := s = Bid \/ s = Ask.

#[export] Instance valid_side_dec s : Decision (valid_side s).
Proof. unfold valid_side. apply _. Defined.

Inductive ApplyResult :=
| Ok
| DuplicateOrder
| UnknownOrder
| InvalidPrice
| InvalidQuantity
| UnknownInstrument
| QuantityExceedsRemaining
| ParseError
| NotImplemented
| AllocationFailed.

#[export] Instance ApplyResult_eq_dec : EqDecision ApplyResult.
Proof. solve_decision. Defined.

Definition result_to_string (r : ApplyResult) : string :=
  match r with
  | Ok => "ok"
  | DuplicateOrder => "duplicate_order"
  | UnknownOrder => "unknown_order"
  | InvalidPrice => "invalid_price"
  | InvalidQuantity => "invalid_quantity"
  | QuantityExceedsRemaining => "quantity_exceeds_remaining"
  | ParseError => "parse_error"
  | NotImplemented => "not_implemented"
  | AllocationFailed => "allocation_failed"
  | UnknownInstrument => "unknown_instrument"
  end.

Record AddOrder := mkAdd {
  add_id : OrderId;
  add_side : Side;
  add_price : Price;
  add_quantity : Quantity
}.

Record CancelOrder := mkCancel { cancel_id : OrderId }.

Record ExecuteOrder := mkExecute {
  execute_id : OrderId;
  execute_quantity : Quantity
}.

(** [std::variant<AddOrder, CancelOrder, ExecuteOrder>] *)
Inductive EventPayload :=
| PAdd (e : AddOrder)
| PCancel (e : CancelOrder)
| PExecute (e : ExecuteOrder).

Record MarketEvent := mkEvent {
  ev_sequence : Sequence;
  ev_instrument : InstrumentId;
  ev_payload : EventPayload
}.

#[export] Instance AddOrder_eq_dec : EqDecision AddOrder.
Proof. solve_decision. Defined.
#[export] Instance CancelOrder_eq_dec : EqDecision CancelOrder.
Proof. solve_decision. Defined.
#[export] Instance ExecuteOrder_eq_dec : EqDecision ExecuteOrder.
Proof. solve_decision. Defined.
#[export] Instance EventPayload_eq_dec : EqDecision EventPayload.
Proof. solve_decision. Defined.
#[export] Instance MarketEvent_eq_dec : EqDecision MarketEvent.
Proof. solve_decision. Defined.

(** [struct OrderView] of order_book.hpp: what the book shows of one order. *)
Record OrderView := mkView {
  ov_id : OrderId;
  ov_side : Side;
  ov_price : Price;
  ov_quantity : Quantity
}.

(** [struct LevelView] *)
Record LevelView := mkLevelView {
  lv_side : Side;
  lv_price : Price;
  lv_quantity : Z;
  lv_orders : list OrderView
}.

#[export] Instance OrderView_eq_dec : EqDecision OrderView.
Proof. solve_decision. Defined.
#[export] Instance LevelView_eq_dec : EqDecision LevelView.
Proof. solve_decision. Defined.

(** Every field in the range of its C++ type. *)
Record AddOrder_ok (e : AddOrder) : Prop := {
  add_id_ok : is_u64 (add_id e);
  add_price_ok : is_u32 (add_price e);
  add_quantity_ok : is_u32 (add_quantity e)
}.

Definition payload_ok (p : EventPayload) : Prop :=
  match p with
  | PAdd e => AddOrder_ok e
  | PCancel e => is_u64 (cancel_id e)
  | PExecute e => is_u64 (execute_id e) /\ is_u32 (execute_quantity e)
  end.

Record MarketEvent_ok (e : MarketEvent) : Prop := {
  ev_sequence_ok : is_u64 (ev_sequence e);
  ev_instrument_ok : is_u64 (ev_instrument e);
  ev_payload_ok : payload_ok (ev_payload e)
}.

(** [std::greater] for bids, [std::less] for asks: [price_before s p q] holds
    when a level at [p] comes no later than one at [q]. *)
Definition price_before (s : Side) : relation Price :=
  match s with Bid => flip Z.le | _ => Z.le end.

#[export] Instance price_before_dec s : RelDecision (price_before s).
Proof. destruct s; apply _. Defined.
#[export] Instance price_before_trans s : Transitive (price_before s).
Proof. destruct s; apply _. Qed.
#[export] Instance price_before_total s : Total (price_before s).
Proof. destruct s; apply _. Qed.
#[export] Instance price_before_antisymm s : AntiSymm (=) (price_before s).
Proof. destruct s; apply _. Qed.
