(* ===== verification/Allocator.v ===== *)
(** * The allocator interface of the order book

    What [std::list<OrderEntry, OrderAllocator>] (in
    [include/order_book/core/order_book.hpp]) asks of its allocator: storage
    for one node at a time.  [NodeAllocator] has the two calls, and
    [NodeAllocatorLaws] what they promise; the book is verified against these
    laws, and Pool.v discharges them for [AllocatorAdaptor] over
    [FixedSlotPool]. *)
From S2P Require Import Prelude.

(** [na_allocate ok a] is [allocate(1)], returning the address of the node;
    [ok] tells whether the general heap would grant the memory the allocator
    asks of it on first use.  A throwing call leaves the allocator as it was.
    [na_deallocate p a] is [deallocate(p, 1)]. *)
Class NodeAllocator (A : Type) := {
  na_allocate : bool -> A -> outcome (Z * A);
  na_deallocate : Z -> A -> outcome A
}.

Class NodeAllocatorLaws (A : Type) `{!NodeAllocator A} := {
  na_wf : A -> Prop;
  na_live : A -> gset Z;
  na_capacity : A -> nat;
  na_allocate_cases ok a :
    na_wf a ->
    (exists p a', na_allocate ok a = Ret (p, a') /\ (p ∉ na_live a) /\
       na_live a' = {[p]} ∪ na_live a /\ na_wf a' /\
       na_capacity a' = na_capacity a /\ (size (na_live a) < na_capacity a)%nat) \/
    (na_allocate ok a = Throw BadAlloc /\
       ((na_capacity a <= size (na_live a))%nat \/ ok = false));
  na_allocate_room a :
    na_wf a -> (size (na_live a) < na_capacity a)%nat ->
    na_allocate true a <> Throw BadAlloc;
  na_deallocate_live p a :
    na_wf a -> p ∈ na_live a ->
    exists a', na_deallocate p a = Ret a' /\ na_live a' = (na_live a ∖ {[p]}) /\
      na_wf a' /\ na_capacity a' = na_capacity a
}.
