(* ===== verification/Pool.v ===== *)
(** * The fixed-slot pool and its allocator adaptor

    [include/order_book/memory/fixed_slot_pool.hpp] and
    [memory/allocator_adaptor.hpp].  A pool owns one block of [capacity_bytes]
    bytes at address [storage]; the first allocation fixes the slot size and
    alignment and cuts the block into slots, and from then on a stack of free
    slot offsets and a used flag per slot are kept. *)
From S2P Require Import Prelude Allocator.

(** [class FixedSlotPool], field by field. *)
Record Pool := mkPool {
  first_init : bool;
  storage : Z;
  capacity_bytes : Z;
  free_slots : list Z;
  in_uses : list bool;
  free_count : nat;
  slot_sz : Z;
  slot_alignment : Z;
  last_valid_start : Z;
  first_valid_start : Z
}.

(** The constructor.  [upstream] is the block [std::allocator] returns, [None]
    when it throws. *)
Definition pool_new (upstream : option Z) (capacity : Z) : outcome Pool :=
  if decide (capacity = 0) then Throw BadAlloc
  else
    base ← from_option_or BadAlloc upstream;
    Ret (mkPool false base capacity [] [] 0 0 0 0 0).

(** [std::align] *)
Definition std_align (alignment size ptr space : Z) : option (Z * Z) :=
  if decide (space < size) then None
  else
    let diff := (- ptr) mod alignment in
    if decide (space - size < diff) then None
    else Some (ptr + diff, space - diff).

(** The start offsets of [count] consecutive slots. *)
Definition slot_starts (padding bytes : Z) (count : nat) : list Z :=
  (fun i => padding + Z.of_nat i * bytes) <$> seq 0 count.

(** The block under [if (!first_init)] of [allocate]; [reserve_ok] tells
    whether the two [reserve] calls succeed. *)
Definition pool_first_use (reserve_ok : bool) (bytes alignment : Z) (p : Pool) : outcome Pool :=
  match std_align alignment bytes (storage p) (capacity_bytes p) with
  | None => Throw BadAlloc
  | Some (_, space) =>
    let count := Z.to_nat (space / bytes) in
    let padding := capacity_bytes p - space in
    if reserve_ok then
      let free := free_slots p ++ slot_starts padding bytes count in
      let used := in_uses p ++ replicate count false in
      last ← from_option_or (Undefined "free_slots_[count - 1]") (free !! (count - 1)%nat);
      Ret (mkPool true (storage p) (capacity_bytes p) free used count bytes alignment last padding)
    else Throw BadAlloc
  end.

(** The tail common to [allocate] and [try_allocate]: pop the last free slot. *)
Definition pool_pop (bytes : Z) (p : Pool) : outcome (Z * Pool) :=
  let fc := (free_count p - 1)%nat in
  start ← from_option_or (Undefined "free_slots_[--free_count_]") (free_slots p !! fc);
  let idx := Z.to_nat ((start - first_valid_start p) / bytes) in
  if decide (idx < length (in_uses p))%nat then
    Ret (storage p + start,
         mkPool (first_init p) (storage p) (capacity_bytes p) (free_slots p)
                (<[idx := true]> (in_uses p)) fc (slot_sz p) (slot_alignment p)
                (last_valid_start p) (first_valid_start p))
  else Throw (Undefined "in_uses_[i]").

(** [void* allocate(bytes, alignment)]; [None] is the null pointer. *)
Definition pool_allocate (reserve_ok : bool) (bytes alignment : Z) (p : Pool)
    : outcome (option Z * Pool) :=
  if decide (bytes = 0) then Ret (None, p)
  else
    p ← if first_init p then Ret p else pool_first_use reserve_ok bytes alignment p;
    if decide (free_count p = 0%nat) then Throw BadAlloc
    else if decide (slot_sz p <> bytes \/ slot_alignment p <> alignment) then Throw BadAlloc
    else
      '(a, p) ← pool_pop bytes p;
      Ret (Some a, p).

(** [void* try_allocate(bytes, alignment) noexcept], with its own copy of the
    first-use block that turns every failure into a null pointer. *)
Definition pool_try_allocate (reserve_ok : bool) (bytes alignment : Z) (p : Pool)
    : outcome (option Z * Pool) :=
  if decide (bytes = 0) then Ret (None, p)
  else
    match
      (if first_init p then Ret (Some p)
       else
         match std_align alignment bytes (storage p) (capacity_bytes p) with
         | None => Ret None
         | Some (_, space) =>
           let count := Z.to_nat (space / bytes) in
           let padding := capacity_bytes p - space in
           if reserve_ok then
             let free := free_slots p ++ slot_starts padding bytes count in
             let used := in_uses p ++ replicate count false in
             last ← from_option_or (Undefined "free_slots_[count - 1]") (free !! (count - 1)%nat);
             Ret (Some (mkPool true (storage p) (capacity_bytes p) free used count bytes
                               alignment last padding))
           else Ret None
         end)
    with
    | Throw e => Throw e
    | Ret None => Ret (None, p)
    | Ret (Some p) =>
      if decide (free_count p = 0%nat) then Ret (None, p)
      else if decide (slot_sz p <> bytes \/ slot_alignment p <> alignment) then Ret (None, p)
      else
        '(a, p) ← pool_pop bytes p;
        Ret (Some a, p)
    end.

(** [void deallocate(ptr, bytes) noexcept] *)
Definition pool_deallocate (ptr : option Z) (bytes : Z) (p : Pool) : outcome Pool :=
  match ptr with
  | None => Ret p
  | Some ptr =>
    if decide (bytes = 0 \/ first_init p = false \/ bytes <> slot_sz p) then Ret p
    else
      let start := u64 (ptr - storage p) in
      if decide (last_valid_start p < start \/ start < first_valid_start p) then Ret p
      else
        let offset := start - first_valid_start p in
        if decide (offset mod slot_sz p <> 0) then Ret p
        else
          match std_align (slot_alignment p) (slot_sz p) ptr (slot_sz p) with
          | None => Ret p
          | Some _ =>
            let idx := Z.to_nat (offset / bytes) in
            used ← from_option_or (Undefined "in_uses_[idx]") (in_uses p !! idx);
            if negb used then Ret p
            else if decide (free_count p < length (free_slots p))%nat then
              Ret (mkPool (first_init p) (storage p) (capacity_bytes p)
                          (<[free_count p := start]> (free_slots p))
                          (<[idx := false]> (in_uses p)) (S (free_count p)) (slot_sz p)
                          (slot_alignment p) (last_valid_start p) (first_valid_start p))
            else Throw (Undefined "free_slots_[free_count_++]")
          end
  end.

(** [std::size_t count() const] *)
Definition pool_count (p : Pool) : Z := Z.of_nat (free_count p) * slot_sz p.

(** ** AllocatorAdaptor

    [T] is described by its size and alignment, [CAPACITY_BYTES] by the
    constant of [OrderBook]. *)
Section adaptor.
Context (CAPACITY_BYTES sizeof_T alignof_T : Z).

Definition adaptor_allocate (reserve_ok : bool) (n : Z) (p : Pool) : outcome (option Z * Pool) :=
  if decide (CAPACITY_BYTES / sizeof_T < n) then Throw BadAlloc
  else if decide (1 < n) then Throw BadAlloc
  else pool_allocate reserve_ok (n * sizeof_T) alignof_T p.

Definition adaptor_try_allocate (reserve_ok : bool) (n : Z) (p : Pool) : outcome (option Z * Pool) :=
  if decide (CAPACITY_BYTES / sizeof_T < n) then Ret (None, p)
  else if decide (1 < n) then Ret (None, p)
  else pool_try_allocate reserve_ok (n * sizeof_T) alignof_T p.

Definition adaptor_deallocate (ptr : option Z) (n : Z) (p : Pool) : outcome Pool :=
  if decide (1 < n) then Ret p
  else pool_deallocate ptr (n * sizeof_T) p.

End adaptor.

(** The book instantiates the adaptor at the list node of [OrderEntry]: two
    pointers and a 16-byte entry on the 64-bit ABI, in a pool type of
    [sizeof(OrderEntry) * 1024] bytes. *)
Definition sizeof_OrderEntry : Z := 16.
Definition sizeof_node : Z := 16 + sizeof_OrderEntry.
Definition alignof_node : Z := 8.
Definition CAPACITY_BYTES : Z := sizeof_OrderEntry * 1024.

#[export] Instance pool_node_allocator : NodeAllocator Pool := {
  na_allocate ok p :=
    '(r, p) ← adaptor_allocate CAPACITY_BYTES sizeof_node alignof_node ok 1 p;
    a ← from_option_or (Undefined "construct at nullptr") r;
    Ret (a, p);
  na_deallocate a p := adaptor_deallocate sizeof_node (Some a) 1 p
}.
