(* ===== verification/PoolLaws.v ===== *)
(** * Correctness of the fixed-slot pool

    The pool invariant, the specification of allocation and deallocation
    against the set of live slots, and the instance that hands the pool to the
    order book as its [NodeAllocator]. *)
From S2P Require Import Prelude Allocator Pool.

Definition slot_start (p : Pool) (i : nat) : Z := first_valid_start p + Z.of_nat i * slot_sz p.
Definition slot_addr (p : Pool) (i : nat) : Z := storage p + slot_start p i.
Definition slot_count (p : Pool) : nat := length (in_uses p).

Lemma size_pos_of_elem {A} `{Countable A} (x : A) (X : gset A) : x ∈ X -> (0 < size X)%nat.
Proof.
  intros Hx. destruct (decide (size X = 0%nat)) as [E|]; [|lia].
  apply size_empty_iff in E. set_solver.
Qed.

(** The addresses handed out and not yet returned. *)
Definition pool_live (p : Pool) : gset Z :=
  list_to_set (slot_addr p <$> filter (fun i => in_uses p !! i = Some true) (seq 0 (slot_count p))).

(** The block lies inside the 64-bit address space. *)
Definition pool_block_ok (p : Pool) : Prop :=
  0 < storage p /\ 0 < capacity_bytes p /\ storage p + capacity_bytes p < 2 ^ 64.

Definition pool_fresh (p : Pool) : Prop :=
  first_init p = false /\ free_slots p = [] /\ in_uses p = [] /\ free_count p = 0%nat.

(** After the first use: the first [free_count] entries of the stack are the
    starts of exactly the slots whose flag is off, each once; the slots lie in
    the block and start at aligned addresses. *)
Record pool_ready (p : Pool) (idxs : list nat) : Prop := {
  pr_init : first_init p = true;
  pr_sz : 0 < slot_sz p;
  pr_al : 0 < slot_alignment p;
  pr_mult : slot_sz p mod slot_alignment p = 0;
  pr_len : length (free_slots p) = slot_count p;
  pr_pos : (0 < slot_count p)%nat;
  pr_fc : (free_count p <= slot_count p)%nat;
  pr_prefix : take (free_count p) (free_slots p) = slot_start p <$> idxs;
  pr_nodup : NoDup idxs;
  pr_idx i : i ∈ idxs <-> in_uses p !! i = Some false;
  pr_first : 0 <= first_valid_start p;
  pr_last : last_valid_start p = slot_start p (slot_count p - 1);
  pr_fit : first_valid_start p + Z.of_nat (slot_count p) * slot_sz p <= capacity_bytes p;
  pr_aligned : (storage p + first_valid_start p) mod slot_alignment p = 0
}.

Definition pool_wf (p : Pool) : Prop :=
  pool_block_ok p /\ (pool_fresh p \/ exists idxs, pool_ready p idxs).

Lemma slot_addr_inj p i j : 0 < slot_sz p -> slot_addr p i = slot_addr p j -> i = j.
Proof. unfold slot_addr, slot_start. nia. Qed.

Lemma elem_of_pool_live p a :
  a ∈ pool_live p <-> exists i, in_uses p !! i = Some true /\ a = slot_addr p i.
Proof.
  unfold pool_live, slot_count. rewrite elem_of_list_to_set, list_elem_of_fmap. split.
  - intros (i & -> & [? _]%list_elem_of_filter). eauto.
  - intros (i & Hi & ->). exists i. split; [done|].
    apply list_elem_of_filter. split; [done|].
    apply elem_of_seq. apply lookup_lt_Some in Hi. lia.
Qed.

Lemma pool_ready_lengths p idxs :
  pool_ready p idxs ->
  length idxs = free_count p /\
  (size (pool_live p) + free_count p = slot_count p)%nat.
Proof.
  intros [].
  assert (length idxs = free_count p) as Hl.
  { apply (f_equal length) in pr_prefix0.
    rewrite length_take, length_fmap in pr_prefix0. lia. }
  split; [done|].
  unfold pool_live. rewrite size_list_to_set.
  2: { apply NoDup_fmap_2_strong; [|apply NoDup_filter, NoDup_seq].
       intros i j _ _. by apply slot_addr_inj. }
  rewrite length_fmap, <- Hl.
  assert (idxs ≡ₚ filter (fun i => ~ in_uses p !! i = Some true) (seq 0 (slot_count p))) as ->.
  { apply NoDup_Permutation; [done|apply NoDup_filter, NoDup_seq|].
    intros i. rewrite pr_idx0, list_elem_of_filter, elem_of_seq. unfold slot_count. split.
    - intros Hi. pose proof (lookup_lt_Some _ _ _ Hi). split; [congruence|lia].
    - intros [Hn Hlt]. destruct (in_uses p !! i) as [[]|] eqn:E; [done|done|].
      apply lookup_ge_None in E. lia. }
  rewrite <- (length_seq (slot_count p) 0) at 3.
  induction (seq 0 (slot_count p)) as [|i l IH]; simpl; [done|].
  rewrite !filter_cons. repeat case_decide; try tauto; simpl; lia.
Qed.

(** Marking slot [i] used adds its address to the live set; clearing the mark
    removes it. *)
Lemma pool_live_insert p p' i (b : bool) :
  0 < slot_sz p -> storage p' = storage p -> slot_sz p' = slot_sz p ->
  first_valid_start p' = first_valid_start p ->
  (i < slot_count p)%nat -> in_uses p' = <[i := b]> (in_uses p) ->
  pool_live p' = if b then ({[slot_addr p i]} ∪ pool_live p : gset Z)
                 else pool_live p ∖ {[slot_addr p i]}.
Proof.
  intros Hsz Hs Hz Hf Hi Hu. unfold slot_count in Hi.
  assert (forall j, slot_addr p' j = slot_addr p j) as Ha.
  { intros j. unfold slot_addr, slot_start. by rewrite Hs, Hz, Hf. }
  apply set_eq. intros a. destruct b.
  - rewrite elem_of_union, elem_of_singleton, !elem_of_pool_live, Hu. split.
    + intros (j & Hj & ->). rewrite Ha. destruct (decide (i = j)) as [->|Hne]; [by left|].
      rewrite list_lookup_insert_ne in Hj by done. eauto.
    + intros [->|(j & Hj & ->)].
      * exists i. by rewrite list_lookup_insert_eq.
      * exists j. rewrite Ha. split; [|done]. destruct (decide (i = j)) as [->|Hne].
        -- by rewrite list_lookup_insert_eq.
        -- by rewrite list_lookup_insert_ne.
  - rewrite elem_of_difference, elem_of_singleton, !elem_of_pool_live, Hu. split.
    + intros (j & Hj & ->). rewrite Ha. destruct (decide (i = j)) as [->|Hne].
      * by rewrite list_lookup_insert_eq in Hj.
      * rewrite list_lookup_insert_ne in Hj by done. split; [by eauto|].
        intros E. apply Hne. symmetry. by eapply slot_addr_inj.
    + intros [(j & Hj & ->) Hne]. exists j. rewrite Ha. split; [|done].
      rewrite list_lookup_insert_ne; [done|]. intros ->. done.
Qed.

Definition same_shape (p p' : Pool) : Prop :=
  first_init p' = first_init p /\ storage p' = storage p /\
  capacity_bytes p' = capacity_bytes p /\ slot_sz p' = slot_sz p /\
  slot_alignment p' = slot_alignment p /\ first_valid_start p' = first_valid_start p /\
  last_valid_start p' = last_valid_start p /\
  length (free_slots p') = length (free_slots p) /\ slot_count p' = slot_count p.

Lemma pool_pop_spec p idxs :
  pool_ready p idxs -> free_count p <> 0%nat ->
  exists i idxs' p',
    idxs = idxs' ++ [i] /\ pool_pop (slot_sz p) p = Ret (slot_addr p i, p') /\
    in_uses p !! i = Some false /\ (i < slot_count p)%nat /\
    same_shape p p' /\ pool_ready p' idxs' /\
    in_uses p' = <[i := true]> (in_uses p) /\ free_slots p' = free_slots p /\
    free_slots p !! free_count p' = Some (slot_start p i) /\
    free_count p = S (free_count p') /\
    pool_live p' = {[slot_addr p i]} ∪ pool_live p.
Proof.
  intros Hr Hfc. destruct (pool_ready_lengths _ _ Hr) as [Hl _].
  destruct idxs as [|i idxs' _] using rev_ind; [by simpl in Hl|].
  pose proof Hr as []. exists i, idxs'.
  rewrite length_app in Hl; simpl in Hl.
  assert (free_slots p !! (free_count p - 1)%nat = Some (slot_start p i)) as Htop.
  { rewrite <- (lookup_take_lt _ (free_count p)), pr_prefix0, fmap_app, lookup_app_r
      by (rewrite ?length_fmap; lia).
    rewrite length_fmap. by replace (free_count p - 1 - length idxs')%nat with 0%nat by lia. }
  assert (in_uses p !! i = Some false) as Hi by (apply pr_idx0; set_solver).
  pose proof (lookup_lt_Some _ _ _ Hi) as Hlt. fold (slot_count p) in Hlt.
  unfold pool_pop. rewrite Htop; simpl.
  replace (slot_start p i - first_valid_start p) with (Z.of_nat i * slot_sz p)
    by (unfold slot_start; lia).
  rewrite Z.div_mul, Nat2Z.id, decide_True by (done || lia).
  eexists. split_and!; [done|done|done|done|..]; simpl; try done; try lia.
  - split_and!; try done. unfold slot_count; simpl. by rewrite length_insert.
  - apply NoDup_app in pr_nodup0 as (Hnd & Hdisj & _).
    constructor; simpl; try done; unfold slot_count in *; simpl; rewrite ?length_insert; try done.
    + lia.
    + replace (free_count p) with (S (free_count p - 1)) in pr_prefix0 by lia.
      rewrite fmap_app in pr_prefix0. simpl in pr_prefix0.
      erewrite take_S_r in pr_prefix0 by done.
      by apply app_inj_tail in pr_prefix0 as [? _].
    + intros j. destruct (decide (i = j)) as [<-|Hne].
      * rewrite list_lookup_insert_eq by done. split; [|done].
        intros Hj. exfalso. apply (Hdisj _ Hj). by left.
      * rewrite list_lookup_insert_ne by done. rewrite <- pr_idx0. set_solver.
  - by eapply (pool_live_insert p _ i true).
Qed.

(** ** First use *)

Lemma std_align_Some alignment size ptr space ptr' space' :
  0 < alignment ->
  std_align alignment size ptr space = Some (ptr', space') ->
  exists diff, 0 <= diff < alignment /\ ptr' = ptr + diff /\ space' = space - diff /\
    size <= space' /\ (ptr + diff) mod alignment = 0.
Proof.
  unfold std_align. intros Ha. repeat case_decide; [done|done|]. intros [= <- <-].
  exists ((- ptr) mod alignment). pose proof (Z.mod_pos_bound (- ptr) alignment Ha).
  split_and!; try lia.
  rewrite Z.add_mod_idemp_r by lia. by rewrite Z.add_opp_diag_r, Zmod_0_l.
Qed.

(** How many slots of [bytes] bytes the pool has, or will have. *)
Definition pool_capacity (bytes alignment : Z) (p : Pool) : nat :=
  if first_init p then slot_count p
  else match std_align alignment bytes (storage p) (capacity_bytes p) with
       | Some (_, space) => Z.to_nat (space / bytes)
       | None => 0
       end.

Section sized.
Context (bytes alignment : Z).
Hypothesis (Hbytes : 0 < bytes) (Halign : 0 < alignment) (Hmult : bytes mod alignment = 0).

Lemma pool_first_use_spec p :
  pool_block_ok p -> pool_fresh p ->
  (exists p', pool_first_use true bytes alignment p = Ret p' /\
     pool_ready p' (seq 0 (slot_count p')) /\ pool_block_ok p' /\
     slot_sz p' = bytes /\ slot_alignment p' = alignment /\
     free_count p' = slot_count p' /\ slot_count p' = pool_capacity bytes alignment p /\
     pool_live p' = ∅) \/
  ((forall ok, pool_first_use ok bytes alignment p = Throw BadAlloc) /\
     pool_capacity bytes alignment p = 0%nat).
Proof.
  intros (Hs & Hc & Hfit) (Hi & Hf & Hu & Hn). unfold pool_first_use, pool_capacity.
  rewrite Hi. destruct (std_align _ _ _ _) as [[ptr space]|] eqn:E; [|right; split; done].
  left. apply std_align_Some in E as (diff & Hd & -> & -> & Hle & Hal); [|done].
  set (space := capacity_bytes p - diff) in *. set (n := Z.to_nat (space / bytes)).
  assert (1 <= space / bytes) by (apply Z.div_le_lower_bound; lia).
  assert (Z.of_nat n * bytes <= space) as Hfits.
  { unfold n. rewrite Z2Nat.id by lia. pose proof (Z.mul_div_le space bytes Hbytes). lia. }
  replace (capacity_bytes p - space) with diff by (unfold space; lia).
  assert ((free_slots p ++ slot_starts diff bytes n) !! (n - 1)%nat =
          Some (diff + Z.of_nat (n - 1) * bytes)) as Hlast.
  { rewrite Hf; simpl. unfold slot_starts. rewrite list_lookup_fmap, lookup_seq_lt by lia. done. }
  rewrite Hlast, Hf, Hu; simpl. eexists. split; [done|]. unfold slot_count; simpl.
  rewrite length_replicate. split_and!; try done.
  - constructor; simpl; unfold slot_count; simpl; rewrite ?length_replicate; try done; try lia.
    + unfold slot_starts. by rewrite length_fmap, length_seq.
    + unfold slot_starts. rewrite firstn_all2; [done|]. by rewrite length_fmap, length_seq.
    + apply NoDup_seq.
    + intros i. rewrite elem_of_seq. split.
      * intros. apply lookup_replicate. split; [done|lia].
      * intros [_ ?]%lookup_replicate. lia.
  - apply set_eq. intros a. rewrite elem_of_pool_live; simpl. split; [|set_solver].
    by intros (i & [? _]%lookup_replicate & _).
Qed.

(** The invariant of a pool serving one element type. *)
Definition pool_typed (p : Pool) : Prop :=
  pool_wf p /\ (first_init p = true -> slot_sz p = bytes /\ slot_alignment p = alignment).

Lemma pool_fresh_live p : pool_fresh p -> pool_live p = ∅.
Proof. intros (_ & _ & E & _). unfold pool_live, slot_count. by rewrite E. Qed.

(** [allocate] on a pool that has been used: it pops a free slot, or throws
    exactly when none is left. *)
Lemma pool_allocate_ready ok p idxs :
  pool_ready p idxs -> pool_block_ok p -> slot_sz p = bytes -> slot_alignment p = alignment ->
  (exists a p', pool_allocate ok bytes alignment p = Ret (Some a, p') /\ (a ∉ pool_live p) /\
     pool_live p' = {[a]} ∪ pool_live p /\ pool_typed p' /\ slot_count p' = slot_count p /\
     first_init p' = true /\ free_count p = S (free_count p') /\
     (exists i, (i < slot_count p)%nat /\ a = slot_addr p i)) \/
  (pool_allocate ok bytes alignment p = Throw BadAlloc /\ free_count p = 0%nat).
Proof.
  intros Hr Hb Hsz Hal. pose proof Hr as [Hinit _ _ _ _ _ _ _ _ _ _ _ _ _].
  unfold pool_allocate. rewrite decide_False by lia. rewrite Hinit; simpl.
  destruct (decide (free_count p = 0%nat)) as [H0|H0]; [by right|left].
  rewrite decide_False by naive_solver.
  destruct (pool_pop_spec _ _ Hr H0)
    as (i & idxs' & p' & -> & Hpop & Hi & Hlt & Hsh & Hr' & Hu & Hfs & Htop & Hfc & Hlive).
  rewrite <- Hsz, Hpop. simpl. exists (slot_addr p i), p'.
  destruct Hsh as (? & ? & ? & ? & ? & ? & ? & ? & ?).
  split_and!; try done.
  - rewrite elem_of_pool_live. intros (j & Hj & E).
    apply slot_addr_inj in E as ->; [congruence|apply Hr].
  - split; [|by intros _; split; congruence]. split; [|right; by eexists].
    unfold pool_block_ok in *. by rewrite H1, H2.
  - congruence.
  - eauto.
Qed.

Lemma pool_allocate_cases ok p :
  pool_typed p ->
  (exists a p', pool_allocate ok bytes alignment p = Ret (Some a, p') /\ (a ∉ pool_live p) /\
     pool_live p' = {[a]} ∪ pool_live p /\ pool_typed p' /\
     pool_capacity bytes alignment p' = pool_capacity bytes alignment p /\
     (size (pool_live p) < pool_capacity bytes alignment p)%nat) \/
  (pool_allocate ok bytes alignment p = Throw BadAlloc /\
     ((pool_capacity bytes alignment p <= size (pool_live p))%nat \/
      ok = false /\ first_init p = false)).
Proof.
  intros [[Hb [Hfr|[idxs Hr]]] Hty].
  - pose proof Hfr as (Hinit & _). destruct ok.
    2: { right. split; [|auto]. unfold pool_allocate, pool_first_use.
         rewrite decide_False, Hinit by lia. by destruct (std_align _ _ _ _) as [[]|]. }
    destruct (pool_first_use_spec p Hb Hfr)
      as [(p1 & E & Hr1 & Hb1 & Hsz & Hal & Hfc & Hcap & Hl)|[E Hcap]].
    2: { right. split; [|left; lia].
         unfold pool_allocate. by rewrite decide_False, Hinit, E by lia. }
    assert (pool_allocate true bytes alignment p = pool_allocate true bytes alignment p1) as Heq.
    { unfold pool_allocate. rewrite !decide_False, Hinit, E by lia. simpl.
      by rewrite (pr_init _ _ Hr1). }
    pose proof (pr_pos _ _ Hr1).
    destruct (pool_allocate_ready true p1 _ Hr1 Hb1 Hsz Hal)
      as [(a & p2 & E2 & Ha & Hl2 & Hty2 & Hn & Hi2 & _)|[_ ?]]; [|lia].
    left. exists a, p2. rewrite Heq, (pool_fresh_live p Hfr), <- Hcap, <- Hl.
    split_and!; try done.
    + unfold pool_capacity. by rewrite Hi2.
    + by rewrite Hl, size_empty.
  - destruct (Hty (pr_init _ _ Hr)) as [Hsz Hal].
    destruct (pool_ready_lengths _ _ Hr) as [_ Hsize].
    assert (pool_capacity bytes alignment p = slot_count p) as Hcap
      by (unfold pool_capacity; by rewrite (pr_init _ _ Hr)).
    destruct (pool_allocate_ready ok p _ Hr Hb Hsz Hal)
      as [(a & p2 & E2 & Ha & Hl2 & Hty2 & Hn & Hi2 & Hfc & _)|[? ?]].
    + left. exists a, p2. split_and!; try done; try lia.
      rewrite Hcap. unfold pool_capacity. by rewrite Hi2.
    + right. split; [done|]. left. lia.
Qed.

(** Both entry points agree: a null pointer where the other throws. *)
Lemma pool_try_allocate_eq ok p :
  pool_try_allocate ok bytes alignment p =
  match pool_allocate ok bytes alignment p with
  | Throw BadAlloc =>
    Ret (None, if first_init p then p
               else match pool_first_use ok bytes alignment p with Ret p' => p' | Throw _ => p end)
  | r => r
  end.
Proof.
  unfold pool_try_allocate, pool_allocate, pool_first_use.
  case_decide; [done|]. destruct (first_init p); simpl.
  - repeat case_decide; try done. unfold pool_pop.
    destruct (free_slots p !! _); simpl; [|done]. by case_decide.
  - destruct (std_align _ _ _ _) as [[ptr space]|]; [|done]. destruct ok; [|done].
    destruct ((free_slots p ++ _) !! _) as [last|]; [|done]. simpl.
    repeat case_decide; try done. unfold pool_pop; simpl.
    destruct ((free_slots p ++ _) !! _); simpl; [|done]. by case_decide.
Qed.

Lemma pool_ready_typed p idxs :
  pool_ready p idxs -> pool_block_ok p -> slot_sz p = bytes -> slot_alignment p = alignment ->
  pool_typed p.
Proof. intros. split; [|done]. split; [done|]. right. by exists idxs. Qed.

(** The checks of [deallocate] recover the slot index from any address that
    passes them, and let every slot address through. *)
Lemma pool_deallocate_ready p idxs a :
  pool_ready p idxs -> pool_block_ok p -> slot_sz p = bytes -> is_u64 a ->
  (exists i (b : bool), in_uses p !! i = Some b /\ a = slot_addr p i /\
     pool_deallocate (Some a) bytes p =
       (if b then
         Ret (mkPool (first_init p) (storage p) (capacity_bytes p)
                     (<[free_count p := slot_start p i]> (free_slots p))
                     (<[i := false]> (in_uses p)) (S (free_count p)) (slot_sz p)
                     (slot_alignment p) (last_valid_start p) (first_valid_start p))
       else Ret p)) \/
  ((a ∉ pool_live p) /\ pool_deallocate (Some a) bytes p = Ret p).
Proof.
  intros Hr (Hs & Hc & Hfit) Hsz Ha. destruct (pool_ready_lengths _ _ Hr) as [Hl Hcount].
  destruct Hr. unfold pool_deallocate.
  rewrite decide_False by (rewrite pr_init0; intros [?|[?|?]]; [lia|done|done]).
  set (start := u64 (a - storage p)). set (n := slot_count p) in *.
  assert (forall i, a = slot_addr p i -> (i < n)%nat -> start = slot_start p i) as Hstart.
  { intros i -> Hi. unfold start, slot_addr. rewrite u64_small; [lia|].
    unfold is_u64, slot_start in *. nia. }
  assert (forall i, in_uses p !! i = Some true -> a = slot_addr p i -> (i < n)%nat) as Hbound
    by (intros i Hi _; by apply lookup_lt_Some in Hi).
  assert (forall i, (i < n)%nat -> slot_start p i <= last_valid_start p) as Hlast.
  { intros i Hi. rewrite pr_last0. unfold slot_start. nia. }
  case_decide as Hrange.
  { right. split; [|done]. rewrite elem_of_pool_live. intros (i & Hi & E).
    specialize (Hstart i E (Hbound i Hi E)). specialize (Hlast i (Hbound i Hi E)).
    rewrite Hstart in Hrange. unfold slot_start in *. nia. }
  case_decide as Hoff.
  { right. split; [|done]. rewrite elem_of_pool_live. intros (i & Hi & E).
    rewrite (Hstart i E (Hbound i Hi E)) in Hoff. apply Hoff.
    replace (slot_start p i - first_valid_start p) with (Z.of_nat i * slot_sz p)
      by (unfold slot_start; lia). apply Z.mod_mul. lia. }
  apply Z.mod_divide in Hoff as [k Hk]; [|lia].
  assert (0 <= k < Z.of_nat n) as Hkn.
  { rewrite pr_last0 in Hrange. unfold slot_start in Hrange. nia. }
  set (i := Z.to_nat k). assert (start = slot_start p i) as Hsi.
  { unfold slot_start, i. rewrite Z2Nat.id by lia. lia. }
  assert (a = slot_addr p i) as Hai.
  { unfold slot_addr. rewrite <- Hsi. unfold start.
    destruct (decide (storage p <= a)) as [Hge|Hlt].
    - rewrite u64_small; [lia|]. unfold is_u64 in *. lia.
    - exfalso. unfold start in Hsi.
      assert (u64 (a - storage p) = a - storage p + 2 ^ 64) as Hw.
      { unfold u64. symmetry. apply (Z.mod_unique _ _ (-1)); [|lia].
        unfold is_u64 in Ha. lia. }
      rewrite Hw in Hsi. unfold slot_start, is_u64 in *. nia. }
  assert ((- a) mod slot_alignment p = 0) as Hal.
  { apply Z.mod_divide in pr_mult0 as [q Hq]; [|lia].
    apply Z.mod_divide in pr_aligned0 as [r Hr]; [|lia].
    apply Z.mod_divide; [lia|]. exists (- (r + Z.of_nat i * q)).
    rewrite Hai. unfold slot_addr, slot_start. rewrite Hq. nia. }
  unfold std_align. rewrite Hal, decide_False, decide_False by lia.
  rewrite <- Hsz. replace ((start - first_valid_start p) / slot_sz p) with k
    by (rewrite Hk, Z.div_mul; lia).
  fold i. destruct (in_uses p !! i) as [b|] eqn:Hb; simpl.
  2: { apply lookup_ge_None in Hb. fold n in Hb. unfold n, slot_count in *. lia. }
  left. exists i, b. split_and!; [done|done|]. destruct b; simpl; [|done].
  rewrite decide_True, Hsi; [done|].
  assert (0 < size (pool_live p))%nat; [|lia].
  assert (a ∈ pool_live p) by (apply elem_of_pool_live; eauto).
  by apply (size_pos_of_elem a).
Qed.

Lemma pool_deallocate_live p a :
  pool_typed p -> a ∈ pool_live p ->
  exists p', pool_deallocate (Some a) bytes p = Ret p' /\
    pool_live p' = pool_live p ∖ {[a]} /\ pool_typed p' /\
    pool_capacity bytes alignment p' = pool_capacity bytes alignment p.
Proof.
  intros [[Hb [Hfr|[idxs Hr]]] Hty] Ha.
  { rewrite (pool_fresh_live p Hfr) in Ha. by apply elem_of_empty in Ha. }
  destruct (Hty (pr_init _ _ Hr)) as [Hsz Hal].
  pose proof Ha as (i & Hi & Hai)%elem_of_pool_live.
  pose proof (lookup_lt_Some _ _ _ Hi) as Hlt.
  assert (is_u64 a) as Hu.
  { destruct Hb as (? & ? & ?), Hr. rewrite Hai. unfold is_u64, slot_addr, slot_start.
    fold (slot_count p) in Hlt. nia. }
  destruct (pool_deallocate_ready p idxs a Hr Hb Hsz Hu)
    as [(j & b & Hj & Haj & E)|[? _]]; [|done].
  assert (j = i) as -> by (rewrite Hai in Haj; eapply slot_addr_inj; [apply Hr|done]).
  assert (b = true) as -> by congruence.
  destruct (pool_ready_lengths _ _ Hr) as [Hlen Hcount].
  assert (free_count p < slot_count p)%nat as Hroom.
  { assert (0 < size (pool_live p))%nat; [|lia]. by apply (size_pos_of_elem a). }
  eexists. split; [done|]. split; [|split].
  - rewrite Hai. by eapply (pool_live_insert p _ i false); [apply Hr|..].
  - eapply (pool_ready_typed _ (idxs ++ [i])); simpl; try done.
    destruct Hr. constructor; simpl; unfold slot_count in *; simpl;
      rewrite ?length_insert; try done.
    + rewrite (take_S_r _ _ (slot_start p i)) by (apply list_lookup_insert_eq; lia).
      rewrite take_insert_ge, pr_prefix0, fmap_app by lia. done.
    + apply NoDup_app. split_and!; [done| |apply NoDup_singleton].
      intros k Hk ->%list_elem_of_singleton. apply pr_idx0 in Hk. congruence.
    + intros k. rewrite elem_of_app, pr_idx0, list_elem_of_singleton.
      destruct (decide (i = k)) as [<-|Hne].
      * rewrite list_lookup_insert_eq by done. naive_solver.
      * rewrite list_lookup_insert_ne by done. naive_solver.
  - unfold pool_capacity, slot_count; simpl. by rewrite (pr_init _ _ Hr), length_insert.
Qed.

(** Freeing an address that is not live (never allocated, or already freed)
    changes nothing. *)
Lemma pool_deallocate_dead p a :
  pool_typed p -> is_u64 a -> a ∉ pool_live p -> pool_deallocate (Some a) bytes p = Ret p.
Proof.
  intros [[Hb [Hfr|[idxs Hr]]] Hty] Hu Ha.
  { unfold pool_deallocate. destruct Hfr as (-> & _). by rewrite decide_True by auto. }
  destruct (Hty (pr_init _ _ Hr)) as [Hsz _].
  destruct (pool_deallocate_ready p idxs a Hr Hb Hsz Hu)
    as [(j & [] & Hj & Haj & E)|[_ ?]]; [|done|done].
  exfalso. apply Ha, elem_of_pool_live. eauto.
Qed.

(** An allocation undone at once restores the pool, bit for bit. *)
Lemma pool_allocate_deallocate ok p a p' :
  pool_typed p -> first_init p = true ->
  pool_allocate ok bytes alignment p = Ret (Some a, p') ->
  pool_deallocate (Some a) bytes p' = Ret p.
Proof.
  intros [[Hb [Hfr|[idxs Hr]]] Hty] Hinit E.
  { destruct Hfr. congruence. }
  destruct (Hty Hinit) as [Hsz Hal]. unfold pool_allocate in E.
  rewrite decide_False, Hinit in E by lia. simpl in E.
  case_decide as H0; [done|]. rewrite decide_False in E by naive_solver.
  destruct (pool_pop_spec _ _ Hr H0)
    as (i & idxs' & p2 & Hidx & Hpop & Hi & Hlt & Hsh & Hr' & Hu & Hfs & Htop & Hfc & Hlive).
  rewrite <- Hsz, Hpop in E. simpl in E. injection E as <- <-.
  destruct Hsh as (E1 & E2 & E3 & E4 & E5 & E6 & E7 & E8 & E9).
  assert (pool_block_ok p2) as Hb2 by (unfold pool_block_ok in *; by rewrite E2, E3).
  assert (forall j, slot_addr p2 j = slot_addr p j) as Haddr.
  { intros j. unfold slot_addr, slot_start. by rewrite E2, E4, E6. }
  assert (is_u64 (slot_addr p i)) as Hu64.
  { destruct Hb as (? & ? & ?), Hr. unfold is_u64, slot_addr, slot_start. nia. }
  destruct (pool_deallocate_ready p2 _ (slot_addr p i) Hr' Hb2 ltac:(congruence) Hu64)
    as [(j & b & Hj & Haj & Hd)|[Hn _]].
  2: { exfalso. apply Hn. rewrite Hlive. set_solver. }
  rewrite Haddr in Haj. apply slot_addr_inj in Haj as <-; [|apply Hr].
  rewrite Hu, list_lookup_insert_eq in Hj by done. injection Hj as <-.
  rewrite Hd. destruct p, p2; simpl in *; subst.
  unfold slot_start; simpl. f_equal. f_equal.
  - by apply list_insert_id.
  - rewrite list_insert_insert_eq. by apply list_insert_id.
Qed.

(** Where the live slots lie: inside the block, aligned, and apart. *)
Lemma pool_allocate_storage ok p a p' :
  pool_allocate ok bytes alignment p = Ret (a, p') ->
  storage p' = storage p /\ capacity_bytes p' = capacity_bytes p.
Proof.
  unfold pool_allocate. case_decide; [by intros [= _ <-]|].
  assert (forall p0 a0 p1, pool_pop bytes p0 = Ret (a0, p1) ->
    storage p1 = storage p0 /\ capacity_bytes p1 = capacity_bytes p0) as Hpop.
  { intros p0 a0 p1. unfold pool_pop. destruct (free_slots p0 !! _); simpl; [|done].
    case_decide; [|done]. by intros [= _ <-]. }
  assert (forall p0, pool_first_use ok bytes alignment p = Ret p0 ->
    storage p0 = storage p /\ capacity_bytes p0 = capacity_bytes p) as Hfirst.
  { intros p0. unfold pool_first_use. destruct (std_align _ _ _ _) as [[]|]; [|done].
    destruct ok; [|done]. destruct ((_ ++ _) !! _); simpl; [|done]. by intros [= <-]. }
  destruct (if first_init p then Ret p else _) as [p0|] eqn:E0; simpl; [|done].
  assert (storage p0 = storage p /\ capacity_bytes p0 = capacity_bytes p) as [<- <-].
  { destruct (first_init p); [by injection E0 as <-|auto]. }
  repeat (case_decide; [done|]). destruct (pool_pop bytes p0) as [[]|] eqn:E; simpl; [|done].
  intros [= _ <-]. by eapply Hpop.
Qed.

Lemma pool_live_slot p a :
  pool_typed p -> a ∈ pool_live p ->
  exists idxs i, pool_ready p idxs /\ slot_sz p = bytes /\ slot_alignment p = alignment /\
    (i < slot_count p)%nat /\ a = slot_addr p i.
Proof.
  intros [[Hb [Hfr|[idxs Hr]]] Hty] Ha.
  { rewrite (pool_fresh_live p Hfr) in Ha. by apply elem_of_empty in Ha. }
  destruct (Hty (pr_init _ _ Hr)) as [Hsz Hal].
  apply elem_of_pool_live in Ha as (i & Hi & ->). exists idxs, i. split_and!; try done.
  by apply lookup_lt_Some in Hi.
Qed.

Lemma pool_live_place p a :
  pool_typed p -> a ∈ pool_live p ->
  storage p <= a /\ a + bytes <= storage p + capacity_bytes p /\ a mod alignment = 0.
Proof.
  intros Hwf Ha. destruct (pool_live_slot p a Hwf Ha) as (idxs & i & Hr & Hsz & Hal & Hi & ->).
  destruct Hr. unfold slot_addr, slot_start. split_and!; [nia|nia|].
  rewrite Z.add_assoc, <- Hal, Zplus_mod, pr_aligned0, Zmult_mod, pr_mult0, Z.mul_0_r.
  by rewrite Zmod_0_l.
Qed.

Lemma pool_live_apart p a a' :
  pool_typed p -> a ∈ pool_live p -> a' ∈ pool_live p -> a <> a' ->
  a' + bytes <= a \/ a + bytes <= a'.
Proof.
  intros Hwf Ha Ha' Hne. destruct (pool_live_slot p a Hwf Ha) as (_ & i & _ & Hsz & _ & _ & ->).
  destruct (pool_live_slot p a' Hwf Ha') as (_ & j & _ & _ & _ & _ & ->).
  assert (i <> j) by congruence. unfold slot_addr, slot_start. nia.
Qed.

End sized.

(** ** The pool as the book's node allocator *)

Definition node_pool_wf : Pool -> Prop := pool_typed sizeof_node alignof_node.
Definition node_capacity : Pool -> nat := pool_capacity sizeof_node alignof_node.

#[export] Program Instance pool_node_allocator_laws : NodeAllocatorLaws Pool := {
  na_wf := node_pool_wf;
  na_live := pool_live;
  na_capacity := node_capacity
}.
Next Obligation.
  intros ok p Hwf. unfold na_allocate; simpl. unfold adaptor_allocate.
  rewrite !decide_False by (vm_compute; discriminate).
  change (1 * sizeof_node) with sizeof_node.
  destruct (pool_allocate_cases sizeof_node alignof_node eq_refl eq_refl eq_refl ok p Hwf)
    as [(a & p' & -> & ?)|[-> Hfull]]; simpl.
  - left. exists a, p'. naive_solver.
  - right. naive_solver.
Qed.
Next Obligation.
  intros p Hwf Hroom. unfold na_allocate; simpl. unfold adaptor_allocate.
  rewrite !decide_False by (vm_compute; discriminate).
  change (1 * sizeof_node) with sizeof_node. unfold node_capacity in Hroom.
  destruct (pool_allocate_cases sizeof_node alignof_node eq_refl eq_refl eq_refl true p Hwf)
    as [(a & p' & -> & ?)|[_ [?|[? _]]]]; simpl; [done|lia|done].
Qed.
Next Obligation.
  intros a p Hwf Ha. unfold na_deallocate; simpl. unfold adaptor_deallocate.
  rewrite decide_False by lia. change (1 * sizeof_node) with sizeof_node.
  by apply (pool_deallocate_live sizeof_node alignof_node).
Qed.
