(* ===== verification/Bytes.v ===== *)
(** * Integers as bytes

    The [put]/[get] pairs of [src/trading/messages.cpp] and
    [src/net/protocol.cpp] and the [integer] reader of [src/feed/bytes.hpp],
    as loops over byte lists, against the positional value of the bytes. *)
From S2P Require Import Prelude.

(** [put(bytes, at, value, count)]: most significant byte first, written from
    the last one. *)
Fixpoint put (bytes : list Z) (at_ : nat) (value : Z) (count : nat) : list Z :=
  match count with
  | O => bytes
  | S i => put (<[(at_ + i)%nat := Z.land value 255]> bytes) at_ (Z.shiftr value 8) i
  end.

(** The accumulation [(value << 8U) | byte] on a 64-bit value. *)
Definition shift_in (value byte : Z) : Z := Z.lor (u64 (Z.shiftl value 8)) byte.

(** [get(bytes, at, count)] *)
Definition get (bytes : list Z) (at_ count : nat) : Z :=
  fold_left shift_in (take count (drop at_ bytes)) 0.

(** ** What they compute *)

Definition be_num (l : list Z) : Z := fold_left (fun v x => v * 256 + x) l 0.

Fixpoint be_bytes (n : nat) (v : Z) : list Z :=
  match n with O => [] | S n => be_bytes n (v / 256) ++ [v mod 256] end.

Lemma length_be_bytes n v : length (be_bytes n v) = n.
Proof. revert v. induction n as [|n IH]; intros v; simpl; [done|]. rewrite length_app, IH. simpl. lia. Qed.

Lemma be_bytes_ok n v : Forall is_u8 (be_bytes n v).
Proof.
  revert v. induction n as [|n IH]; intros v; simpl; [constructor|].
  apply Forall_app. split; [apply IH|]. repeat constructor; apply Z.mod_pos_bound; lia.
Qed.

Lemma be_num_snoc l x : be_num (l ++ [x]) = be_num l * 256 + x.
Proof. unfold be_num. by rewrite fold_left_app. Qed.

Lemma be_num_bytes n v : be_num (be_bytes n v) = v mod 256 ^ Z.of_nat n.
Proof.
  revert v. induction n as [|n IH]; intros v; [by rewrite Z.mod_1_r|].
  cbn [be_bytes]. rewrite be_num_snoc, IH, Nat2Z.inj_succ, Z.pow_succ_r by lia.
  assert (0 < 256 ^ Z.of_nat n) by (apply Z.pow_pos_nonneg; lia).
  rewrite Z.rem_mul_r by lia. lia.
Qed.

Lemma be_num_range l : Forall is_u8 l -> 0 <= be_num l < 256 ^ Z.of_nat (length l).
Proof.
  intros Hl. induction l as [|x l IH] using rev_ind; [by vm_compute|].
  apply Forall_app in Hl as [Hl Hx]. rewrite Forall_singleton in Hx. specialize (IH Hl).
  rewrite be_num_snoc, length_app, Nat.add_comm. simpl length. cbn [Nat.add].
  rewrite Nat2Z.inj_succ, Z.pow_succ_r by lia.
  unfold is_u8 in Hx. lia.
Qed.

Lemma be_bytes_num l : Forall is_u8 l -> be_bytes (length l) (be_num l) = l.
Proof.
  intros Hl. induction l as [|x l IH] using rev_ind; [done|].
  apply Forall_app in Hl as [Hl Hx]. rewrite Forall_singleton in Hx. unfold is_u8 in Hx.
  rewrite be_num_snoc, length_app, Nat.add_comm. simpl length. cbn [Nat.add be_bytes].
  rewrite Z.div_add_l, Z.div_small, Z.add_0_r by lia. rewrite IH by done.
  rewrite Z.add_comm, Z.mod_add, Z.mod_small by lia. done.
Qed.

(** ** The loops compute it *)

Lemma land_255 v : Z.land v 255 = v mod 256.
Proof. change 255 with (Z.ones 8). by rewrite Z.land_ones by lia. Qed.

Lemma shiftr_8 v : Z.shiftr v 8 = v / 256.
Proof. by rewrite Z.shiftr_div_pow2 by lia. Qed.

Lemma length_put bytes at_ v n : length (put bytes at_ v n) = length bytes.
Proof. revert bytes v. induction n as [|n IH]; intros; simpl; [done|]. by rewrite IH, length_insert. Qed.

(** [put] overwrites the [count] bytes at [at_] and nothing else. *)
Lemma put_spec bytes at_ v n :
  (at_ + n <= length bytes)%nat ->
  put bytes at_ v n = take at_ bytes ++ be_bytes n v ++ drop (at_ + n) bytes.
Proof.
  revert bytes v. induction n as [|n IH]; intros bytes v Hlen; simpl.
  - by rewrite Nat.add_0_r, take_drop.
  - rewrite IH by (rewrite length_insert; lia).
    rewrite take_insert_ge, shiftr_8, <- !app_assoc by lia. do 2 f_equal.
    rewrite (drop_S (<[_:=_]> bytes) (Z.land v 255)) by (apply list_lookup_insert_eq; lia).
    rewrite drop_insert_lt, land_255, Nat.add_succ_r by lia. done.
Qed.

Lemma shift_in_num v x : 0 <= v < 2 ^ 56 -> is_u8 x -> shift_in v x = v * 256 + x.
Proof.
  intros Hv Hx. unfold is_u8 in Hx. unfold shift_in.
  rewrite Z.shiftl_mul_pow2, u64_small by (unfold is_u64; lia).
  assert (Z.land (v * 2 ^ 8) x = 0) as Hl.
  { apply Z.bits_inj'. intros n Hn. rewrite Z.land_spec, Z.bits_0.
    destruct (Z.ltb_spec n 8).
    - by rewrite Z.mul_pow2_bits_low.
    - rewrite (Z.bits_above_log2 x n), andb_false_r; [done|lia|].
      destruct (decide (x = 0)) as [->|]; [simpl; lia|]. apply Z.log2_lt_pow2; [lia|].
      apply Z.lt_le_trans with (2 ^ 8); [lia|]. apply Z.pow_le_mono_r; lia. }
  rewrite <- Z.lxor_lor, <- Z.add_nocarry_lxor by done. lia.
Qed.

(** Up to eight bytes never overflow the accumulator. *)
Lemma fold_shift_in l : (length l <= 8)%nat -> Forall is_u8 l -> fold_left shift_in l 0 = be_num l.
Proof.
  induction l as [|x l IH] using rev_ind; intros Hlen Hl; [done|].
  apply Forall_app in Hl as [Hl Hx]. rewrite Forall_singleton in Hx.
  rewrite length_app in Hlen. simpl in Hlen.
  rewrite fold_left_app. simpl. rewrite IH by (done || lia). rewrite be_num_snoc.
  pose proof (be_num_range l Hl) as Hr.
  apply shift_in_num; [|done]. split; [lia|].
  apply Z.lt_le_trans with (256 ^ Z.of_nat (length l)); [lia|].
  change (2 ^ 56) with (256 ^ 7). apply Z.pow_le_mono_r; lia.
Qed.

Lemma get_spec bytes at_ n :
  (n <= 8)%nat -> Forall is_u8 bytes -> get bytes at_ n = be_num (take n (drop at_ bytes)).
Proof.
  intros Hn Hb. apply fold_shift_in; [rewrite length_take; lia|]. by apply Forall_take, Forall_drop.
Qed.

Lemma get_range bytes at_ n :
  (n <= 8)%nat -> Forall is_u8 bytes -> 0 <= get bytes at_ n < 256 ^ Z.of_nat n.
Proof.
  intros Hn Hb. rewrite get_spec by done.
  pose proof (be_num_range (take n (drop at_ bytes)) ltac:(by apply Forall_take, Forall_drop)) as Hr.
  split; [lia|]. eapply Z.lt_le_trans; [apply Hr|].
  apply Z.pow_le_mono_r; [lia|]. rewrite length_take. lia.
Qed.

(** Reading a field of a concatenation of fields. *)
Lemma get_field pre field post :
  (length field <= 8)%nat -> Forall is_u8 field ->
  get (pre ++ field ++ post) (length pre) (length field) = be_num field.
Proof.
  intros Hn Hf. unfold get. rewrite drop_app_length, take_app_length. by apply fold_shift_in.
Qed.

Lemma be_num_small n v : 0 <= v < 256 ^ Z.of_nat n -> be_num (be_bytes n v) = v.
Proof. intros Hv. rewrite be_num_bytes. by apply Z.mod_small. Qed.

(** ** [integer] of src/feed/bytes.hpp, either byte order *)
Definition integer (b : list Z) (pos size : nat) (little : bool) : outcome Z :=
  if decide ((size <= 8)%nat /\ (pos <= length b)%nat /\ (size <= length b - pos)%nat) then
    let field := take size (drop pos b) in
    Ret (fold_left shift_in (if little then reverse field else field) 0)
  else Throw (FeedError "Truncated integer").
