(* ===== verification/Fnv.v ===== *)
(** * FNV-1a

    The hash round both checksums use, at any width: it loses nothing, because
    an odd prime has an inverse, so one changed byte always shows. *)
From S2P Require Import Prelude.

Section fnv.
Context (w prime inverse : Z) (Hw : 0 < w) (Hinv : (prime * inverse) mod 2 ^ w = 1 mod 2 ^ w).

Definition in_word (x : Z) : Prop := 0 <= x < 2 ^ w.
Definition fnv (hash b : Z) : Z := (Z.lxor hash b * prime) mod 2 ^ w.

Lemma word_pos : 0 < 2 ^ w.
Proof. apply Z.pow_pos_nonneg; lia. Qed.

Lemma fnv_range h b : in_word (fnv h b).
Proof. apply Z.mod_pos_bound, word_pos. Qed.

Lemma lxor_in_word h b : in_word h -> in_word b -> in_word (Z.lxor h b).
Proof.
  intros Hh Hb. unfold in_word in *. assert (0 <= Z.lxor h b) as H0 by (apply Z.lxor_nonneg; lia).
  split; [done|]. destruct (decide (Z.lxor h b = 0)) as [->|Hne]; [lia|].
  apply Z.log2_lt_pow2; [lia|]. pose proof (Z.log2_lxor h b ltac:(lia) ltac:(lia)) as Hl.
  assert (forall x, 0 <= x < 2 ^ w -> Z.log2 x < w) as Hlog.
  { intros x Hx. destruct (decide (x = 0)) as [->|]; [simpl; lia|]. apply Z.log2_lt_pow2; lia. }
  pose proof (Hlog h Hh). pose proof (Hlog b Hb). lia.
Qed.

Lemma fnv_inj h b h' b' :
  in_word h -> in_word b -> in_word h' -> in_word b' -> fnv h b = fnv h' b' -> Z.lxor h b = Z.lxor h' b'.
Proof.
  intros Hh Hb Hh' Hb' E. pose proof word_pos as Hp. unfold fnv in E.
  assert (forall x, in_word x -> ((x * prime) mod 2 ^ w * inverse) mod 2 ^ w = x) as Hback.
  { intros x Hx. rewrite Z.mul_mod_idemp_l, <- Z.mul_assoc by lia.
    rewrite <- Z.mul_mod_idemp_r, Hinv, Z.mul_mod_idemp_r, Z.mul_1_r by lia. by apply Z.mod_small. }
  rewrite <- (Hback (Z.lxor h b)), <- (Hback (Z.lxor h' b')) by (by apply lxor_in_word). by rewrite E.
Qed.

Lemma foldl_fnv_word l h : in_word h -> in_word (foldl fnv h l).
Proof. intros Hh. destruct l as [|b l] using rev_ind; [done|]. rewrite foldl_app. apply fnv_range. Qed.

Lemma lxor_cancel_l a b c : Z.lxor a b = Z.lxor a c -> b = c.
Proof.
  intros E. assert (Z.lxor a (Z.lxor a b) = Z.lxor a (Z.lxor a c)) as E2 by by rewrite E.
  by rewrite <- !Z.lxor_assoc, Z.lxor_nilpotent, !Z.lxor_0_l in E2.
Qed.

Lemma foldl_fnv_inj l : forall h h',
  Forall in_word l -> in_word h -> in_word h' -> foldl fnv h l = foldl fnv h' l -> h = h'.
Proof.
  induction l as [|b l IH]; intros h h' Hl Hh Hh' E; [done|].
  apply Forall_cons in Hl as [Hb Hl]. simpl in E. apply IH in E; [|done|apply fnv_range..].
  apply fnv_inj in E; try done. rewrite (Z.lxor_comm h), (Z.lxor_comm h') in E. by apply lxor_cancel_l in E.
Qed.

(** Changing one element always changes the hash. *)
Lemma fnv_detects h pre x y post :
  in_word h -> Forall in_word pre -> in_word x -> in_word y -> Forall in_word post ->
  foldl fnv h (pre ++ x :: post) = foldl fnv h (pre ++ y :: post) -> x = y.
Proof.
  intros Hh Hpre Hx Hy Hpost. rewrite !foldl_app. simpl. intros E.
  pose proof (foldl_fnv_word pre h Hh) as Hm.
  apply foldl_fnv_inj in E; [|done|apply fnv_range..].
  apply fnv_inj in E; [|done..]. by apply lxor_cancel_l in E.
Qed.
End fnv.
