(* ===== verification/Decimal.v ===== *)
(** * Decimal numbers as text

    [std::to_string] and stream output of unsigned integers, and
    [std::from_chars] over a whole field, as [src/io/event_io.cpp] and
    [src/trading/engine.cpp] use them. *)
From Stdlib Require Import Ascii.
From S2P Require Import Prelude.

(** A character constant of the source as its code. *)
Definition code (c : ascii) : Z := Z.of_N (N_of_ascii c).
Definition char_of (b : Z) : ascii := ascii_of_N (Z.to_N b).

(** ** Writing *)

Definition digit (d : Z) : ascii := char_of (48 + d).

(** The digits of [n] put before [acc]; a 64-bit number has at most twenty. *)
Fixpoint digits (fuel : nat) (n : Z) (acc : string) : string :=
  match fuel with
  | O => acc
  | S fuel => if decide (n < 10) then String (digit n) acc
              else digits fuel (n / 10) (String (digit (n mod 10)) acc)
  end.

Definition max_digits : nat := 20.

(** [std::to_string(n)] and [output << n] *)
Definition to_decimal (n : Z) : string := digits max_digits n "".

(** ** Reading *)

Definition digit_value (c : ascii) : option Z :=
  if decide (48 <= code c <= 57) then Some (code c - 48) else None.

Fixpoint parse_digits (s : string) (acc : Z) : option Z :=
  match s with
  | EmptyString => Some acc
  | String c s => d ← digit_value c; parse_digits s (acc * 10 + d)
  end.

(** [from_chars] that must succeed and end at the end of the text: at least one
    digit, nothing else, and a value the type holds. *)
Definition parse_integer (max : Z) (s : string) : option Z :=
  if decide (s = "") then None
  else v ← parse_digits s 0; if decide (v <= max) then Some v else None.

Definition max_u32 : Z := 2 ^ 32 - 1.
Definition max_u64 : Z := 2 ^ 64 - 1.

(** ** They agree *)

Lemma code_char_of b : 0 <= b < 256 -> code (char_of b) = b.
Proof. intros H. unfold code, char_of. rewrite N_ascii_embedding by lia. lia. Qed.

Lemma code_range c : 0 <= code c < 256.
Proof. unfold code. pose proof (N_ascii_bounded c). lia. Qed.

Lemma code_inj c d : code c = code d -> c = d.
Proof.
  unfold code. intros H. rewrite <- (ascii_N_embedding c), <- (ascii_N_embedding d). f_equal. lia.
Qed.

Lemma digit_value_digit d : 0 <= d < 10 -> digit_value (digit d) = Some d.
Proof.
  intros H. unfold digit_value, digit. rewrite code_char_of by lia. rewrite decide_True by lia. f_equal. lia.
Qed.

Lemma digit_value_range c d : digit_value c = Some d -> 0 <= d < 10.
Proof. unfold digit_value. case_decide; [|done]. intros [= <-]. lia. Qed.

Lemma parse_digits_ge s : forall acc v, 0 <= acc -> parse_digits s acc = Some v -> acc <= v.
Proof.
  induction s as [|c s IH]; intros acc v Hacc; [by intros [= ->]|].
  cbn [parse_digits]. destruct (digit_value c) as [d|] eqn:E; [|done]. apply digit_value_range in E.
  simpl. intros H. apply IH in H; lia.
Qed.

Lemma digits_parse fuel : forall n acc,
  0 <= n < 10 ^ Z.of_nat fuel -> parse_digits (digits fuel n acc) 0 = parse_digits acc n.
Proof.
  induction fuel as [|fuel IH]; intros n acc Hn; [simpl in *; by replace n with 0 by lia|].
  rewrite Nat2Z.inj_succ, Z.pow_succ_r in Hn by lia. cbn [digits]. case_decide.
  - cbn [parse_digits]. rewrite digit_value_digit by lia. simpl. done.
  - rewrite IH by (split; [apply Z.div_pos|apply Z.div_lt_upper_bound]; lia).
    cbn [parse_digits]. rewrite digit_value_digit by (apply Z.mod_pos_bound; lia). simpl. f_equal.
    rewrite (Z.div_mod n 10) at 3 by lia. lia.
Qed.

Lemma digits_nonempty fuel n : forall acc, acc <> ""%string \/ fuel <> 0%nat -> digits fuel n acc <> ""%string.
Proof.
  revert n. induction fuel as [|fuel IH]; intros n acc; cbn [digits]; [by intros [?|?]|].
  intros _. case_decide; [done|]. apply IH. by left.
Qed.

Lemma parse_to_decimal n max : is_u64 n -> n <= max -> parse_integer max (to_decimal n) = Some n.
Proof.
  intros Hn Hm. unfold parse_integer, to_decimal. rewrite decide_False by (apply digits_nonempty; by right).
  rewrite digits_parse by (unfold is_u64, max_digits in *; lia). simpl. by rewrite decide_True.
Qed.

Lemma parse_integer_range s max v : parse_integer max s = Some v -> 0 <= v <= max.
Proof.
  unfold parse_integer. case_decide; [done|]. destruct (parse_digits s 0) as [w|] eqn:E; [|done].
  simpl. case_decide; [|done]. intros [= <-]. apply parse_digits_ge in E; lia.
Qed.

(** ** The characters of a number *)

Fixpoint all_chars (P : ascii -> Prop) (s : string) : Prop :=
  match s with EmptyString => True | String c s => P c /\ all_chars P s end.

Definition is_digit (c : ascii) : Prop := 48 <= code c <= 57.

Lemma all_chars_app P s t : all_chars P (s ++ t) <-> all_chars P s /\ all_chars P t.
Proof. induction s as [|c s IH]; simpl; [tauto|]. change (String.app s t) with (s ++ t)%string. rewrite IH. tauto. Qed.

Lemma all_chars_impl (P Q : ascii -> Prop) s : (forall c, P c -> Q c) -> all_chars P s -> all_chars Q s.
Proof. intros H. induction s; simpl; naive_solver. Qed.

Lemma digits_chars fuel : forall n acc, 0 <= n -> all_chars is_digit acc -> all_chars is_digit (digits fuel n acc).
Proof.
  induction fuel as [|fuel IH]; intros n acc Hn Hacc; cbn [digits]; [done|].
  case_decide; [|apply IH; [by apply Z.div_pos|]]; (split; [|done]); unfold is_digit, digit;
    pose proof (Z.mod_pos_bound n 10); rewrite code_char_of; lia.
Qed.

Lemma to_decimal_chars n : 0 <= n -> all_chars is_digit (to_decimal n).
Proof. intros. by apply digits_chars. Qed.
