(* ===== verification/Keys.v ===== *)
(** * The orders of composite keys

    [std::tuple] and a defaulted [operator<=>] compare member by member, and
    [std::string] byte by byte as unsigned characters.  A three-way comparison
    that is [comparing] gives the total order [StdMap.ordered] sorts by. *)
From Stdlib Require Import Ascii.
From S2P Require Import Prelude StdMap Decimal.

Record comparing {A} (cmp : A -> A -> comparison) : Prop := {
  comparing_eq a b : cmp a b = Eq <-> a = b;
  comparing_flip a b : cmp b a = CompOpp (cmp a b);
  comparing_trans a b c : cmp a b = Lt -> cmp b c = Lt -> cmp a c = Lt
}.

Definition at_most {A} (cmp : A -> A -> comparison) : relation A := fun a b => cmp a b <> Gt.

Section at_most.
Context {A : Type} (cmp : A -> A -> comparison) (Hcmp : comparing cmp).

Lemma at_most_cases a b : at_most cmp a b <-> cmp a b = Lt \/ a = b.
Proof.
  unfold at_most. rewrite <- (comparing_eq cmp Hcmp a b). destruct (cmp a b); naive_solver.
Qed.

Lemma at_most_dec : RelDecision (at_most cmp).
Proof. intros a b. unfold at_most. destruct (cmp a b); [left|left|right]; naive_solver. Defined.

Lemma at_most_transitive : Transitive (at_most cmp).
Proof.
  intros a b c. rewrite !at_most_cases. intros [H1| ->] [H2| ->]; auto.
  left. by apply (comparing_trans cmp Hcmp a b c).
Qed.

Lemma at_most_total : Total (at_most cmp).
Proof.
  intros a b. unfold at_most. rewrite (comparing_flip cmp Hcmp a b).
  destruct (cmp a b); [left|left|right]; done.
Qed.

Lemma at_most_antisymm : AntiSymm (=) (at_most cmp).
Proof.
  intros a b. unfold at_most. rewrite (comparing_flip cmp Hcmp a b). intros H1 H2.
  apply (comparing_eq cmp Hcmp). by destruct (cmp a b).
Qed.
End at_most.

(** ** Integers, pairs and strings *)

Lemma Z_comparing : comparing Z.compare.
Proof.
  split; intros; [apply Z.compare_eq_iff|apply Z.compare_antisym|].
  rewrite !Z.compare_lt_iff in *. lia.
Qed.

Definition lex (first second : comparison) : comparison := match first with Eq => second | c => c end.

Lemma lex_Lt c d : lex c d = Lt <-> c = Lt \/ (c = Eq /\ d = Lt).
Proof. destruct c; simpl; naive_solver. Qed.
Lemma lex_Eq c d : lex c d = Eq <-> c = Eq /\ d = Eq.
Proof. destruct c; simpl; naive_solver. Qed.
Lemma lex_CompOpp c d : CompOpp (lex c d) = lex (CompOpp c) (CompOpp d).
Proof. by destruct c. Qed.

(** A key is compared by its first part, then by the rest. *)
Lemma lex_comparing {K A C} (first : K -> A) (rest : K -> C) cmpA cmpC :
  comparing cmpA -> comparing cmpC -> (forall k k', first k = first k' -> rest k = rest k' -> k = k') ->
  comparing (fun k k' => lex (cmpA (first k) (first k')) (cmpC (rest k) (rest k'))).
Proof.
  intros HA HC Hext. split.
  - intros k k'. rewrite lex_Eq, (comparing_eq _ HA), (comparing_eq _ HC). split; [|by intros ->]. intros []; auto.
  - intros k k'. rewrite (comparing_flip _ HA (first k)), (comparing_flip _ HC (rest k)). by rewrite lex_CompOpp.
  - intros a b c. rewrite !lex_Lt, !(comparing_eq _ HA).
    intros [H1|[-> H1]] [H2|[<- H2]]; eauto using comparing_trans.
Qed.

Fixpoint string_compare (s t : string) : comparison :=
  match s, t with
  | EmptyString, EmptyString => Eq
  | EmptyString, _ => Lt
  | _, EmptyString => Gt
  | String c s, String d t => lex (code c ?= code d) (string_compare s t)
  end.

Lemma string_comparing : comparing string_compare.
Proof.
  split.
  - induction a as [|c s IH]; intros [|d t]; simpl; [done..|].
    rewrite lex_Eq, Z.compare_eq_iff, IH. split; [intros [->%code_inj ->]; done|by intros [= -> ->]].
  - induction a as [|c s IH]; intros [|d t]; simpl; [done..|].
    by rewrite IH, (comparing_flip _ Z_comparing (code c)), lex_CompOpp.
  - induction a as [|c s IH]; intros [|d t] [|e u]; simpl; try done.
    rewrite !lex_Lt, !Z.compare_lt_iff, !Z.compare_eq_iff.
    intros [H1|[H1 H1']] [H2|[H2 H2']]; [left; lia..|right]. split; [lia|eauto].
Qed.
