(* ===== verification/Text.v ===== *)
(** * Lines and fields of text

    Splitting at a separator as [std::string_view::find] loops and
    [std::getline] do it. *)
From Stdlib Require Import Ascii.
From S2P Require Import Prelude Decimal.

#[local] Open Scope string_scope.
#[local] Open Scope Z_scope.

Definition newline : ascii := char_of 10.
Definition carriage_return : ascii := char_of 13.
Definition comma : ascii := ","%char.

(** The pieces between separators, the empty ones included. *)
Fixpoint split_on (sep : ascii) (s : string) : list string :=
  match s with
  | EmptyString => [EmptyString]
  | String c s =>
    if decide (c = sep) then EmptyString :: split_on sep s
    else match split_on sep s with
         | [] => [String c EmptyString]
         | f :: fs => String c f :: fs
         end
  end.

(** [while (std::getline(stream, piece, sep))]: nothing is read after a
    separator that ends the text. *)
Fixpoint getline_on (sep : ascii) (s : string) : list string :=
  match s with
  | EmptyString => []
  | String c s =>
    if decide (c = sep) then EmptyString :: getline_on sep s
    else match getline_on sep s with
         | [] => [String c EmptyString]
         | f :: fs => String c f :: fs
         end
  end.

(** Dropping characters from the end while [p] holds of them. *)
Fixpoint strip_end (p : ascii -> bool) (s : string) : string :=
  match s with
  | EmptyString => EmptyString
  | String c s =>
    match strip_end p s with
    | EmptyString => if p c then EmptyString else String c EmptyString
    | t => String c t
    end
  end.

(** [starts_with(char)] *)
Definition starts_with (c : ascii) (s : string) : bool :=
  match s with String d _ => bool_decide (d = c) | EmptyString => false end.

(** The last character, as [back()] and [pop_back()] see it. *)
Fixpoint pop_return (s : string) : string :=
  match s with
  | EmptyString => EmptyString
  | String c EmptyString => if decide (c = carriage_return) then EmptyString else s
  | String c s => String c (pop_return s)
  end.

Definition without (sep : ascii) : string -> Prop := all_chars (fun c => c <> sep).

Lemma app_String c s t : (String c s ++ t)%string = String c (s ++ t)%string.
Proof. done. Qed.

Lemma split_on_app sep s t : without sep s -> split_on sep (s ++ String sep t)%string = s :: split_on sep t.
Proof.
  induction s as [|c s IH]; intros Hs; simpl.
  - by rewrite decide_True.
  - destruct Hs as [Hc Hs]. rewrite decide_False by done. by rewrite (IH Hs).
Qed.

Lemma split_on_last sep s : without sep s -> split_on sep s = [s].
Proof.
  induction s as [|c s IH]; intros Hs; [done|]. destruct Hs as [Hc Hs]. simpl.
  rewrite decide_False by done. by rewrite (IH Hs).
Qed.

Lemma getline_on_app sep s t : without sep s -> getline_on sep (s ++ String sep t)%string = s :: getline_on sep t.
Proof.
  induction s as [|c s IH]; intros Hs; simpl.
  - by rewrite decide_True.
  - destruct Hs as [Hc Hs]. change (String.app s (String sep t)) with (s ++ String sep t)%string.
    rewrite decide_False by done. by rewrite (IH Hs).
Qed.

Lemma getline_on_last sep s : without sep s -> s <> "" -> getline_on sep s = [s].
Proof.
  induction s as [|c s IH]; intros Hs Hne; [done|]. destruct Hs as [Hc Hs]. simpl. rewrite decide_False by done.
  destruct s as [|d s]; [done|]. by rewrite (IH Hs).
Qed.

Lemma strip_end_none (p : ascii -> bool) s c : p c = false -> strip_end p (s ++ String c "") = (s ++ String c "")%string.
Proof.
  intros Hc. induction s as [|d s IH]; simpl; [by rewrite Hc|].
  change (String.app s (String c "")) with (s ++ String c "")%string. rewrite IH. by destruct s.
Qed.

Lemma strip_end_all (p : ascii -> bool) s : all_chars (fun c => p c = true) s -> strip_end p s = "".
Proof. induction s as [|c s IH]; [done|]. intros [Hc Hs]. simpl. by rewrite (IH Hs), Hc. Qed.

Lemma strip_end_app (p : ascii -> bool) s t : all_chars (fun c => p c = true) t -> strip_end p (s ++ t) = strip_end p s.
Proof.
  intros Ht. induction s as [|c s IH]; simpl; [by apply strip_end_all|].
  change (String.app s t) with (s ++ t)%string. by rewrite IH.
Qed.

Lemma digits_without c s : ~ is_digit c -> all_chars is_digit s -> without c s.
Proof. intros Hc. apply all_chars_impl. by intros d Hd ->. Qed.

(** ** Joined fields *)

Lemma to_decimal_head n : 0 <= n -> exists c s, to_decimal n = String c s /\ is_digit c.
Proof.
  intros Hn. pose proof (to_decimal_chars n Hn) as H. assert (digits max_digits n "" <> "") as Hne by (apply digits_nonempty; by right).
  unfold to_decimal in *. destruct (digits max_digits n "") as [|c s]; [done|]. exists c, s. by destruct H.
Qed.

(** Fields with commas between them. *)
Fixpoint join (fs : list string) : string :=
  match fs with [] => "" | [f] => f | f :: fs => f ++ String comma (join fs) end.

Lemma split_join fs : fs <> [] -> Forall (without comma) fs -> split_on comma (join fs) = fs.
Proof.
  induction fs as [|f fs IH]; [done|]. intros _ [Hf Hfs]%Forall_cons.
  destruct fs as [|g fs]; [by apply split_on_last|]. 
  change (join (f :: g :: fs)) with (f ++ String comma (join (g :: fs))). rewrite split_on_app by done. by rewrite IH.
Qed.

Lemma append_assoc (s t u : string) : (s ++ t) ++ u = s ++ t ++ u.
Proof. induction s as [|c s IH]; [done|]. exact (f_equal (String c) IH). Qed.

Lemma join_chars (P : ascii -> Prop) fs : P comma -> Forall (all_chars P) fs -> all_chars P (join fs).
Proof.
  intros Hc. induction fs as [|f fs IH]; [done|]. intros [Hf Hfs]%Forall_cons. destruct fs as [|g fs]; [done|].
  change (join (f :: g :: fs)) with (f ++ String comma (join (g :: fs))). apply all_chars_app. split; [done|].
  split; [done|]. by apply IH.
Qed.

Lemma strip_end_id (p : ascii -> bool) s : all_chars (fun c => p c = false) s -> strip_end p s = s.
Proof. induction s as [|c s IH]; [done|]. intros [Hc Hs]. simpl. rewrite (IH Hs), Hc. by destruct s. Qed.

Lemma append_empty (s : string) : s ++ "" = s.
Proof. induction s as [|c s IH]; [done|]. exact (f_equal (String c) IH). Qed.

Lemma join_String c s fs : join (String c s :: fs) = String c (match fs with [] => s | _ => s ++ String comma (join fs) end).
Proof. by destruct fs. Qed.

Lemma decimal_nonempty n : 0 <= n -> to_decimal n <> "".
Proof. intros Hn. destruct (to_decimal_head n Hn) as (c & s & -> & _). done. Qed.

Lemma decimal_without c n : ~ is_digit c -> 0 <= n -> without c (to_decimal n).
Proof. intros Hc Hn. by apply digits_without, to_decimal_chars. Qed.

Lemma getline_join fs :
  fs <> [] -> Forall (without comma) fs -> Forall (fun f => f <> "") fs -> getline_on comma (join fs) = fs.
Proof.
  induction fs as [|f fs IH]; [done|]. intros _ [Hf Hfs]%Forall_cons [Hn Hns]%Forall_cons.
  destruct fs as [|g fs]; [by apply getline_on_last|].
  change (join (f :: g :: fs)) with (f ++ String comma (join (g :: fs))). rewrite getline_on_app by done. by rewrite IH.
Qed.

Lemma pop_return_end s : pop_return (s ++ String carriage_return "") = s.
Proof.
  induction s as [|c s IH]; [done|]. change (String c s ++ ?t) with (String c (s ++ t)). cbn [pop_return].
  rewrite IH. by destruct s.
Qed.

Lemma pop_return_none s : without carriage_return s -> pop_return s = s.
Proof.
  induction s as [|c s IH]; [done|]. intros [Hc Hs]. cbn [pop_return]. rewrite (IH Hs).
  destruct s; [by rewrite decide_False|done].
Qed.
