(* ===== verification/Messages.v ===== *)
(** * Trading messages and their wire format

    [include/order_book/trading/messages.hpp] and [src/trading/messages.cpp].
    Each scoped enum is a module with its enumerators and [Other], a byte that
    names none of them (a C++ enum with a fixed underlying type can hold it). *)
From S2P Require Import Prelude Types Bytes.

Module Kind.
Inductive t := Command | Report | Delta | Heartbeat | SnapshotBegin | SnapshotOrder | SnapshotEnd
  | Other (byte : Z).
#[global] Instance eq_dec : EqDecision t.
Proof. solve_decision. Defined.
Definition to_byte (k : t) : Z :=
  match k with Command => 1 | Report => 2 | Delta => 3 | Heartbeat => 4 | SnapshotBegin => 5
  | SnapshotOrder => 6 | SnapshotEnd => 7 | Other b => b end.
Definition of_byte (b : Z) : t :=
  match b with 1 => Command | 2 => Report | 3 => Delta | 4 => Heartbeat | 5 => SnapshotBegin
  | 6 => SnapshotOrder | 7 => SnapshotEnd | _ => Other b end.
End Kind.

Module Action.
Inductive t := New | Cancel | Replace | CancelAll | Snapshot | Status | Other (byte : Z).
#[global] Instance eq_dec : EqDecision t.
Proof. solve_decision. Defined.
Definition to_byte (a : t) : Z :=
  match a with New => 1 | Cancel => 2 | Replace => 3 | CancelAll => 4 | Snapshot => 5 | Status => 6
  | Other b => b end.
Definition of_byte (b : Z) : t :=
  match b with 1 => New | 2 => Cancel | 3 => Replace | 4 => CancelAll | 5 => Snapshot | 6 => Status
  | _ => Other b end.
End Action.

Module OrderType.
Inductive t := Limit | Market | Other (byte : Z).
#[global] Instance eq_dec : EqDecision t.
Proof. solve_decision. Defined.
Definition to_byte (o : t) : Z := match o with Limit => 1 | Market => 2 | Other b => b end.
Definition of_byte (b : Z) : t := match b with 1 => Limit | 2 => Market | _ => Other b end.
End OrderType.

Module TimeInForce.
Inductive t := GTC | IOC | FOK | Other (byte : Z).
#[global] Instance eq_dec : EqDecision t.
Proof. solve_decision. Defined.
Definition to_byte (f : t) : Z := match f with GTC => 1 | IOC => 2 | FOK => 3 | Other b => b end.
Definition of_byte (b : Z) : t := match b with 1 => GTC | 2 => IOC | 3 => FOK | _ => Other b end.
End TimeInForce.

Module ReportType.
Inductive t := Accepted | Rejected | Fill | Cancelled | Replaced | Complete | Status | Other (byte : Z).
#[global] Instance eq_dec : EqDecision t.
Proof. solve_decision. Defined.
Definition to_byte (r : t) : Z :=
  match r with Accepted => 1 | Rejected => 2 | Fill => 3 | Cancelled => 4 | Replaced => 5
  | Complete => 6 | Status => 7 | Other b => b end.
Definition of_byte (b : Z) : t :=
  match b with 1 => Accepted | 2 => Rejected | 3 => Fill | 4 => Cancelled | 5 => Replaced
  | 6 => Complete | 7 => Status | _ => Other b end.
End ReportType.

Module UpdateType.
Inductive t := Add | Cancel | Execute | Reduce | Trade | Other (byte : Z).
#[global] Instance eq_dec : EqDecision t.
Proof. solve_decision. Defined.
Definition to_byte (u : t) : Z :=
  match u with Add => 1 | Cancel => 2 | Execute => 3 | Reduce => 4 | Trade => 5 | Other b => b end.
Definition of_byte (b : Z) : t :=
  match b with 1 => Add | 2 => Cancel | 3 => Execute | 4 => Reduce | 5 => Trade | _ => Other b end.
End UpdateType.

Module Reject.
Inductive t := None | InvalidCommand | UnknownInstrument | InvalidPrice | InvalidQuantity
  | DuplicateOrder | UnknownOrder | Sequence | PostOnly | Fok | SelfTrade | RiskQuantity
  | RiskNotional | RiskPosition | RiskOpenOrders | Capacity | SessionBusy | KillSwitch
  | Other (byte : Z).
#[global] Instance eq_dec : EqDecision t.
Proof. solve_decision. Defined.
Definition to_byte (r : t) : Z :=
  match r with
  | None => 0 | InvalidCommand => 1 | UnknownInstrument => 2 | InvalidPrice => 3
  | InvalidQuantity => 4 | DuplicateOrder => 5 | UnknownOrder => 6 | Sequence => 7 | PostOnly => 8
  | Fok => 9 | SelfTrade => 10 | RiskQuantity => 11 | RiskNotional => 12 | RiskPosition => 13
  | RiskOpenOrders => 14 | Capacity => 15 | SessionBusy => 16 | KillSwitch => 17 | Other b => b
  end.
Definition of_byte (b : Z) : t :=
  match b with
  | 0 => None | 1 => InvalidCommand | 2 => UnknownInstrument | 3 => InvalidPrice
  | 4 => InvalidQuantity | 5 => DuplicateOrder | 6 => UnknownOrder | 7 => Sequence | 8 => PostOnly
  | 9 => Fok | 10 => SelfTrade | 11 => RiskQuantity | 12 => RiskNotional | 13 => RiskPosition
  | 14 => RiskOpenOrders | 15 => Capacity | 16 => SessionBusy | 17 => KillSwitch | _ => Other b
  end.

(** [std::string_view to_string(Reject)]: the byte indexes the name table. *)
Definition names : list string :=
  ["none"; "invalid_command"; "unknown_instrument"; "invalid_price"; "invalid_quantity";
   "duplicate_order"; "unknown_order"; "sequence"; "post_only"; "fok"; "self_trade";
   "risk_quantity"; "risk_notional"; "risk_position"; "risk_open_orders"; "capacity";
   "session_busy"; "kill_switch"].
Definition to_string (r : t) : string :=
  default "unknown" (names !! Z.to_nat (to_byte r)).
End Reject.

(** [std::string_view to_string(ReportType)] *)
Definition report_names : list string :=
  ["unknown"; "accepted"; "rejected"; "fill"; "cancelled"; "replaced"; "complete"; "status"].
Definition report_to_string (r : ReportType.t) : string :=
  default "unknown" (report_names !! Z.to_nat (ReportType.to_byte r)).

Abbreviation ClientId := Z (only parsing).

(** [struct Message] *)
Record Message := mkMessage {
  m_kind : Kind.t;
  m_action : Action.t;
  m_side : Side;
  m_order_type : OrderType.t;
  m_tif : TimeInForce.t;
  m_report : ReportType.t;
  m_reject : Reject.t;
  m_update : UpdateType.t;
  m_post_only : bool;
  m_epoch : Z;
  m_sequence : Sequence;
  m_client_id : ClientId;
  m_price : Price;
  m_request_id : Z;
  m_order_id : OrderId;
  m_exchange_id : OrderId;
  m_instrument_id : InstrumentId;
  m_quantity : Quantity;
  m_remaining : Quantity;
  m_trade_id : Z
}.

#[export] Instance Message_eq_dec : EqDecision Message.
Proof. solve_decision. Defined.

(** [Message m;]: the default member initialisers. *)
Definition message_default : Message :=
  mkMessage Kind.Command Action.New Bid OrderType.Limit TimeInForce.GTC ReportType.Accepted
    Reject.None UpdateType.Add false 0 0 0 0 0 0 0 0 0 0 0.

(** ** The 96-byte frame *)
Definition frame_size : nat := 96.
Definition magic : Z := 0x4c545231.

Definition nth_byte (b : list Z) (i : nat) : Z := default 0 (b !! i).

(** [std::optional<Message> decode(const Frame&)] *)
Definition decode_ok (b : list Z) : bool :=
  let B := nth_byte b in
  negb (negb (get b 0 4 =? magic) || negb (B 4%nat =? 1) ||
    (B 5%nat <? 1) || (7 <? B 5%nat) || (B 6%nat <? 1) || (6 <? B 6%nat) ||
    (1 <? B 7%nat) || (B 8%nat <? 1) || (2 <? B 8%nat) || (B 9%nat <? 1) || (3 <? B 9%nat) ||
    (B 10%nat <? 1) || (7 <? B 10%nat) || (17 <? B 11%nat) || (1 <? B 12%nat) ||
    (B 13%nat <? 1) || (5 <? B 13%nat) || negb (B 14%nat =? 0) || negb (B 15%nat =? 0) ||
    existsb (fun x => negb (x =? 0)) (drop 88 b)).

Definition decode_fields (b : list Z) : Message :=
  let B := nth_byte b in
  mkMessage (Kind.of_byte (B 5%nat)) (Action.of_byte (B 6%nat))
    (if B 7%nat =? 0 then Bid else Ask) (OrderType.of_byte (B 8%nat))
    (TimeInForce.of_byte (B 9%nat)) (ReportType.of_byte (B 10%nat)) (Reject.of_byte (B 11%nat))
    (UpdateType.of_byte (B 13%nat)) (negb (B 12%nat =? 0))
    (get b 16 8) (get b 24 8) (u32 (get b 32 4)) (u32 (get b 36 4)) (get b 40 8) (get b 48 8)
    (get b 56 8) (get b 64 8) (u32 (get b 72 4)) (u32 (get b 76 4)) (get b 80 8).

Definition decode (b : list Z) : option Message :=
  if decode_ok b then Some (decode_fields b) else None.

(** The writes of [encode], in the order of the source. *)
Definition set_byte (i : nat) (v : Z) (b : list Z) : list Z := <[i := v]> b.

Definition encode_bytes (m : Message) : list Z :=
  let b := replicate frame_size 0 in
  let b := put b 0 magic 4 in
  let b := set_byte 4 1 b in
  let b := set_byte 5 (Kind.to_byte (m_kind m)) b in
  let b := set_byte 6 (Action.to_byte (m_action m)) b in
  let b := set_byte 7 (if decide (m_side m = Bid) then 0 else 1) b in
  let b := set_byte 8 (OrderType.to_byte (m_order_type m)) b in
  let b := set_byte 9 (TimeInForce.to_byte (m_tif m)) b in
  let b := set_byte 10 (ReportType.to_byte (m_report m)) b in
  let b := set_byte 11 (Reject.to_byte (m_reject m)) b in
  let b := set_byte 12 (if m_post_only m then 1 else 0) b in
  let b := set_byte 13 (UpdateType.to_byte (m_update m)) b in
  let b := put b 16 (m_epoch m) 8 in
  let b := put b 24 (m_sequence m) 8 in
  let b := put b 32 (m_client_id m) 4 in
  let b := put b 36 (m_price m) 4 in
  let b := put b 40 (m_request_id m) 8 in
  let b := put b 48 (m_order_id m) 8 in
  let b := put b 56 (m_exchange_id m) 8 in
  let b := put b 64 (m_instrument_id m) 8 in
  let b := put b 72 (m_quantity m) 4 in
  let b := put b 76 (m_remaining m) 4 in
  put b 80 (m_trade_id m) 8.

(** [Frame encode(const Message&)] *)
Definition encode (m : Message) : outcome (list Z) :=
  let b := encode_bytes m in
  if decide (decode b = None \/ (m_side m <> Bid /\ m_side m <> Ask))
  then Throw (InvalidArgument "Invalid trading message enum")
  else Ret b.

(** ** Well-formed messages *)

(** Every field in the range of its C++ type. *)
Record message_typed (m : Message) : Prop := {
  mt_kind : is_u8 (Kind.to_byte (m_kind m)) /\ Kind.of_byte (Kind.to_byte (m_kind m)) = m_kind m;
  mt_action : is_u8 (Action.to_byte (m_action m)) /\ Action.of_byte (Action.to_byte (m_action m)) = m_action m;
  mt_order_type : is_u8 (OrderType.to_byte (m_order_type m)) /\
    OrderType.of_byte (OrderType.to_byte (m_order_type m)) = m_order_type m;
  mt_tif : is_u8 (TimeInForce.to_byte (m_tif m)) /\ TimeInForce.of_byte (TimeInForce.to_byte (m_tif m)) = m_tif m;
  mt_report : is_u8 (ReportType.to_byte (m_report m)) /\
    ReportType.of_byte (ReportType.to_byte (m_report m)) = m_report m;
  mt_reject : is_u8 (Reject.to_byte (m_reject m)) /\ Reject.of_byte (Reject.to_byte (m_reject m)) = m_reject m;
  mt_update : is_u8 (UpdateType.to_byte (m_update m)) /\
    UpdateType.of_byte (UpdateType.to_byte (m_update m)) = m_update m;
  mt_epoch : is_u64 (m_epoch m);
  mt_sequence : is_u64 (m_sequence m);
  mt_client_id : is_u32 (m_client_id m);
  mt_price : is_u32 (m_price m);
  mt_request_id : is_u64 (m_request_id m);
  mt_order_id : is_u64 (m_order_id m);
  mt_exchange_id : is_u64 (m_exchange_id m);
  mt_instrument_id : is_u64 (m_instrument_id m);
  mt_quantity : is_u32 (m_quantity m);
  mt_remaining : is_u32 (m_remaining m);
  mt_trade_id : is_u64 (m_trade_id m)
}.

(** Every enum holds one of its enumerators. *)
Definition message_enums (m : Message) : bool :=
  let within lo hi x := (lo <=? x) && (x <=? hi) in
  within 1 7 (Kind.to_byte (m_kind m)) && within 1 6 (Action.to_byte (m_action m)) &&
  within 1 2 (OrderType.to_byte (m_order_type m)) && within 1 3 (TimeInForce.to_byte (m_tif m)) &&
  within 1 7 (ReportType.to_byte (m_report m)) && within 0 17 (Reject.to_byte (m_reject m)) &&
  within 1 5 (UpdateType.to_byte (m_update m)) && bool_decide (valid_side (m_side m)).

(** ** The frame, field by field *)
Definition frame_of (m : Message) : list Z :=
  be_bytes 4 magic ++
  [1; Kind.to_byte (m_kind m); Action.to_byte (m_action m); (if decide (m_side m = Bid) then 0 else 1);
   OrderType.to_byte (m_order_type m); TimeInForce.to_byte (m_tif m); ReportType.to_byte (m_report m);
   Reject.to_byte (m_reject m); (if m_post_only m then 1 else 0); UpdateType.to_byte (m_update m); 0; 0] ++
  be_bytes 8 (m_epoch m) ++ be_bytes 8 (m_sequence m) ++ be_bytes 4 (m_client_id m) ++
  be_bytes 4 (m_price m) ++ be_bytes 8 (m_request_id m) ++ be_bytes 8 (m_order_id m) ++
  be_bytes 8 (m_exchange_id m) ++ be_bytes 8 (m_instrument_id m) ++ be_bytes 4 (m_quantity m) ++
  be_bytes 4 (m_remaining m) ++ be_bytes 8 (m_trade_id m) ++ replicate 8 0.

Lemma encode_bytes_frame m : encode_bytes m = frame_of m.
Proof.
  unfold encode_bytes, frame_of, set_byte, frame_size. cbv zeta.
  set (k := if decide (m_side m = Bid) then 0 else 1).
  set (p := if m_post_only m then 1 else 0).
  cbn -[Z.land Z.shiftr Z.modulo Z.div magic Kind.to_byte Action.to_byte OrderType.to_byte
        TimeInForce.to_byte ReportType.to_byte Reject.to_byte UpdateType.to_byte].
  rewrite ?shiftr_8, ?land_255. reflexivity.
Qed.

Lemma frame_get m at_ n v :
  take n (drop at_ (frame_of m)) = be_bytes n v -> (n <= 8)%nat -> 0 <= v < 256 ^ Z.of_nat n ->
  get (frame_of m) at_ n = v.
Proof.
  intros E Hn Hv. unfold get. rewrite E, fold_shift_in; [by apply be_num_small| |apply be_bytes_ok].
  by rewrite length_be_bytes.
Qed.

(** What the checks of [decode] see of an encoded message: the enum bytes. *)
Definition enum_bytes_ok (m : Message) : bool :=
  let within lo hi x := (lo <=? x) && (x <=? hi) in
  within 1 7 (Kind.to_byte (m_kind m)) && within 1 6 (Action.to_byte (m_action m)) &&
  within 1 2 (OrderType.to_byte (m_order_type m)) && within 1 3 (TimeInForce.to_byte (m_tif m)) &&
  within 1 7 (ReportType.to_byte (m_report m)) && (Reject.to_byte (m_reject m) <=? 17) &&
  within 1 5 (UpdateType.to_byte (m_update m)).

Lemma decode_ok_frame m : decode_ok (frame_of m) = enum_bytes_ok m.
Proof.
  unfold decode_ok. cbv zeta.
  rewrite (frame_get m 0 4 magic) by (done || lia || (vm_compute; split; congruence)).
  change (nth_byte (frame_of m)) with (fun i => default 0 (frame_of m !! i)). cbv beta.
  change (drop 88 (frame_of m)) with (replicate 8 0).
  cbn [frame_of be_bytes app lookup list_lookup default option_rect from_option id].
  rewrite Z.eqb_refl. unfold enum_bytes_ok. cbv zeta.
  assert (forall x y, (x <? y) = negb (y <=? x)) as Hn by (intros; by rewrite Z.ltb_antisym).
  rewrite !Hn. change (existsb _ (replicate 8 0)) with false.
  assert ((1 <? (if decide (m_side m = Bid) then 0 else 1)) = false) as Hs by (by case_decide).
  assert ((1 <? (if m_post_only m then 1 else 0)) = false) as Hp by (by destruct (m_post_only m)).
  rewrite Hn in Hs, Hp. rewrite Hs, Hp. simpl.
  rewrite ?orb_false_r, ?negb_orb, ?negb_involutive, ?andb_assoc. reflexivity.
Qed.

Lemma decode_fields_frame m :
  message_typed m -> valid_side (m_side m) -> decode_fields (frame_of m) = m.
Proof.
  intros Ht Hs. destruct Ht. unfold decode_fields, is_u64, is_u32 in *.
  rewrite (frame_get m 16 8 (m_epoch m)), (frame_get m 24 8 (m_sequence m)),
    (frame_get m 32 4 (m_client_id m)), (frame_get m 36 4 (m_price m)),
    (frame_get m 40 8 (m_request_id m)), (frame_get m 48 8 (m_order_id m)),
    (frame_get m 56 8 (m_exchange_id m)), (frame_get m 64 8 (m_instrument_id m)),
    (frame_get m 72 4 (m_quantity m)), (frame_get m 76 4 (m_remaining m)),
    (frame_get m 80 8 (m_trade_id m)) by (reflexivity || lia).
  rewrite !u32_small by (unfold is_u32; lia).
  change (nth_byte (frame_of m)) with (fun i => default 0 (frame_of m !! i)). cbv beta zeta.
  cbn [frame_of be_bytes app lookup list_lookup default option_rect from_option id].
  destruct mt_kind0 as [_ ->], mt_action0 as [_ ->], mt_order_type0 as [_ ->], mt_tif0 as [_ ->],
    mt_report0 as [_ ->], mt_reject0 as [_ ->], mt_update0 as [_ ->].
  destruct m as [? ? s ? ? ? ? ? [] ? ? ? ? ? ? ? ? ? ? ?], Hs as [Hs|Hs]; simpl in *; by subst s.
Qed.

Lemma enums_valid m :
  message_typed m -> message_enums m = enum_bytes_ok m && bool_decide (valid_side (m_side m)).
Proof.
  intros Ht. destruct (mt_reject m Ht) as [[Hr _] _]. unfold message_enums, enum_bytes_ok. cbv zeta.
  by rewrite (proj2 (Z.leb_le 0 _) Hr).
Qed.

Lemma encode_cases m :
  message_typed m ->
  encode m = if message_enums m then Ret (frame_of m)
             else Throw (InvalidArgument "Invalid trading message enum").
Proof.
  intros Ht. unfold encode. rewrite encode_bytes_frame. cbv zeta. unfold decode.
  rewrite decode_ok_frame, (enums_valid m Ht).
  destruct (enum_bytes_ok m), (decide (valid_side (m_side m))) as [Hs|Hs];
    rewrite ?(bool_decide_true _ Hs), ?(bool_decide_false _ Hs); cbn [andb];
    unfold valid_side in Hs; case_decide; naive_solver.
Qed.

Lemma decode_encode m b : message_typed m -> encode m = Ret b -> decode b = Some m.
Proof.
  intros Ht. rewrite (encode_cases m Ht). destruct (message_enums m) eqn:E; [|done]. intros [= <-].
  rewrite (enums_valid m Ht) in E. apply andb_prop in E as [E Hs%bool_decide_eq_true].
  unfold decode. by rewrite decode_ok_frame, E, decode_fields_frame.
Qed.

(** ** Every accepted frame is the encoding of the message it decodes to *)

Lemma be_bytes_get b at_ n :
  (n <= 8)%nat -> (at_ + n <= length b)%nat -> Forall is_u8 b ->
  be_bytes n (get b at_ n) = take n (drop at_ b).
Proof.
  intros Hn Hlen Hb. rewrite get_spec by done.
  rewrite <- (be_bytes_num (take n (drop at_ b))) at 2 by (by apply Forall_take, Forall_drop).
  f_equal. rewrite length_take, length_drop. lia.
Qed.

Lemma take_drop_nth b k n :
  (k + n <= length b)%nat -> take n (drop k b) = (fun i => nth_byte b i) <$> seq k n.
Proof.
  intros Hlen. apply list_eq. intros i. rewrite list_lookup_fmap.
  destruct (decide (i < n)%nat).
  - rewrite lookup_take_lt, lookup_drop, lookup_seq_lt by done. simpl. unfold nth_byte.
    destruct (lookup_lt_is_Some_2 b (k + i)) as [x ->]; [lia|done].
  - rewrite lookup_take_ge, lookup_seq_ge by lia. done.
Qed.

Lemma split_at (b : list Z) k n j : j = (k + n)%nat -> drop k b = take n (drop k b) ++ drop j b.
Proof. intros ->. by rewrite <- drop_drop, take_drop. Qed.

Lemma existsb_zero l : existsb (fun x => negb (x =? 0)) l = false -> l = replicate (length l) 0.
Proof.
  induction l as [|x l IH]; simpl; [done|]. intros [Hx Hl]%orb_false_elim.
  apply negb_false_iff, Z.eqb_eq in Hx. subst. by rewrite <- IH.
Qed.

(** Reading a byte as an enum loses nothing. *)
Ltac enum_byte x := destruct x as [|x|x]; try done; do 6 (destruct x as [x|x|]; try done).

Lemma kind_byte x : Kind.to_byte (Kind.of_byte x) = x.
Proof. enum_byte x. Qed.
Lemma action_byte x : Action.to_byte (Action.of_byte x) = x.
Proof. enum_byte x. Qed.
Lemma order_type_byte x : OrderType.to_byte (OrderType.of_byte x) = x.
Proof. enum_byte x. Qed.
Lemma tif_byte x : TimeInForce.to_byte (TimeInForce.of_byte x) = x.
Proof. enum_byte x. Qed.
Lemma report_byte x : ReportType.to_byte (ReportType.of_byte x) = x.
Proof. enum_byte x. Qed.
Lemma reject_byte x : Reject.to_byte (Reject.of_byte x) = x.
Proof. enum_byte x. Qed.
Lemma update_byte x : UpdateType.to_byte (UpdateType.of_byte x) = x.
Proof. enum_byte x. Qed.

Record frame_ok (b : list Z) : Prop := {
  fo_length : length b = frame_size;
  fo_bytes : Forall is_u8 b
}.

Lemma nth_byte_ok b i : Forall is_u8 b -> is_u8 (nth_byte b i).
Proof.
  intros Hb. unfold nth_byte. destruct (b !! i) as [x|] eqn:E; simpl; [|unfold is_u8; lia].
  rewrite Forall_forall in Hb. apply Hb. by eapply list_elem_of_lookup_2.
Qed.

Record decode_checks (b : list Z) : Prop := {
  dc_magic : get b 0 4 = magic;
  dc_version : nth_byte b 4 = 1;
  dc_kind : 1 <= nth_byte b 5 <= 7;
  dc_action : 1 <= nth_byte b 6 <= 6;
  dc_side : nth_byte b 7 <= 1;
  dc_order_type : 1 <= nth_byte b 8 <= 2;
  dc_tif : 1 <= nth_byte b 9 <= 3;
  dc_report : 1 <= nth_byte b 10 <= 7;
  dc_reject : nth_byte b 11 <= 17;
  dc_post_only : nth_byte b 12 <= 1;
  dc_update : 1 <= nth_byte b 13 <= 5;
  dc_pad1 : nth_byte b 14 = 0;
  dc_pad2 : nth_byte b 15 = 0;
  dc_tail : existsb (fun x => negb (x =? 0)) (drop 88 b) = false
}.

Lemma decode_ok_checks b : decode_ok b = true -> decode_checks b.
Proof.
  unfold decode_ok. cbv zeta. rewrite negb_true_iff, !orb_false_iff, !negb_false_iff.
  intros H. decompose [and] H. split; try done; lia.
Qed.

Lemma decode_frame b m : frame_ok b -> decode b = Some m -> frame_of m = b.
Proof.
  intros [Hlen Hb]. unfold decode. destruct (decode_ok b) eqn:E; [|done]. intros [= <-].
  apply decode_ok_checks in E as []. unfold frame_size in Hlen.
  pose proof (fun i => nth_byte_ok b i Hb) as Hu. unfold is_u8 in Hu.
  unfold frame_of, decode_fields. cbn [m_kind m_action m_side m_order_type m_tif m_report m_reject
    m_update m_post_only m_epoch m_sequence m_client_id m_price m_request_id m_order_id
    m_exchange_id m_instrument_id m_quantity m_remaining m_trade_id].
  assert (forall at_, (at_ <= 92)%nat -> u32 (get b at_ 4) = get b at_ 4) as H32.
  { intros at_ Hat. apply u32_small. apply (get_range b at_ 4); [lia|done]. }
  rewrite !H32 by lia. rewrite <- dc_magic0.
  rewrite !be_bytes_get by (done || lia).
  rewrite kind_byte, action_byte, order_type_byte, tif_byte, report_byte, reject_byte, update_byte.
  assert ((if decide ((if nth_byte b 7 =? 0 then Bid else Ask) = Bid) then 0 else 1) = nth_byte b 7) as ->.
  { pose proof (Hu 7%nat). destruct (Z.eqb_spec (nth_byte b 7) 0); simpl; lia. }
  assert ((if negb (nth_byte b 12 =? 0) then 1 else 0) = nth_byte b 12) as ->.
  { pose proof (Hu 12%nat). destruct (Z.eqb_spec (nth_byte b 12) 0); simpl; lia. }
  assert (replicate 8 0 = drop 88 b) as ->.
  { rewrite (existsb_zero _ dc_tail0), length_drop, Hlen. done. }
  assert ([1; nth_byte b 5; nth_byte b 6; nth_byte b 7; nth_byte b 8; nth_byte b 9; nth_byte b 10;
           nth_byte b 11; nth_byte b 12; nth_byte b 13; 0; 0] = take 12 (drop 4 b)) as ->.
  { rewrite (take_drop_nth b 4 12) by lia. simpl seq. csimpl. congruence. }
  rewrite <- (split_at b 80 8 88 eq_refl), <- (split_at b 76 4 80 eq_refl), <- (split_at b 72 4 76 eq_refl), <- (split_at b 64 8 72 eq_refl),
    <- (split_at b 56 8 64 eq_refl), <- (split_at b 48 8 56 eq_refl), <- (split_at b 40 8 48 eq_refl), <- (split_at b 36 4 40 eq_refl),
    <- (split_at b 32 4 36 eq_refl), <- (split_at b 24 8 32 eq_refl), <- (split_at b 16 8 24 eq_refl), <- (split_at b 4 12 16 eq_refl).
  apply (take_drop 4 b).
Qed.

Lemma decode_typed b m : frame_ok b -> decode b = Some m -> message_typed m /\ message_enums m = true.
Proof.
  intros [Hlen Hb]. unfold decode. destruct (decode_ok b) eqn:E; [|done]. intros [= <-].
  apply decode_ok_checks in E as [].
  pose proof (fun i => nth_byte_ok b i Hb) as Hu. unfold is_u8 in Hu.
  assert (message_typed (decode_fields b)) as Ht.
  { pose proof (fun at_ => get_range b at_ 8 (le_n 8) Hb) as H8. simpl in H8.
    split; unfold decode_fields; cbn [m_kind m_action m_side m_order_type m_tif m_report m_reject
      m_update m_post_only m_epoch m_sequence m_client_id m_price m_request_id m_order_id
      m_exchange_id m_instrument_id m_quantity m_remaining m_trade_id];
      try apply H8; try apply u32_range;
      rewrite ?kind_byte, ?action_byte, ?order_type_byte, ?tif_byte, ?report_byte, ?reject_byte,
        ?update_byte; (split; [apply Hu|done]). }
  split; [done|]. unfold message_enums, decode_fields. cbv zeta.
  cbn [m_kind m_action m_side m_order_type m_tif m_report m_reject m_update].
  rewrite kind_byte, action_byte, order_type_byte, tif_byte, report_byte, reject_byte, update_byte.
  pose proof (Hu 11%nat). rewrite bool_decide_true by (case_match; [by left|by right]).
  rewrite !andb_true_iff, !Z.leb_le. lia.
Qed.

Lemma encode_decode b m : frame_ok b -> decode b = Some m -> encode m = Ret b.
Proof.
  intros Hb E. destruct (decode_typed b m Hb E) as [Ht He].
  by rewrite (encode_cases m Ht), He, (decode_frame b m Hb E).
Qed.

Lemma frame_of_ok m : message_typed m -> frame_ok (frame_of m).
Proof.
  intros Ht. split; [done|]. destruct Ht. unfold frame_of.
  repeat match goal with
  | |- Forall _ (_ ++ _) => apply Forall_app; split
  | |- Forall _ (be_bytes _ _) => apply be_bytes_ok
  | |- Forall _ (replicate _ _) => by apply Forall_replicate
  | |- Forall _ (_ :: _) => apply Forall_cons; split
  | |- Forall _ [] => constructor
  end; unfold is_u8 in *; try tauto; try lia; case_match; lia.
Qed.

(** ** Theorems *)

(** C34: Encoding then decoding gives the message back, for every message whose
    fields fit their types and whose enums are enumerators; encoding any other
    message throws, and never produces a frame the decoder would refuse. *)
Theorem message_roundtrip (m : Message) :
  message_typed m ->
  if message_enums m then exists b, encode m = Ret b /\ frame_ok b /\ decode b = Some m
  else encode m = Throw (InvalidArgument "Invalid trading message enum").
Proof.
  intros Ht. pose proof (encode_cases m Ht) as E. destruct (message_enums m) eqn:Em; [|done].
  exists (frame_of m). split; [done|]. split; [by apply frame_of_ok|]. by eapply decode_encode.
Qed.

Definition sample_message : Message :=
  mkMessage Kind.Report Action.New Ask OrderType.Limit TimeInForce.IOC ReportType.Fill Reject.None
    UpdateType.Trade true 7 (2 ^ 64 - 1) 12 (2 ^ 32 - 1) 5 6 7 8 9 10 11.

Lemma message_roundtrip_witness :
  exists b, encode sample_message = Ret b /\ frame_ok b /\ decode b = Some sample_message.
Proof.
  apply (message_roundtrip sample_message).
  split; vm_compute; repeat split; congruence.
Defined.

(** C35: The frame format is canonical: a frame the decoder accepts is the one
    and only encoding of the message it decodes to, whose fields all fit. *)
Theorem frame_canonical (b : list Z) (m : Message) :
  frame_ok b -> decode b = Some m ->
  encode m = Ret b /\ message_typed m /\ message_enums m = true.
Proof.
  intros Hb E. split; [by apply encode_decode|]. by apply (decode_typed b).
Qed.

Lemma frame_canonical_witness :
  frame_ok (frame_of sample_message) /\ encode sample_message = Ret (frame_of sample_message).
Proof.
  assert (frame_ok (frame_of sample_message)) as Hb.
  { split; [reflexivity|]. repeat constructor; vm_compute; congruence. }
  split; [exact Hb|]. exact (proj1 (frame_canonical (frame_of sample_message) sample_message Hb eq_refl)).
Defined.
