(* ===== verification/Protocol.v ===== *)
(** * The replication wire protocol

    [include/order_book/net/protocol.hpp] and [src/net/protocol.cpp]: 40-byte
    event frames and 16-byte acknowledgements, big-endian. *)
From S2P Require Import Prelude Types Bytes Messages.

Definition magic : Z := 0x4c4f4231.

(** The stable wire order of results. *)
Definition results : list ApplyResult :=
  [Ok; DuplicateOrder; UnknownOrder; InvalidPrice; InvalidQuantity; UnknownInstrument;
   QuantityExceedsRemaining; ParseError; NotImplemented; AllocationFailed].

Definition valid_header (frame : list Z) : bool :=
  (get frame 0 4 =? magic) && (nth_byte frame 4 =? 1) && (nth_byte frame 7 =? 0).

(** [EventFrame encode_event(const MarketEvent&)] *)
Definition encode_event (event : MarketEvent) : outcome (list Z) :=
  let frame := replicate 40 0 in
  let frame := put frame 0 magic 4 in
  let frame := set_byte 4 1 frame in
  let frame := put frame 8 (ev_sequence event) 8 in
  let frame := put frame 16 (ev_instrument event) 8 in
  match ev_payload event with
  | PAdd add =>
    if decide (add_side add <> Bid /\ add_side add <> Ask)
    then Throw (InvalidArgument "Invalid order side")
    else
      let frame := set_byte 5 1 frame in
      let frame := set_byte 6 (if decide (add_side add = Bid) then 1 else 2) frame in
      let frame := put frame 24 (add_id add) 8 in
      let frame := put frame 32 (add_price add) 4 in
      Ret (put frame 36 (add_quantity add) 4)
  | PCancel cancel =>
    let frame := set_byte 5 2 frame in
    Ret (put frame 24 (cancel_id cancel) 8)
  | PExecute execute =>
    let frame := set_byte 5 3 frame in
    let frame := put frame 24 (execute_id execute) 8 in
    Ret (put frame 36 (execute_quantity execute) 4)
  end.

(** [std::optional<MarketEvent> decode_event(const EventFrame&)] *)
Definition decode_event (frame : list Z) : option MarketEvent :=
  if negb (valid_header frame) then None
  else
    let sequence := get frame 8 8 in
    let instrument := get frame 16 8 in
    let order := get frame 24 8 in
    let price := u32 (get frame 32 4) in
    let quantity := u32 (get frame 36 4) in
    let kind := nth_byte frame 5 in
    let flag := nth_byte frame 6 in
    if decide (kind = 1) then
      if decide (flag <> 1 /\ flag <> 2) then None
      else Some (mkEvent sequence instrument
             (PAdd (mkAdd order (if decide (flag = 1) then Bid else Ask) price quantity)))
    else if decide (kind = 2) then
      if decide (flag <> 0 \/ price <> 0 \/ quantity <> 0) then None
      else Some (mkEvent sequence instrument (PCancel (mkCancel order)))
    else if decide (kind = 3) then
      if decide (flag <> 0 \/ price <> 0) then None
      else Some (mkEvent sequence instrument (PExecute (mkExecute order quantity)))
    else None.

(** [AckFrame encode_received_ack(Sequence)] *)
Definition encode_received_ack (sequence : Sequence) : list Z :=
  let frame := replicate 16 0 in
  let frame := put frame 0 magic 4 in
  let frame := set_byte 4 1 frame in
  let frame := set_byte 5 128 frame in
  put frame 8 sequence 8.

Definition decode_received_ack (frame : list Z) : option Sequence :=
  if negb (valid_header frame) || negb (nth_byte frame 5 =? 128) || negb (nth_byte frame 6 =? 0)
  then None else Some (get frame 8 8).

Record ApplyAck := mkAck { ack_sequence : Sequence; ack_result : ApplyResult }.

(** [AckFrame encode_apply_ack(ApplyAck)]: the table position of the result. *)
Definition encode_apply_ack (ack : ApplyAck) : outcome (list Z) :=
  let frame := set_byte 5 129 (encode_received_ack (ack_sequence ack)) in
  match list_find (fun r => r = ack_result ack) results with
  | Some (i, _) => Ret (set_byte 6 (Z.of_nat i) frame)
  | None => Throw (InvalidArgument "Unknown ApplyResult")
  end.

Definition decode_apply_ack (frame : list Z) : option ApplyAck :=
  if negb (valid_header frame) || negb (nth_byte frame 5 =? 129) ||
     (Z.of_nat (length results) <=? nth_byte frame 6)
  then None
  else r ← results !! Z.to_nat (nth_byte frame 6); Some (mkAck (get frame 8 8) r).

(** ** Frames as concatenations of fields *)

Definition event_tail (p : EventPayload) : list Z :=
  match p with
  | PAdd e => be_bytes 8 (add_id e) ++ be_bytes 4 (add_price e) ++ be_bytes 4 (add_quantity e)
  | PCancel e => be_bytes 8 (cancel_id e) ++ be_bytes 4 0 ++ be_bytes 4 0
  | PExecute e => be_bytes 8 (execute_id e) ++ be_bytes 4 0 ++ be_bytes 4 (execute_quantity e)
  end.

Definition event_tag (p : EventPayload) : list Z :=
  match p with
  | PAdd e => [1; (if decide (add_side e = Bid) then 1 else 2)]
  | PCancel _ => [2; 0]
  | PExecute _ => [3; 0]
  end.

Definition event_frame (e : MarketEvent) : list Z :=
  be_bytes 4 magic ++ [1] ++ event_tag (ev_payload e) ++ [0] ++
  be_bytes 8 (ev_sequence e) ++ be_bytes 8 (ev_instrument e) ++ event_tail (ev_payload e).

Definition encodable (e : MarketEvent) : Prop :=
  match ev_payload e with PAdd a => valid_side (add_side a) | _ => True end.

#[export] Instance encodable_dec e : Decision (encodable e).
Proof. unfold encodable. destruct (ev_payload e); apply _. Defined.

Lemma encode_event_cases e :
  encode_event e = if decide (encodable e) then Ret (event_frame e)
                   else Throw (InvalidArgument "Invalid order side").
Proof.
  destruct e as [seq inst p]. unfold encode_event, event_frame, set_byte.
  cbn [ev_payload ev_sequence ev_instrument]. cbv zeta.
  destruct p as [a|a|a].
  - case_decide as He.
    { rewrite decide_False; [done|]. unfold encodable, valid_side; simpl. tauto. }
    rewrite (decide_True (P := encodable _)).
    2: { unfold encodable, valid_side; simpl. destruct (decide (add_side a = Bid)), (decide (add_side a = Ask)); tauto. }
    unfold event_tag, event_tail. set (k := if decide (add_side a = Bid) then 1 else 2).
    cbn -[Z.land Z.shiftr Z.modulo Z.div magic k]. rewrite ?shiftr_8, ?land_255. reflexivity.
  - rewrite decide_True by done. unfold event_tag, event_tail.
    cbn -[Z.land Z.shiftr Z.modulo Z.div magic]. rewrite ?shiftr_8, ?land_255. reflexivity.
  - rewrite decide_True by done. unfold event_tag, event_tail.
    cbn -[Z.land Z.shiftr Z.modulo Z.div magic]. rewrite ?shiftr_8, ?land_255. reflexivity.
Qed.

(** Reading a field whose bytes are known. *)
Lemma get_known b at_ n v :
  take n (drop at_ b) = be_bytes n v -> (n <= 8)%nat -> 0 <= v < 256 ^ Z.of_nat n -> get b at_ n = v.
Proof.
  intros E Hn Hv. unfold get. rewrite E, fold_shift_in; [by apply be_num_small| |apply be_bytes_ok].
  by rewrite length_be_bytes.
Qed.

Lemma decode_event_frame e :
  MarketEvent_ok e -> encodable e -> decode_event (event_frame e) = Some e.
Proof.
  intros [Hs Hi Hp] He. unfold is_u64 in *. unfold decode_event.
  assert (valid_header (event_frame e) = true) as ->.
  { unfold valid_header. rewrite (get_known _ 0 4 magic) by (reflexivity || lia || (vm_compute; split; congruence)).
    by destruct e as [? ? [a|a|a]]. }
  cbn [negb]. cbv zeta.
  rewrite (get_known _ 8 8 (ev_sequence e)), (get_known _ 16 8 (ev_instrument e))
    by (lia || by destruct e as [? ? [a|a|a]]).
  destruct e as [seq inst [a|a|a]]; cbn [ev_sequence ev_instrument ev_payload] in *;
    unfold encodable in He; cbn [ev_payload payload_ok] in He, Hp.
  - destruct Hp as [Ha Hpr Hq]. unfold is_u64, is_u32 in *.
    rewrite (get_known _ 24 8 (add_id a)), (get_known _ 32 4 (add_price a)), (get_known _ 36 4 (add_quantity a))
      by (lia || reflexivity).
    rewrite !u32_small by (unfold is_u32; lia).
    change (nth_byte (event_frame _) 5) with 1.
    change (nth_byte (event_frame _) 6) with (if decide (add_side a = Bid) then 1 else 2).
    destruct a as [id s p q]. simpl in He. by destruct He as [-> | ->].
  - unfold is_u64 in Hp.
    rewrite (get_known _ 24 8 (cancel_id a)), (get_known _ 32 4 0), (get_known _ 36 4 0) by (lia || reflexivity).
    by destruct a.
  - destruct Hp as [Ha Hq]. unfold is_u64, is_u32 in *.
    rewrite (get_known _ 24 8 (execute_id a)), (get_known _ 32 4 0), (get_known _ 36 4 (execute_quantity a))
      by (lia || reflexivity).
    rewrite !u32_small by (unfold is_u32; lia). by destruct a.
Qed.

Record event_frame_ok (b : list Z) : Prop := {
  ef_length : length b = 40%nat;
  ef_bytes : Forall is_u8 b
}.

Lemma header_bytes b :
  Forall is_u8 b -> (8 <= length b)%nat -> valid_header b = true ->
  take 4 b = be_bytes 4 magic /\ nth_byte b 4 = 1 /\ nth_byte b 7 = 0.
Proof.
  intros Hb Hlen [[Hm%Z.eqb_eq H4%Z.eqb_eq]%andb_prop H7%Z.eqb_eq]%andb_prop.
  split; [|done]. rewrite <- Hm, be_bytes_get by (done || lia). done.
Qed.

(** A frame with a valid header, split into its fields. *)
Lemma event_frame_split b :
  event_frame_ok b -> valid_header b = true ->
  b = be_bytes 4 magic ++ [1] ++ [nth_byte b 5; nth_byte b 6] ++ [0] ++
      be_bytes 8 (get b 8 8) ++ be_bytes 8 (get b 16 8) ++ be_bytes 8 (get b 24 8) ++
      be_bytes 4 (get b 32 4) ++ be_bytes 4 (get b 36 4).
Proof.
  intros [Hlen Hb] Hh. destruct (header_bytes b Hb ltac:(lia) Hh) as (<- & H4 & H7).
  rewrite !be_bytes_get by (done || lia).
  change ([1] ++ [nth_byte b 5; nth_byte b 6] ++ [0] ++ ?x)
    with ([1; nth_byte b 5; nth_byte b 6; 0] ++ x).
  assert ([1; nth_byte b 5; nth_byte b 6; 0] = take 4 (drop 4 b)) as ->.
  { rewrite (take_drop_nth b 4 4) by lia. simpl seq. csimpl. congruence. }
  rewrite <- (app_nil_r (take 4 (drop 36 b))).
  assert ([] = drop 40 b) as -> by (symmetry; apply nil_length_inv; rewrite length_drop; lia).
  rewrite <- (split_at b 36 4 40 eq_refl), <- (split_at b 32 4 36 eq_refl), <- (split_at b 24 8 32 eq_refl),
    <- (split_at b 16 8 24 eq_refl), <- (split_at b 8 8 16 eq_refl), <- (split_at b 4 4 8 eq_refl).
  symmetry. apply take_drop.
Qed.

Lemma encode_decode_event b e :
  event_frame_ok b -> decode_event b = Some e ->
  encode_event e = Ret b /\ MarketEvent_ok e /\ encodable e.
Proof.
  intros Hok. pose proof Hok as [Hlen Hb]. unfold decode_event.
  destruct (valid_header b) eqn:Hh; [|done]. cbn [negb]. cbv zeta.
  pose proof (event_frame_split b Hok Hh) as Hsplit.
  pose proof (fun at_ => get_range b at_ 8 (le_n 8) Hb) as H8. simpl in H8.
  assert (forall at_, u32 (get b at_ 4) = get b at_ 4) as H4.
  { intros at_. apply u32_small, (get_range b at_ 4); [lia|done]. }
  assert (forall at_, is_u32 (get b at_ 4)) as H4r by (intros; rewrite <- H4; apply u32_range).
  assert (forall p, event_tag p = [nth_byte b 5; nth_byte b 6] ->
    event_tail p = be_bytes 8 (get b 24 8) ++ be_bytes 4 (get b 32 4) ++ be_bytes 4 (get b 36 4) ->
    event_frame (mkEvent (get b 8 8) (get b 16 8) p) = b) as Hframe.
  { intros p E1 E2. etransitivity; [|symmetry; exact Hsplit]. unfold event_frame.
    cbn [ev_payload ev_sequence ev_instrument]. by rewrite E1, E2. }
  rewrite !H4. intros H. rewrite encode_event_cases. revert H.
  destruct (decide (nth_byte b 5 = 1)) as [E5|_]; [|destruct (decide (nth_byte b 5 = 2)) as [E5|_];
    [|destruct (decide (nth_byte b 5 = 3)) as [E5|_]; [|done]]]; case_decide as E6; try done; intros [= <-].
  - rewrite decide_True by (by unfold encodable; simpl; case_match; [left|right]).
    split; [|split; [split; simpl; try apply H8; split; simpl; auto; apply H8|
             by unfold encodable; simpl; case_match; [left|right]]].
    f_equal. apply Hframe; [|done]. cbn [event_tag add_side]. rewrite E5. do 2 f_equal.
    destruct (decide (nth_byte b 6 = 1)); simpl; lia.
  - rewrite decide_True by done. split; [|split; [split; simpl; try apply H8|done]].
    assert (nth_byte b 6 = 0 /\ get b 32 4 = 0 /\ get b 36 4 = 0) as (E1 & E2 & E3) by lia.
    f_equal. apply Hframe; cbn [event_tag event_tail cancel_id]; congruence.
  - rewrite decide_True by done. split; [|split; [split; simpl; try apply H8; split; auto; apply H8|done]].
    assert (nth_byte b 6 = 0 /\ get b 32 4 = 0) as (E1 & E2) by lia.
    f_equal. apply Hframe; cbn [event_tag event_tail execute_quantity execute_id]; congruence.
Qed.

(** ** Acknowledgements *)

Definition ack_frame (kind flag : Z) (seq : Sequence) : list Z :=
  be_bytes 4 magic ++ [1; kind; flag; 0] ++ be_bytes 8 seq.

Lemma encode_received_ack_frame seq : encode_received_ack seq = ack_frame 128 0 seq.
Proof.
  unfold encode_received_ack, ack_frame, set_byte. cbv zeta.
  cbn -[Z.land Z.shiftr Z.modulo Z.div magic]. rewrite ?shiftr_8, ?land_255. reflexivity.
Qed.

Definition result_index (r : ApplyResult) : Z :=
  match r with
  | Ok => 0 | DuplicateOrder => 1 | UnknownOrder => 2 | InvalidPrice => 3 | InvalidQuantity => 4
  | UnknownInstrument => 5 | QuantityExceedsRemaining => 6 | ParseError => 7 | NotImplemented => 8
  | AllocationFailed => 9
  end.

Lemma result_index_lookup i r : results !! i = Some r -> result_index r = Z.of_nat i.
Proof. do 10 (destruct i as [|i]; [by intros [= <-]|]). done. Qed.

Lemma encode_apply_ack_frame a :
  encode_apply_ack a = Ret (ack_frame 129 (result_index (ack_result a)) (ack_sequence a)).
Proof.
  unfold encode_apply_ack. rewrite encode_received_ack_frame.
  destruct a as [seq []]; reflexivity.
Qed.

Lemma ack_frame_get kind flag seq : is_u64 seq -> get (ack_frame kind flag seq) 8 8 = seq.
Proof. intros Hs. unfold is_u64 in Hs. apply get_known; (lia || reflexivity). Qed.

Lemma ack_frame_header kind flag seq : valid_header (ack_frame kind flag seq) = true.
Proof.
  unfold valid_header.
  by rewrite (get_known _ 0 4 magic) by (reflexivity || lia || (vm_compute; split; congruence)).
Qed.

Record ack_frame_ok (b : list Z) : Prop := {
  af_length : length b = 16%nat;
  af_bytes : Forall is_u8 b
}.

Lemma ack_frame_split b :
  ack_frame_ok b -> valid_header b = true ->
  b = ack_frame (nth_byte b 5) (nth_byte b 6) (get b 8 8).
Proof.
  intros [Hlen Hb] Hh. destruct (header_bytes b Hb ltac:(lia) Hh) as (Hm & H4 & H7).
  unfold ack_frame. rewrite <- Hm, be_bytes_get by (done || lia).
  assert ([1; nth_byte b 5; nth_byte b 6; 0] = take 4 (drop 4 b)) as ->.
  { rewrite (take_drop_nth b 4 4) by lia. simpl seq. csimpl. congruence. }
  rewrite <- (app_nil_r (take 8 (drop 8 b))).
  assert ([] = drop 16 b) as -> by (symmetry; apply nil_length_inv; rewrite length_drop; lia).
  rewrite <- (split_at b 8 8 16 eq_refl), <- (split_at b 4 4 8 eq_refl). symmetry. apply take_drop.
Qed.

(** ** Theorems *)

(** C36: A market event survives the wire: what [encode_event] writes decodes to
    the same event; only an add with an invalid side is refused, by throwing. *)
Theorem event_roundtrip (e : MarketEvent) :
  MarketEvent_ok e ->
  if decide (encodable e) then exists b, encode_event e = Ret b /\ decode_event b = Some e
  else encode_event e = Throw (InvalidArgument "Invalid order side").
Proof.
  intros Hok. rewrite encode_event_cases. case_decide as He; [|done].
  exists (event_frame e). split; [done|]. by apply decode_event_frame.
Qed.

Definition sample_event : MarketEvent := mkEvent 3 7 (PAdd (mkAdd 9 Ask 250 (2 ^ 32 - 1))).

Lemma sample_event_ok : MarketEvent_ok sample_event.
Proof. split; [vm_compute; split; congruence..|]. split; vm_compute; split; congruence. Qed.

Lemma event_roundtrip_witness :
  exists b, encode_event sample_event = Ret b /\ decode_event b = Some sample_event.
Proof. exact (event_roundtrip sample_event sample_event_ok). Defined.

(** C37: The event format is canonical: an accepted 40-byte frame is the only
    encoding of the event it decodes to; no two frames mean the same event. *)
Theorem event_frame_canonical (b : list Z) (e : MarketEvent) :
  event_frame_ok b -> decode_event b = Some e -> encode_event e = Ret b /\ MarketEvent_ok e.
Proof. intros Hb E. destruct (encode_decode_event b e Hb E) as (? & ? & _). done. Qed.

Lemma event_frame_canonical_witness : encode_event sample_event = Ret (event_frame sample_event).
Proof.
  apply (event_frame_canonical (event_frame sample_event) sample_event).
  - split; [reflexivity|]. repeat constructor; vm_compute; congruence.
  - reflexivity.
Defined.

(** Both acknowledgements survive the wire, are canonical, and are never
    taken for one another: the kind byte separates "received" from "applied". *)
Theorem ack_roundtrip (seq : Sequence) (a : ApplyAck) (b : list Z) :
  is_u64 seq -> is_u64 (ack_sequence a) ->
  decode_received_ack (encode_received_ack seq) = Some seq /\
  decode_apply_ack (encode_received_ack seq) = None /\
  (exists f, encode_apply_ack a = Ret f /\ decode_apply_ack f = Some a /\ decode_received_ack f = None) /\
  (ack_frame_ok b -> forall s, decode_received_ack b = Some s -> encode_received_ack s = b) /\
  (ack_frame_ok b -> forall a', decode_apply_ack b = Some a' -> encode_apply_ack a' = Ret b).
Proof.
  intros Hs Ha. unfold decode_received_ack, decode_apply_ack.
  rewrite encode_received_ack_frame, ack_frame_header, ack_frame_get by done. split_and!; try done.
  - eexists. split; [apply encode_apply_ack_frame|]. rewrite ack_frame_header, ack_frame_get by done.
    by destruct a as [? []].
  - intros Hb s. destruct (valid_header b) eqn:Hh; [|done]. simpl.
    destruct (Z.eqb_spec (nth_byte b 5) 128) as [E5|]; [|done].
    destruct (Z.eqb_spec (nth_byte b 6) 0) as [E6|]; [|done]. intros [= <-].
    rewrite encode_received_ack_frame, <- E5, <- E6. symmetry. by apply ack_frame_split.
  - intros Hb a'. destruct (valid_header b) eqn:Hh; [|done]. cbn [negb orb].
    destruct (Z.eqb_spec (nth_byte b 5) 129) as [E5|]; [|done]. cbn [negb orb].
    pose proof (nth_byte_ok b 6 (af_bytes b Hb)) as H6. unfold is_u8 in H6.
    destruct (Z.leb_spec (Z.of_nat (length results)) (nth_byte b 6)) as [|Hlt]; [done|].
    destruct (results !! Z.to_nat (nth_byte b 6)) as [r|] eqn:Er; [|done]. intros [= <-].
    rewrite encode_apply_ack_frame. simpl.
    assert (result_index r = nth_byte b 6) as ->.
    { apply (result_index_lookup (Z.to_nat (nth_byte b 6)) r) in Er. lia. }
    rewrite <- E5. f_equal. symmetry. by apply ack_frame_split.
Qed.

Lemma ack_roundtrip_witness : decode_received_ack (encode_received_ack 77) = Some 77.
Proof.
  apply (ack_roundtrip 77 (mkAck 5 InvalidPrice) []); vm_compute; split; congruence.
Defined.
