(* ===== verification/LOB.v ===== *)
(** * The abstract limit order book

    What an order book promises, with no nodes, levels or index: one queue of
    orders per side in price-time priority.  OrderBookRefine.v proves that the
    detailed book of OrderBook.v implements these operations, and every client
    (registry, engine, replica, feed books) is verified against them. *)
From S2P Require Import Prelude StdMap Types.

Record LOB := mkLOB {
  lob_bids : list OrderView;
  lob_asks : list OrderView
}.

Definition lob_empty : LOB := mkLOB [] [].

Definition queue (s : Side) (b : LOB) : list OrderView :=
  match s with Bid => lob_bids b | Ask => lob_asks b | SideOther _ => [] end.

Definition set_queue (s : Side) (q : list OrderView) (b : LOB) : LOB :=
  match s with
  | Bid => mkLOB q (lob_asks b)
  | Ask => mkLOB (lob_bids b) q
  | SideOther _ => b
  end.

Definition lob_orders (b : LOB) : list OrderView := lob_bids b ++ lob_asks b.

Fixpoint find_id (id : OrderId) (l : list OrderView) : option OrderView :=
  match l with
  | [] => None
  | v :: l => if decide (ov_id v = id) then Some v else find_id id l
  end.

Definition lob_find (id : OrderId) (b : LOB) : option OrderView := find_id id (lob_orders b).

(** A new order goes behind every order at its price or a better one. *)
Fixpoint q_insert (s : Side) (v : OrderView) (l : list OrderView) : list OrderView :=
  match l with
  | [] => [v]
  | w :: l => if decide (price_before s (ov_price w) (ov_price v))
              then w :: q_insert s v l else v :: w :: l
  end.

Definition q_remove (id : OrderId) (l : list OrderView) : list OrderView :=
  filter (fun v => ov_id v <> id) l.

Definition with_quantity (q : Quantity) (v : OrderView) : OrderView :=
  mkView (ov_id v) (ov_side v) (ov_price v) q.

Definition q_resize (id : OrderId) (q : Quantity) (l : list OrderView) : list OrderView :=
  (fun v => if decide (ov_id v = id) then with_quantity q v else v) <$> l.

Definition lob_insert (v : OrderView) (b : LOB) : LOB :=
  set_queue (ov_side v) (q_insert (ov_side v) v (queue (ov_side v) b)) b.
Definition lob_remove (id : OrderId) (b : LOB) : LOB :=
  mkLOB (q_remove id (lob_bids b)) (q_remove id (lob_asks b)).
Definition lob_resize (id : OrderId) (q : Quantity) (b : LOB) : LOB :=
  mkLOB (q_resize id q (lob_bids b)) (q_resize id q (lob_asks b)).

Definition view_of (e : AddOrder) : OrderView :=
  mkView (add_id e) (add_side e) (add_price e) (add_quantity e).

(** ** Operations *)

Definition lob_add (e : AddOrder) (b : LOB) : ApplyResult * LOB :=
  if decide (add_quantity e = 0) then (InvalidQuantity, b)
  else if decide (add_price e = 0) then (InvalidPrice, b)
  else if decide (is_Some (lob_find (add_id e) b)) then (DuplicateOrder, b)
  else if decide (~ valid_side (add_side e)) then (UnknownOrder, b)
  else (Ok, lob_insert (view_of e) b).

Definition lob_cancel (e : CancelOrder) (b : LOB) : ApplyResult * LOB :=
  match lob_find (cancel_id e) b with
  | None => (UnknownOrder, b)
  | Some _ => (Ok, lob_remove (cancel_id e) b)
  end.

Definition lob_execute (e : ExecuteOrder) (b : LOB) : ApplyResult * LOB :=
  match lob_find (execute_id e) b with
  | None => (UnknownOrder, b)
  | Some v =>
    if decide (execute_quantity e = 0) then (InvalidQuantity, b)
    else if decide (ov_quantity v < execute_quantity e) then (QuantityExceedsRemaining, b)
    else if decide (ov_quantity v = execute_quantity e) then (Ok, lob_remove (execute_id e) b)
    else (Ok, lob_resize (execute_id e) (ov_quantity v - execute_quantity e) b)
  end.

Definition lob_event (p : EventPayload) (b : LOB) : ApplyResult * LOB :=
  match p with
  | PAdd e => lob_add e b
  | PCancel e => lob_cancel e b
  | PExecute e => lob_execute e b
  end.

Definition lob_replace (old_id : OrderId) (next : AddOrder) (maintain_priority : bool) (b : LOB)
    : ApplyResult * LOB :=
  match lob_find old_id b with
  | None => (UnknownOrder, b)
  | Some old =>
    if decide (add_quantity next = 0) then (InvalidQuantity, b)
    else if decide (add_price next = 0) then (InvalidPrice, b)
    else if decide (add_side next <> ov_side old) then (UnknownOrder, b)
    else if decide (add_id next <> old_id /\ is_Some (lob_find (add_id next) b))
    then (DuplicateOrder, b)
    else if maintain_priority then
      if decide (add_price next <> ov_price old \/ add_id next <> old_id) then (InvalidPrice, b)
      else (Ok, lob_resize old_id (add_quantity next) b)
    else (Ok, lob_insert (view_of next) (lob_remove old_id b))
  end.

(** ** Queries *)

Definition lob_best (s : Side) (b : LOB) : option Price := ov_price <$> head (queue s b).
Definition lob_front (s : Side) (b : LOB) : option OrderView := head (queue s b).
Definition lob_remaining (id : OrderId) (b : LOB) : option Quantity :=
  ov_quantity <$> lob_find id b.
Definition lob_count (b : LOB) : nat := length (lob_orders b).

Definition at_price (p : Price) (l : list OrderView) : list OrderView :=
  filter (fun v => ov_price v = p) l.

Definition total_quantity (l : list OrderView) : Z := sumZ (ov_quantity <$> l).

Definition lob_best_quantity (s : Side) (b : LOB) : Z :=
  match lob_best s b with
  | Some p => u64 (total_quantity (at_price p (queue s b)))
  | None => 0
  end.

(** [for_each_order]: run a visitor over the queue until it says stop. *)
Fixpoint visit_list {S} (visitor : OrderView -> S -> outcome (bool * S)) (l : list OrderView) (st : S)
    : outcome S :=
  match l with
  | [] => Ret st
  | v :: l =>
    '(continue, st) ← visitor v st;
    if (continue : bool) then visit_list visitor l st else Ret st
  end.

(** ** Well-formedness *)

Definition before (s : Side) : relation OrderView :=
  fun v w => price_before s (ov_price v) (ov_price w).

Record order_ok (s : Side) (v : OrderView) : Prop := {
  ok_side : ov_side v = s;
  ok_price : 0 < ov_price v < 2 ^ 32;
  ok_quantity : 0 < ov_quantity v < 2 ^ 32
}.

Record lob_wf (b : LOB) : Prop := {
  wf_sorted s : StronglySorted (before s) (queue s b);
  wf_order s v : v ∈ queue s b -> order_ok s v;
  wf_ids : NoDup (ov_id <$> lob_orders b)
}.

(** ** Facts about the queues *)

Lemma find_id_Some id l v :
  find_id id l = Some v -> v ∈ l /\ ov_id v = id.
Proof.
  induction l as [|w l IH]; simpl; [done|]. case_decide.
  - intros [= <-]. split; [left|done].
  - intros [? ?]%IH. split; [by right|done].
Qed.

Lemma find_id_None id l : find_id id l = None <-> id ∉ (ov_id <$> l).
Proof.
  induction l as [|w l IH]; simpl; [set_solver|].
  rewrite not_elem_of_cons. case_decide; naive_solver.
Qed.

Lemma find_id_elem id l v :
  NoDup (ov_id <$> l) -> v ∈ l -> ov_id v = id -> find_id id l = Some v.
Proof.
  intros Hnd Hv <-. destruct (find_id (ov_id v) l) as [w|] eqn:E.
  - apply find_id_Some in E as [Hw Hid]. f_equal.
    apply list_elem_of_lookup in Hv as [i Hi], Hw as [j Hj].
    assert (i = j) as ->; [|congruence].
    eapply NoDup_lookup; [exact Hnd| |]; rewrite list_lookup_fmap.
    + rewrite Hi. done.
    + rewrite Hj. simpl. by f_equal.
  - apply find_id_None in E. destruct E. apply list_elem_of_fmap. eauto.
Qed.

Lemma find_id_app id l1 l2 :
  find_id id (l1 ++ l2) = match find_id id l1 with Some v => Some v | None => find_id id l2 end.
Proof. induction l1 as [|w l1 IH]; simpl; [done|]. by case_decide. Qed.

Lemma q_insert_perm s v l : q_insert s v l ≡ₚ v :: l.
Proof.
  induction l as [|w l IH]; simpl; [done|]. case_decide; [|done].
  rewrite IH. constructor.
Qed.

Lemma q_insert_sorted s v l :
  StronglySorted (before s) l -> StronglySorted (before s) (q_insert s v l).
Proof.
  induction 1 as [|w l Hs IH Hf]; simpl; [repeat constructor|].
  case_decide as Hd.
  - constructor; [done|]. rewrite q_insert_perm. by constructor.
  - assert (before s v w) as Hvw.
    { unfold before. by destruct (total (price_before s) (ov_price w) (ov_price v)). }
    constructor; [by constructor|]. constructor; [done|].
    eapply Forall_impl; [exact Hf|]. intros u Hu. unfold before in *. by transitivity (ov_price w).
Qed.

(** Where the new order lands: behind [l1], all at its price or better, and in
    front of [l2], all strictly worse. *)
Lemma q_insert_app s v l1 l2 :
  Forall (fun w => price_before s (ov_price w) (ov_price v)) l1 ->
  Forall (fun w => ~ price_before s (ov_price w) (ov_price v)) l2 ->
  q_insert s v (l1 ++ l2) = l1 ++ v :: l2.
Proof.
  intros H1 H2. induction H1 as [|w l1 Hw H1 IH]; simpl.
  - destruct H2; simpl; [done|]. by rewrite decide_False.
  - by rewrite decide_True, IH.
Qed.

Lemma q_insert_split s v l :
  StronglySorted (before s) l ->
  exists l1 l2, l = l1 ++ l2 /\ q_insert s v l = l1 ++ v :: l2 /\
    Forall (fun w => price_before s (ov_price w) (ov_price v)) l1 /\
    Forall (fun w => ~ price_before s (ov_price w) (ov_price v)) l2.
Proof.
  induction 1 as [|w l Hs IH Hf]; simpl.
  - by exists [], [].
  - case_decide as Hd.
    + destruct IH as (l1 & l2 & -> & -> & H1 & H2). exists (w :: l1), l2. split_and!; try done.
      by constructor.
    + exists [], (w :: l). split_and!; try done. constructor; [done|].
      eapply Forall_impl; [exact Hf|]. intros u Hu Huv. apply Hd. unfold before in Hu.
      by transitivity (ov_price u).
Qed.

Lemma q_remove_app id l1 l2 : q_remove id (l1 ++ l2) = q_remove id l1 ++ q_remove id l2.
Proof. apply filter_app. Qed.

Lemma q_resize_app id q l1 l2 : q_resize id q (l1 ++ l2) = q_resize id q l1 ++ q_resize id q l2.
Proof. apply fmap_app. Qed.

Lemma q_remove_perm id l1 l2 : l1 ≡ₚ l2 -> q_remove id l1 ≡ₚ q_remove id l2.
Proof. apply filter_Permutation. Qed.

Lemma elem_of_q_remove id l v : v ∈ q_remove id l <-> v ∈ l /\ ov_id v <> id.
Proof. unfold q_remove. rewrite list_elem_of_filter. tauto. Qed.

Lemma q_remove_notin id l : id ∉ (ov_id <$> l) -> q_remove id l = l.
Proof.
  intros Hn. unfold q_remove. apply filter_all. intros v Hv E.
  apply Hn, list_elem_of_fmap. eauto.
Qed.

Lemma q_remove_sorted s id l :
  StronglySorted (before s) l -> StronglySorted (before s) (q_remove id l).
Proof. apply StronglySorted_filter. Qed.

Lemma q_resize_ids id q l : ov_id <$> q_resize id q l = ov_id <$> l.
Proof.
  unfold q_resize. rewrite <- list_fmap_compose. apply list_fmap_ext.
  intros i v _. simpl. by case_decide.
Qed.

Lemma q_resize_notin id q l : id ∉ (ov_id <$> l) -> q_resize id q l = l.
Proof.
  intros Hn. unfold q_resize. rewrite <- (list_fmap_id l) at 2. apply list_fmap_ext.
  intros i v Hi. rewrite decide_False; [done|]. intros E.
  apply Hn, list_elem_of_fmap. exists v. split; [done|]. by eapply list_elem_of_lookup_2.
Qed.

Lemma q_resize_sorted s id q l :
  StronglySorted (before s) l -> StronglySorted (before s) (q_resize id q l).
Proof.
  unfold q_resize. induction 1 as [|v l Hs IH Hf]; simpl; constructor; [done|].
  rewrite Forall_forall in *. intros w (u & -> & Hu)%list_elem_of_fmap.
  pose proof (Hf _ Hu). unfold before in *. by repeat case_decide.
Qed.

Lemma q_remove_insert s v l id :
  ov_id v = id -> id ∉ (ov_id <$> l) -> q_remove id (q_insert s v l) = l.
Proof.
  intros Hid Hn. induction l as [|w l IH]; simpl.
  - unfold q_remove. by rewrite filter_cons, decide_False by auto.
  - rewrite fmap_cons, not_elem_of_cons in Hn. destruct Hn as [Hw Hn].
    case_decide; unfold q_remove in *; rewrite !filter_cons.
    + rewrite decide_True by auto. f_equal. by apply IH.
    + rewrite decide_False by auto. rewrite decide_True by auto. f_equal.
      by apply (q_remove_notin id l).
Qed.

(** Removing another order and inserting commute. *)
Lemma q_remove_insert_ne s v l id :
  StronglySorted (before s) l -> ov_id v <> id ->
  q_remove id (q_insert s v l) = q_insert s v (q_remove id l).
Proof.
  intros Hs Hne. induction Hs as [|w l Hs IH Hf]; simpl; unfold q_remove in *.
  - by rewrite filter_cons, decide_True by done.
  - case_decide as Hd; rewrite !filter_cons.
    + destruct (decide (ov_id w <> id)); simpl; [|done]. by rewrite decide_True, IH.
    + rewrite (decide_True (P := ov_id v <> id)) by done.
      destruct (decide (ov_id w <> id)); simpl; [by rewrite decide_False|].
      symmetry. apply (q_insert_app s v []); [constructor|].
      apply Forall_forall. intros u [_ Hu]%list_elem_of_filter.
      rewrite Forall_forall in Hf. specialize (Hf u Hu). unfold before in Hf.
      intros Huv. apply Hd. by transitivity (ov_price u).
Qed.

(** ** Membership in a well-formed book *)

Lemma elem_of_orders b v : v ∈ lob_orders b <-> v ∈ queue Bid b \/ v ∈ queue Ask b.
Proof. unfold lob_orders. by rewrite elem_of_app. Qed.

Lemma order_of_book b v :
  lob_wf b -> v ∈ lob_orders b -> valid_side (ov_side v) /\ order_ok (ov_side v) v /\ v ∈ queue (ov_side v) b.
Proof.
  intros Hwf Hv. assert (exists s, valid_side s /\ v ∈ queue s b) as (s & Hs & Hq).
  { apply elem_of_orders in Hv as [Hv|Hv]; [exists Bid|exists Ask]; split; try done; [by left|by right]. }
  pose proof (wf_order _ Hwf _ _ Hq) as Hok. by rewrite (ok_side _ _ Hok).
Qed.

Lemma elem_of_queue_side b s v :
  lob_wf b -> valid_side s -> (v ∈ queue s b <-> v ∈ lob_orders b /\ ov_side v = s).
Proof.
  intros Hwf Hs. split.
  - intros Hv. split; [apply elem_of_orders; destruct Hs as [-> | ->]; auto|].
    exact (ok_side _ _ (wf_order _ Hwf _ _ Hv)).
  - intros [Hv <-]. by apply (order_of_book b v Hwf).
Qed.

Lemma lob_find_Some b id v :
  lob_wf b -> (lob_find id b = Some v <-> v ∈ lob_orders b /\ ov_id v = id).
Proof.
  intros Hwf. split; [apply find_id_Some|]. intros [Hv Hid].
  by apply find_id_elem; [apply Hwf|..].
Qed.

Lemma orders_unique b v w :
  lob_wf b -> v ∈ lob_orders b -> w ∈ lob_orders b -> ov_id v = ov_id w -> v = w.
Proof.
  intros Hwf Hv Hw E.
  assert (lob_find (ov_id w) b = Some v) as E1 by by apply lob_find_Some.
  assert (lob_find (ov_id w) b = Some w) as E2 by by apply lob_find_Some.
  congruence.
Qed.

Lemma elem_of_lob_insert b v w :
  valid_side (ov_side v) -> (w ∈ lob_orders (lob_insert v b) <-> w = v \/ w ∈ lob_orders b).
Proof.
  intros [Hs|Hs]; unfold lob_insert, lob_orders; rewrite Hs; simpl;
    rewrite !elem_of_app, q_insert_perm, elem_of_cons; tauto.
Qed.

Lemma elem_of_lob_remove b id w :
  w ∈ lob_orders (lob_remove id b) <-> w ∈ lob_orders b /\ ov_id w <> id.
Proof. unfold lob_orders. simpl. rewrite !elem_of_app, !elem_of_q_remove. tauto. Qed.

Lemma elem_of_lob_resize b v q w :
  lob_wf b -> v ∈ lob_orders b ->
  (w ∈ lob_orders (lob_resize (ov_id v) q b) <->
   w = with_quantity q v \/ (w ∈ lob_orders b /\ ov_id w <> ov_id v)).
Proof.
  intros Hwf Hv.
  assert (lob_orders (lob_resize (ov_id v) q b) = q_resize (ov_id v) q (lob_orders b)) as ->.
  { unfold lob_orders. simpl. symmetry. apply q_resize_app. }
  unfold q_resize. rewrite list_elem_of_fmap. split.
  - intros (u & -> & Hu). case_decide as E; [left|by right].
    by rewrite (orders_unique b u v Hwf Hu Hv E).
  - intros [->|[Hw Hne]]; [exists v; by rewrite decide_True|exists w; by rewrite decide_False].
Qed.
