(* ===== verification/OrderBook.v ===== *)
(** * The order book, as the code has it

    [include/order_book/core/order_book.hpp] and [src/core/order_book.cpp].
    A list iterator is the address of its node; [nodes] holds the contents of
    the nodes, so that the index and the price levels share each order the way
    they do in the program: [iter->remaining_quantity] reads and writes one
    cell that both can see.  The book is generic in the allocator of its nodes
    (Allocator.v). *)
From S2P Require Import Prelude StdMap Types Allocator.

Record OrderEntry := mkEntry {
  oe_id : OrderId;
  oe_remaining : Quantity
}.

(** [orders] lists the node addresses from front to back. *)
Record PriceLevel := mkLevel {
  pl_orders : list Z;
  pl_aggregate : Z
}.

Record OrderLocation := mkLoc {
  loc_side : Side;
  loc_price : Price;
  loc_iterator : Z
}.

#[export] Instance OrderEntry_eq_dec : EqDecision OrderEntry.
Proof. solve_decision. Defined.
#[export] Instance PriceLevel_eq_dec : EqDecision PriceLevel.
Proof. solve_decision. Defined.
#[export] Instance OrderLocation_eq_dec : EqDecision OrderLocation.
Proof. solve_decision. Defined.

Record OrderBook (A : Type) := mkBook {
  pool_ : option A;
  nodes : gmap Z OrderEntry;
  bids_ : gmap Price PriceLevel;
  asks_ : gmap Price PriceLevel;
  orders_by_id_ : gmap OrderId OrderLocation
}.
Arguments mkBook {A} _ _ _ _ _.
Arguments pool_ {A} _.
Arguments nodes {A} _.
Arguments bids_ {A} _.
Arguments asks_ {A} _.
Arguments orders_by_id_ {A} _.

(** What the general heap does during one call: the block a new pool receives,
    and whether the pool's bookkeeping vectors, a new price level and a new
    index entry get their memory. *)
Record Heap := mkHeap {
  heap_block : option Z;
  heap_pool : bool;
  heap_level : bool;
  heap_index : bool
}.

Section book.
Context {A : Type} `{!NodeAllocator A}.
Implicit Types (b : OrderBook A) (s : Side) (it : Z).

Definition set_pool (p : option A) b : OrderBook A :=
  mkBook p (nodes b) (bids_ b) (asks_ b) (orders_by_id_ b).
Definition set_nodes (n : gmap Z OrderEntry) b : OrderBook A :=
  mkBook (pool_ b) n (bids_ b) (asks_ b) (orders_by_id_ b).
Definition set_index (i : gmap OrderId OrderLocation) b : OrderBook A :=
  mkBook (pool_ b) (nodes b) (bids_ b) (asks_ b) i.
Definition levels s b : gmap Price PriceLevel :=
  match s with Bid => bids_ b | _ => asks_ b end.
Definition set_levels s (m : gmap Price PriceLevel) b : OrderBook A :=
  match s with
  | Bid => mkBook (pool_ b) (nodes b) m (asks_ b) (orders_by_id_ b)
  | _ => mkBook (pool_ b) (nodes b) (bids_ b) m (orders_by_id_ b)
  end.
Definition put_level s (p : Price) (l : PriceLevel) b : OrderBook A :=
  set_levels s (<[p := l]> (levels s b)) b.
Definition erase_level s (p : Price) b : OrderBook A :=
  set_levels s (delete p (levels s b)) b.
Definition set_node it (e : OrderEntry) b : OrderBook A :=
  set_nodes (<[it := e]> (nodes b)) b.
Definition put_index (id : OrderId) (l : OrderLocation) b : OrderBook A :=
  set_index (<[id := l]> (orders_by_id_ b)) b.
Definition erase_index (id : OrderId) b : OrderBook A :=
  set_index (delete id (orders_by_id_ b)) b.

(** [*iterator]; a node that is not allocated makes it undefined. *)
Definition deref it b : outcome OrderEntry :=
  from_option_or (Undefined "dangling list iterator") (nodes b !! it).

(** Node allocation and release by [std::list] through its allocator. *)
Definition new_node (ok : bool) (e : OrderEntry) b : outcome (Z * OrderBook A) :=
  match pool_ b with
  | None => Throw (Undefined "allocator without a pool")
  | Some a =>
    '(it, a) ← na_allocate ok a;
    Ret (it, set_node it e (set_pool (Some a) b))
  end.

Definition free_node it b : outcome (OrderBook A) :=
  match pool_ b with
  | None => Throw (Undefined "allocator without a pool")
  | Some a =>
    a ← na_deallocate it a;
    Ret (set_nodes (delete it (nodes b)) (set_pool (Some a) b))
  end.

(** [orders.erase(it)]: undefined unless the node is in this list. *)
Definition list_erase it (l : PriceLevel) : outcome PriceLevel :=
  if decide (it ∈ pl_orders l) then
    Ret (mkLevel (filter (fun i => i <> it) (pl_orders l)) (pl_aggregate l))
  else Throw (Undefined "erase of a foreign list iterator").

Definition find_level s (p : Price) b : outcome PriceLevel :=
  from_option_or (Undefined "levels.end()->second") (levels s b !! p).

(** [level.orders.erase(it)] on the level at [p], freeing the node. *)
Definition level_erase s (p : Price) it b : outcome (OrderBook A) :=
  l ← find_level s p b;
  l ← list_erase it l;
  free_node it (put_level s p l b).

(** [level.orders.pop_back()] *)
Definition level_pop_back s (p : Price) b : outcome (OrderBook A) :=
  l ← find_level s p b;
  it ← from_option_or (Undefined "pop_back of an empty list") (last (pl_orders l));
  free_node it (put_level s p (mkLevel (removelast (pl_orders l)) (pl_aggregate l)) b).

Definition level_add_quantity s (p : Price) (q : Z) b : outcome (OrderBook A) :=
  l ← find_level s p b;
  Ret (put_level s p (mkLevel (pl_orders l) (u64 (pl_aggregate l + q))) b).

(** [if (level.orders.empty()) levels.erase(level)] *)
Definition erase_if_empty s (p : Price) b : outcome (OrderBook A) :=
  l ← find_level s p b;
  Ret (if decide (pl_orders l = []) then erase_level s p b else b).

(** The handler of [std::bad_alloc]: undo what the try block had done. *)
Definition rollback s (p : Price) (created node : bool) b : outcome (ApplyResult * OrderBook A) :=
  b ← if node then level_pop_back s p b else Ret b;
  Ret (AllocationFailed, if created then erase_level s p b else b).

(** [levels.try_emplace(price, order_alloc_)] followed by
    [orders.emplace_back(id, quantity)]: the flags [created] and the new node,
    or the rolled-back result. *)
Definition reserve_node (h : Heap) s (p : Price) (e : OrderEntry) b
    : outcome ((ApplyResult * OrderBook A) + (bool * Z * OrderBook A)) :=
  let created := bool_decide (levels s b !! p = None) in
  if created && negb (heap_level h) then
    r ← rollback s p false false b; Ret (inl r)
  else
    let b := if created then put_level s p (mkLevel [] 0) b else b in
    match new_node (heap_pool h) e b with
    | Throw BadAlloc => r ← rollback s p created false b; Ret (inl r)
    | Throw x => Throw x
    | Ret (it, b) =>
      l ← find_level s p b;
      Ret (inr (created, it, put_level s p (mkLevel (pl_orders l ++ [it]) (pl_aggregate l)) b))
    end.

(** The lambda [add_to] of [apply(const AddOrder&)]. *)
Definition add_to (h : Heap) s (e : AddOrder) b : outcome (ApplyResult * OrderBook A) :=
  let p := add_price e in
  r ← reserve_node h s p (mkEntry (add_id e) (add_quantity e)) b;
  match r with
  | inl r => Ret r
  | inr (created, it, b) =>
    match orders_by_id_ b !! add_id e with
    | Some _ =>
      b ← level_pop_back s p b;
      Ret (DuplicateOrder, if (created : bool) then erase_level s p b else b)
    | None =>
      if heap_index h then
        b ← level_add_quantity s p (add_quantity e)
              (put_index (add_id e) (mkLoc (add_side e) p it) b);
        Ret (Ok, b)
      else rollback s p created true b
    end
  end.

(** [ApplyResult OrderBook::apply(const AddOrder&)] *)
Definition apply_add (h : Heap) (e : AddOrder) b : outcome (ApplyResult * OrderBook A) :=
  if decide (add_quantity e = 0) then Ret (InvalidQuantity, b)
  else if decide (add_price e = 0) then Ret (InvalidPrice, b)
  else if decide (is_Some (orders_by_id_ b !! add_id e)) then Ret (DuplicateOrder, b)
  else if decide (add_side e <> Bid /\ add_side e <> Ask) then Ret (UnknownOrder, b)
  else match pool_ b with
       | None => Ret (AllocationFailed, b)
       | Some _ => if decide (add_side e = Bid) then add_to h Bid e b else add_to h Ask e b
       end.

(** One side of [apply(const CancelOrder&)]: take the order's quantity off the
    level, unlink its node and drop the level when it was the last one.  [None]
    means the level was not found. *)
Definition cancel_on s (loc : OrderLocation) b : outcome (option (OrderBook A)) :=
  let p := loc_price loc in
  match levels s b !! p with
  | None => Ret None
  | Some _ =>
    e ← deref (loc_iterator loc) b;
    b ← level_add_quantity s p (- oe_remaining e) b;
    b ← level_erase s p (loc_iterator loc) b;
    b ← erase_if_empty s p b;
    Ret (Some b)
  end.

Definition apply_cancel (e : CancelOrder) b : outcome (ApplyResult * OrderBook A) :=
  match orders_by_id_ b !! cancel_id e with
  | None => Ret (UnknownOrder, b)
  | Some loc =>
    match loc_side loc with
    | SideOther _ => Ret (NotImplemented, b)
    | s =>
      r ← cancel_on s loc b;
      match r with
      | None => Ret (UnknownOrder, b)
      | Some b => Ret (Ok, erase_index (cancel_id e) b)
      end
    end
  end.

(** One side of [apply(const ExecuteOrder&)]. *)
Definition execute_on s (loc : OrderLocation) (e : ExecuteOrder) b
    : outcome (ApplyResult * OrderBook A) :=
  let p := loc_price loc in
  match levels s b !! p with
  | None => Ret (UnknownOrder, b)
  | Some _ =>
    b ← level_add_quantity s p (- execute_quantity e) b;
    n ← deref (loc_iterator loc) b;
    let left := u32 (oe_remaining n - execute_quantity e) in
    let b := set_node (loc_iterator loc) (mkEntry (oe_id n) left) b in
    if decide (left = 0) then
      b ← level_erase s p (loc_iterator loc) b;
      b ← erase_if_empty s p b;
      Ret (Ok, erase_index (execute_id e) b)
    else Ret (Ok, b)
  end.

Definition apply_execute (e : ExecuteOrder) b : outcome (ApplyResult * OrderBook A) :=
  match orders_by_id_ b !! execute_id e with
  | None => Ret (UnknownOrder, b)
  | Some loc =>
    if decide (execute_quantity e = 0) then Ret (InvalidQuantity, b)
    else
      n ← deref (loc_iterator loc) b;
      if decide (oe_remaining n < execute_quantity e) then Ret (QuantityExceedsRemaining, b)
      else match loc_side loc with
           | SideOther _ => Ret (NotImplemented, b)
           | s => execute_on s loc e b
           end
  end.

(** [ApplyResult OrderBook::apply(const EventPayload&)], the [std::visit]. *)
Definition apply_event (h : Heap) (p : EventPayload) b : outcome (ApplyResult * OrderBook A) :=
  match p with
  | PAdd e => apply_add h e b
  | PCancel e => apply_cancel e b
  | PExecute e => apply_execute e b
  end.

(** The lambda [adjust] of [replace]: the new quantity in place. *)
Definition adjust s (old : OrderLocation) (q : Quantity) b : outcome (OrderBook A) :=
  n ← deref (loc_iterator old) b;
  b ← level_add_quantity s (loc_price old) (- oe_remaining n) b;
  let b := set_node (loc_iterator old) (mkEntry (oe_id n) q) b in
  level_add_quantity s (loc_price old) q b.

(** The lambda [move_to] of [replace]: reserve the new node (and index entry)
    first, then retire the old one. *)
Definition move_to (h : Heap) s (old_id : OrderId) (old : OrderLocation) (next : AddOrder) b
    : outcome (ApplyResult * OrderBook A) :=
  let p := add_price next in
  r ← reserve_node h s p (mkEntry (add_id next) (add_quantity next)) b;
  match r with
  | inl r => Ret r
  | inr (created, it, b) =>
    let location := mkLoc (add_side next) p it in
    if bool_decide (add_id next <> old_id) && negb (heap_index h) then rollback s p created true b
    else
      let b :=
        if decide (add_id next <> old_id) then put_index (add_id next) location b else b in
      n ← deref (loc_iterator old) b;
      b ← level_add_quantity s (loc_price old) (- oe_remaining n) b;
      b ← level_erase s (loc_price old) (loc_iterator old) b;
      b ← level_add_quantity s p (add_quantity next) b;
      let b :=
        if decide (add_id next = old_id) then put_index old_id location b
        else erase_index old_id b in
      b ← erase_if_empty s (loc_price old) b;
      Ret (Ok, b)
  end.

(** [ApplyResult OrderBook::replace(old_id, next, maintain_priority)] *)
Definition replace (h : Heap) (old_id : OrderId) (next : AddOrder) (maintain_priority : bool) b
    : outcome (ApplyResult * OrderBook A) :=
  match orders_by_id_ b !! old_id with
  | None => Ret (UnknownOrder, b)
  | Some old =>
    if decide (add_quantity next = 0) then Ret (InvalidQuantity, b)
    else if decide (add_price next = 0) then Ret (InvalidPrice, b)
    else if decide (add_side next <> loc_side old) then Ret (UnknownOrder, b)
    else if decide (add_id next <> old_id /\ is_Some (orders_by_id_ b !! add_id next))
    then Ret (DuplicateOrder, b)
    else if maintain_priority then
      if decide (add_price next <> loc_price old \/ add_id next <> old_id)
      then Ret (InvalidPrice, b)
      else
        b ← adjust (if decide (loc_side old = Bid) then Bid else Ask) old (add_quantity next) b;
        Ret (Ok, b)
    else move_to h (if decide (loc_side old = Bid) then Bid else Ask) old_id old next b
  end.

(** ** Queries *)

Definition ordered_levels s b : list (Price * PriceLevel) := ordered (price_before s) (levels s b).

Definition best_quantity s b : Z :=
  match s with
  | SideOther _ => 0
  | _ => match map_begin (price_before s) (levels s b) with
         | Some (_, l) => pl_aggregate l
         | None => 0
         end
  end.

Definition best_price s b : option Price := fst <$> map_begin (price_before s) (levels s b).
Definition best_bid b : option Price := best_price Bid b.
Definition best_ask b : option Price := best_price Ask b.

Definition remaining_quantity (id : OrderId) b : outcome (option Quantity) :=
  match orders_by_id_ b !! id with
  | None => Ret None
  | Some loc => n ← deref (loc_iterator loc) b; Ret (Some (oe_remaining n))
  end.

Definition order_count b : nat := size (orders_by_id_ b).
Definition bid_level_count b : nat := size (bids_ b).
Definition ask_level_count b : nat := size (asks_ b).

Definition order (id : OrderId) b : outcome (option OrderView) :=
  match orders_by_id_ b !! id with
  | None => Ret None
  | Some loc =>
    n ← deref (loc_iterator loc) b;
    Ret (Some (mkView id (loc_side loc) (loc_price loc) (oe_remaining n)))
  end.

Definition front s b : outcome (option OrderView) :=
  match s with
  | SideOther _ => Ret None
  | _ =>
    match map_begin (price_before s) (levels s b) with
    | None => Ret None
    | Some (_, l) =>
      it ← from_option_or (Undefined "front of an empty list") (head (pl_orders l));
      n ← deref it b;
      order (oe_id n) b
    end
  end.

(** The orders of one level as the visitors see them. *)
Definition level_views s (p : Price) (l : PriceLevel) b : outcome (list OrderView) :=
  mapO (fun it => n ← deref it b; Ret (mkView (oe_id n) s p (oe_remaining n))) (pl_orders l).

Definition snapshot_side s b : outcome (list LevelView) :=
  mapO (fun pl => vs ← level_views s pl.1 pl.2 b;
                  Ret (mkLevelView s pl.1 (pl_aggregate pl.2) vs)) (ordered_levels s b).

Definition snapshot b : outcome (list LevelView) :=
  bs ← snapshot_side Bid b;
  ks ← snapshot_side Ask b;
  Ret (bs ++ ks).

(** [for_each_order(side, visitor)]: the visitor threads a state and returns
    [false] to stop. *)
Section visit.
Context {S : Type} (visitor : OrderView -> S -> outcome (bool * S)).

Fixpoint visit_level s (p : Price) (its : list Z) b (st : S) : outcome (bool * S) :=
  match its with
  | [] => Ret (true, st)
  | it :: its =>
    n ← deref it b;
    '(continue, st) ← visitor (mkView (oe_id n) s p (oe_remaining n)) st;
    if (continue : bool) then visit_level s p its b st else Ret (false, st)
  end.

Fixpoint visit_levels s (ls : list (Price * PriceLevel)) b (st : S) : outcome S :=
  match ls with
  | [] => Ret st
  | (p, l) :: ls =>
    '(continue, st) ← visit_level s p (pl_orders l) b st;
    if (continue : bool) then visit_levels s ls b st else Ret st
  end.

Definition for_each_order s b (st : S) : outcome S :=
  match s with
  | SideOther _ => Ret st
  | _ => visit_levels s (ordered_levels s b) b st
  end.
End visit.

(** ** Construction, reset and moves *)

(** [void reset() noexcept]: clearing a level's list frees its nodes. *)
Definition clear_level b (l : PriceLevel) : outcome (OrderBook A) :=
  foldM (fun b it => free_node it b) b (pl_orders l).

Definition clear_side s b : outcome (OrderBook A) :=
  b' ← foldM (fun b pl => clear_level b pl.2) b (ordered_levels s b);
  Ret (set_levels s ∅ b').

Definition reset b : outcome (OrderBook A) :=
  b ← clear_side Bid b;
  b ← clear_side Ask b;
  Ret (set_index ∅ b).

(** A book over a given pool: the constructor once the pool exists. *)
Definition book_of_pool (a : A) : OrderBook A := mkBook (Some a) ∅ ∅ ∅ ∅.

(** A moved-from book: no pool, empty containers. *)
Definition moved_from : OrderBook A := mkBook None ∅ ∅ ∅ ∅.

(** [OrderBook(OrderBook&&)] gives (the new book, what is left of [other]);
    move assignment resets the target first. *)
Definition move_construct (other : OrderBook A) : OrderBook A * OrderBook A := (other, moved_from).

Definition move_assign (this other : OrderBook A) : outcome (OrderBook A * OrderBook A) :=
  _ ← reset this;
  Ret (other, moved_from).

End book.
