(* ===== verification/OrderBookInv.v ===== *)
(** * The book invariant and its abstraction

    A book is well formed when its levels, nodes and index all describe one
    [content]: per side and price, the queue of (node address, entry) pairs.
    [abs] reads the abstract book of LOB.v off the levels and nodes. *)
From S2P Require Import Prelude StdMap Types Allocator LOB OrderBook.

(** ** Projections of the setters *)
Section setters.
Context {A : Type} `{!NodeAllocator A}.
Implicit Types (b : OrderBook A).

Lemma levels_set_levels s s' m b :
  valid_side s -> valid_side s' ->
  levels s (set_levels s' m b) = if decide (s = s') then m else levels s b.
Proof. intros [-> | ->] [-> | ->]; done. Qed.
Lemma levels_set_levels_eq s m b : levels s (set_levels s m b) = m.
Proof. by destruct s. Qed.
Lemma levels_set_nodes s n b : levels s (set_nodes n b) = levels s b.
Proof. by destruct s. Qed.
Lemma levels_set_node s it e b : levels s (set_node it e b) = levels s b.
Proof. by destruct s. Qed.
Lemma levels_set_pool s p b : levels s (set_pool p b) = levels s b.
Proof. by destruct s. Qed.
Lemma levels_set_index s i b : levels s (set_index i b) = levels s b.
Proof. by destruct s. Qed.
Lemma nodes_set_levels s m b : nodes (set_levels s m b) = nodes b.
Proof. by destruct s. Qed.
Lemma index_set_levels s m b : orders_by_id_ (set_levels s m b) = orders_by_id_ b.
Proof. by destruct s. Qed.
Lemma pool_set_levels s m b : pool_ (set_levels s m b) = pool_ b.
Proof. by destruct s. Qed.
End setters.

Create Rewrite HintDb book.
#[export] Hint Rewrite @levels_set_levels_eq @levels_set_nodes @levels_set_node @levels_set_pool
  @levels_set_index @nodes_set_levels @index_set_levels @pool_set_levels : book.

Ltac book_simpl :=
  repeat (progress (autorewrite with book; simpl)).

(** ** Content *)

Abbreviation cell := (Z * OrderEntry)%type (only parsing).
Abbreviation content := (Side -> gmap Price (list (Z * OrderEntry))) (only parsing).

Definition content_at (C : content) (s : Side) (p : Price) (x : cell) : Prop :=
  exists l, C s !! p = Some l /\ x ∈ l.

Definition set_side (s : Side) (m : gmap Price (list (Z * OrderEntry))) (C : content) : content :=
  fun s' => if decide (s' = s) then m else C s'.

Definition total_of (l : list (Z * OrderEntry)) : Z := sumZ ((fun x => oe_remaining x.2) <$> l).

Definition level_of (l : list (Z * OrderEntry)) : PriceLevel := mkLevel l.*1 (u64 (total_of l)).

Definition view_cell (s : Side) (p : Price) (x : cell) : OrderView :=
  mkView (oe_id x.2) s p (oe_remaining x.2).

Definition flat (s : Side) (m : gmap Price (list (Z * OrderEntry))) : list OrderView :=
  ordered (price_before s) m ≫= fun pl => view_cell s pl.1 <$> pl.2.

(** The three changes an operation can make. *)
Definition c_insert s p (x : cell) (C : content) : content :=
  set_side s (<[p := default [] (C s !! p) ++ [x]]> (C s)) C.

Definition drop_cell (it : Z) (l : list (Z * OrderEntry)) : list (Z * OrderEntry) :=
  filter (fun x => x.1 <> it) l.

Definition c_remove s p (it : Z) (C : content) : content :=
  set_side s (partial_alter (fun o =>
    match drop_cell it (default [] o) with [] => None | l => Some l end) p (C s)) C.

Definition resize_cell (it : Z) (q : Quantity) (x : cell) : cell :=
  if decide (x.1 = it) then (x.1, mkEntry (oe_id x.2) q) else x.

Definition c_resize s p (it : Z) (q : Quantity) (C : content) : content :=
  set_side s (alter (fmap (resize_cell it q)) p (C s)) C.

Record content_ok (C : content) : Prop := {
  co_level s p l : valid_side s -> C s !! p = Some l -> 0 < p < 2 ^ 32 /\ l <> [] /\ NoDup l.*1;
  co_quantity s p x : valid_side s -> content_at C s p x -> 0 < oe_remaining x.2 < 2 ^ 32;
  co_id s p x s' p' x' :
    valid_side s -> valid_side s' -> content_at C s p x -> content_at C s' p' x' ->
    oe_id x.2 = oe_id x'.2 -> s = s' /\ p = p' /\ x = x';
  co_node s p x s' p' x' :
    valid_side s -> valid_side s' -> content_at C s p x -> content_at C s' p' x' ->
    x.1 = x'.1 -> s = s' /\ p = p' /\ x = x'
}.

Section represents.
Context {A : Type} `{!NodeAllocator A} `{!NodeAllocatorLaws A}.
Implicit Types (b : OrderBook A).

Definition pool_ok b : Prop :=
  match pool_ b with
  | Some a => na_wf a /\ na_live a = dom (nodes b)
  | None => nodes b = ∅
  end.

(** The levels, nodes and index describe the content [C]. *)
Record describes b (C : content) : Prop := {
  rep_content : content_ok C;
  rep_levels s : valid_side s -> levels s b = level_of <$> C s;
  rep_nodes it e :
    nodes b !! it = Some e <-> exists s p, valid_side s /\ content_at C s p (it, e);
  rep_index id loc :
    orders_by_id_ b !! id = Some loc <->
    exists e, valid_side (loc_side loc) /\
      content_at C (loc_side loc) (loc_price loc) (loc_iterator loc, e) /\ oe_id e = id
}.

Definition represents b (C : content) : Prop := describes b C /\ pool_ok b.

Definition book_wf b : Prop := exists C, represents b C.

(** The abstract book, read off the levels and the nodes. *)
Definition level_views_of s (p : Price) (l : PriceLevel) b : list OrderView :=
  omap (fun it => (fun e => view_cell s p (it, e)) <$> nodes b !! it) (pl_orders l).

Definition abs_side s b : list OrderView :=
  ordered_levels s b ≫= fun pl => level_views_of s pl.1 pl.2 b.

Definition abs b : LOB := mkLOB (abs_side Bid b) (abs_side Ask b).
End represents.

(** ** Content updates, cell by cell *)

Lemma set_side_eq s m C : set_side s m C s = m.
Proof. unfold set_side. by rewrite decide_True. Qed.
Lemma set_side_ne s s' m C : s' <> s -> set_side s m C s' = C s'.
Proof. intros. unfold set_side. by rewrite decide_False. Qed.

Lemma content_at_unique C s p x s' p' x' :
  content_ok C -> valid_side s -> valid_side s' ->
  content_at C s p x -> content_at C s' p' x' -> x.1 = x'.1 -> s = s' /\ p = p' /\ x = x'.
Proof. intros [] ?? ?? ?. eauto. Qed.

Lemma c_insert_at s p x C s' p' y :
  content_at (c_insert s p x C) s' p' y <->
  content_at C s' p' y \/ (s' = s /\ p' = p /\ y = x).
Proof.
  unfold content_at, c_insert. destruct (decide (s' = s)) as [->|Hs].
  2: { rewrite set_side_ne by done. naive_solver. }
  rewrite set_side_eq. destruct (decide (p' = p)) as [->|Hp].
  - rewrite lookup_insert_eq. split.
    + intros (l & [= <-] & Hy). rewrite elem_of_app, list_elem_of_singleton in Hy.
      destruct Hy as [Hy| ->]; [left|by right].
      destruct (C s !! p) as [l|] eqn:E; simpl in Hy; [eauto|by apply not_elem_of_nil in Hy].
    + intros Hy. eexists. split; [done|]. rewrite elem_of_app, list_elem_of_singleton.
      destruct Hy as [(l & E & Hy)|(_ & _ & ->)]; [left|by right]. by rewrite E.
  - rewrite lookup_insert_ne by done. naive_solver.
Qed.

Lemma elem_of_drop_cell it l x : x ∈ drop_cell it l <-> x ∈ l /\ x.1 <> it.
Proof. unfold drop_cell. rewrite list_elem_of_filter. tauto. Qed.

Lemma c_remove_lookup s p it C p' :
  c_remove s p it C s !! p' =
  if decide (p = p') then
    match drop_cell it (default [] (C s !! p)) with [] => None | l => Some l end
  else C s !! p'.
Proof. unfold c_remove. rewrite set_side_eq, lookup_partial_alter. by case_decide; subst. Qed.

Lemma c_remove_at s p it e C s' p' y :
  content_ok C -> valid_side s -> valid_side s' -> content_at C s p (it, e) ->
  (content_at (c_remove s p it C) s' p' y <-> content_at C s' p' y /\ y.1 <> it).
Proof.
  intros Hok Hs Hs' Hin.
  assert (content_at C s' p' y -> y.1 = it -> s' = s /\ p' = p) as Huniq.
  { intros Hy Hit. destruct (content_at_unique _ _ _ _ _ _ _ Hok Hs' Hs Hy Hin Hit). naive_solver. }
  unfold content_at at 1. destruct (decide (s' = s)) as [->|Hss].
  2: { unfold c_remove. rewrite set_side_ne by done. fold (content_at C s' p' y). naive_solver. }
  rewrite c_remove_lookup. case_decide as Hp; [subst p'|fold (content_at C s p' y); naive_solver].
  unfold content_at at 1. destruct (C s !! p) as [l|] eqn:E; simpl.
  2: { destruct Hin as (? & ? & ?). congruence. }
  split.
  - intros (l' & El & Hy). assert (y ∈ drop_cell it l) as Hd.
    { by destruct (drop_cell it l); [|injection El as <-]. }
    apply elem_of_drop_cell in Hd as [? ?]. eauto.
  - intros [(l' & [= <-] & Hy) Hne].
    assert (y ∈ drop_cell it l) as Hd by by apply elem_of_drop_cell.
    destruct (drop_cell it l); [by apply not_elem_of_nil in Hd|]. eauto.
Qed.

Lemma c_resize_at s p it q e C s' p' y :
  content_ok C -> valid_side s -> valid_side s' -> content_at C s p (it, e) ->
  (content_at (c_resize s p it q C) s' p' y <->
   (content_at C s' p' y /\ y.1 <> it) \/ (s' = s /\ p' = p /\ y = (it, mkEntry (oe_id e) q))).
Proof.
  intros Hok Hs Hs' Hin.
  assert (forall z, content_at C s' p' z -> z.1 = it -> s' = s /\ p' = p /\ z = (it, e)) as Huniq.
  { intros z Hz Hit. by apply (content_at_unique _ _ _ _ _ _ _ Hok Hs' Hs Hz Hin). }
  unfold content_at at 1, c_resize. destruct (decide (s' = s)) as [->|Hss].
  2: { rewrite set_side_ne by done. fold (content_at C s' p' y). naive_solver. }
  rewrite set_side_eq, lookup_alter. case_decide as Hp.
  2: { fold (content_at C s p' y). naive_solver. }
  subst p'. unfold content_at in Hin. destruct Hin as (l & E & Hl).
  unfold content_at in *. rewrite E in *; simpl in *. split.
  - intros (l' & [= <-] & (x & -> & Hx)%list_elem_of_fmap). unfold resize_cell.
    case_decide as Hit; [right|left]; [|by eauto].
    destruct (Huniq x) as (_ & _ & ->); eauto.
  - intros [[(l' & [= <-] & Hy) Hne]|(_ & _ & ->)]; eexists; (split; [done|]);
      apply list_elem_of_fmap; unfold resize_cell.
    + exists y. by rewrite decide_False.
    + exists (it, e). by rewrite decide_True.
Qed.

(** ** The updates preserve well-formed content *)

Lemma valid_bid : valid_side Bid.
Proof. by left. Qed.
Lemma valid_ask : valid_side Ask.
Proof. by right. Qed.
#[export] Hint Resolve valid_bid valid_ask : lob.

Lemma c_insert_ok s p x C :
  content_ok C -> valid_side s -> 0 < p < 2 ^ 32 -> 0 < oe_remaining x.2 < 2 ^ 32 ->
  (forall s' p' y, valid_side s' -> content_at C s' p' y ->
     y.1 <> x.1 /\ oe_id y.2 <> oe_id x.2) ->
  content_ok (c_insert s p x C).
Proof.
  intros Hok Hs Hp Hq Hfresh. split.
  - intros s' p' l Hs'. unfold c_insert. destruct (decide (s' = s)) as [->|Hss].
    2: { rewrite set_side_ne by done. by apply co_level. }
    rewrite set_side_eq. destruct (decide (p' = p)) as [->|Hpp].
    2: { rewrite lookup_insert_ne by done. by apply co_level. }
    rewrite lookup_insert_eq. intros [= <-]. split_and!; [lia|lia|by destruct (default _ _)|].
    rewrite fmap_app. apply NoDup_app. split_and!; [|..|apply NoDup_singleton].
    + destruct (C s !! p) as [l|] eqn:E; simpl; [|constructor]. by eapply (co_level _ Hok).
    + intros it (y & -> & Hy)%list_elem_of_fmap Hx%list_elem_of_singleton.
      destruct (C s !! p) as [l|] eqn:E; simpl in Hy; [|by apply not_elem_of_nil in Hy].
      destruct (Hfresh s p y); [done|by exists l|done].
  - intros s' p' y Hs' [Hy|(_ & _ & ->)]%c_insert_at; [by eapply co_quantity|done].
  - intros s1 p1 x1 s2 p2 x2 H1 H2 [A1|(-> & -> & ->)]%c_insert_at [A2|(-> & -> & ->)]%c_insert_at E.
    + by eapply co_id.
    + by destruct (Hfresh _ _ _ H1 A1).
    + by destruct (Hfresh _ _ _ H2 A2).
    + done.
  - intros s1 p1 x1 s2 p2 x2 H1 H2 [A1|(-> & -> & ->)]%c_insert_at [A2|(-> & -> & ->)]%c_insert_at E.
    + by eapply co_node.
    + by destruct (Hfresh _ _ _ H1 A1).
    + by destruct (Hfresh _ _ _ H2 A2).
    + done.
Qed.

Lemma NoDup_drop_cell it l : NoDup l.*1 -> NoDup (drop_cell it l).*1.
Proof.
  unfold drop_cell. induction l as [|x l IH]; simpl; [done|].
  rewrite filter_cons, NoDup_cons. intros [Hx Hl]. case_decide; simpl; [|auto].
  apply NoDup_cons. split; [|auto]. intros (y & Hy & Hin)%list_elem_of_fmap.
  apply Hx, list_elem_of_fmap. exists y. apply list_elem_of_filter in Hin. naive_solver.
Qed.

Lemma c_remove_ok s p it e C :
  content_ok C -> valid_side s -> content_at C s p (it, e) -> content_ok (c_remove s p it C).
Proof.
  intros Hok Hs Hin.
  assert (forall s' p' y, valid_side s' -> content_at (c_remove s p it C) s' p' y ->
            content_at C s' p' y) as Hsub.
  { intros s' p' y Hs' Hy. by apply (c_remove_at s p it e C s' p' y Hok Hs Hs' Hin) in Hy as []. }
  split.
  - intros s' p' l Hs'. destruct (decide (s' = s)) as [->|Hss].
    2: { unfold c_remove. rewrite set_side_ne by done. by apply co_level. }
    rewrite c_remove_lookup. case_decide as Hp; [|by apply co_level]. subst p'.
    destruct (C s !! p) as [l0|] eqn:E; simpl; [|by destruct Hin as (? & ? & ?); congruence].
    destruct (co_level _ Hok s p l0 Hs E) as (? & ? & ?).
    intros El. assert (l = drop_cell it l0 /\ l <> []) as [-> Hl].
    { destruct (drop_cell it l0); [done|]. injection El as <-. done. }
    split_and!; [lia|lia|done|by apply NoDup_drop_cell].
  - intros s' p' y Hs' Hy. eapply (co_quantity _ Hok s'); eauto.
  - intros s1 p1 x1 s2 p2 x2 H1 H2 A1 A2 E. eapply (co_id _ Hok); eauto.
  - intros s1 p1 x1 s2 p2 x2 H1 H2 A1 A2 E. eapply (co_node _ Hok); eauto.
Qed.

Lemma c_resize_ok s p it e q C :
  content_ok C -> valid_side s -> content_at C s p (it, e) -> 0 < q < 2 ^ 32 ->
  content_ok (c_resize s p it q C).
Proof.
  intros Hok Hs Hin Hq.
  (* every cell of the new content stands for one of the old, with the same id and node *)
  assert (forall s' p' y, valid_side s' -> content_at (c_resize s p it q C) s' p' y ->
    exists y0, content_at C s' p' y0 /\ y0.1 = y.1 /\ oe_id y0.2 = oe_id y.2 /\
      y = resize_cell it q y0) as Hold.
  { intros s' p' y Hs' Hy.
    apply (c_resize_at s p it q e C s' p' y Hok Hs Hs' Hin) in Hy as [[Hy Hne]|(-> & -> & ->)].
    - exists y. unfold resize_cell. by rewrite decide_False.
    - exists (it, e). unfold resize_cell. by rewrite decide_True. }
  split.
  - intros s' p' l Hs'. unfold c_resize. destruct (decide (s' = s)) as [->|Hss].
    2: { rewrite set_side_ne by done. by apply co_level. }
    rewrite set_side_eq, lookup_alter. case_decide as Hp; [|by apply co_level]. subst p'.
    intros (l0 & E & ->)%fmap_Some. destruct (co_level _ Hok s p l0 Hs E) as (? & Hn & Hnd).
    split_and!; [lia|lia|by destruct l0|].
    rewrite <- list_fmap_compose. erewrite list_fmap_ext; [exact Hnd|].
    intros i x _. simpl. unfold resize_cell. by case_decide.
  - intros s' p' y Hs' Hy.
    apply (c_resize_at s p it q e C s' p' y Hok Hs Hs' Hin) in Hy as [[Hy Hne]|(-> & -> & ->)];
      [by eapply co_quantity|done].
  - intros s1 p1 x1 s2 p2 x2 H1 H2 A1 A2 E.
    destruct (Hold _ _ _ H1 A1) as (y1 & B1 & ? & ? & ->), (Hold _ _ _ H2 A2) as (y2 & B2 & ? & ? & ->).
    destruct (co_id _ Hok _ _ _ _ _ _ H1 H2 B1 B2) as (-> & -> & ->); [congruence|done].
  - intros s1 p1 x1 s2 p2 x2 H1 H2 A1 A2 E.
    destruct (Hold _ _ _ H1 A1) as (y1 & B1 & ? & ? & ->), (Hold _ _ _ H2 A2) as (y2 & B2 & ? & ? & ->).
    destruct (co_node _ Hok _ _ _ _ _ _ H1 H2 B1 B2) as (-> & -> & ->); [congruence|done].
Qed.

(** ** The updates seen from the queues *)

Lemma elem_of_flat s m v :
  v ∈ flat s m <-> exists p l x, m !! p = Some l /\ x ∈ l /\ v = view_cell s p x.
Proof.
  unfold flat. rewrite list_elem_of_bind. split.
  - intros ([p l] & Hv & Hpl). simpl in *. apply elem_of_ordered in Hpl.
    apply list_elem_of_fmap in Hv as (x & -> & Hx). eauto 6.
  - intros (p & l & x & Hp & Hx & ->). exists (p, l). split; [|by apply elem_of_ordered].
    apply list_elem_of_fmap. eauto.
Qed.

(** Changing the queue at one price leaves the better prices in front and the
    worse prices behind. *)
Lemma flat_parts s m p :
  exists f1 f2,
    (forall v, v ∈ f1 -> price_before s (ov_price v) p /\ ov_price v <> p) /\
    (forall v, v ∈ f2 -> ~ price_before s (ov_price v) p) /\
    flat s m = f1 ++ (view_cell s p <$> default [] (m !! p)) ++ f2 /\
    (forall f, flat s (partial_alter f p m) =
               f1 ++ (view_cell s p <$> default [] (f (m !! p))) ++ f2) /\
    (forall v, v ∈ f1 ++ f2 -> exists p' l x,
       m !! p' = Some l /\ p' <> p /\ x ∈ l /\ v = view_cell s p' x).
Proof.
  destruct (ordered_alter_parts (price_before s) m p) as (l1 & l2 & H1 & H2 & E & Ef).
  pose (F := fun pl : Price * list (Z * OrderEntry) => view_cell s pl.1 <$> pl.2).
  rewrite Forall_forall in H1, H2.
  assert (forall o, (binding p o ≫= F) = view_cell s p <$> default [] o) as Hb.
  { intros [l|]; simpl; [by rewrite app_nil_r|done]. }
  exists (l1 ≫= F), (l2 ≫= F). split_and!.
  - intros v ([p' l] & Hv & Hin)%list_elem_of_bind. destruct (H1 _ Hin) as (? & ? & _).
    by apply list_elem_of_fmap in Hv as (x & -> & _).
  - intros v ([p' l] & Hv & Hin)%list_elem_of_bind. destruct (H2 _ Hin) as (Hle & Hne & _).
    apply list_elem_of_fmap in Hv as (x & -> & _). simpl in *.
    intros Hge. by apply Hne, (anti_symm (price_before s)).
  - unfold flat. rewrite E, !bind_app. fold F. by rewrite Hb.
  - intros f. unfold flat. rewrite Ef, !bind_app. fold F. by rewrite Hb.
  - intros v Hv. rewrite <- bind_app in Hv. apply list_elem_of_bind in Hv as ([p' l] & Hv & Hin).
    apply list_elem_of_fmap in Hv as (x & -> & Hx). simpl in *.
    apply elem_of_app in Hin as [Hin|Hin]; [destruct (H1 _ Hin)|destruct (H2 _ Hin)]; naive_solver.
Qed.

Lemma flat_insert s p x C :
  flat s (c_insert s p x C s) = q_insert s (view_cell s p x) (flat s (C s)).
Proof.
  unfold c_insert. rewrite set_side_eq.
  destruct (flat_parts s (C s) p) as (f1 & f2 & H1 & H2 & E & Ef & _).
  rewrite E. unfold insert, map_insert. rewrite Ef; simpl. rewrite fmap_app, <- app_assoc; simpl.
  rewrite !(app_assoc f1). symmetry. apply (q_insert_app s (view_cell s p x)).
  - apply Forall_forall. intros v [Hv|Hv]%elem_of_app; [by apply H1|].
    apply list_elem_of_fmap in Hv as (y & -> & _). simpl. by destruct (total (price_before s) p p).
  - apply Forall_forall. intros v Hv. by apply H2.
Qed.

(** Within one side, the id and the node each determine the cell. *)
Lemma cell_by_id C s p it e p' l x :
  content_ok C -> valid_side s -> content_at C s p (it, e) -> C s !! p' = Some l -> x ∈ l ->
  oe_id x.2 = oe_id e -> p' = p /\ x = (it, e).
Proof.
  intros Hok Hs Hin El Hx E.
  destruct (co_id _ Hok s p' x s p (it, e) Hs Hs ltac:(by exists l) Hin E); tauto.
Qed.

Lemma cell_by_node C s p it e p' l x :
  content_ok C -> valid_side s -> content_at C s p (it, e) -> C s !! p' = Some l -> x ∈ l ->
  x.1 = it -> p' = p /\ x = (it, e).
Proof.
  intros Hok Hs Hin El Hx E.
  destruct (co_node _ Hok s p' x s p (it, e) Hs Hs ltac:(by exists l) Hin E); tauto.
Qed.

Lemma cell_id_node C s p it e l x :
  content_ok C -> valid_side s -> content_at C s p (it, e) -> C s !! p = Some l -> x ∈ l ->
  x.1 = it <-> oe_id x.2 = oe_id e.
Proof.
  intros Hok Hs Hin El Hx. split; intros E.
  - by destruct (cell_by_node C s p it e p l x Hok Hs Hin El Hx E) as [_ ->].
  - by destruct (cell_by_id C s p it e p l x Hok Hs Hin El Hx E) as [_ ->].
Qed.

Lemma flat_remove s p it e C :
  content_ok C -> valid_side s -> content_at C s p (it, e) ->
  flat s (c_remove s p it C s) = q_remove (oe_id e) (flat s (C s)).
Proof.
  intros Hok Hs Hin. unfold c_remove. rewrite set_side_eq.
  destruct (flat_parts s (C s) p) as (f1 & f2 & _ & _ & E & Ef & Hf).
  rewrite E, Ef, !q_remove_app.
  pose proof Hin as (l & El & Hl). rewrite El; simpl.
  assert (forall f, (forall v, v ∈ f -> v ∈ f1 ++ f2) -> q_remove (oe_id e) f = f) as Hsame.
  { intros f Hsub. apply q_remove_notin. intros (v & Ev & Hv)%list_elem_of_fmap.
    destruct (Hf v (Hsub v Hv)) as (p' & l' & x & Ep & Hne & Hx & ->).
    by destruct (cell_by_id C s p it e p' l' x Hok Hs Hin Ep Hx (eq_sym Ev)). }
  rewrite (Hsame f1), (Hsame f2) by set_solver.
  f_equal. f_equal.
  assert (default [] (match drop_cell it l with [] => None | l => Some l end) = drop_cell it l) as ->
    by by destruct (drop_cell it l).
  assert (forall x, x ∈ l -> (x.1 = it <-> oe_id x.2 = oe_id e)) as Hiff.
  { intros x Hx. by apply (cell_id_node C s p it e l x). }
  clear -Hiff. unfold drop_cell, q_remove. induction l as [|x l IH]; simpl; [done|].
  pose proof (Hiff x ltac:(left)). rewrite !filter_cons; simpl.
  destruct (decide (x.1 <> it)) as [Hn|Hn]; destruct (decide (oe_id x.2 <> oe_id e)) as [Hm|Hm];
    try (exfalso; tauto); simpl; [f_equal|]; apply IH; intros; apply Hiff; by right.
Qed.

Lemma flat_resize s p it e q C :
  content_ok C -> valid_side s -> content_at C s p (it, e) ->
  flat s (c_resize s p it q C s) = q_resize (oe_id e) q (flat s (C s)).
Proof.
  intros Hok Hs Hin. unfold c_resize. rewrite set_side_eq.
  destruct (flat_parts s (C s) p) as (f1 & f2 & _ & _ & E & Ef & Hf).
  unfold alter, map_alter. rewrite E, Ef, !q_resize_app.
  pose proof Hin as (l & El & Hl). rewrite El; simpl.
  assert (forall f, (forall v, v ∈ f -> v ∈ f1 ++ f2) -> q_resize (oe_id e) q f = f) as Hsame.
  { intros f Hsub. apply q_resize_notin. intros (v & Ev & Hv)%list_elem_of_fmap.
    destruct (Hf v (Hsub v Hv)) as (p' & l' & x & Ep & Hne & Hx & ->).
    by destruct (cell_by_id C s p it e p' l' x Hok Hs Hin Ep Hx (eq_sym Ev)). }
  rewrite (Hsame f1), (Hsame f2) by set_solver.
  f_equal. f_equal. unfold q_resize. rewrite <- !list_fmap_compose. apply list_fmap_ext.
  intros i x Hx. apply list_elem_of_lookup_2 in Hx. simpl. unfold resize_cell.
  pose proof (cell_id_node C s p it e l x Hok Hs Hin El Hx) as Hiff.
  destruct (decide (x.1 = it)); destruct (decide (oe_id x.2 = oe_id e)); try (exfalso; tauto); done.
Qed.

Lemma flat_sorted s m : StronglySorted (before s) (flat s m).
Proof.
  unfold flat. pose proof (ordered_sorted (price_before s) m) as Hs.
  induction Hs as [|[p l] L Hs IH Hf]; simpl; [constructor|].
  apply StronglySorted_app. split_and!; [|clear|done].
  - intros v w (x & -> & _)%list_elem_of_fmap ([p' l'] & Hw & Hin)%list_elem_of_bind.
    apply list_elem_of_fmap in Hw as (y & -> & _). rewrite Forall_forall in Hf. apply (Hf _ Hin).
  - induction l as [|x l IH]; simpl; constructor; [done|].
    apply Forall_forall. intros v (y & -> & _)%list_elem_of_fmap. unfold before; simpl.
    by destruct (total (price_before s) p p).
Qed.

(** All cells of one side; [flat] shows them one by one. *)
Definition flat_cells s (m : gmap Price (list (Z * OrderEntry))) : list (Z * OrderEntry) :=
  ordered (price_before s) m ≫= snd.

Lemma flat_ids s m : ov_id <$> flat s m = (fun x => oe_id x.2) <$> flat_cells s m.
Proof.
  unfold flat, flat_cells. induction (ordered (price_before s) m) as [|[p l] L IH]; simpl; [done|].
  rewrite !fmap_app. f_equal; [|exact IH]. by rewrite <- list_fmap_compose.
Qed.

Lemma elem_of_flat_cells s m x : x ∈ flat_cells s m <-> exists p l, m !! p = Some l /\ x ∈ l.
Proof.
  unfold flat_cells. rewrite list_elem_of_bind. split.
  - intros ([p l] & Hx & Hpl). apply elem_of_ordered in Hpl. eauto.
  - intros (p & l & Hp & Hx). exists (p, l). split; [done|]. by apply elem_of_ordered.
Qed.

Lemma flat_cells_NoDup {K} C s (f : cell -> K) :
  content_ok C -> valid_side s ->
  (forall p x p' x', content_at C s p x -> content_at C s p' x' -> f x = f x' -> p = p' /\ x = x') ->
  NoDup (f <$> flat_cells s (C s)).
Proof.
  intros Hok Hs Hf. unfold flat_cells.
  pose proof (NoDup_ordered_keys (price_before s) (C s)) as Hnd.
  assert (forall p l, (p, l) ∈ ordered (price_before s) (C s) -> C s !! p = Some l) as Hin
    by (intros p l; apply elem_of_ordered).
  induction (ordered (price_before s) (C s)) as [|[p l] L IH]; simpl in *; [constructor|].
  apply NoDup_cons in Hnd as [Hp Hnd]. rewrite fmap_app. apply NoDup_app. split_and!.
  - assert (C s !! p = Some l) as El by (apply Hin; left).
    destruct (co_level _ Hok s p l Hs El) as (_ & _ & Hl).
    apply NoDup_fmap_2_strong; [|by eapply NoDup_fmap_1].
    intros x y Hx Hy E. by destruct (Hf p x p y ltac:(by exists l) ltac:(by exists l) E).
  - intros k (x & -> & Hx)%list_elem_of_fmap.
    intros (y & E & ([p' l'] & Hy & Hin')%list_elem_of_bind)%list_elem_of_fmap. simpl in *.
    destruct (Hf p x p' y) as [-> _]; [| |done|].
    + exists l. split; [apply Hin; left|done].
    + exists l'. split; [apply Hin; by right|done].
    + apply Hp, list_elem_of_fmap. by exists (p', l').
  - apply IH; [done|]. intros. apply Hin. by right.
Qed.

Lemma flat_NoDup C s : content_ok C -> valid_side s -> NoDup (ov_id <$> flat s (C s)).
Proof.
  intros Hok Hs. rewrite flat_ids. apply flat_cells_NoDup; [done|done|].
  intros p x p' x' Hx Hx' E. destruct (co_id _ Hok _ _ _ _ _ _ Hs Hs Hx Hx' E). tauto.
Qed.

Section abstraction.
Context {A : Type} `{!NodeAllocator A} `{!NodeAllocatorLaws A}.
Implicit Types (b : OrderBook A) (C : content).

Lemma abs_side_flat b C s : describes b C -> valid_side s -> abs_side s b = flat s (C s).
Proof.
  intros Hr Hs. unfold abs_side, ordered_levels, flat.
  rewrite (rep_levels _ _ Hr s Hs), (ordered_fmap (price_before s)).
  assert (forall p l, (p, l) ∈ ordered (price_before s) (C s) -> C s !! p = Some l) as Hin
    by (intros p l; apply elem_of_ordered).
  induction (ordered (price_before s) (C s)) as [|[p l] L IH]; simpl; [done|].
  f_equal; [|apply IH; intros; apply Hin; by right].
  assert (forall x, x ∈ l -> nodes b !! x.1 = Some x.2) as Hn.
  { intros [it e] Hx. apply (rep_nodes _ _ Hr). exists s, p. split; [done|].
    exists l. split; [|done]. apply Hin. left. }
  unfold level_views_of; simpl. clear -Hn. induction l as [|[it e] l IH]; simpl; [done|].
  pose proof (Hn (it, e) ltac:(left)) as Hit. simpl in Hit. rewrite Hit; simpl.
  f_equal. apply IH. intros. apply Hn. by right.
Qed.

Lemma queue_abs b C s : describes b C -> valid_side s -> queue s (abs b) = flat s (C s).
Proof. intros Hr [-> | ->]; simpl; by apply abs_side_flat; auto with lob. Qed.

Lemma elem_of_queue b C s v :
  describes b C -> valid_side s ->
  (v ∈ queue s (abs b) <-> exists p x, content_at C s p x /\ v = view_cell s p x).
Proof.
  intros Hr Hs. rewrite (queue_abs b C s Hr Hs), elem_of_flat.
  unfold content_at. naive_solver.
Qed.

Lemma abs_wf b C : describes b C -> lob_wf (abs b).
Proof.
  intros Hr. pose proof (rep_content _ _ Hr) as Hok. split.
  - intros [| |byte]; [..|constructor]; rewrite (queue_abs b C) by auto with lob; apply flat_sorted.
  - assert (forall s v, valid_side s -> v ∈ queue s (abs b) -> order_ok s v) as Hgen.
    { intros s v Hs (p & x & Hx & ->)%(elem_of_queue b C); [|done..].
      pose proof Hx as (l & El & _). destruct (co_level _ Hok s p l Hs El) as (? & _).
      split; simpl; [done|done|]. by eapply co_quantity. }
    intros [| |byte] v Hv; [apply Hgen; auto with lob..|]. by apply not_elem_of_nil in Hv.
  - unfold lob_orders. simpl. rewrite !(abs_side_flat b C) by auto with lob.
    rewrite fmap_app. apply NoDup_app. split_and!; try (apply flat_NoDup; auto with lob).
    intros id (v & -> & (p & l & x & El & Hx & ->)%elem_of_flat)%list_elem_of_fmap
      (w & E & (p' & l' & x' & El' & Hx' & ->)%elem_of_flat)%list_elem_of_fmap. simpl in E.
    destruct (co_id _ Hok Bid p x Ask p' x') as (? & _ & _); auto with lob; try done.
    + by exists l.
    + by exists l'.
Qed.

Lemma abs_find_Some b C s p it e :
  describes b C -> valid_side s -> content_at C s p (it, e) ->
  lob_find (oe_id e) (abs b) = Some (view_cell s p (it, e)).
Proof.
  intros Hr Hs Hin. apply find_id_elem; [apply (wf_ids _ (abs_wf b C Hr))| |done].
  assert (view_cell s p (it, e) ∈ queue s (abs b)) as Hq
    by (apply (elem_of_queue b C s); eauto).
  unfold lob_orders. apply elem_of_app. destruct Hs as [-> | ->]; [by left|by right].
Qed.

Lemma abs_find_None b C id :
  describes b C -> orders_by_id_ b !! id = None -> lob_find id (abs b) = None.
Proof.
  intros Hr Hid. destruct (lob_find id (abs b)) as [v|] eqn:E; [|done].
  apply find_id_Some in E as [Hv Hvid]. unfold lob_orders in Hv.
  assert (exists s, valid_side s /\ v ∈ queue s (abs b)) as (s & Hs & Hq).
  { apply elem_of_app in Hv as [?|?]; [exists Bid|exists Ask]; auto with lob. }
  apply (elem_of_queue b C s) in Hq as (p & [it e] & Hx & ->); [|done..].
  assert (orders_by_id_ b !! id = Some (mkLoc s p it)) as Hsome.
  { apply (rep_index _ _ Hr). exists e. split; [done|]. by split. }
  congruence.
Qed.

(** What the index knows of an id, in the terms of both views. *)
Lemma index_cases b C id :
  describes b C ->
  (exists s p it e, orders_by_id_ b !! id = Some (mkLoc s p it) /\ valid_side s /\
     content_at C s p (it, e) /\ oe_id e = id /\ nodes b !! it = Some e /\
     (exists l, C s !! p = Some l /\ (it, e) ∈ l /\ levels s b !! p = Some (level_of l)) /\
     lob_find id (abs b) = Some (view_cell s p (it, e))) \/
  (orders_by_id_ b !! id = None /\ lob_find id (abs b) = None).
Proof.
  intros Hr. destruct (orders_by_id_ b !! id) as [[s p it]|] eqn:E.
  2: { right. split; [done|]. by eapply abs_find_None. }
  left. apply (rep_index _ _ Hr) in E as (e & Hs & Hin & Hid). simpl in *.
  exists s, p, it, e. split_and!; try done.
  - apply (rep_nodes _ _ Hr). eauto.
  - pose proof Hin as (l & El & Hl). exists l. split_and!; try done.
    by rewrite (rep_levels _ _ Hr s Hs), lookup_fmap, El.
  - rewrite <- Hid. by eapply abs_find_Some.
Qed.

Lemma find_is_Some b C id :
  describes b C -> (is_Some (orders_by_id_ b !! id) <-> is_Some (lob_find id (abs b))).
Proof.
  intros Hr. destruct (index_cases b C id Hr) as [(s & p & it & e & -> & _ & _ & _ & _ & _ & ->)|[-> ->]];
    split; intros [? ?]; simplify_eq; eauto using mk_is_Some.
Qed.
End abstraction.

(** ** Rebuilding the description after an update *)

Lemma level_of_snoc l x :
  level_of (l ++ [x]) =
  mkLevel (pl_orders (level_of l) ++ [x.1]) (u64 (pl_aggregate (level_of l) + oe_remaining x.2)).
Proof.
  unfold level_of, total_of; csimpl. rewrite !fmap_app, sumZ_app; csimpl.
  f_equal. autorewrite with u64. f_equal. lia.
Qed.

Lemma fst_drop_cell it l : (drop_cell it l).*1 = filter (fun i => i <> it) l.*1.
Proof.
  unfold drop_cell. induction l as [|x l IH]; csimpl; [done|].
  rewrite !filter_cons. case_decide; csimpl; [f_equal|]; exact IH.
Qed.

Lemma total_drop_cell it e l :
  NoDup l.*1 -> (it, e) ∈ l -> total_of (drop_cell it l) = total_of l - oe_remaining e.
Proof.
  unfold total_of, drop_cell. intros Hnd Hin. induction l as [|x l IH]; csimpl in *; [set_solver|].
  apply NoDup_cons in Hnd as [Hx Hnd]. rewrite filter_cons.
  apply elem_of_cons in Hin as [<-|Hin]; csimpl.
  - rewrite decide_False by auto. rewrite (filter_all _ l); [lia|].
    intros y Hy E. apply Hx, list_elem_of_fmap. by exists y.
  - rewrite decide_True; csimpl; [rewrite IH by done; lia|].
    intros E. apply Hx, list_elem_of_fmap. by exists (it, e).
Qed.

Lemma level_of_drop it e l :
  NoDup l.*1 -> (it, e) ∈ l ->
  level_of (drop_cell it l) =
  mkLevel (filter (fun i => i <> it) (pl_orders (level_of l)))
          (u64 (pl_aggregate (level_of l) - oe_remaining e)).
Proof.
  intros Hnd Hin. unfold level_of; csimpl. rewrite fst_drop_cell, (total_drop_cell it e) by done.
  f_equal. by autorewrite with u64.
Qed.

Lemma level_of_resize it e q l :
  NoDup l.*1 -> (it, e) ∈ l ->
  level_of (resize_cell it q <$> l) =
  mkLevel (pl_orders (level_of l)) (u64 (pl_aggregate (level_of l) - oe_remaining e + q)).
Proof.
  intros Hnd Hin. unfold level_of; csimpl. f_equal.
  - rewrite <- list_fmap_compose. apply list_fmap_ext. intros i x _. csimpl.
    unfold resize_cell. by case_decide.
  - rewrite <- u64_add_l, u64_sub_l, u64_add_l. f_equal. unfold total_of.
    induction l as [|x l IH]; csimpl in *; [set_solver|].
    apply NoDup_cons in Hnd as [Hx Hnd].
    apply elem_of_cons in Hin as [<-|Hin]; csimpl.
    + unfold resize_cell at 1; csimpl. rewrite decide_True by done. csimpl.
      assert (resize_cell it q <$> l = l) as ->; [|lia].
      rewrite <- (list_fmap_id l) at 2. apply list_fmap_ext. intros i y Hy.
      unfold resize_cell. rewrite decide_False; [done|]. intros E.
      apply Hx, list_elem_of_fmap. exists y. split; [done|]. by eapply list_elem_of_lookup_2.
    + unfold resize_cell at 1. rewrite decide_False, (IH Hnd Hin); [lia|].
      intros E. apply Hx, list_elem_of_fmap. by exists (it, e).
Qed.

Section rebuild.
Context {A : Type} `{!NodeAllocator A} `{!NodeAllocatorLaws A}.
Implicit Types (b : OrderBook A) (C : content).

Lemma describes_insert b b' C s p it e :
  describes b C -> valid_side s -> 0 < p < 2 ^ 32 -> 0 < oe_remaining e < 2 ^ 32 ->
  nodes b !! it = None -> orders_by_id_ b !! oe_id e = None ->
  (forall s', valid_side s' -> levels s' b' = level_of <$> c_insert s p (it, e) C s') ->
  nodes b' = <[it := e]> (nodes b) ->
  orders_by_id_ b' = <[oe_id e := mkLoc s p it]> (orders_by_id_ b) ->
  describes b' (c_insert s p (it, e) C).
Proof.
  intros Hr Hs Hp Hq Hn Hi Hl En Ei. split; [|done|..].
  - apply c_insert_ok; try done; [apply Hr|]. intros s' p' [it' e'] Hs' Hy; simpl. split; intros E.
    + assert (nodes b !! it' = Some e') by (apply (rep_nodes _ _ Hr); eauto). congruence.
    + assert (orders_by_id_ b !! oe_id e' = Some (mkLoc s' p' it'))
        by (apply (rep_index _ _ Hr); by exists e'). congruence.
  - intros it' e'. rewrite En. destruct (decide (it = it')) as [<-|Hne].
    + rewrite lookup_insert_eq. split.
      * intros [= <-]. exists s, p. split; [done|]. apply c_insert_at. by right.
      * intros (s' & p' & Hs' & [Hy|(_ & _ & [= <-])]%c_insert_at); [|done].
        assert (nodes b !! it = Some e') by (apply (rep_nodes _ _ Hr); eauto). congruence.
    + rewrite lookup_insert_ne, (rep_nodes _ _ Hr) by done. split.
      * intros (s' & p' & Hs' & Hy). exists s', p'. split; [done|]. apply c_insert_at. by left.
      * intros (s' & p' & Hs' & [Hy|(_ & _ & [= -> ->])]%c_insert_at); [eauto|done].
  - intros id loc. rewrite Ei. destruct (decide (oe_id e = id)) as [<-|Hne].
    + rewrite lookup_insert_eq. split.
      * intros [= <-]. exists e. split_and!; try done. apply c_insert_at. by right.
      * destruct loc as [s' p' it']; simpl.
        intros (e' & Hs' & [Hy|(-> & -> & [= -> ->])]%c_insert_at & E); [|done].
        assert (orders_by_id_ b !! oe_id e = Some (mkLoc s' p' it'))
          by (apply (rep_index _ _ Hr); by exists e'). congruence.
    + rewrite lookup_insert_ne, (rep_index _ _ Hr) by done. split.
      * intros (e' & Hs' & Hy & E). exists e'. split_and!; try done. apply c_insert_at. by left.
      * intros (e' & Hs' & [Hy|(_ & _ & [= _ ->])]%c_insert_at & E); [eauto|done].
Qed.

Lemma describes_remove b b' C s p it e :
  describes b C -> valid_side s -> content_at C s p (it, e) ->
  (forall s', valid_side s' -> levels s' b' = level_of <$> c_remove s p it C s') ->
  nodes b' = delete it (nodes b) ->
  orders_by_id_ b' = delete (oe_id e) (orders_by_id_ b) ->
  describes b' (c_remove s p it C).
Proof.
  intros Hr Hs Hin Hl En Ei. pose proof (rep_content _ _ Hr) as Hok.
  pose proof (fun s' p' y Hs' => c_remove_at s p it e C s' p' y Hok Hs Hs' Hin) as Hat.
  split; [by eapply c_remove_ok|done|..].
  - intros it' e'. rewrite En, lookup_delete_Some, (rep_nodes _ _ Hr). split.
    + intros (Hne & s' & p' & Hs' & Hy). exists s', p'. split; [done|]. apply Hat; auto.
    + intros (s' & p' & Hs' & [Hy ?]%Hat); [|done]. eauto 6.
  - intros id loc. rewrite Ei, lookup_delete_Some, (rep_index _ _ Hr). split.
    + intros (Hne & e' & Hs' & Hy & E). exists e'. split_and!; try done. apply Hat; [done|].
      split; [done|]. simpl. intros Eit. apply Hne. rewrite <- E.
      by destruct (co_node _ Hok _ _ _ _ _ _ Hs' Hs Hy Hin Eit) as (_ & _ & [= _ ->]).
    + intros (e' & Hs' & [Hy Hne]%Hat & E); [|done]. split; [|by eauto].
      intros Eid. apply Hne. simpl. rewrite <- E in Eid.
      destruct (co_id _ Hok _ _ _ _ _ _ Hs' Hs Hy Hin (eq_sym Eid)) as (_ & _ & [= ? _]). done.
Qed.

Lemma describes_resize b b' C s p it e q :
  describes b C -> valid_side s -> content_at C s p (it, e) -> 0 < q < 2 ^ 32 ->
  (forall s', valid_side s' -> levels s' b' = level_of <$> c_resize s p it q C s') ->
  nodes b' = <[it := mkEntry (oe_id e) q]> (nodes b) ->
  orders_by_id_ b' = orders_by_id_ b ->
  describes b' (c_resize s p it q C).
Proof.
  intros Hr Hs Hin Hq Hl En Ei. pose proof (rep_content _ _ Hr) as Hok.
  pose proof (fun s' p' y Hs' => c_resize_at s p it q e C s' p' y Hok Hs Hs' Hin) as Hat.
  split; [by eapply c_resize_ok|done|..].
  - intros it' e'. rewrite En. destruct (decide (it = it')) as [<-|Hne].
    + rewrite lookup_insert_eq. split.
      * intros [= <-]. exists s, p. split; [done|]. apply Hat; [done|]. by right.
      * by intros (s' & p' & Hs' & [[_ ?]|(_ & _ & [= <-])]%Hat).
    + rewrite lookup_insert_ne, (rep_nodes _ _ Hr) by done. split.
      * intros (s' & p' & Hs' & Hy). exists s', p'. split; [done|]. apply Hat; [done|]. auto.
      * intros (s' & p' & Hs' & [[Hy _]|(_ & _ & [= -> _])]%Hat); [eauto|done|done].
  - intros id loc. rewrite Ei, (rep_index _ _ Hr). split.
    + intros (e' & Hs' & Hy & E). destruct (decide (loc_iterator loc = it)) as [Eit|Hne].
      * destruct (co_node _ Hok _ _ _ _ _ _ Hs' Hs Hy Hin Eit) as (Es & Ep & [= _ ->]).
        exists (mkEntry (oe_id e) q). split_and!; try done. apply Hat; [done|]. right.
        by rewrite Es, Ep, Eit.
      * exists e'. split_and!; try done. apply Hat; auto.
    + intros (e' & Hs' & [[Hy _]|(Es & Ep & [= Eit ->])]%Hat & E); [by eauto| |done].
      exists e. rewrite Es, Ep, Eit. by split_and!.
Qed.
End rebuild.
