(* ===== verification/OrderBookRefine.v ===== *)
(** * The order book implements the abstract book

    Every operation of OrderBook.v, run on a well-formed book, returns (no
    dangling iterator, no missing level), keeps the book well formed, and has
    the effect of the corresponding operation of LOB.v; a failed allocation
    leaves everything but the allocator as it was. *)
From S2P Require Import Prelude StdMap Types Allocator LOB OrderBook OrderBookInv.

Section refine.
Context {A : Type} `{!NodeAllocator A} `{!NodeAllocatorLaws A}.
Implicit Types (b : OrderBook A) (C : content).

(** Node slots the book's pool has in total. *)
Definition pool_slots b : nat :=
  match pool_ b with Some a => na_capacity a | None => 0 end.

(** ** Node allocation *)

Lemma pool_ok_some b a :
  pool_ok b -> pool_ b = Some a -> na_wf a /\ na_live a = dom (nodes b).
Proof. unfold pool_ok. intros Hb E. by rewrite E in Hb. Qed.

Lemma new_node_cases ok e b a :
  pool_ok b -> pool_ b = Some a ->
  (exists it a', new_node ok e b = Ret (it, set_node it e (set_pool (Some a') b)) /\
     nodes b !! it = None /\ na_wf a' /\ na_live a' = {[it]} ∪ dom (nodes b) /\
     na_capacity a' = na_capacity a) \/
  (new_node ok e b = Throw BadAlloc /\
     ((na_capacity a <= size (nodes b))%nat \/ ok = false)).
Proof.
  intros Hb Ea. destruct (pool_ok_some b a Hb Ea) as [Hwf Hlive].
  unfold new_node. rewrite Ea.
  destruct (na_allocate_cases ok a Hwf) as [(it & a' & -> & Hn & Hl & Hwf' & Hc & _)|[-> Hfull]].
  - left. exists it, a'. simpl. rewrite Hlive in *. split_and!; try done.
    by apply not_elem_of_dom.
  - right. split; [done|]. rewrite Hlive, size_dom in Hfull. tauto.
Qed.

Lemma free_node_live it b a :
  na_wf a -> pool_ b = Some a -> it ∈ na_live a ->
  exists a', free_node it b = Ret (set_nodes (delete it (nodes b)) (set_pool (Some a') b)) /\
    na_wf a' /\ na_live a' = na_live a ∖ {[it]} /\ na_capacity a' = na_capacity a.
Proof.
  intros Hwf Ea Hin. unfold free_node. rewrite Ea.
  destruct (na_deallocate_live it a Hwf Hin) as (a' & -> & Hl & Hwf' & Hc).
  simpl. exists a'. by split_and!.
Qed.

(** [b'] is [b] with another state of the same allocator. *)
Definition same_but_pool b b' : Prop :=
  exists p, b' = set_pool p b /\ pool_ok b' /\ pool_slots b' = pool_slots b.

Lemma same_but_pool_refl b : pool_ok b -> same_but_pool b b.
Proof. intros Hb. exists (pool_ b). by destruct b. Qed.

Lemma same_but_pool_describes b b' C :
  same_but_pool b b' -> describes b C -> represents b' C.
Proof.
  intros (p & -> & Hb & _) Hr. split; [|done]. destruct Hr.
  split; [done|..]; intros; rewrite ?levels_set_pool; simpl; auto.
Qed.

Lemma same_but_pool_abs b b' : same_but_pool b b' -> abs b' = abs b.
Proof. by intros (p & -> & _ & _). Qed.

(** ** Reserving a node *)

Definition reserved s (p : Price) it (e : OrderEntry) (a' : A) b : OrderBook A :=
  let l := default (mkLevel [] 0) (levels s b !! p) in
  put_level s p (mkLevel (pl_orders l ++ [it]) (pl_aggregate l)) (set_node it e (set_pool (Some a') b)).

Lemma put_level_put s p l l' b : put_level s p l' (put_level s p l b) = put_level s p l' b.
Proof. destruct s; unfold put_level; simpl; by rewrite insert_insert_eq. Qed.

Lemma find_put_level s p l b : find_level s p (put_level s p l b) = Ret l.
Proof. unfold find_level, put_level. by rewrite levels_set_levels_eq, lookup_insert_eq. Qed.

Lemma erase_put_level s p l b :
  levels s b !! p = None -> erase_level s p (put_level s p l b) = b.
Proof.
  destruct s; unfold erase_level, put_level; simpl; intros E;
    rewrite delete_insert_id by done; by destruct b.
Qed.

Lemma put_level_id s p l b : levels s b !! p = Some l -> put_level s p l b = b.
Proof. destruct s; unfold put_level; simpl; intros E; rewrite insert_id by done; by destruct b. Qed.

Lemma put_level_node s p l it e a' b :
  put_level s p l (set_node it e (set_pool (Some a') b)) =
  set_node it e (set_pool (Some a') (put_level s p l b)).
Proof. by destruct s. Qed.

Lemma put_level_nodes s p l n a' b :
  put_level s p l (set_nodes n (set_pool a' b)) = set_nodes n (set_pool a' (put_level s p l b)).
Proof. by destruct s. Qed.

Lemma reserve_node_cases h s p e b a :
  pool_ok b -> pool_ b = Some a ->
  (exists it a', reserve_node h s p e b =
       Ret (inr (bool_decide (levels s b !! p = None), it, reserved s p it e a' b)) /\
     nodes b !! it = None /\ na_wf a' /\ na_live a' = {[it]} ∪ dom (nodes b) /\
     na_capacity a' = na_capacity a) \/
  (reserve_node h s p e b = Ret (inl (AllocationFailed, b)) /\
     ((na_capacity a <= size (nodes b))%nat \/ heap_pool h = false \/ heap_level h = false)).
Proof.
  intros Hb Ea. unfold reserve_node.
  destruct (levels s b !! p) as [l|] eqn:El.
  - rewrite bool_decide_false by done. simpl.
    destruct (new_node_cases (heap_pool h) e b a Hb Ea) as [(it & a' & -> & Hn)|[-> Hf]].
    + left. exists it, a'. simpl. unfold find_level. rewrite levels_set_node, levels_set_pool, El.
      unfold reserved. by rewrite El.
    + right. unfold rollback. simpl. split; [done|tauto].
  - rewrite bool_decide_true by done. simpl.
    destruct (heap_level h); simpl; [|right; split; [done|auto]].
    set (b1 := put_level s p (mkLevel [] 0) b).
    assert (pool_ b1 = Some a /\ nodes b1 = nodes b) as [Ea1 En1].
    { unfold b1, put_level. by rewrite pool_set_levels, nodes_set_levels. }
    assert (pool_ok b1) as Hb1 by (unfold pool_ok in *; by rewrite Ea1, En1; rewrite Ea in Hb).
    destruct (new_node_cases (heap_pool h) e b1 a Hb1 Ea1) as [(it & a' & -> & Hn & Hw & Hl & Hc)|[-> Hf]].
    + left. exists it, a'. simpl. rewrite En1 in *. split_and!; try done.
      unfold b1. rewrite <- put_level_node, find_put_level. simpl.
      unfold reserved. rewrite El. simpl. by rewrite put_level_put.
    + right. unfold rollback. simpl. unfold b1. rewrite erase_put_level by done.
      split; [done|]. rewrite En1 in Hf. tauto.
Qed.

(** The fields of a book with a reserved node. *)
Lemma levels_reserved s p it e a' b s' :
  valid_side s -> valid_side s' ->
  levels s' (reserved s p it e a' b) =
  if decide (s' = s) then
    let l := default (mkLevel [] 0) (levels s b !! p) in
    <[p := mkLevel (pl_orders l ++ [it]) (pl_aggregate l)]> (levels s b)
  else levels s' b.
Proof.
  intros Hs Hs'. unfold reserved, put_level. rewrite levels_set_levels by done.
  case_decide; [by rewrite levels_set_node, levels_set_pool|].
  by rewrite levels_set_node, levels_set_pool.
Qed.
Lemma nodes_reserved s p it e a' b : nodes (reserved s p it e a' b) = <[it := e]> (nodes b).
Proof. unfold reserved, put_level. by rewrite nodes_set_levels. Qed.
Lemma index_reserved s p it e a' b : orders_by_id_ (reserved s p it e a' b) = orders_by_id_ b.
Proof. unfold reserved, put_level. by rewrite index_set_levels. Qed.
Lemma pool_reserved s p it e a' b : pool_ (reserved s p it e a' b) = Some a'.
Proof. unfold reserved, put_level. by rewrite pool_set_levels. Qed.

(** The fields after [put_level]. *)
Lemma levels_put_level s p l b s' :
  valid_side s -> valid_side s' ->
  levels s' (put_level s p l b) = if decide (s' = s) then <[p := l]> (levels s b) else levels s' b.
Proof. intros Hs Hs'. unfold put_level. by rewrite levels_set_levels. Qed.
Lemma nodes_put_level s p l b : nodes (put_level s p l b) = nodes b.
Proof. unfold put_level. by rewrite nodes_set_levels. Qed.
Lemma index_put_level s p l b : orders_by_id_ (put_level s p l b) = orders_by_id_ b.
Proof. unfold put_level. by rewrite index_set_levels. Qed.
Lemma pool_put_level s p l b : pool_ (put_level s p l b) = pool_ b.
Proof. unfold put_level. by rewrite pool_set_levels. Qed.

Lemma level_add_quantity_found s p q l b :
  levels s b !! p = Some l ->
  level_add_quantity s p q b = Ret (put_level s p (mkLevel (pl_orders l) (u64 (pl_aggregate l + q))) b).
Proof. intros E. unfold level_add_quantity, find_level. by rewrite E. Qed.

(** Undoing a reservation. *)
Lemma rollback_reserved s p it e a' b a (created : bool) :
  pool_ok b -> pool_ b = Some a -> nodes b !! it = None ->
  na_wf a' -> na_live a' = {[it]} ∪ dom (nodes b) -> na_capacity a' = na_capacity a ->
  created = bool_decide (levels s b !! p = None) ->
  exists b2, level_pop_back s p (reserved s p it e a' b) = Ret b2 /\
    same_but_pool b (if created then erase_level s p b2 else b2).
Proof.
  intros Hb Ea Hn Hwf Hl Hc ->. unfold level_pop_back, reserved. rewrite find_put_level. simpl.
  rewrite last_snoc, removelast_last, put_level_put, put_level_node. simpl.
  destruct (free_node_live it
    (set_node it e (set_pool (Some a') (put_level s p
      (mkLevel (pl_orders (default (mkLevel [] 0) (levels s b !! p)))
               (pl_aggregate (default (mkLevel [] 0) (levels s b !! p)))) b))) a')
    as (a2 & -> & Hwf2 & Hl2 & Hc2); [done|done|set_solver|].
  eexists. split; [done|]. simpl. exists (Some a2).
  assert (nodes (put_level s p (mkLevel (pl_orders (default (mkLevel [] 0) (levels s b !! p)))
            (pl_aggregate (default (mkLevel [] 0) (levels s b !! p)))) b) = nodes b) as En
    by (unfold put_level; by rewrite nodes_set_levels).
  rewrite En, delete_insert_id by done.
  assert (dom (nodes b) = na_live a2) as Hdom.
  { rewrite Hl2, Hl. apply not_elem_of_dom in Hn. set_solver. }
  split; [|split].
  - destruct (levels s b !! p) as [l|] eqn:El; simpl.
    + destruct l as [o g]; simpl. rewrite (put_level_id s p _ b El). by destruct b.
    + unfold set_node, set_nodes, set_pool, put_level, erase_level. destruct s; simpl in *;
        rewrite delete_insert_id by done; by destruct b.
  - destruct (bool_decide _); [|by unfold pool_ok; simpl; rewrite ?En].
    unfold pool_ok, erase_level. rewrite pool_set_levels, nodes_set_levels. by simpl.
  - unfold pool_slots. rewrite Ea.
    destruct (bool_decide _); [unfold erase_level; rewrite pool_set_levels|]; simpl; congruence.
Qed.

(** ** The level maps after an update *)

Lemma fmap_set_side_ne s s' m C :
  s' <> s -> level_of <$> set_side s m C s' = level_of <$> C s'.
Proof. intros. by rewrite set_side_ne. Qed.

Lemma levels_insert b C s p x :
  describes b C -> valid_side s ->
  level_of <$> c_insert s p x C s =
  let l := default (mkLevel [] 0) (levels s b !! p) in
  <[p := mkLevel (pl_orders l ++ [x.1]) (u64 (pl_aggregate l + oe_remaining x.2))]> (levels s b).
Proof.
  intros Hr Hs. unfold c_insert. rewrite set_side_eq, fmap_insert.
  rewrite (rep_levels _ _ Hr s Hs), lookup_fmap, level_of_snoc.
  by destruct (C s !! p).
Qed.

Lemma levels_remove b C s p it e l :
  describes b C -> valid_side s -> C s !! p = Some l -> (it, e) ∈ l ->
  level_of <$> c_remove s p it C s =
  let o := filter (fun i => i <> it) (pl_orders (level_of l)) in
  if decide (o = []) then delete p (levels s b)
  else <[p := mkLevel o (u64 (pl_aggregate (level_of l) - oe_remaining e))]> (levels s b).
Proof.
  intros Hr Hs El Hin. rewrite (rep_levels _ _ Hr s Hs).
  destruct (co_level _ (rep_content _ _ Hr) s p l Hs El) as (_ & _ & Hnd).
  pose proof (level_of_drop it e l Hnd Hin) as Ed.
  unfold c_remove. rewrite set_side_eq. simpl.
  apply map_eq. intros p'. rewrite lookup_fmap, lookup_partial_alter.
  rewrite <- fst_drop_cell in *. simpl in Ed. rewrite <- fst_drop_cell in Ed.
  case_decide as Hp.
  - subst p'. rewrite El; simpl. destruct (drop_cell it l) as [|y l'] eqn:E; simpl.
    + by rewrite lookup_delete_eq.
    + simpl in *. rewrite lookup_insert_eq. by rewrite Ed.
  - case_decide; [rewrite lookup_delete_ne by done|rewrite lookup_insert_ne by done];
      by rewrite lookup_fmap.
Qed.

Lemma levels_resize b C s p it e q l :
  describes b C -> valid_side s -> C s !! p = Some l -> (it, e) ∈ l ->
  level_of <$> c_resize s p it q C s =
  <[p := mkLevel (pl_orders (level_of l))
                 (u64 (pl_aggregate (level_of l) - oe_remaining e + q))]> (levels s b).
Proof.
  intros Hr Hs El Hin. rewrite (rep_levels _ _ Hr s Hs).
  destruct (co_level _ (rep_content _ _ Hr) s p l Hs El) as (_ & _ & Hnd).
  unfold c_resize. rewrite set_side_eq. apply map_eq. intros p'.
  rewrite lookup_fmap, lookup_alter. case_decide as Hp.
  - subst p'. rewrite El, lookup_insert_eq. simpl. f_equal. by apply level_of_resize.
  - by rewrite lookup_insert_ne, lookup_fmap.
Qed.

Lemma levels_other b C s s' m :
  describes b C -> valid_side s' -> s' <> s -> levels s' b = level_of <$> set_side s m C s'.
Proof. intros Hr Hs Hne. rewrite fmap_set_side_ne by done. by apply rep_levels. Qed.

(** The abstract effect of the three updates. *)

Lemma abs_insert b b' C s p it e :
  describes b C -> describes b' (c_insert s p (it, e) C) -> valid_side s ->
  abs b' = lob_insert (view_cell s p (it, e)) (abs b).
Proof.
  intros Hr Hr' Hs. unfold abs.
  rewrite !(abs_side_flat b' _ _ Hr'), !(abs_side_flat b _ _ Hr) by auto with lob.
  unfold lob_insert. destruct Hs as [-> | ->]; rewrite flat_insert; unfold c_insert.
  - by rewrite (set_side_ne Bid Ask).
  - by rewrite (set_side_ne Ask Bid).
Qed.

Lemma abs_remove b b' C s p it e :
  describes b C -> describes b' (c_remove s p it C) -> valid_side s -> content_at C s p (it, e) ->
  abs b' = lob_remove (oe_id e) (abs b).
Proof.
  intros Hr Hr' Hs Hin. pose proof (rep_content _ _ Hr) as Hok. unfold abs, lob_remove. simpl.
  rewrite !(abs_side_flat b' _ _ Hr'), !(abs_side_flat b _ _ Hr) by auto with lob.
  assert (forall s', valid_side s' -> flat s' (c_remove s p it C s') = q_remove (oe_id e) (flat s' (C s')))
    as Hs'; [|by rewrite !Hs' by auto with lob].
  intros s' Hs'. destruct (decide (s' = s)) as [->|Hne]; [by apply flat_remove|].
  unfold c_remove. rewrite set_side_ne by done. symmetry. apply q_remove_notin.
  intros (v & E & (p' & l & x & El & Hx & ->)%elem_of_flat)%list_elem_of_fmap. simpl in E.
  by destruct (co_id _ Hok s p (it, e) s' p' x Hs Hs' Hin ltac:(by exists l) E).
Qed.

Lemma abs_resize b b' C s p it e q :
  describes b C -> describes b' (c_resize s p it q C) -> valid_side s -> content_at C s p (it, e) ->
  abs b' = lob_resize (oe_id e) q (abs b).
Proof.
  intros Hr Hr' Hs Hin. pose proof (rep_content _ _ Hr) as Hok. unfold abs, lob_resize. simpl.
  rewrite !(abs_side_flat b' _ _ Hr'), !(abs_side_flat b _ _ Hr) by auto with lob.
  assert (forall s', valid_side s' -> flat s' (c_resize s p it q C s') = q_resize (oe_id e) q (flat s' (C s')))
    as Hs'; [|by rewrite !Hs' by auto with lob].
  intros s' Hs'. destruct (decide (s' = s)) as [->|Hne]; [by apply flat_resize|].
  unfold c_resize. rewrite set_side_ne by done. symmetry. apply q_resize_notin.
  intros (v & E & (p' & l & x & El & Hx & ->)%elem_of_flat)%list_elem_of_fmap. simpl in E.
  by destruct (co_id _ Hok s p (it, e) s' p' x Hs Hs' Hin ltac:(by exists l) E).
Qed.

(** ** Adding an order *)

(** Why an allocation can fail. *)
Definition no_memory (h : Heap) b : Prop :=
  pool_ b = None \/ (pool_slots b <= size (nodes b))%nat \/
  heap_pool h = false \/ heap_level h = false \/ heap_index h = false.

(** What an operation that may have to allocate returns: either the abstract
    operation's result and effect, or [AllocationFailed] with the book as it
    was but for its allocator. *)
Definition refines_alloc (h : Heap) b (m : outcome (ApplyResult * OrderBook A))
    (spec : ApplyResult * LOB) : Prop :=
  exists r b', m = Ret (r, b') /\ pool_slots b' = pool_slots b /\ book_wf b' /\
    (((r, abs b') = spec /\ (r <> Ok -> b' = b)) \/
     (r = AllocationFailed /\ spec.1 = Ok /\ same_but_pool b b' /\ no_memory h b)).

Lemma refines_alloc_same h b C m r spec :
  represents b C -> m = Ret (r, b) -> spec = (r, abs b) -> refines_alloc h b m spec.
Proof. intros Hr -> ->. exists r, b. split_and!; [done|done|by exists C|by left]. Qed.

Lemma refines_alloc_failed h b b' C m spec :
  represents b C -> m = Ret (AllocationFailed, b') -> same_but_pool b b' -> spec.1 = Ok ->
  no_memory h b -> refines_alloc h b m spec.
Proof.
  intros [Hr _] -> Hs Hspec Hno. exists AllocationFailed, b'. split_and!; [done|..].
  - by destruct Hs as (? & _ & _ & ?).
  - exists C. by eapply same_but_pool_describes.
  - right. by split_and!.
Qed.

Lemma add_to_refines h s e b C :
  represents b C -> valid_side s -> add_side e = s -> AddOrder_ok e ->
  add_quantity e <> 0 -> add_price e <> 0 -> orders_by_id_ b !! add_id e = None ->
  is_Some (pool_ b) ->
  refines_alloc h b (add_to h s e b) (Ok, lob_insert (view_of e) (abs b)).
Proof.
  intros [Hr Hb] Hs Hside [Hid Hp Hq] Hq0 Hp0 Hidx [a Ea]. unfold is_u32 in *.
  unfold add_to. cbv zeta. set (p := add_price e) in *.
  set (n := mkEntry (add_id e) (add_quantity e)). destruct (reserve_node_cases h s p n b a Hb Ea)
    as [(it & a' & -> & Hn & Hwf & Hl & Hc)|[-> Hf]]; cbn [mbind outcome_bind].
  2: { eapply refines_alloc_failed; [by split|done|by apply same_but_pool_refl|done|].
       unfold no_memory, pool_slots. rewrite Ea. tauto. }
  rewrite index_reserved, Hidx. destruct (heap_index h) eqn:Eh; cbn [mbind outcome_bind].
  2: { unfold rollback. destruct (rollback_reserved s p it n a' b a _ Hb Ea Hn Hwf Hl Hc eq_refl)
         as (b2 & -> & Hsame). simpl.
       eapply refines_alloc_failed; [by split|done|done|done|]. unfold no_memory. tauto. }
  unfold put_index. set (l := default (mkLevel [] 0) (levels s b !! p)).
  erewrite level_add_quantity_found.
  2: { rewrite levels_set_index, levels_reserved, decide_True by done. simpl.
       by rewrite lookup_insert_eq. }
  cbn [mbind outcome_bind]. eexists _, _. split; [done|].
  match goal with |- pool_slots ?x = _ /\ _ => set (b' := x) end.
  assert (describes b' (c_insert s p (it, n) C)) as Hr'.
  { apply (describes_insert b); try done; try (simpl; lia).
    - intros s' Hs'. unfold b'. rewrite levels_put_level, levels_set_index, levels_set_index by done.
      rewrite !levels_reserved by done. rewrite (decide_True (P := s = s)) by done.
      case_decide as Hss.
      + subst s'. rewrite (levels_insert b C s p (it, n) Hr Hs). simpl. fold l.
        by rewrite insert_insert_eq.
      + by apply (levels_other b C s s').
    - unfold b'. rewrite nodes_put_level. simpl. apply nodes_reserved.
    - unfold b'. rewrite index_put_level. simpl. by rewrite index_reserved, Hside. }
  assert (pool_ b' = Some a') as Ea' by (unfold b'; rewrite pool_put_level; apply pool_reserved).
  split_and!.
  - unfold pool_slots. by rewrite Ea', Ea.
  - exists (c_insert s p (it, n) C). split; [done|]. unfold pool_ok. rewrite Ea'. split; [done|].
    rewrite Hl. unfold b'. rewrite nodes_put_level. simpl.
    by rewrite nodes_reserved, dom_insert_L.
  - left. split; [|done]. f_equal. rewrite (abs_insert b b' C s p it n) by done.
    f_equal. unfold view_of, view_cell. simpl. by rewrite Hside.
Qed.

Lemma apply_add_refines h e b :
  book_wf b -> AddOrder_ok e -> refines_alloc h b (apply_add h e b) (lob_add e (abs b)).
Proof.
  intros [C [Hr Hb]] He. unfold apply_add, lob_add.
  pose proof (find_is_Some b C (add_id e) Hr) as Hf.
  assert (forall r, refines_alloc h b (Ret (r, b)) (r, abs b)) as Hsame
    by (intros r; eapply refines_alloc_same; [by split|done|done]).
  case_decide; [done|]. case_decide; [done|].
  destruct (decide (is_Some (orders_by_id_ b !! add_id e))) as [Hi|Hi].
  { rewrite decide_True by tauto. done. }
  rewrite (decide_False (P := is_Some (lob_find _ _))) by tauto.
  destruct (decide (valid_side (add_side e))) as [Hs|Hs].
  2: { rewrite (decide_True (P := add_side e <> Bid /\ add_side e <> Ask))
         by (unfold valid_side in Hs; tauto). by rewrite decide_True. }
  rewrite (decide_False (P := add_side e <> Bid /\ add_side e <> Ask))
    by (unfold valid_side in Hs; tauto).
  rewrite (decide_False (P := ~ valid_side (add_side e))) by tauto.
  destruct (pool_ b) as [a|] eqn:Ea.
  2: { eapply refines_alloc_failed; [by split|done|by apply same_but_pool_refl|done|by left]. }
  assert (orders_by_id_ b !! add_id e = None) by by apply eq_None_not_Some.
  case_decide; eapply add_to_refines; eauto using mk_is_Some; try (by split); auto with lob.
  by destruct Hs.
Qed.

(** ** Taking an order off its level *)

Lemma level_erase_found s p it l b a :
  pool_ b = Some a -> na_wf a -> it ∈ na_live a -> levels s b !! p = Some l -> it ∈ pl_orders l ->
  exists a', level_erase s p it b =
      Ret (set_nodes (delete it (nodes b)) (set_pool (Some a')
        (put_level s p (mkLevel (filter (fun i => i <> it) (pl_orders l)) (pl_aggregate l)) b))) /\
    na_wf a' /\ na_live a' = na_live a ∖ {[it]} /\ na_capacity a' = na_capacity a.
Proof.
  intros Ea Hwf Hin El Hit. unfold level_erase, find_level. rewrite El. simpl.
  unfold list_erase. rewrite decide_True by done. simpl.
  set (b1 := put_level _ _ _ b).
  assert (pool_ b1 = Some a) as Ea1 by (unfold b1; by rewrite pool_put_level).
  destruct (free_node_live it b1 a Hwf Ea1 Hin) as (a' & -> & ?).
  exists a'. split; [|done]. unfold b1. by rewrite nodes_put_level.
Qed.

Lemma erase_if_empty_found s p l b :
  levels s b !! p = Some l ->
  erase_if_empty s p b = Ret (if decide (pl_orders l = []) then erase_level s p b else b).
Proof. intros E. unfold erase_if_empty, find_level. by rewrite E. Qed.

(** [b'] is [b] without the node [it] at [p], whoever computed it. *)
Lemma represents_remove b b' C s p it e l a' :
  represents b C -> valid_side s -> C s !! p = Some l -> (it, e) ∈ l ->
  (forall s', valid_side s' -> levels s' b' =
     if decide (s' = s) then
       let o := filter (fun i => i <> it) (pl_orders (level_of l)) in
       if decide (o = []) then delete p (levels s b)
       else <[p := mkLevel o (u64 (pl_aggregate (level_of l) - oe_remaining e))]> (levels s b)
     else levels s' b) ->
  nodes b' = delete it (nodes b) ->
  orders_by_id_ b' = delete (oe_id e) (orders_by_id_ b) ->
  pool_ b' = Some a' -> na_wf a' -> na_live a' = dom (nodes b) ∖ {[it]} ->
  represents b' (c_remove s p it C) /\ abs b' = lob_remove (oe_id e) (abs b).
Proof.
  intros [Hr Hb] Hs El Hin Hlv En Ei Ea Hwf Hlive.
  assert (content_at C s p (it, e)) as Hat by (by exists l).
  assert (describes b' (c_remove s p it C)) as Hr'.
  { apply (describes_remove b b' C s p it e); try done.
    intros s' Hs'. rewrite Hlv by done. case_decide as Hss.
    - subst s'. by rewrite (levels_remove b C s p it e l).
    - unfold c_remove. by apply (levels_other b C s s'). }
  split; [split; [done|]|by apply (abs_remove b b' C s p it e)].
  unfold pool_ok. rewrite Ea, En, dom_delete_L. done.
Qed.

Lemma represents_resize b b' C s p it e l q :
  represents b C -> valid_side s -> C s !! p = Some l -> (it, e) ∈ l -> 0 < q < 2 ^ 32 ->
  (forall s', valid_side s' -> levels s' b' =
     if decide (s' = s) then
       <[p := mkLevel (pl_orders (level_of l))
                      (u64 (pl_aggregate (level_of l) - oe_remaining e + q))]> (levels s b)
     else levels s' b) ->
  nodes b' = <[it := mkEntry (oe_id e) q]> (nodes b) ->
  orders_by_id_ b' = orders_by_id_ b -> pool_ b' = pool_ b ->
  represents b' (c_resize s p it q C) /\ abs b' = lob_resize (oe_id e) q (abs b).
Proof.
  intros [Hr Hb] Hs El Hin Hq Hlv En Ei Ea.
  assert (content_at C s p (it, e)) as Hat by (by exists l).
  assert (describes b' (c_resize s p it q C)) as Hr'.
  { apply (describes_resize b b' C s p it e q); try done.
    intros s' Hs'. rewrite Hlv by done. case_decide as Hss.
    - subst s'. by rewrite (levels_resize b C s p it e q l).
    - unfold c_resize. by apply (levels_other b C s s'). }
  split; [split; [done|]|by apply (abs_resize b b' C s p it e q)].
  assert (nodes b !! it = Some e) as Hit by (apply (rep_nodes _ _ Hr); eauto).
  unfold pool_ok in *. rewrite Ea, En. destruct (pool_ b).
  - rewrite dom_insert_lookup_L by eauto. done.
  - rewrite Hb in Hit. done.
Qed.

(** What a non-allocating operation returns. *)
Definition refines b (m : outcome (ApplyResult * OrderBook A)) (spec : ApplyResult * LOB) : Prop :=
  exists r b', m = Ret (r, b') /\ (r, abs b') = spec /\ book_wf b' /\
    pool_slots b' = pool_slots b /\ (r <> Ok -> b' = b).

Lemma refines_same b C m r spec :
  represents b C -> m = Ret (r, b) -> spec = (r, abs b) -> refines b m spec.
Proof. intros Hr -> ->. exists r, b. split_and!; [done|done|by exists C|done|done]. Qed.

(** A book with an order has a pool, and the order's node is live in it. *)
Lemma node_live b C it e :
  represents b C -> nodes b !! it = Some e ->
  exists a, pool_ b = Some a /\ na_wf a /\ na_live a = dom (nodes b) /\ it ∈ na_live a.
Proof.
  intros [Hr Hb] Hn. unfold pool_ok in Hb. destruct (pool_ b) as [a|].
  - destruct Hb as [? Hl]. exists a. split_and!; try done. rewrite Hl. by apply elem_of_dom.
  - by rewrite Hb in Hn.
Qed.

(** The common tail of cancel and a completing execution, on a book [b1] whose
    level at [p] already carries the reduced aggregate. *)
Lemma retire_node b b1 C s p it e l a :
  represents b C -> valid_side s -> C s !! p = Some l -> (it, e) ∈ l ->
  pool_ b = Some a -> na_wf a -> na_live a = dom (nodes b) ->
  (forall s', valid_side s' -> levels s' b1 =
     if decide (s' = s) then
       <[p := mkLevel (pl_orders (level_of l)) (u64 (pl_aggregate (level_of l) - oe_remaining e))]>
         (levels s b)
     else levels s' b) ->
  delete it (nodes b1) = delete it (nodes b) ->
  orders_by_id_ b1 = orders_by_id_ b -> pool_ b1 = Some a ->
  exists b2 b3, level_erase s p it b1 = Ret b2 /\ erase_if_empty s p b2 = Ret b3 /\
    represents (erase_index (oe_id e) b3) (c_remove s p it C) /\
    abs (erase_index (oe_id e) b3) = lob_remove (oe_id e) (abs b) /\
    pool_slots (erase_index (oe_id e) b3) = pool_slots b.
Proof.
  intros Hrep Hs El Hin Ea Hwf Hlive Hlv En Ei Ea1. pose proof Hrep as [Hr Hb].
  assert (nodes b !! it = Some e) as Hit.
  { apply (rep_nodes _ _ Hr). exists s, p. split; [done|]. by exists l. }
  assert (levels s b1 !! p = Some (mkLevel (pl_orders (level_of l))
            (u64 (pl_aggregate (level_of l) - oe_remaining e)))) as El1.
  { rewrite Hlv, decide_True by done. by rewrite lookup_insert_eq. }
  assert (it ∈ na_live a) as Hita by (rewrite Hlive; apply elem_of_dom; eauto).
  destruct (level_erase_found s p it _ b1 a Ea1 Hwf Hita El1) as (a' & E1 & Hwf' & Hl' & Hc').
  { simpl. apply list_elem_of_fmap. by exists (it, e). }
  eexists _, _. split; [done|]. split.
  { apply erase_if_empty_found.
    rewrite levels_set_nodes, levels_set_pool, levels_put_level, decide_True by done.
    by rewrite lookup_insert_eq. }
  simpl. set (o := filter _ l.*1) in *.
  set (b2 := set_nodes _ _). set (b3 := if decide (o = []) then _ else b2).
  assert (nodes b3 = delete it (nodes b)) as En3.
  { unfold b3, erase_level. rewrite <- En. case_decide; by rewrite ?nodes_set_levels. }
  assert (orders_by_id_ b3 = orders_by_id_ b) as Ei3.
  { unfold b3, erase_level. case_decide; rewrite ?index_set_levels; unfold b2; simpl;
      by rewrite index_put_level. }
  assert (pool_ b3 = Some a') as Ea3.
  { unfold b3, erase_level. case_decide; by rewrite ?pool_set_levels. }
  assert (represents (erase_index (oe_id e) b3) (c_remove s p it C) /\
    abs (erase_index (oe_id e) b3) = lob_remove (oe_id e) (abs b)) as [? ?].
  { apply (represents_remove b _ C s p it e l a'); try done.
    + intros s' Hs'. unfold erase_index. rewrite levels_set_index. simpl. fold o.
      unfold b3, erase_level. destruct (decide (o = [])) as [Eo|Eo].
      * rewrite levels_set_levels by done. unfold b2.
        rewrite !levels_set_nodes, !levels_set_pool, !levels_put_level by done.
        rewrite (decide_True (P := s = s)), !Hlv by done. rewrite (decide_True (P := s = s)) by done.
        case_decide; [|done]. by rewrite insert_insert_eq, delete_insert_eq.
      * unfold b2. rewrite levels_set_nodes, levels_set_pool, levels_put_level, !Hlv by done.
        rewrite (decide_True (P := s = s)) by done. case_decide; [|done].
        by rewrite insert_insert_eq.
    + simpl. by rewrite Ei3.
    + by rewrite Hl', Hlive. }
  split_and!; [done|done|]. unfold pool_slots. simpl. by rewrite Ea3, Ea.
Qed.

Lemma cancel_on_spec b C s p it e l :
  represents b C -> valid_side s -> C s !! p = Some l -> (it, e) ∈ l ->
  exists b3, cancel_on s (mkLoc s p it) b = Ret (Some b3) /\
    book_wf (erase_index (oe_id e) b3) /\
    abs (erase_index (oe_id e) b3) = lob_remove (oe_id e) (abs b) /\
    pool_slots (erase_index (oe_id e) b3) = pool_slots b.
Proof.
  intros Hrep Hs El Hin. pose proof Hrep as [Hr Hb].
  assert (nodes b !! it = Some e) as Hit.
  { apply (rep_nodes _ _ Hr). exists s, p. split; [done|]. by exists l. }
  destruct (node_live b C it e Hrep Hit) as (a & Ea & Hwf & Hlive & _).
  assert (levels s b !! p = Some (level_of l)) as Elv.
  { by rewrite (rep_levels _ _ Hr s Hs), lookup_fmap, El. }
  unfold cancel_on. cbn [loc_price loc_iterator]. rewrite Elv. unfold deref. rewrite Hit.
  cbn [mbind outcome_bind from_option_or].
  rewrite (level_add_quantity_found s p _ _ _ Elv). cbn [mbind outcome_bind].
  destruct (retire_node b (put_level s p (mkLevel (pl_orders (level_of l))
     (u64 (pl_aggregate (level_of l) + - oe_remaining e))) b) C s p it e l a)
    as (b2 & b3 & -> & E3 & Hrep3 & Habs & Hslots); try done.
  - intros s' Hs'. by rewrite levels_put_level.
  - by rewrite nodes_put_level.
  - apply index_put_level.
  - by rewrite pool_put_level.
  - cbn [mbind outcome_bind]. rewrite E3. exists b3. split_and!; [done|by eexists|done|done].
Qed.

Lemma apply_cancel_refines e b :
  book_wf b -> refines b (apply_cancel e b) (lob_cancel e (abs b)).
Proof.
  intros [C Hrep]. pose proof Hrep as [Hr Hb]. unfold apply_cancel, lob_cancel.
  destruct (index_cases b C (cancel_id e) Hr)
    as [(s & p & it & n & -> & Hs & Hat & Hid & Hn & (l & El & Hin & Elv) & ->)|[-> ->]].
  2: { by eapply refines_same. }
  destruct (cancel_on_spec b C s p it n l Hrep Hs El Hin) as (b3 & E & Hwf & Habs & Hslots).
  rewrite <- Hid. cbn [loc_side].
  assert (refines b (Ret (Ok, erase_index (oe_id n) b3)) (Ok, lob_remove (oe_id n) (abs b))).
  { eexists _, _. split; [done|]. split_and!; [by rewrite Habs|done|done|done]. }
  by destruct Hs as [-> | ->]; rewrite E; cbn [mbind outcome_bind].
Qed.

(** ** Executions *)

Lemma execute_on_refines b C s p it n l e :
  represents b C -> valid_side s -> C s !! p = Some l -> (it, n) ∈ l ->
  oe_id n = execute_id e -> 0 < execute_quantity e <= oe_remaining n ->
  refines b (execute_on s (mkLoc s p it) e b)
    (Ok, if decide (oe_remaining n = execute_quantity e) then lob_remove (execute_id e) (abs b)
         else lob_resize (execute_id e) (oe_remaining n - execute_quantity e) (abs b)).
Proof.
  intros Hrep Hs El Hin Hid Hq. pose proof Hrep as [Hr Hb].
  assert (content_at C s p (it, n)) as Hat by (by exists l).
  assert (nodes b !! it = Some n) as Hit by (apply (rep_nodes _ _ Hr); eauto).
  pose proof (co_quantity _ (rep_content _ _ Hr) s p _ Hs Hat) as Hrem. simpl in Hrem.
  destruct (node_live b C it n Hrep Hit) as (a & Ea & Hwf & Hlive & _).
  assert (levels s b !! p = Some (level_of l)) as Elv.
  { by rewrite (rep_levels _ _ Hr s Hs), lookup_fmap, El. }
  unfold execute_on. cbn [loc_price loc_iterator]. rewrite Elv.
  rewrite (level_add_quantity_found s p _ _ _ Elv). cbn [mbind outcome_bind].
  set (b1 := put_level s p _ b).
  unfold deref. assert (nodes b1 = nodes b) as En1 by apply nodes_put_level. rewrite En1, Hit.
  cbn [mbind outcome_bind from_option_or].
  rewrite (u32_small (oe_remaining n - execute_quantity e)) by (unfold is_u32; lia).
  set (left := oe_remaining n - execute_quantity e).
  assert (forall s', valid_side s' -> levels s' (set_node it (mkEntry (oe_id n) left) b1) =
     if decide (s' = s) then
       <[p := mkLevel (pl_orders (level_of l))
                      (u64 (pl_aggregate (level_of l) - execute_quantity e))]> (levels s b)
     else levels s' b) as Hlv.
  { intros s' Hs'. rewrite levels_set_node. unfold b1. by rewrite levels_put_level. }
  destruct (decide (left = 0)) as [E0|E0].
  - assert (oe_remaining n = execute_quantity e) as Eq by (unfold left in E0; lia).
    rewrite <- Eq in Hlv.
    destruct (retire_node b (set_node it (mkEntry (oe_id n) left) b1) C s p it n l a)
      as (b2 & b3 & -> & E3 & Hrep3 & Habs & Hslots); try done.
    { simpl. by rewrite En1, delete_insert_eq. }
    { unfold b1. simpl. apply index_put_level. }
    { unfold b1. simpl. by rewrite pool_put_level. }
    cbn [mbind outcome_bind]. rewrite E3. cbn [mbind outcome_bind]. rewrite decide_True by done.
    rewrite <- Hid. eexists _, _. split; [done|]. split_and!; [by rewrite Habs|by eexists|done|done].
  - rewrite decide_False by (unfold left in E0; lia).
    destruct (represents_resize b (set_node it (mkEntry (oe_id n) left) b1) C s p it n l left)
      as [Hrep' Habs]; try done.
    { unfold left in *. lia. }
    { intros s' Hs'. rewrite Hlv by done. case_decide; [|done]. do 2 f_equal.
      unfold left. f_equal. lia. }
    { simpl. by rewrite En1. }
    { unfold b1. simpl. apply index_put_level. }
    { unfold b1. simpl. apply pool_put_level. }
    eexists _, _. split; [done|]. split_and!; [by rewrite Habs, Hid|by eexists| |done].
    unfold pool_slots, b1. simpl. by rewrite pool_put_level.
Qed.

Lemma apply_execute_refines e b :
  book_wf b -> is_u32 (execute_quantity e) ->
  refines b (apply_execute e b) (lob_execute e (abs b)).
Proof.
  intros [C Hrep] Hq. pose proof Hrep as [Hr Hb]. unfold apply_execute, lob_execute.
  destruct (index_cases b C (execute_id e) Hr)
    as [(s & p & it & n & -> & Hs & Hat & Hid & Hn & (l & El & Hin & Elv) & ->)|[-> ->]].
  2: { by eapply refines_same. }
  case_decide as H0; [by eapply refines_same|].
  unfold deref. cbn [loc_iterator]. rewrite Hn. cbn [mbind outcome_bind from_option_or].
  unfold view_cell; cbn [ov_quantity snd].
  case_decide as Hlt; [by eapply refines_same|].
  pose proof (execute_on_refines b C s p it n l e Hrep Hs El Hin Hid) as Hex.
  unfold is_u32 in Hq. specialize (Hex ltac:(lia)).
  assert (forall d : Decision (oe_remaining n = execute_quantity e),
    (if d then (Ok, lob_remove (execute_id e) (abs b))
     else (Ok, lob_resize (execute_id e) (oe_remaining n - execute_quantity e) (abs b))) =
    (Ok, if d then lob_remove (execute_id e) (abs b)
         else lob_resize (execute_id e) (oe_remaining n - execute_quantity e) (abs b))) as ->
    by (intros []; done).
  by destruct Hs as [-> | ->].
Qed.

(** ** Replacement *)

Lemma adjust_refines b C s p it n l q :
  represents b C -> valid_side s -> C s !! p = Some l -> (it, n) ∈ l -> 0 < q < 2 ^ 32 ->
  exists b', adjust s (mkLoc s p it) q b = Ret b' /\ book_wf b' /\
    abs b' = lob_resize (oe_id n) q (abs b) /\ pool_slots b' = pool_slots b.
Proof.
  intros Hrep Hs El Hin Hq. pose proof Hrep as [Hr Hb].
  assert (content_at C s p (it, n)) as Hat by (by exists l).
  assert (nodes b !! it = Some n) as Hit by (apply (rep_nodes _ _ Hr); eauto).
  assert (levels s b !! p = Some (level_of l)) as Elv.
  { by rewrite (rep_levels _ _ Hr s Hs), lookup_fmap, El. }
  unfold adjust, deref. cbn [loc_iterator loc_price]. rewrite Hit. cbn [mbind outcome_bind from_option_or].
  rewrite (level_add_quantity_found s p _ _ _ Elv). cbn [mbind outcome_bind].
  erewrite level_add_quantity_found.
  2: { rewrite levels_set_node, levels_put_level, decide_True by done. by rewrite lookup_insert_eq. }
  eexists. split; [done|]. simpl.
  match goal with |- book_wf ?x /\ _ => set (b' := x) end.
  destruct (represents_resize b b' C s p it n l q) as [Hrep' Habs]; try done.
  - intros s' Hs'. unfold b'. rewrite levels_put_level, levels_set_node, !levels_put_level by done.
    rewrite (decide_True (P := s = s)) by done. case_decide; [|by rewrite levels_set_node, levels_put_level, decide_False by done].
    rewrite insert_insert_eq. cbn [pl_orders pl_aggregate]. by autorewrite with u64.
  - unfold b'. rewrite nodes_put_level. simpl. by rewrite nodes_put_level.
  - unfold b'. rewrite index_put_level. simpl. by rewrite index_put_level.
  - unfold b'. rewrite pool_put_level. simpl. by rewrite pool_put_level.
  - split_and!; [by eexists|done|]. unfold pool_slots, b'. rewrite pool_put_level. simpl.
    by rewrite pool_put_level.
Qed.

(** The level map through [move_to]: the new node is appended before the old one
    is unlinked, and the old level is dropped last; the outcome is that of
    unlinking first. *)
Lemma moved_levels (m : gmap Price PriceLevel) p op it lv o agg q :
  m !! op = Some lv -> (o = [] -> agg = 0) ->
  let tail := if decide (p = op) then [it] else [] in
  let at_ (m : gmap Price PriceLevel) := default (mkLevel [] 0) (m !! p) in
  let m1 := <[p := mkLevel (pl_orders (at_ m) ++ [it]) (pl_aggregate (at_ m))]> m in
  let m3 := <[op := mkLevel (o ++ tail) agg]> m1 in
  let m4 := <[p := mkLevel (pl_orders (at_ m3)) (u64 (pl_aggregate (at_ m3) + q))]> m3 in
  let m' := if decide (o = []) then delete op m else <[op := mkLevel o agg]> m in
  (if decide (o ++ tail = []) then delete op m4 else m4) =
  <[p := mkLevel (pl_orders (at_ m') ++ [it]) (u64 (pl_aggregate (at_ m') + q))]> m'.
Proof.
  intros Elv Hagg. cbv zeta. destruct (decide (p = op)) as [->|Hp].
  - rewrite decide_False by (by destruct o). rewrite lookup_insert_eq; simpl.
    rewrite !insert_insert_eq. destruct (decide (o = [])) as [Eo|Eo].
    + rewrite lookup_delete_eq, insert_delete_eq. simpl. by rewrite Eo, (Hagg Eo).
    + by rewrite lookup_insert_eq, insert_insert_eq.
  - rewrite app_nil_r, (lookup_insert_ne _ op p), lookup_insert_eq by done. simpl.
    destruct (decide (o = [])) as [Eo|Eo].
    + rewrite lookup_delete_ne by done.
      rewrite delete_insert_ne, delete_insert_eq, delete_insert_ne by done.
      by rewrite insert_insert_eq.
    + rewrite (lookup_insert_ne _ op p) by done.
      by rewrite (insert_insert_ne _ op p), insert_insert_eq by done.
Qed.

(** The book with one order unlinked, had it been done first. *)
Definition unlinked s (p : Price) it (id : OrderId) (C : content) b : OrderBook A :=
  erase_index id (set_nodes (delete it (nodes b))
    (set_levels s (level_of <$> c_remove s p it C s) b)).

Lemma unlinked_describes b C s p it e :
  describes b C -> valid_side s -> content_at C s p (it, e) ->
  describes (unlinked s p it (oe_id e) C b) (c_remove s p it C) /\
  abs (unlinked s p it (oe_id e) C b) = lob_remove (oe_id e) (abs b).
Proof.
  intros Hr Hs Hat. assert (describes (unlinked s p it (oe_id e) C b) (c_remove s p it C)) as Hr'.
  { apply (describes_remove b _ C s p it e); try done.
    - intros s' Hs'. unfold unlinked, erase_index. rewrite levels_set_index, levels_set_nodes.
      rewrite levels_set_levels by done. case_decide as Hss; [by subst s'|].
      unfold c_remove. by apply (levels_other b C s s').
    - simpl. by rewrite index_set_levels. }
  split; [done|]. by apply (abs_remove b _ C s p it e).
Qed.

(** The remaining aggregate of a level that loses its last order is zero. *)
Lemma last_aggregate C s p it e l :
  content_ok C -> valid_side s -> C s !! p = Some l -> (it, e) ∈ l ->
  filter (fun i => i <> it) (pl_orders (level_of l)) = [] ->
  u64 (pl_aggregate (level_of l) - oe_remaining e) = 0.
Proof.
  intros Hok Hs El Hin Eo. destruct (co_level _ Hok s p l Hs El) as (_ & _ & Hnd).
  pose proof (level_of_drop it e l Hnd Hin) as Ed. rewrite Eo in Ed.
  simpl in Eo. rewrite <- fst_drop_cell in Eo. apply fmap_nil_inv in Eo.
  rewrite Eo in Ed. by injection Ed.
Qed.

(** The chain of [move_to] after the reservation, on a book [b1] that differs
    from the reserved one in its index only: the levels it ends with are those
    of removing the old order first and adding the new one behind. *)
Lemma move_chain b b1 C s p it n op oit on l a1 q idx :
  represents b C -> valid_side s -> C s !! op = Some l -> (oit, on) ∈ l ->
  nodes b !! it = None -> oe_remaining n = q ->
  (forall s', valid_side s' -> levels s' b1 = levels s' (reserved s p it n a1 b)) ->
  nodes b1 = <[it := n]> (nodes b) -> pool_ b1 = Some a1 ->
  na_wf a1 -> na_live a1 = {[it]} ∪ dom (nodes b) ->
  exists b2 b3 b4 b5 a2,
    level_add_quantity s op (- oe_remaining on) b1 = Ret b2 /\
    level_erase s op oit b2 = Ret b3 /\
    level_add_quantity s p q b3 = Ret b4 /\
    erase_if_empty s op (set_index idx b4) = Ret b5 /\
    orders_by_id_ b4 = orders_by_id_ b1 /\
    orders_by_id_ b5 = idx /\
    nodes b5 = <[it := n]> (delete oit (nodes b)) /\
    pool_ b5 = Some a2 /\ na_wf a2 /\ na_live a2 = dom (nodes b5) /\
    na_capacity a2 = na_capacity a1 /\
    (forall s', valid_side s' ->
       levels s' b5 = level_of <$> c_insert s p (it, n) (c_remove s op oit C) s').
Proof.
  intros Hrep Hs El Hin Hn <- Hlv En Ea Hwf Hlive. pose proof Hrep as [Hr Hb].
  assert (content_at C s op (oit, on)) as Hat by (by exists l).
  assert (nodes b !! oit = Some on) as Hoit by (apply (rep_nodes _ _ Hr); eauto).
  assert (it <> oit) as Hne by congruence.
  assert (levels s b !! op = Some (level_of l)) as Elv
    by by rewrite (rep_levels _ _ Hr s Hs), lookup_fmap, El.
  set (agg := u64 (pl_aggregate (level_of l) - oe_remaining on)).
  set (o := filter (fun i => i <> oit) (pl_orders (level_of l))).
  set (L := default (mkLevel [] 0) (levels s b !! p)).
  (* the old order's level, with the new node behind it when the prices agree *)
  set (tail := if decide (p = op) then [it] else []).
  assert (levels s b1 !! op = Some (mkLevel (pl_orders (level_of l) ++ tail)
            (pl_aggregate (level_of l)))) as E1.
  { rewrite Hlv, levels_reserved, decide_True by done. cbv zeta. fold L. unfold tail.
    destruct (decide (p = op)) as [->|Hp].
    - rewrite lookup_insert_eq. unfold L. by rewrite Elv.
    - rewrite lookup_insert_ne, app_nil_r by done. by destruct (level_of l). }
  set (b2 := put_level s op (mkLevel (pl_orders (level_of l) ++ tail) agg) b1).
  assert (na_live a1 = na_live a1 /\ oit ∈ na_live a1) as [_ Hoa].
  { split; [done|]. rewrite Hlive. apply elem_of_union_r, elem_of_dom. eauto. }
  destruct (level_erase_found s op oit (mkLevel (pl_orders (level_of l) ++ tail) agg) b2 a1)
    as (a2 & E3 & Hwf2 & Hl2 & Hc2); [by unfold b2; rewrite pool_put_level|done|done|..].
  { unfold b2. rewrite levels_put_level, decide_True by done. by rewrite lookup_insert_eq. }
  { simpl. apply elem_of_app. left. apply list_elem_of_fmap. by exists (oit, on). }
  match type of E3 with _ = Ret ?x => set (b3 := x) in * end. cbn [pl_orders pl_aggregate] in b3.
  assert (filter (fun i => i <> oit) (pl_orders (level_of l) ++ tail) = o ++ tail) as Ef.
  { rewrite filter_app. f_equal. apply filter_all. unfold tail. case_decide; set_solver. }
  assert (forall s', valid_side s' -> levels s' b3 =
    if decide (s' = s) then <[op := mkLevel (o ++ tail) agg]> (levels s b1) else levels s' b1) as Hlv3.
  { intros s' Hs'. unfold b3. rewrite levels_set_nodes, levels_set_pool, levels_put_level by done.
    unfold b2. rewrite !levels_put_level by done. rewrite (decide_True (P := s = s)), Ef by done.
    case_decide; [|done]. by rewrite insert_insert_eq. }
  set (L' := mkLevel ((if decide (p = op) then o else pl_orders L) ++ [it])
                     (if decide (p = op) then agg else pl_aggregate L)).
  assert (levels s b3 !! p = Some L') as E4.
  { rewrite Hlv3, decide_True by done. unfold L', tail. destruct (decide (p = op)) as [->|Hp].
    - by rewrite lookup_insert_eq.
    - rewrite lookup_insert_ne by done. rewrite Hlv, levels_reserved, decide_True by done.
      cbv zeta. fold L. by rewrite lookup_insert_eq. }
  set (b4 := put_level s p (mkLevel (pl_orders L') (u64 (pl_aggregate L' + oe_remaining n))) b3).
  assert (forall s', valid_side s' -> levels s' (set_index idx b4) =
    if decide (s' = s) then <[p := mkLevel (pl_orders L') (u64 (pl_aggregate L' + oe_remaining n))]>
                              (levels s b3) else levels s' b3) as Hlv4.
  { intros s' Hs'. rewrite levels_set_index. unfold b4. by rewrite levels_put_level. }
  assert (exists g, levels s (set_index idx b4) !! op = Some (mkLevel (o ++ tail) g)) as [g E5].
  { rewrite Hlv4, decide_True by done. unfold L', tail in *. destruct (decide (p = op)) as [->|Hp].
    - rewrite lookup_insert_eq. eauto.
    - rewrite lookup_insert_ne, Hlv3, decide_True by done. rewrite lookup_insert_eq. eauto. }
  eexists b2, b3, b4, _, a2. split; [exact (level_add_quantity_found s op _ _ _ E1)|].
  split; [done|]. split; [exact (level_add_quantity_found s p _ _ _ E4)|].
  split; [by apply erase_if_empty_found with (1 := E5)|]. cbn [pl_orders].
  assert (orders_by_id_ b4 = orders_by_id_ b1) as Ei4.
  { unfold b4. rewrite index_put_level. unfold b3, b2. simpl. by rewrite !index_put_level. }
  assert (nodes b4 = <[it := n]> (delete oit (nodes b))) as En4.
  { unfold b4. rewrite nodes_put_level. unfold b3. simpl.
    unfold b2. by rewrite nodes_put_level, En, delete_insert_ne. }
  assert (pool_ b4 = Some a2) as Ea4.
  { unfold b4. by rewrite pool_put_level. }
  set (b5 := if decide (o ++ tail = []) then _ else _).
  assert (orders_by_id_ b5 = idx /\ nodes b5 = nodes b4 /\ pool_ b5 = pool_ b4) as (-> & -> & ->).
  { unfold b5, erase_level. case_decide; rewrite ?index_set_levels, ?nodes_set_levels, ?pool_set_levels; done. }
  split_and!; try done.
  { rewrite Hl2, Hlive, En4, dom_insert_L, dom_delete_L.
    apply not_elem_of_dom in Hn. set_solver. }
  (* the levels, against the content with the old order gone and the new one added *)
  set (C1 := c_remove s op oit C).
  destruct (unlinked_describes b C s op oit on Hr Hs Hat) as [Hrv _]. fold C1 in Hrv.
  intros s' Hs'. destruct (decide (s' = s)) as [->|Hss].
  2: { assert (levels s' b5 = levels s' b) as ->.
       { unfold b5, erase_level. case_decide; rewrite ?levels_set_levels, ?(decide_False (P := s' = s)) by done;
           rewrite (Hlv4 s'), decide_False, (Hlv3 s'), decide_False, (Hlv s'), levels_reserved by done;
         by rewrite decide_False. }
       unfold c_insert. rewrite fmap_set_side_ne by done.
       unfold C1, c_remove. by apply (levels_other b C s s'). }
  rewrite (levels_insert _ C1 s p (it, n) Hrv Hs). cbn [fst snd].
  rewrite (rep_levels _ _ Hrv s Hs). unfold C1.
  rewrite (levels_remove b C s op oit on l Hr Hs El Hin). cbv zeta. fold o agg.
  assert (levels s b5 = if decide (o ++ tail = []) then delete op (levels s (set_index idx b4))
                        else levels s (set_index idx b4)) as ->.
  { unfold b5, erase_level. case_decide; by rewrite ?levels_set_levels_eq. }
  rewrite <- (moved_levels (levels s b) p op it _ o agg (oe_remaining n) Elv)
    by (by apply (last_aggregate C s op oit on l (rep_content _ _ Hr))).
  fold L tail. rewrite (Hlv4 s), (decide_True (P := s = s)) by done.
  assert (levels s b3 = <[op := mkLevel (o ++ tail) agg]>
    (<[p := mkLevel (pl_orders L ++ [it]) (pl_aggregate L)]> (levels s b))) as E3'.
  { rewrite Hlv3, decide_True, Hlv, levels_reserved, decide_True by done. done. }
  rewrite <- E3'. by rewrite E4.
Qed.

Lemma move_to_refines h s old_id next b C p it on l :
  represents b C -> valid_side s -> C s !! p = Some l -> (it, on) ∈ l -> oe_id on = old_id ->
  add_side next = s -> AddOrder_ok next -> add_quantity next <> 0 -> add_price next <> 0 ->
  (add_id next <> old_id -> orders_by_id_ b !! add_id next = None) ->
  refines_alloc h b (move_to h s old_id (mkLoc s p it) next b)
    (Ok, lob_insert (view_of next) (lob_remove old_id (abs b))).
Proof.
  intros Hrep Hs El Hin <- Hside [Hid Hp Hq] Hq0 Hp0 Hfresh. pose proof Hrep as [Hr Hb].
  unfold is_u32 in *. assert (content_at C s p (it, on)) as Hat by (by exists l).
  assert (nodes b !! it = Some on) as Hit by (apply (rep_nodes _ _ Hr); eauto).
  destruct (node_live b C it on Hrep Hit) as (a & Ea & _).
  unfold move_to. cbv zeta. set (np := add_price next) in *.
  set (n := mkEntry (add_id next) (add_quantity next)).
  destruct (reserve_node_cases h s np n b a Hb Ea)
    as [(nit & a1 & -> & Hn & Hwf & Hl & Hc)|[-> Hf]]; cbn [mbind outcome_bind].
  2: { eapply refines_alloc_failed; [done|done|by apply same_but_pool_refl|done|].
       unfold no_memory, pool_slots. rewrite Ea. tauto. }
  destruct (bool_decide (add_id next <> oe_id on) && negb (heap_index h)) eqn:Eg.
  { apply andb_prop in Eg as [_ Eh%negb_true_iff]. unfold rollback.
    destruct (rollback_reserved s np nit n a1 b a _ Hb Ea Hn Hwf Hl Hc eq_refl) as (b2 & -> & Hsame).
    eapply refines_alloc_failed; [done|done|done|done|]. unfold no_memory. tauto. }
  clear Eg. cbn [loc_iterator loc_price].
  set (loc := mkLoc (add_side next) np nit).
  set (idx1 := if decide (add_id next <> oe_id on) then <[add_id next := loc]> (orders_by_id_ b)
               else orders_by_id_ b).
  set (b1 := set_index idx1 (reserved s np nit n a1 b)).
  assert ((if decide (add_id next <> oe_id on)
           then put_index (add_id next) loc (reserved s np nit n a1 b)
           else reserved s np nit n a1 b) = b1) as ->.
  { unfold b1, idx1, put_index. case_decide; rewrite ?index_reserved; [done|].
    rewrite <- (index_reserved s np nit n a1 b). by destruct (reserved _ _ _ _ _ _). }
  assert (nodes b1 = <[nit := n]> (nodes b)) as En1 by apply nodes_reserved.
  unfold deref. rewrite En1, lookup_insert_ne, Hit by congruence. cbn [mbind outcome_bind from_option_or].
  set (idx := <[add_id next := loc]> (delete (oe_id on) (orders_by_id_ b))).
  destruct (move_chain b b1 C s np nit n p it on l a1 (add_quantity next) idx)
    as (b2 & b3 & b4 & b5 & a2 & E2 & E3 & E4 & E5 & Ei4 & Ei5 & En5 & Ea5 & Hwf2 & Hl2 & Hc2 & Hlv5);
    try done; [apply pool_reserved|].
  rewrite E2. cbn [mbind outcome_bind]. rewrite E3. cbn [mbind outcome_bind].
  rewrite E4. cbn [mbind outcome_bind].
  assert ((if decide (add_id next = oe_id on) then put_index (oe_id on) loc b4
           else erase_index (oe_id on) b4) = set_index idx b4) as ->.
  { unfold put_index, erase_index. rewrite Ei4. unfold b1, idx1, idx. simpl.
    destruct (decide (add_id next = oe_id on)) as [<-|Hne].
    - rewrite (decide_False (P := add_id next <> add_id next)) by tauto. by rewrite insert_delete_eq.
    - rewrite decide_True by done. by rewrite delete_insert_ne. }
  rewrite E5. cbn [mbind outcome_bind].
  destruct (unlinked_describes b C s p it on Hr Hs Hat) as [Hrv Hav].
  set (bv := unlinked s p it (oe_id on) C b) in *.
  assert (describes b5 (c_insert s np (nit, n) (c_remove s p it C))) as Hr5.
  { apply (describes_insert bv); try done; [simpl; lia..| | |].
    - unfold bv. simpl. rewrite lookup_delete_ne by congruence. done.
    - unfold bv. simpl. rewrite index_set_levels. destruct (decide (add_id next = oe_id on)) as [->|Hne].
      + by rewrite lookup_delete_eq.
      + rewrite lookup_delete_ne by done. auto.
    - rewrite Ei5. unfold bv, idx, loc. simpl. by rewrite index_set_levels, Hside. }
  eexists _, b5. split; [done|]. split_and!.
  - unfold pool_slots. rewrite Ea5, Ea. congruence.
  - eexists. split; [done|]. unfold pool_ok. by rewrite Ea5.
  - left. split; [|done]. f_equal. rewrite (abs_insert bv b5 _ s np nit n), Hav by done.
    do 2 f_equal. unfold view_of, view_cell. simpl. by rewrite Hside.
Qed.

Lemma replace_refines h old_id next keep b :
  book_wf b -> AddOrder_ok next ->
  refines_alloc h b (replace h old_id next keep b) (lob_replace old_id next keep (abs b)).
Proof.
  intros [C Hrep] Hok. pose proof Hrep as [Hr Hb]. unfold replace, lob_replace.
  assert (forall r, refines_alloc h b (Ret (r, b)) (r, abs b)) as Hsame
    by (intros r; by eapply refines_alloc_same).
  pose proof (find_is_Some b C (add_id next) Hr) as Hfind.
  destruct (index_cases b C old_id Hr)
    as [(s & p & it & n & -> & Hs & Hat & Hid & Hn & (l & El & Hin & Elv) & ->)|[-> ->]]; [|done].
  cbn [loc_side loc_price]. unfold view_cell; cbn [ov_side ov_price fst snd].
  case_decide as Hq; [done|]. case_decide as Hp; [done|]. case_decide as Hside; [done|].
  destruct (decide (add_id next <> old_id /\ is_Some (orders_by_id_ b !! add_id next))) as [Hd|Hd].
  { rewrite decide_True by tauto. done. }
  rewrite (decide_False (P := _ /\ is_Some (lob_find _ _))) by tauto.
  assert ((if decide (s = Bid) then Bid else Ask) = s) as -> by (by destruct Hs as [-> | ->]).
  destruct keep.
  - case_decide; [done|]. destruct Hok as [_ _ Hq32]. unfold is_u32 in Hq32.
    destruct (adjust_refines b C s p it n l (add_quantity next)) as (b' & -> & Hwf & Habs & Hslots);
      try done; [lia|].
    eexists _, b'. split; [done|]. split_and!; try done. left. split; [|done]. by rewrite Habs, Hid.
  - eapply move_to_refines; eauto. intros Hne. apply eq_None_not_Some. tauto.
Qed.
End refine.
