(* ===== verification/OrderBookQuery.v ===== *)
(** * What the queries of the order book return

    On a well-formed book every query of OrderBook.v returns what LOB.v reads
    off the abstract book, [reset] empties it, and the number of nodes the pool
    has handed out is the number of live orders. *)
From S2P Require Import Prelude StdMap Types Allocator LOB OrderBook OrderBookInv OrderBookRefine.

Section query.
Context {A : Type} `{!NodeAllocator A} `{!NodeAllocatorLaws A}.
Implicit Types (b : OrderBook A) (C : content).

(** ** The levels of a side, in order *)

Lemma ordered_levels_content b C s :
  describes b C -> valid_side s ->
  ordered_levels s b = prod_map id level_of <$> ordered (price_before s) (C s).
Proof.
  intros Hr Hs. unfold ordered_levels.
  by rewrite (rep_levels _ _ Hr s Hs), (ordered_fmap (price_before s)).
Qed.

(** Every level of a well-formed side is a non-empty list of allocated nodes. *)
Definition cells_ok b s (p : Price) (l : list (Z * OrderEntry)) : Prop :=
  l <> [] /\ Forall (fun x : cell => nodes b !! x.1 = Some x.2 /\
    orders_by_id_ b !! oe_id x.2 = Some (mkLoc s p x.1)) l.

Lemma ordered_cells_ok b C s :
  describes b C -> valid_side s ->
  Forall (fun pl => cells_ok b s pl.1 pl.2) (ordered (price_before s) (C s)).
Proof.
  intros Hr Hs. apply Forall_forall. intros [p l] El%elem_of_ordered. simpl.
  destruct (co_level _ (rep_content _ _ Hr) s p l Hs El) as (_ & Hne & _).
  split; [done|]. apply Forall_forall. intros [it e] Hx.
  assert (content_at C s p (it, e)) as Hat by (by exists l). split; simpl.
  - apply (rep_nodes _ _ Hr). eauto.
  - apply (rep_index _ _ Hr). by exists e.
Qed.

Lemma deref_cell b s p l x :
  cells_ok b s p l -> x ∈ l -> deref x.1 b = Ret x.2.
Proof.
  intros [_ Hl] Hx. rewrite Forall_forall in Hl. destruct (Hl x Hx) as [E _].
  unfold deref. by rewrite E.
Qed.

Lemma best_price_abs b C s :
  describes b C -> valid_side s -> best_price s b = lob_best s (abs b).
Proof.
  intros Hr Hs. unfold best_price, map_begin, lob_best.
  rewrite (queue_abs b C s Hr Hs). fold (ordered_levels s b).
  rewrite (ordered_levels_content b C s Hr Hs). unfold flat.
  pose proof (ordered_cells_ok b C s Hr Hs) as Hok.
  destruct Hok as [|[p l] L [Hne _] _]; [done|]. simpl in *. by destruct l.
Qed.

Lemma order_abs b id :
  book_wf b -> order id b = Ret (lob_find id (abs b)).
Proof.
  intros [C [Hr Hb]]. unfold order.
  destruct (index_cases b C id Hr)
    as [(s & p & it & e & -> & Hs & Hat & Hid & Hn & _ & ->)|[-> ->]]; [|done].
  unfold deref. cbn [loc_iterator loc_side loc_price]. rewrite Hn.
  cbn [mbind outcome_bind from_option_or]. unfold view_cell. simpl. by rewrite Hid.
Qed.

Lemma remaining_quantity_abs b id :
  book_wf b -> remaining_quantity id b = Ret (lob_remaining id (abs b)).
Proof.
  intros [C [Hr Hb]]. unfold remaining_quantity, lob_remaining.
  destruct (index_cases b C id Hr)
    as [(s & p & it & e & -> & Hs & Hat & Hid & Hn & _ & ->)|[-> ->]]; [|done].
  unfold deref. cbn [loc_iterator]. by rewrite Hn.
Qed.

Lemma front_abs b s : book_wf b -> front s b = Ret (lob_front s (abs b)).
Proof.
  intros Hwf. pose proof Hwf as [C [Hr Hb]].
  assert (forall s, valid_side s ->
    match map_begin (price_before s) (levels s b) with
    | None => Ret None
    | Some (_, l) =>
      it ← from_option_or (Undefined "front of an empty list") (head (pl_orders l));
      n ← deref it b; order (oe_id n) b
    end = Ret (lob_front s (abs b))) as Hgen.
  { clear s. intros s Hs. unfold map_begin, lob_front. rewrite (queue_abs b C s Hr Hs).
    fold (ordered_levels s b). rewrite (ordered_levels_content b C s Hr Hs). unfold flat.
    pose proof (ordered_cells_ok b C s Hr Hs) as Hok.
    assert (forall p l, (p, l) ∈ ordered (price_before s) (C s) -> C s !! p = Some l) as Hin
      by (intros p l; apply elem_of_ordered).
    destruct Hok as [|[p l] L Hcells _]; [done|]. destruct l as [|[it e] l]; [by destruct Hcells|].
    cbn [fmap list_fmap head prod_map fst snd level_of pl_orders id mbind outcome_bind from_option_or].
    change it with (it, e).1 at 1. rewrite (deref_cell b s p _ (it, e) Hcells ltac:(left)).
    cbn [mbind outcome_bind snd]. rewrite (order_abs b (oe_id e) Hwf). simpl. do 2 f_equal.
    apply (abs_find_Some b C); [done|done|]. eexists. split; [apply Hin; left|left]. }
  destruct s; [apply Hgen; auto with lob..|done].
Qed.

(** ** Counts *)

Lemma node_ids_dom b C :
  describes b C ->
  dom (nodes b) = list_to_set (fst <$> flat_cells Bid (C Bid) ++ flat_cells Ask (C Ask)) /\
  NoDup (fst <$> flat_cells Bid (C Bid) ++ flat_cells Ask (C Ask)).
Proof.
  intros Hr. pose proof (rep_content _ _ Hr) as Hok. split.
  - apply set_eq. intros it. rewrite elem_of_dom, elem_of_list_to_set, fmap_app, elem_of_app. split.
    + intros [e He]. apply (rep_nodes _ _ Hr) in He as (s & p & Hs & l & El & Hx).
      destruct Hs as [-> | ->]; [left|right]; apply list_elem_of_fmap; exists (it, e);
        (split; [done|]); apply elem_of_flat_cells; eauto.
    + intros [H|H]; apply list_elem_of_fmap in H as ([it' e] & -> & (p & l & El & Hx)%elem_of_flat_cells);
        exists e; apply (rep_nodes _ _ Hr);
        [exists Bid, p|exists Ask, p]; (split; [auto with lob|]); by exists l.
  - rewrite fmap_app. apply NoDup_app. split_and!.
    + apply flat_cells_NoDup; auto with lob. intros p x p' x' H H' E.
      destruct (co_node _ Hok Bid p x Bid p' x'); auto with lob.
    + intros it (x & -> & (p & l & El & Hx)%elem_of_flat_cells)%list_elem_of_fmap
        (x' & E & (p' & l' & El' & Hx')%elem_of_flat_cells)%list_elem_of_fmap.
      destruct (co_node _ Hok Bid p x Ask p' x') as (? & _); auto with lob; try done;
        by eexists.
    + apply flat_cells_NoDup; auto with lob. intros p x p' x' H H' E.
      destruct (co_node _ Hok Ask p x Ask p' x'); auto with lob.
Qed.

Lemma lob_count_cells b C :
  describes b C ->
  lob_count (abs b) = length (flat_cells Bid (C Bid) ++ flat_cells Ask (C Ask)).
Proof.
  intros Hr. unfold lob_count, lob_orders. simpl.
  rewrite !(abs_side_flat b C) by auto with lob. rewrite !length_app.
  f_equal; rewrite <- (length_fmap ov_id), flat_ids; by rewrite length_fmap.
Qed.

Lemma size_nodes b : book_wf b -> size (nodes b) = lob_count (abs b).
Proof.
  intros [C [Hr _]]. destruct (node_ids_dom b C Hr) as [Hd Hnd].
  rewrite <- size_dom, Hd, size_list_to_set, length_fmap by done. by rewrite (lob_count_cells b C).
Qed.

Lemma index_dom b C : describes b C -> dom (orders_by_id_ b) = list_to_set (ov_id <$> lob_orders (abs b)).
Proof.
  intros Hr. apply set_eq. intros id. rewrite elem_of_dom, elem_of_list_to_set.
  rewrite (find_is_Some b C id Hr). unfold lob_find. split.
  - intros [v [Hv <-]%find_id_Some]. apply list_elem_of_fmap. eauto.
  - intros Hin. destruct (find_id id _) eqn:E; [eauto|]. by apply find_id_None in E.
Qed.

Lemma order_count_abs b : book_wf b -> order_count b = lob_count (abs b).
Proof.
  intros [C [Hr _]]. unfold order_count.
  rewrite <- size_dom, (index_dom b C Hr), size_list_to_set.
  - by rewrite length_fmap.
  - apply (wf_ids _ (abs_wf b C Hr)).
Qed.

(** ** The visitors *)

Lemma visit_level_cells {S} (visitor : OrderView -> S -> outcome (bool * S)) b s p l :
  cells_ok b s p l -> forall l', (forall x, x ∈ l' -> x ∈ l) -> forall st,
  visit_level visitor s p l'.*1 b st =
  foldr (fun x k st => '(continue, st) ← visitor (view_cell s p x) st;
                       if (continue : bool) then k st else Ret (false, st))
        (fun st => Ret (true, st)) l' st.
Proof.
  intros Hl. induction l' as [|x l' IH]; intros Hsub st; csimpl; [done|].
  rewrite (deref_cell b s p l x Hl) by (apply Hsub; left). cbn [mbind outcome_bind].
  change (mkView _ _ _ _) with (view_cell s p x).
  destruct (visitor (view_cell s p x) st) as [[[] st']|]; simpl; [|done..].
  apply IH. intros. apply Hsub. by right.
Qed.

Lemma visit_list_app {S} (visitor : OrderView -> S -> outcome (bool * S)) l k st :
  visit_list visitor (l ++ k) st =
  '(continue, st) ← foldr (fun v k st => '(continue, st) ← visitor v st;
                       if (continue : bool) then k st else Ret (false, st))
        (fun st => Ret (true, st)) l st;
  if (continue : bool) then visit_list visitor k st else Ret st.
Proof.
  revert st. induction l as [|v l IH]; intros st; simpl; [done|].
  by destruct (visitor v st) as [[[] st']|]; simpl; [apply IH|..].
Qed.

(** [for_each_order] sees the orders of the side in price-time priority. *)
Lemma for_each_order_abs {S} (visitor : OrderView -> S -> outcome (bool * S)) b s st :
  book_wf b -> for_each_order visitor s b st = visit_list visitor (queue s (abs b)) st.
Proof.
  intros [C [Hr _]].
  assert (forall s, valid_side s -> forall st,
    visit_levels visitor s (ordered_levels s b) b st = visit_list visitor (queue s (abs b)) st) as Hgen.
  { clear s st. intros s Hs. rewrite (queue_abs b C s Hr Hs), (ordered_levels_content b C s Hr Hs).
    unfold flat. pose proof (ordered_cells_ok b C s Hr Hs) as Hok.
    induction Hok as [|[p l] L Hcells _ IH]; intros st; csimpl; [done|].
    rewrite (visit_level_cells visitor b s p l Hcells) by done. rewrite visit_list_app, foldr_fmap.
    destruct (foldr _ _ _ st) as [[[] st']|]; simpl; [|done..]. apply IH. }
  destruct s; simpl; [apply Hgen; auto with lob..|done].
Qed.

Lemma level_views_cells b s p l :
  cells_ok b s p l -> level_views s p (level_of l) b = Ret (view_cell s p <$> l).
Proof.
  intros Hl. unfold level_views. simpl.
  assert (forall l', (forall x, x ∈ l' -> x ∈ l) ->
    mapO (fun it => n ← deref it b; Ret (mkView (oe_id n) s p (oe_remaining n))) l'.*1 =
    Ret (view_cell s p <$> l')) as Hgen; [|by apply Hgen].
  induction l' as [|x l' IH]; intros Hsub; csimpl; [done|].
  rewrite (deref_cell b s p l x Hl) by (apply Hsub; left). cbn [mbind outcome_bind].
  rewrite IH by (intros; apply Hsub; by right). done.
Qed.

(** [snapshot]: per side the levels from the best, each with its orders in
    time priority; flattened they are the queues of the abstract book. *)
Definition side_views (s : Side) C : list LevelView :=
  (fun pl => mkLevelView s pl.1 (u64 (total_of pl.2)) (view_cell s pl.1 <$> pl.2)) <$>
  ordered (price_before s) (C s).

Lemma snapshot_side_content b C s :
  describes b C -> valid_side s -> snapshot_side s b = Ret (side_views s C).
Proof.
  intros Hr Hs. unfold snapshot_side, side_views. rewrite (ordered_levels_content b C s Hr Hs).
  pose proof (ordered_cells_ok b C s Hr Hs) as Hok.
  induction Hok as [|[p l] L Hcells _ IH]; csimpl; [done|].
  rewrite (level_views_cells b s p l Hcells). cbn [mbind outcome_bind]. by rewrite IH.
Qed.

Lemma side_views_orders s C : side_views s C ≫= lv_orders = flat s (C s).
Proof.
  unfold side_views, flat. induction (ordered (price_before s) (C s)) as [|[p l] L IH]; csimpl; [done|].
  by rewrite IH.
Qed.

Lemma side_views_aggregates s C :
  Forall (fun v => lv_quantity v = u64 (total_quantity (lv_orders v))) (side_views s C).
Proof.
  apply Forall_forall. intros v ([p l] & -> & _)%list_elem_of_fmap. simpl. f_equal.
  unfold total_of, total_quantity. rewrite <- list_fmap_compose. done.
Qed.

(** The two sides of a snapshot against the abstract book. *)
Lemma snapshot_abs b :
  book_wf b ->
  exists bs ks, snapshot b = Ret (bs ++ ks) /\
    bs ≫= lv_orders = lob_bids (abs b) /\ ks ≫= lv_orders = lob_asks (abs b) /\
    Forall (fun v => lv_side v = Bid) bs /\ Forall (fun v => lv_side v = Ask) ks /\
    Forall (fun v => lv_quantity v = u64 (total_quantity (lv_orders v))) (bs ++ ks).
Proof.
  intros [C [Hr _]]. exists (side_views Bid C), (side_views Ask C). unfold snapshot.
  rewrite !(snapshot_side_content b C) by auto with lob. split; [done|].
  rewrite !side_views_orders, <- !(abs_side_flat b C) by auto with lob.
  split_and!; try done; try (apply Forall_fmap, Forall_true; done).
  apply Forall_app. split; apply side_views_aggregates.
Qed.

Lemma best_quantity_abs b s : book_wf b -> best_quantity s b = lob_best_quantity s (abs b).
Proof.
  intros [C [Hr _]].
  assert (forall s, valid_side s ->
    match map_begin (price_before s) (levels s b) with Some (_, l) => pl_aggregate l | None => 0 end =
    lob_best_quantity s (abs b)) as Hgen; [|destruct s; [apply Hgen; auto with lob..|done]].
  clear s. intros s Hs. unfold map_begin, lob_best_quantity, lob_best.
  rewrite (queue_abs b C s Hr Hs). fold (ordered_levels s b).
  rewrite (ordered_levels_content b C s Hr Hs). unfold flat.
  pose proof (ordered_cells_ok b C s Hr Hs) as Hok.
  pose proof (NoDup_ordered_keys (price_before s) (C s)) as Hnd.
  destruct Hok as [|[p l] L [Hne _] _]; [done|]. csimpl in *.
  apply NoDup_cons in Hnd as [Hp _].
  assert (head ((view_cell s p <$> l) ++ (L ≫= fun pl => view_cell s pl.1 <$> pl.2)) =
          view_cell s p <$> head l) as -> by (by destruct l).
  destruct l as [|x l]; [done|]. set (K := view_cell s p <$> x :: l).
  assert (K = view_cell s p <$> x :: l) as EK by done. clearbody K.
  simpl. f_equal. unfold at_price. rewrite filter_app.
  rewrite (filter_none _ (L ≫= _)).
  2: { intros v ([p' l'] & Hv & Hin)%list_elem_of_bind E. simpl in Hv.
       apply list_elem_of_fmap in Hv as (y & -> & _). simpl in E. subst p'.
       apply Hp, list_elem_of_fmap. by exists (p, l'). }
  rewrite app_nil_r, filter_all.
  - unfold total_of, total_quantity. by rewrite EK, <- list_fmap_compose.
  - rewrite EK. by intros v (y & -> & _)%list_elem_of_fmap.
Qed.

(** ** Reset *)

Lemma foldM_bind {X Y S} (f : S -> Y -> outcome S) (g : X -> list Y) st (l : list X) :
  foldM (fun st x => foldM f st (g x)) st l = foldM f st (l ≫= g).
Proof.
  revert st. induction l as [|x l IH]; intros st; csimpl; [done|].
  rewrite foldM_app. destruct (foldM f st (g x)); simpl; auto.
Qed.

Lemma free_nodes its b a :
  pool_ b = Some a -> na_wf a -> na_live a = dom (nodes b) ->
  NoDup its -> list_to_set its ⊆ dom (nodes b) ->
  exists n a', foldM (fun b it => free_node it b) b its = Ret (set_nodes n (set_pool (Some a') b)) /\
    dom n = (dom (nodes b) ∖ list_to_set its) /\ na_wf a' /\ na_live a' = dom n /\
    na_capacity a' = na_capacity a.
Proof.
  revert b a. induction its as [|it its IH]; intros b a Ea Hwf Hl Hnd Hsub; simpl.
  - exists (nodes b), a. split; [by destruct b; simpl in *; subst|]. split_and!; try done. set_solver.
  - apply NoDup_cons in Hnd as [Hit Hnd]. simpl in Hsub.
    destruct (free_node_live it b a Hwf Ea) as (a1 & -> & Hwf1 & Hl1 & Hc1); [set_solver|]. simpl.
    edestruct (IH (set_nodes (delete it (nodes b)) (set_pool (Some a1) b)) a1)
      as (n & a' & -> & Hd & Hwf' & Hl' & Hc'); try done.
    + simpl. rewrite dom_delete_L. congruence.
    + simpl. rewrite dom_delete_L.
      intros x Hx. apply elem_of_difference. split; [set_solver|].
      intros ->%elem_of_singleton. rewrite elem_of_list_to_set in Hx; done.
    + exists n, a'. simpl in Hd. rewrite dom_delete_L in Hd.
      split_and!; try done; [rewrite Hd; set_solver|congruence].
Qed.

(** A book with nothing in it. *)
Lemma empty_book_wf (p : option A) :
  (forall a, p = Some a -> na_wf a /\ na_live a = ∅) ->
  book_wf (mkBook p ∅ ∅ ∅ ∅) /\ abs (mkBook p ∅ ∅ ∅ ∅) = lob_empty.
Proof.
  intros Hp. split; [|done]. exists (fun _ => ∅). split; [split|].
  - split.
    + by intros ???? H.
    + by intros ???? (l & H & _).
    + by intros ?????? ?? (l & H & _).
    + by intros ?????? ?? (l & H & _).
  - intros s [-> | ->]; simpl; by rewrite fmap_empty.
  - intros it e. simpl. rewrite lookup_empty. split; [done|]. by intros (s & p' & _ & l & H & _).
  - intros id loc. simpl. rewrite lookup_empty. split; [done|]. by intros (e & _ & (l & H & _) & _).
  - unfold pool_ok. simpl. destruct p as [a|]; [|done]. rewrite dom_empty_L. by apply Hp.
Qed.

(** [reset] frees every node exactly once and leaves an empty book. *)
Lemma reset_spec b :
  book_wf b ->
  exists b', reset b = Ret b' /\ book_wf b' /\ abs b' = lob_empty /\ nodes b' = ∅ /\
    orders_by_id_ b' = ∅ /\ bids_ b' = ∅ /\ asks_ b' = ∅ /\ pool_slots b' = pool_slots b.
Proof.
  intros [C [Hr Hb]].
  destruct (node_ids_dom b C Hr) as [Hd Hnd].
  rewrite fmap_app in Hd, Hnd. rewrite list_to_set_app_L in Hd. apply NoDup_app in Hnd as (Hnd1 & Hdis & Hnd2).
  assert (forall b' s, valid_side s -> levels s b' = level_of <$> C s ->
    clear_side s b' = (b'' ← foldM (fun b it => free_node it b) b' (fst <$> flat_cells s (C s));
                       Ret (set_levels s ∅ b''))) as Hclear.
  { intros b' s Hs El. unfold clear_side, ordered_levels, clear_level. rewrite El.
    rewrite foldM_bind, (ordered_fmap (price_before s)). do 2 f_equal.
    unfold flat_cells. induction (ordered (price_before s) (C s)) as [|[p l] L IH]; csimpl; [done|].
    by rewrite fmap_app, IH. }
  unfold reset. rewrite (Hclear b Bid) by (auto with lob; apply Hr; auto with lob).
  destruct (pool_ b) as [a|] eqn:Ea.
  - destruct (pool_ok_some b a Hb Ea) as [Hwf Hl].
    destruct (free_nodes (fst <$> flat_cells Bid (C Bid)) b a) as (n1 & a1 & -> & Hd1 & Hwf1 & Hl1 & Hc1);
      try done; [set_solver|]. cbn [mbind outcome_bind].
    set (b1 := set_levels Bid ∅ _). rewrite (Hclear b1 Ask); [|auto with lob|].
    2: { unfold b1. simpl. apply (rep_levels _ _ Hr Ask). auto with lob. }
    destruct (free_nodes (fst <$> flat_cells Ask (C Ask)) b1 a1) as (n2 & a2 & -> & Hd2 & Hwf2 & Hl2 & Hc2);
      try done.
    { unfold b1; simpl. rewrite Hd1, Hd. intros x Hx. apply elem_of_difference. split; [set_solver|].
      rewrite elem_of_list_to_set in *. naive_solver. }
    cbn [mbind outcome_bind]. eexists. split; [done|].
    assert (n2 = ∅) as ->.
    { apply dom_empty_iff_L. rewrite Hd2. unfold b1; simpl. rewrite Hd1, Hd. set_solver. }
    destruct (empty_book_wf (Some a2)) as [H1 H2].
    { intros a3 [= <-]. split; [done|]. by rewrite Hl2, dom_empty_L. }
    split_and!; try done. unfold pool_slots; simpl. rewrite Ea. congruence.
  - assert (nodes b = ∅) as En by (by unfold pool_ok in Hb; rewrite Ea in Hb).
    rewrite En, dom_empty_L in Hd.
    assert (forall l : list Z, (list_to_set l : gset Z) ⊆ ∅ -> l = []) as Hnil.
    { intros [|x l] H; [done|]. exfalso. set_solver. }
    rewrite (Hnil (fst <$> flat_cells Bid _)) by set_solver. simpl.
    rewrite (Hclear _ Ask) by (auto with lob; simpl; apply (rep_levels _ _ Hr Ask); auto with lob).
    rewrite (Hnil (fst <$> flat_cells Ask _)) by set_solver. simpl.
    eexists. split; [done|]. rewrite Ea, En.
    destruct (empty_book_wf None) as [H1 H2]; [done|]. split_and!; try done.
    unfold pool_slots; simpl. by rewrite Ea.
Qed.
End query.
