(* ===== verification/BookCheck.v ===== *)
(** * The book's own consistency check

    [OrderBook::validate_invariants] walks both sides and the index and reports
    the first thing that does not fit.  [None] models [true]; [Some reason]
    models [false] with the text stored through [reason].  The index is an
    [std::unordered_map]: which of several orphans it meets first is not
    specified, and the model takes the order of [map_to_list]. *)
From stdpp Require Import pretty.
From S2P Require Import Prelude StdMap Types Allocator LOB OrderBook OrderBookInv OrderBookRefine.
From S2P Require Import OrderBookQuery.

Section check.
Context {A : Type} `{!NodeAllocator A}.
Implicit Types (b : OrderBook A) (s : Side).

Local Open Scope string_scope.

(** The locals of the walk: [seen_order_ids], [level_order_count] and the
    running aggregate of one level. *)
Definition order_label (id : OrderId) : string := "order " +:+ pretty id.

Definition validate_order s (p : Price) b (it : Z) (st : gset OrderId * nat * Z)
    : outcome (string + gset OrderId * nat * Z) :=
  let '(seen, count, agg) := st in
  e ← deref it b;
  let id := oe_id e in
  if decide (oe_remaining e = 0) then Ret (inl (order_label id +:+ " has zero remaining quantity"))
  else if decide (id ∈ seen) then
    Ret (inl (order_label id +:+ " appears in more than one price level"))
  else if decide (2 ^ 64 - 1 - oe_remaining e < agg) then
    Ret (inl (side_to_string s +:+ " level " +:+ pretty p +:+ " aggregate quantity overflows"))
  else match orders_by_id_ b !! id with
       | None => Ret (inl (order_label id +:+ " exists in a price level but not in the order index"))
       | Some loc =>
         if decide (loc_side loc <> s) then
           Ret (inl (order_label id +:+ " has the wrong side in the order index"))
         else if decide (loc_price loc <> p) then
           Ret (inl (order_label id +:+ " has the wrong price in the order index"))
         else if decide (loc_iterator loc <> it) then
           Ret (inl (order_label id +:+ " has the wrong queue iterator in the order index"))
         else Ret (inr ({[id]} ∪ seen, S count, agg + oe_remaining e))
       end.

Fixpoint validate_orders s p b (its : list Z) st : outcome (string + gset OrderId * nat * Z) :=
  match its with
  | [] => Ret (inr st)
  | it :: its =>
    r ← validate_order s p b it st;
    match r with inl e => Ret (inl e) | inr st => validate_orders s p b its st end
  end.

Definition better s (p : Price) (best : option Price) : bool :=
  match best with
  | None => true
  | Some q => if decide (s = Bid) then bool_decide (q < p) else bool_decide (p < q)
  end.

(** The lambda [validate_levels]. *)
Fixpoint validate_levels s b (ls : list (Price * PriceLevel))
    (seen : gset OrderId) (count : nat) (best : option Price)
    : outcome (string + gset OrderId * nat * option Price) :=
  match ls with
  | [] => Ret (inr (seen, count, best))
  | (p, l) :: ls =>
    if decide (p = 0) then Ret (inl (side_to_string s +:+ " level has an invalid zero price"))
    else if decide (pl_orders l = []) then
      Ret (inl (side_to_string s +:+ " level " +:+ pretty p +:+ " is empty"))
    else
      let best := if better s p best then Some p else best in
      r ← validate_orders s p b (pl_orders l) (seen, count, 0);
      match r with
      | inl e => Ret (inl e)
      | inr (seen, count, agg) =>
        if decide (agg <> pl_aggregate l) then
          Ret (inl (side_to_string s +:+ " level " +:+ pretty p +:+
                    " aggregate quantity mismatch: stored=" +:+ pretty (pl_aggregate l) +:+
                    ", computed=" +:+ pretty agg))
        else validate_levels s b ls seen count best
      end
  end.

Definition validate_invariants b : outcome (option string) :=
  r ← validate_levels Bid b (ordered_levels Bid b) ∅ 0 None;
  match r with
  | inl e => Ret (Some e)
  | inr (seen, count, best_b) =>
    r ← validate_levels Ask b (ordered_levels Ask b) seen count None;
    match r with
    | inl e => Ret (Some e)
    | inr (seen, count, best_a) =>
      match filter (fun kv => kv.1 ∉ seen) (map_to_list (orders_by_id_ b)) with
      | (id, _) :: _ =>
        Ret (Some (order_label id +:+ " exists in the order index but not in a price level"))
      | [] =>
        if decide (count <> order_count b) then
          Ret (Some ("order count mismatch: levels=" +:+ pretty count +:+
                     ", index=" +:+ pretty (order_count b)))
        else if decide (best_bid b <> best_b) then
          Ret (Some "best bid does not match the highest live bid level")
        else if decide (best_ask b <> best_a) then
          Ret (Some "best ask does not match the lowest live ask level")
        else Ret None
      end
    end
  end.
End check.

(** ** The check accepts every well-formed book *)
Section accepts.
Context {A : Type} `{!NodeAllocator A} `{!NodeAllocatorLaws A}.
Implicit Types (b : OrderBook A) (C : content).

Definition cell_ids (l : list (Z * OrderEntry)) : list OrderId := (fun x => oe_id x.2) <$> l.

Lemma total_of_bound l :
  Forall (fun x : cell => 0 < oe_remaining x.2 < 2 ^ 32) l ->
  0 <= total_of l <= Z.of_nat (length l) * (2 ^ 32 - 1).
Proof. unfold total_of. induction 1 as [|x l Hx _ IH]; csimpl; lia. Qed.

Lemma validate_orders_accepts b s p l seen count agg :
  cells_ok b s p l -> 0 <= agg ->
  Forall (fun x : cell => 0 < oe_remaining x.2 < 2 ^ 32) l ->
  NoDup (cell_ids l) -> (forall x, x ∈ l -> oe_id x.2 ∉ seen) ->
  agg + total_of l < 2 ^ 64 ->
  validate_orders s p b l.*1 (seen, count, agg) =
  Ret (inr (list_to_set (cell_ids l) ∪ seen, (count + length l)%nat, agg + total_of l)).
Proof.
  intros [_ Hcells]. revert seen count agg.
  induction Hcells as [|[it e] l [Hit Hidx] _ IH]; intros seen count agg Hagg Hq Hnd Hseen Htot; csimpl in *.
  - unfold total_of; csimpl. do 2 f_equal; f_equal; [f_equal; [set_solver|lia]|lia].
  - apply Forall_cons in Hq as [He Hq]. apply NoDup_cons in Hnd as [Hid Hnd].
    pose proof (total_of_bound l Hq) as Hb. unfold total_of in *; csimpl in *.
    unfold deref. rewrite Hit. cbn [mbind outcome_bind from_option_or].
    rewrite decide_False by lia.
    rewrite (decide_False (P := oe_id e ∈ seen)) by (apply (Hseen (it, e)); left).
    rewrite decide_False by lia. rewrite Hidx. cbn [loc_side loc_price loc_iterator].
    rewrite !decide_False by naive_solver. cbn [mbind outcome_bind].
    rewrite IH; try done; try lia.
    + do 2 f_equal. f_equal; [f_equal; [set_solver|lia]|lia].
    + intros x Hx [E%elem_of_singleton|E]%elem_of_union.
      * apply Hid. rewrite <- E. by apply (list_elem_of_fmap_2 (fun x => oe_id x.2)).
      * apply (Hseen x); [by right|done].
Qed.

(** Walking the levels from the best: the first price stays the best. *)
Lemma validate_levels_accepts b s L seen count best :
  valid_side s ->
  Forall (fun pl => cells_ok b s pl.1 pl.2 /\ 0 < pl.1 < 2 ^ 32 /\
            Forall (fun x : cell => 0 < oe_remaining x.2 < 2 ^ 32) pl.2) L ->
  StronglySorted (key_rel (price_before s)) L ->
  NoDup (cell_ids (L ≫= snd)) -> (forall x, x ∈ (L ≫= snd) -> oe_id x.2 ∉ seen) ->
  Z.of_nat (length (L ≫= snd)) <= 2 ^ 32 ->
  (forall q, best = Some q -> Forall (fun pl => price_before s q pl.1) L) ->
  validate_levels s b (prod_map id level_of <$> L) seen count best =
  Ret (inr (list_to_set (cell_ids (L ≫= snd)) ∪ seen, (count + length (L ≫= snd))%nat,
            match best with Some q => Some q | None => fst <$> head L end)).
Proof.
  intros Hs HL. revert seen count best.
  induction HL as [|[p l] L (Hcells & Hp & Hq) _ IH]; intros seen count best Hsort Hnd Hseen Hlen Hbest;
    csimpl in *.
  - do 2 f_equal. f_equal; [f_equal; [set_solver|lia]|by destruct best].
  - rewrite decide_False by (unfold id; lia).
    rewrite decide_False by (destruct Hcells as [Hne _]; by destruct l).
    pose proof (total_of_bound l Hq) as Hb.
    rewrite length_app in Hlen. unfold cell_ids in Hnd. rewrite fmap_app in Hnd.
    apply NoDup_app in Hnd as (Hnd1 & Hdis & Hnd2).
    rewrite (validate_orders_accepts b s p l seen count 0); try done; try lia.
    2: { intros x Hx. apply Hseen, elem_of_app. by left. }
    cbn [mbind outcome_bind]. rewrite decide_False.
    2: { intros H. apply H. simpl. rewrite u64_small; unfold is_u64; lia. }
    inversion_clear Hsort as [|?? HsL HfL].
    assert ((if better s p best then Some p else best) =
            match best with Some q => Some q | None => Some p end) as ->.
    { destruct best as [q|]; [|done]. specialize (Hbest q eq_refl).
      apply Forall_cons in Hbest as [Hpq _]. simpl in Hpq. unfold better.
      destruct Hs as [-> | ->]; simpl in *; by rewrite bool_decide_false by (unfold flip in *; lia). }
    rewrite IH; try done.
    + unfold cell_ids. rewrite !fmap_app, list_to_set_app_L. f_equal. f_equal.
      f_equal; [f_equal|by destruct best]; [set_solver|rewrite length_app; lia].
    + intros x Hx [E|E]%elem_of_union; [|by apply (Hseen x); [apply elem_of_app; by right|]].
      rewrite elem_of_list_to_set in E. apply (Hdis _ E).
      by apply (list_elem_of_fmap_2 (fun x => oe_id x.2)).
    + lia.
    + intros q Eq. assert (price_before s q p) as Hqp.
      { destruct best as [q'|]; injection Eq as ->.
        - specialize (Hbest _ eq_refl). by apply Forall_cons in Hbest as [? _].
        - by destruct (total (price_before s) q q). }
      eapply Forall_impl; [exact HfL|]. intros [p' l'] Hp'. simpl in *. unfold key_rel in Hp'. simpl in Hp'.
      by transitivity p.
Qed.

Lemma side_ok b C s :
  describes b C -> valid_side s ->
  Forall (fun pl => cells_ok b s pl.1 pl.2 /\ 0 < pl.1 < 2 ^ 32 /\
            Forall (fun x : cell => 0 < oe_remaining x.2 < 2 ^ 32) pl.2)
         (ordered (price_before s) (C s)).
Proof.
  intros Hr Hs. pose proof (ordered_cells_ok b C s Hr Hs) as Hc. rewrite Forall_forall in *.
  intros [p l] Hin. specialize (Hc _ Hin). apply elem_of_ordered in Hin. split_and!; [done|..].
  - by apply (co_level _ (rep_content _ _ Hr) s p l Hs Hin).
  - by apply (co_level _ (rep_content _ _ Hr) s p l Hs Hin).
  - apply Forall_forall. intros x Hx. apply (co_quantity _ (rep_content _ _ Hr) s p x Hs).
    by exists l.
Qed.

Lemma validate_accepts b :
  book_wf b -> Z.of_nat (lob_count (abs b)) <= 2 ^ 32 -> validate_invariants b = Ret None.
Proof.
  intros Hwf Hcount. pose proof Hwf as [C [Hr Hb]].
  pose proof (abs_wf b C Hr) as Hlwf. pose proof (wf_ids _ Hlwf) as Hids.
  rewrite (lob_count_cells b C Hr), length_app in Hcount.
  assert (ov_id <$> lob_orders (abs b) =
          cell_ids (flat_cells Bid (C Bid)) ++ cell_ids (flat_cells Ask (C Ask))) as Eids.
  { unfold lob_orders. simpl. rewrite !(abs_side_flat b C) by auto with lob.
    by rewrite fmap_app, !flat_ids. }
  pose proof (index_dom b C Hr) as Hdom. rewrite Eids in *. apply NoDup_app in Hids as (Hn1 & Hdis & Hn2).
  unfold validate_invariants. rewrite !(ordered_levels_content b C) by auto with lob.
  unfold flat_cells in *.
  rewrite (validate_levels_accepts b Bid); auto with lob; try done.
  2: { by apply side_ok; auto with lob. } 2: { apply (ordered_sorted (price_before Bid)). } 2: lia.
  cbn [mbind outcome_bind].
  rewrite (validate_levels_accepts b Ask); auto with lob; try done.
  2: { by apply side_ok; auto with lob. } 2: { apply (ordered_sorted (price_before Ask)). } 3: lia.
  2: { intros x Hx [E|E]%elem_of_union; [|set_solver]. rewrite elem_of_list_to_set in E.
       apply (Hdis _ E). by apply (list_elem_of_fmap_2 (fun x => oe_id x.2)). }
  cbn [mbind outcome_bind].
  rewrite filter_none.
  2: { intros [id loc] Hin%elem_of_map_to_list H. apply H. simpl.
       assert (id ∈ dom (orders_by_id_ b)) as Hd by (apply elem_of_dom; eauto).
       rewrite Hdom, list_to_set_app_L in Hd. set_solver. }
  rewrite decide_False.
  2: { intros H. apply H. rewrite (order_count_abs b Hwf), (lob_count_cells b C Hr).
       unfold flat_cells. rewrite length_app. lia. }
  assert (forall s, valid_side s -> best_price s b = fst <$> head (ordered (price_before s) (C s))) as Hbest.
  { intros s Hs. unfold best_price, map_begin. fold (ordered_levels s b).
    rewrite (ordered_levels_content b C s Hr Hs).
    by destruct (ordered (price_before s) (C s)) as [|[p l] L]. }
  unfold best_bid, best_ask. rewrite !Hbest by auto with lob. by rewrite !decide_False by naive_solver.
Qed.
End accepts.
