(* ===== verification/BookInterface.v ===== *)
(** * The book as its clients see it

    [BookOps] lists the members of [OrderBook] the registry, the matching
    engine, the market replica and the feed books call; [BookLaws] says what
    each returns in terms of the abstract book of LOB.v.  The clients are
    written and proved against these two classes, and [pool_book_laws]
    discharges them for the real book over its fixed-slot pool. *)
From S2P Require Import Prelude StdMap Types Allocator Pool PoolLaws LOB OrderBook OrderBookInv.
From S2P Require Import OrderBookRefine OrderBookQuery BookCheck.

Class BookOps (B : Type) := {
  bk_new : Heap -> Z -> outcome B;
  bk_add : Heap -> AddOrder -> B -> outcome (ApplyResult * B);
  bk_cancel : CancelOrder -> B -> outcome (ApplyResult * B);
  bk_execute : ExecuteOrder -> B -> outcome (ApplyResult * B);
  bk_replace : Heap -> OrderId -> AddOrder -> bool -> B -> outcome (ApplyResult * B);
  bk_reset : B -> outcome B;
  bk_best : Side -> B -> option Price;
  bk_best_quantity : Side -> B -> Z;
  bk_order : OrderId -> B -> outcome (option OrderView);
  bk_remaining : OrderId -> B -> outcome (option Quantity);
  bk_count : B -> nat;
  bk_snapshot : B -> outcome (list LevelView);
  bk_visit : forall {S : Type}, (OrderView -> S -> outcome (bool * S)) -> Side -> B -> S -> outcome S;
  bk_validate : B -> outcome (option string)
}.

(** The general heap grants everything asked of it during the call. *)
Definition heap_grants (h : Heap) : Prop :=
  heap_pool h = true /\ heap_level h = true /\ heap_index h = true.

(** The block the heap returns is a real one: a positive address, inside the
    address space. *)
Definition heap_ok (h : Heap) (bytes : Z) : Prop :=
  forall base, heap_block h = Some base -> 0 < base /\ base + bytes < 2 ^ 64.

Section effect.
Context {B : Type} (wf : B -> Prop) (abs : B -> LOB) (slots : B -> nat).

(** What a call that may have to allocate does: the abstract operation, or
    [AllocationFailed] with the abstract book as it was, and then only because
    the heap refused or every slot of the pool was in use. *)
Definition alloc_effect (h : Heap) (b : B) (m : outcome (ApplyResult * B))
    (spec : ApplyResult * LOB) : Prop :=
  exists r b', m = Ret (r, b') /\ wf b' /\ slots b' = slots b /\
    (((r, abs b') = spec) \/
     (r = AllocationFailed /\ spec.1 = Ok /\ abs b' = abs b /\
      (~ heap_grants h \/ (slots b <= lob_count (abs b))%nat))).

Definition effect (b : B) (m : outcome (ApplyResult * B)) (spec : ApplyResult * LOB) : Prop :=
  exists r b', m = Ret (r, b') /\ wf b' /\ slots b' = slots b /\ (r, abs b') = spec.
End effect.

Class BookLaws (B : Type) `{!BookOps B} := {
  bk_wf : B -> Prop;
  bk_abs : B -> LOB;
  bk_slots : B -> nat;
  bk_abs_wf b : bk_wf b -> lob_wf (bk_abs b);
  bk_new_spec h bytes :
    0 <= bytes -> heap_ok h bytes ->
    (exists b, bk_new h bytes = Ret b /\ bk_wf b /\ bk_abs b = lob_empty) \/
    (bk_new h bytes = Throw BadAlloc /\ (heap_block h = None \/ bytes = 0));
  bk_add_spec h e b :
    bk_wf b -> AddOrder_ok e ->
    alloc_effect bk_wf bk_abs bk_slots h b (bk_add h e b) (lob_add e (bk_abs b));
  bk_cancel_spec e b :
    bk_wf b -> effect bk_wf bk_abs bk_slots b (bk_cancel e b) (lob_cancel e (bk_abs b));
  bk_execute_spec e b :
    bk_wf b -> is_u32 (execute_quantity e) ->
    effect bk_wf bk_abs bk_slots b (bk_execute e b) (lob_execute e (bk_abs b));
  bk_replace_spec h old_id next keep b :
    bk_wf b -> AddOrder_ok next ->
    alloc_effect bk_wf bk_abs bk_slots h b (bk_replace h old_id next keep b)
      (lob_replace old_id next keep (bk_abs b));
  bk_reset_spec b :
    bk_wf b -> exists b', bk_reset b = Ret b' /\ bk_wf b' /\ bk_abs b' = lob_empty /\ bk_slots b' = bk_slots b;
  bk_best_spec s b : bk_wf b -> valid_side s -> bk_best s b = lob_best s (bk_abs b);
  bk_best_quantity_spec s b : bk_wf b -> bk_best_quantity s b = lob_best_quantity s (bk_abs b);
  bk_order_spec id b : bk_wf b -> bk_order id b = Ret (lob_find id (bk_abs b));
  bk_remaining_spec id b : bk_wf b -> bk_remaining id b = Ret (lob_remaining id (bk_abs b));
  bk_count_spec b : bk_wf b -> bk_count b = lob_count (bk_abs b);
  bk_snapshot_spec b :
    bk_wf b ->
    exists bs ks, bk_snapshot b = Ret (bs ++ ks) /\
      bs ≫= lv_orders = lob_bids (bk_abs b) /\ ks ≫= lv_orders = lob_asks (bk_abs b) /\
      Forall (fun v => lv_side v = Bid) bs /\ Forall (fun v => lv_side v = Ask) ks /\
      Forall (fun v => lv_quantity v = u64 (total_quantity (lv_orders v))) (bs ++ ks);
  bk_visit_spec {S} (visitor : OrderView -> S -> outcome (bool * S)) s b st :
    bk_wf b -> bk_visit visitor s b st = visit_list visitor (queue s (bk_abs b)) st;
  bk_validate_spec b :
    bk_wf b -> Z.of_nat (lob_count (bk_abs b)) <= 2 ^ 32 -> bk_validate b = Ret None
}.

(** ** The implementation over the pool *)

(** [OrderBook(std::size_t pool_bytes)] and the default constructor. *)
Definition book_new (h : Heap) (pool_bytes : Z) : outcome (OrderBook Pool) :=
  p ← pool_new (heap_block h) pool_bytes;
  Ret (book_of_pool p).

Definition book_default (h : Heap) : outcome (OrderBook Pool) := book_new h CAPACITY_BYTES.

#[export] Instance pool_book_ops : BookOps (OrderBook Pool) := {
  bk_new := book_new;
  bk_add h e b := apply_add h e b;
  bk_cancel e b := apply_cancel e b;
  bk_execute e b := apply_execute e b;
  bk_replace h old_id next keep b := replace h old_id next keep b;
  bk_reset b := reset b;
  bk_best s b := best_price s b;
  bk_best_quantity s b := best_quantity s b;
  bk_order id b := order id b;
  bk_remaining id b := remaining_quantity id b;
  bk_count b := order_count b;
  bk_snapshot b := snapshot b;
  bk_visit S visitor s b st := for_each_order visitor s b st;
  bk_validate b := validate_invariants b
}.


Lemma refines_alloc_effect h (b : OrderBook Pool) m spec :
  book_wf b -> refines_alloc h b m spec -> alloc_effect book_wf abs pool_slots h b m spec.
Proof.
  intros Hwf (r & b' & -> & Hs & Hwf' & H). exists r, b'. split_and!; try done.
  destruct H as [[H _]|(-> & Hok & Hsame & Hno)]; [by left|right].
  split_and!; try done; [by apply same_but_pool_abs|].
  rewrite <- (size_nodes b Hwf). unfold no_memory, heap_grants, pool_slots in *.
  destruct Hno as [->|[?|[->|[->| ->]]]]; [right; lia|by right|left; naive_solver..].
Qed.

Lemma refines_effect (b : OrderBook Pool) m spec :
  refines b m spec -> effect book_wf abs pool_slots b m spec.
Proof. intros (r & b' & -> & H & Hwf & Hs & _). exists r, b'. by split_and!. Qed.

Lemma book_new_spec h bytes :
  0 <= bytes -> heap_ok h bytes ->
  (exists b, book_new h bytes = Ret b /\ book_wf b /\ abs b = lob_empty) \/
  (book_new h bytes = Throw BadAlloc /\ (heap_block h = None \/ bytes = 0)).
Proof.
  intros Hb Hh. unfold book_new, pool_new. case_decide; [right; by auto|].
  destruct (heap_block h) as [base|] eqn:E; simpl; [|right; by auto]. left. eexists. split; [done|].
  destruct (Hh base E). apply empty_book_wf. intros a [= <-]. split.
  - split; [split; [split; simpl; lia|by left]|]; done.
  - by apply pool_fresh_live.
Qed.

#[export] Program Instance pool_book_laws : BookLaws (OrderBook Pool) := {
  bk_wf := book_wf;
  bk_abs := abs;
  bk_slots := pool_slots;
  bk_new_spec := book_new_spec;
  bk_order_spec id b := order_abs b id;
  bk_remaining_spec id b := remaining_quantity_abs b id;
  bk_count_spec b := order_count_abs b;
  bk_snapshot_spec b := snapshot_abs b;
  bk_best_quantity_spec s b := best_quantity_abs b s;
  bk_visit_spec S visitor s b st := for_each_order_abs visitor b s st;
  bk_validate_spec b := validate_accepts b
}.
Next Obligation. intros b [C [Hr _]]. by eapply abs_wf. Qed.
Next Obligation. intros. by apply refines_alloc_effect, apply_add_refines. Qed.
Next Obligation. intros. by apply refines_effect, apply_cancel_refines. Qed.
Next Obligation. intros. by apply refines_effect, apply_execute_refines. Qed.
Next Obligation. intros. by apply refines_alloc_effect, replace_refines. Qed.
Next Obligation.
  intros b (b' & E & Hwf & Habs & _ & _ & _ & _ & Hs)%reset_spec. exists b'. by split_and!.
Qed.
Next Obligation. intros s b [C [Hr _]] Hs. by apply (best_price_abs b C). Qed.
