(* ===== verification/BookTheorems.v ===== *)
(** * The order book: what it guarantees

    Traces of events over a book, and the headline theorems of the pool and the
    book, each with a concrete instance on a book of a few orders. *)
From S2P Require Import Prelude StdMap Types Allocator Pool PoolLaws LOB OrderBook OrderBookInv.
From S2P Require Import OrderBookRefine OrderBookQuery BookCheck BookInterface.

(** ** Traces *)
Section trace.
Context {A : Type} `{!NodeAllocator A}.

(** Events applied one after the other, each under its own heap behaviour. *)
Fixpoint book_run (es : list (Heap * EventPayload)) (b : OrderBook A)
    : outcome (list ApplyResult * OrderBook A) :=
  match es with
  | [] => Ret ([], b)
  | (h, e) :: es =>
    '(r, b) ← apply_event h e b;
    '(rs, b) ← book_run es b;
    Ret (r :: rs, b)
  end.
End trace.

Fixpoint lob_run (es : list EventPayload) (b : LOB) : list ApplyResult * LOB :=
  match es with
  | [] => ([], b)
  | e :: es => let (r, b) := lob_event e b in let (rs, b) := lob_run es b in (r :: rs, b)
  end.

Section trace_refines.
Context {A : Type} `{!NodeAllocator A} `{!NodeAllocatorLaws A}.

Lemma refines_refines_alloc h (b : OrderBook A) m spec :
  refines b m spec -> refines_alloc h b m spec.
Proof. intros (r & b' & -> & H & Hwf & Hs & Hsame). exists r, b'. split_and!; try done. by left. Qed.

Lemma apply_event_refines h e (b : OrderBook A) :
  book_wf b -> payload_ok e -> refines_alloc h b (apply_event h e b) (lob_event e (abs b)).
Proof.
  intros Hwf He. destruct e as [e|e|e]; simpl in *.
  - by apply apply_add_refines.
  - by apply refines_refines_alloc, apply_cancel_refines.
  - destruct He. by apply refines_refines_alloc, apply_execute_refines.
Qed.

(** The count an event can add. *)
Lemma lob_event_count e b : (lob_count (lob_event e b).2 <= S (lob_count b))%nat.
Proof.
  unfold lob_count, lob_orders. destruct e as [e|e|e]; simpl.
  - unfold lob_add. repeat (case_decide; simpl; [lia|]).
    unfold lob_insert. destruct (ov_side _); simpl; rewrite ?length_app; try lia;
      rewrite (Permutation_length (q_insert_perm _ _ _)); simpl; lia.
  - unfold lob_cancel. destruct (lob_find _ _); simpl; [|lia]. unfold q_remove.
    rewrite !length_app. pose proof (length_filter (fun v => ov_id v <> cancel_id e) (lob_bids b)).
    pose proof (length_filter (fun v => ov_id v <> cancel_id e) (lob_asks b)). lia.
  - unfold lob_execute. destruct (lob_find _ _) as [v|]; simpl; [|lia].
    repeat (case_decide; simpl; [try lia|]).
    + unfold q_remove. rewrite !length_app.
      pose proof (length_filter (fun v => ov_id v <> execute_id e) (lob_bids b)).
      pose proof (length_filter (fun v => ov_id v <> execute_id e) (lob_asks b)). lia.
    + unfold q_resize. rewrite !length_app, !length_fmap. lia.
Qed.

Lemma book_run_refines es (b : OrderBook A) :
  book_wf b -> Forall (fun he => payload_ok he.2) es ->
  exists rs b', book_run es b = Ret (rs, b') /\ book_wf b' /\
    (AllocationFailed ∉ rs -> (rs, abs b') = lob_run es.*2 (abs b)) /\
    (Forall (fun he => heap_grants he.1) es ->
     (lob_count (abs b) + length es <= pool_slots b)%nat -> AllocationFailed ∉ rs).
Proof.
  intros Hwf Hes. revert b Hwf. induction Hes as [|[h e] es He _ IH]; intros b Hwf; csimpl.
  { exists [], b. split_and!; try done. intros _ _ H. by apply not_elem_of_nil in H. }
  destruct (apply_event_refines h e b Hwf He) as (r & b1 & -> & Hs & Hwf1 & Hspec).
  cbn [mbind outcome_bind]. destruct (IH b1 Hwf1) as (rs & b2 & -> & Hwf2 & Habs & Hroom).
  cbn [mbind outcome_bind]. exists (r :: rs), b2. split; [done|]. split; [done|].
  assert (AllocationFailed <> r -> (r, abs b1) = lob_event e (abs b)) as Hr.
  { intros Hne. by destruct Hspec as [[H _]|(-> & _)]. }
  split.
  - intros [Hne Hn]%not_elem_of_cons. specialize (Hr Hne). rewrite <- Hr, <- (Habs Hn). done.
  - intros [Hh Hes]%Forall_cons Hlen. simpl in *.
    assert (AllocationFailed <> r) as Hne.
    { destruct Hspec as [[H _]|(_ & _ & _ & Hno)].
      - intros <-. destruct e as [e|e|e]; simpl in H; unfold lob_add, lob_cancel, lob_execute in H;
          repeat (case_decide || destruct (lob_find _ _)); congruence.
      - rewrite <- (size_nodes b Hwf) in Hlen. unfold heap_grants, no_memory, pool_slots in *.
        destruct Hh as (? & ? & ?), Hno as [E|[?|[?|[?|?]]]]; [|lia|congruence..].
        rewrite E in Hlen. lia. }
    specialize (Hr Hne). apply not_elem_of_cons. split; [done|]. apply Hroom; [done|].
    rewrite Hs. pose proof (lob_event_count e (abs b)). rewrite <- Hr in *. simpl in *. lia.
Qed.
End trace_refines.

(** ** A sample book *)
Definition sample_heap : Heap := mkHeap (Some 4096) true true true.

Definition sample_events : list EventPayload :=
  [PAdd (mkAdd 1 Bid 100 10); PAdd (mkAdd 2 Bid 101 5); PAdd (mkAdd 3 Bid 100 7);
   PAdd (mkAdd 4 Ask 105 9); PAdd (mkAdd 5 Ask 104 2)].

Definition sample_book : OrderBook Pool :=
  match (b ← book_default sample_heap; book_run ((sample_heap,.) <$> sample_events) b) with
  | Ret (_, b) => b
  | Throw _ => moved_from
  end.

Lemma sample_heap_ok : heap_ok sample_heap CAPACITY_BYTES.
Proof. intros base [= <-]. unfold CAPACITY_BYTES, sizeof_OrderEntry. lia. Qed.

Lemma sample_events_ok : Forall (fun he => payload_ok he.2) ((sample_heap,.) <$> sample_events).
Proof. unfold sample_events. repeat constructor; unfold is_u64, is_u32; simpl; lia. Qed.

Lemma sample_book_wf : book_wf sample_book.
Proof.
  unfold sample_book, book_default.
  destruct (book_new_spec sample_heap CAPACITY_BYTES) as [(b & E & Hwf & _)|[E _]];
    [vm_compute; discriminate|apply sample_heap_ok| |discriminate].
  rewrite E. cbn [mbind outcome_bind].
  destruct (book_run_refines _ b Hwf sample_events_ok) as (rs & b' & -> & Hwf' & _). done.
Qed.

Definition sample_added : OrderBook Pool :=
  match apply_add sample_heap (mkAdd 9 Bid 100 4) sample_book with
  | Ret (_, b) => b
  | Throw _ => moved_from
  end.

Lemma sample_added_eq :
  apply_add sample_heap (mkAdd 9 Bid 100 4) sample_book = Ret (Ok, sample_added).
Proof. vm_compute. reflexivity. Qed.

(** ** Theorems *)

(** C25: Any sequence of adds, cancels and executions, applied to a well-formed
    book, runs without undefined behaviour and keeps the book well formed; as
    long as no allocation fails its results and final book are those of the
    abstract book; and no allocation fails while the heap grants its requests
    and the orders fit the pool. *)
Theorem book_trace_correct (es : list (Heap * EventPayload)) (b : OrderBook Pool) :
  book_wf b -> Forall (fun he => payload_ok he.2) es ->
  exists rs b', book_run es b = Ret (rs, b') /\ book_wf b' /\
    (AllocationFailed ∉ rs -> (rs, abs b') = lob_run es.*2 (abs b)) /\
    (Forall (fun he => heap_grants he.1) es ->
     (lob_count (abs b) + length es <= pool_slots b)%nat -> AllocationFailed ∉ rs).
Proof. apply book_run_refines. Qed.

Lemma book_trace_correct_witness :
  exists rs b', book_run [(sample_heap, PExecute (mkExecute 2 5)); (sample_heap, PAdd (mkAdd 9 Ask 101 3))]
                  sample_book = Ret (rs, b') /\ book_wf b'.
Proof.
  destruct (book_trace_correct
    [(sample_heap, PExecute (mkExecute 2 5)); (sample_heap, PAdd (mkAdd 9 Ask 101 3))] sample_book
    sample_book_wf) as (rs & b' & E & Hwf & _).
  { repeat constructor; unfold is_u64, is_u32; simpl; lia. }
  exists rs, b'. exact (conj E Hwf).
Defined.

(** C27: A successful add places the order behind every order of its side at the
    same or a better price and in front of every order at a worse one, and
    leaves the opposite side untouched. *)
Theorem add_price_time_priority h e (b b' : OrderBook Pool) :
  book_wf b -> AddOrder_ok e -> apply_add h e b = Ret (Ok, b') ->
  exists l1 l2,
    queue (add_side e) (abs b) = l1 ++ l2 /\
    queue (add_side e) (abs b') = l1 ++ view_of e :: l2 /\
    Forall (fun v => price_before (add_side e) (ov_price v) (add_price e)) l1 /\
    Forall (fun v => ~ price_before (add_side e) (ov_price v) (add_price e)) l2 /\
    (forall s, s <> add_side e -> queue s (abs b') = queue s (abs b)).
Proof.
  intros Hwf He E. destruct (apply_add_refines h e b Hwf He) as (r & b1 & E' & _ & _ & Hspec).
  rewrite E in E'. injection E' as <- <-. destruct Hspec as [[Hspec _]|[? _]]; [|done].
  assert (lob_wf (abs b)) as Hl by (destruct Hwf as [C [Hr _]]; by eapply abs_wf).
  unfold lob_add in Hspec. do 3 (case_decide; [done|]).
  destruct (decide (~ valid_side (add_side e))) as [|Hv]; [done|]. injection Hspec as ->.
  apply dec_stable in Hv.
  destruct (q_insert_split (add_side e) (view_of e) (queue (add_side e) (abs b)))
    as (l1 & l2 & Eq & Ei & Hl1 & Hl2); [apply (wf_sorted _ Hl)|].
  exists l1, l2. unfold lob_insert. simpl. destruct Hv as [Es|Es]; rewrite Es in *; simpl in *.
  all: split_and!; try done; by intros [].
Qed.

Lemma add_price_time_priority_witness :
  apply_add sample_heap (mkAdd 9 Bid 100 4) sample_book = Ret (Ok, sample_added) /\
  exists l1 l2, queue Bid (abs sample_book) = l1 ++ l2 /\
    queue Bid (abs sample_added) = l1 ++ mkView 9 Bid 100 4 :: l2.
Proof.
  assert (AddOrder_ok (mkAdd 9 Bid 100 4)) as Hok by (split; unfold is_u64, is_u32; simpl; lia).
  split; [exact sample_added_eq|].
  destruct (add_price_time_priority _ _ _ _ sample_book_wf Hok sample_added_eq) as (l1 & l2 & H1 & H2 & _).
  exists l1, l2. exact (conj H1 H2).
Defined.

(** [apply(AddOrder)] returns exactly the result the abstract book
    prescribes and has its effect (a refused order changes nothing); the only
    other outcome is [AllocationFailed], for an order the book would have
    taken, when the heap refuses memory or the pool is full, and it leaves the
    book as it was but for the pool's internals. *)
Theorem apply_add_correct h e (b : OrderBook Pool) :
  book_wf b -> AddOrder_ok e -> refines_alloc h b (apply_add h e b) (lob_add e (abs b)).
Proof. intros. by apply apply_add_refines. Qed.

Lemma apply_add_correct_witness :
  refines_alloc sample_heap sample_book (apply_add sample_heap (mkAdd 3 Bid 100 4) sample_book)
    (DuplicateOrder, abs sample_book).
Proof.
  apply (apply_add_correct sample_heap (mkAdd 3 Bid 100 4) sample_book sample_book_wf).
  split; unfold is_u64, is_u32; simpl; lia.
Defined.

(** [apply(ExecuteOrder)] on every branch: unknown order, zero quantity,
    more than remains; otherwise the order keeps its place with the quantity
    reduced, or leaves the book when nothing remains, and its level with it. *)
Theorem apply_execute_correct e (b : OrderBook Pool) :
  book_wf b -> is_u32 (execute_quantity e) ->
  refines b (apply_execute e b) (lob_execute e (abs b)).
Proof. intros. by apply apply_execute_refines. Qed.

Lemma apply_execute_correct_witness :
  refines sample_book (apply_execute (mkExecute 1 4) sample_book)
    (Ok, lob_resize 1 6 (abs sample_book)).
Proof.
  apply (apply_execute_correct (mkExecute 1 4) sample_book sample_book_wf).
  unfold is_u32; simpl; lia.
Defined.

(** [apply(CancelOrder)] removes exactly the named order, or reports it
    unknown; the node goes back to the pool. *)
Theorem apply_cancel_correct e (b : OrderBook Pool) :
  book_wf b -> refines b (apply_cancel e b) (lob_cancel e (abs b)).
Proof. intros. by apply apply_cancel_refines. Qed.

Lemma apply_cancel_correct_witness :
  refines sample_book (apply_cancel (mkCancel 2) sample_book) (Ok, lob_remove 2 (abs sample_book)).
Proof. apply (apply_cancel_correct (mkCancel 2) sample_book sample_book_wf). Defined.

(** C26: [replace] on every branch, with and without priority: a change in
    place, or the old order gone and the new one behind its price level; a
    failed allocation leaves both where they were, because the storage for the
    new order is reserved first. *)
Theorem replace_correct h old_id next keep (b : OrderBook Pool) :
  book_wf b -> AddOrder_ok next ->
  refines_alloc h b (replace h old_id next keep b) (lob_replace old_id next keep (abs b)).
Proof. intros. by apply replace_refines. Qed.

Lemma replace_correct_witness :
  refines_alloc sample_heap sample_book
    (replace sample_heap 1 (mkAdd 8 Bid 101 10) false sample_book)
    (Ok, lob_insert (mkView 8 Bid 101 10) (lob_remove 1 (abs sample_book))).
Proof.
  apply (replace_correct sample_heap 1 (mkAdd 8 Bid 101 10) false sample_book sample_book_wf).
  split; unfold is_u64, is_u32; simpl; lia.
Defined.

(** C28: The queries read the abstract book: best prices, the quantity at the
    best price, the first order, an order by id and its remaining quantity, and
    the number of live orders. *)
Theorem queries_correct (b : OrderBook Pool) (s : Side) (id : OrderId) :
  book_wf b -> valid_side s ->
  best_price s b = lob_best s (abs b) /\
  best_quantity s b = lob_best_quantity s (abs b) /\
  front s b = Ret (lob_front s (abs b)) /\
  order id b = Ret (lob_find id (abs b)) /\
  remaining_quantity id b = Ret (lob_remaining id (abs b)) /\
  order_count b = lob_count (abs b).
Proof.
  intros Hwf Hs. pose proof Hwf as [C [Hr _]]. split_and!.
  - by apply (best_price_abs b C).
  - by apply best_quantity_abs.
  - by apply front_abs.
  - by apply order_abs.
  - by apply remaining_quantity_abs.
  - by apply order_count_abs.
Qed.

Lemma queries_correct_witness : best_price Bid sample_book = Some 101.
Proof. exact (proj1 (queries_correct sample_book Bid 1 sample_book_wf valid_bid)). Defined.

(** [for_each_order] shows a visitor the live orders of a side in
    price-time priority, one at a time, and stops as soon as it says so. *)
Theorem for_each_order_correct (visitor : OrderView -> list OrderView -> outcome (bool * list OrderView))
    (b : OrderBook Pool) s st :
  book_wf b -> for_each_order visitor s b st = visit_list visitor (queue s (abs b)) st.
Proof. apply for_each_order_abs. Qed.

Lemma for_each_order_correct_witness :
  let take2 v seen := Ret (bool_decide (length seen = 0)%nat, seen ++ [v]) in
  for_each_order take2 Bid sample_book [] = Ret [mkView 2 Bid 101 5; mkView 1 Bid 100 10].
Proof.
  intros take2. exact (for_each_order_correct take2 sample_book Bid [] sample_book_wf).
Defined.





(** [reset] releases every node exactly once and leaves an empty book. *)
Theorem reset_correct (b : OrderBook Pool) :
  book_wf b ->
  exists b', reset b = Ret b' /\ book_wf b' /\ abs b' = lob_empty /\ nodes b' = ∅ /\
    orders_by_id_ b' = ∅ /\ bids_ b' = ∅ /\ asks_ b' = ∅ /\ pool_slots b' = pool_slots b.
Proof. apply reset_spec. Qed.

Lemma reset_correct_witness : exists b', reset sample_book = Ret b' /\ abs b' = lob_empty.
Proof. destruct (reset_correct sample_book sample_book_wf) as (b' & E & _ & Ea & _). exists b'. exact (conj E Ea). Defined.

(** C31: Every allocation of the pool returns an aligned slot inside the block,
    disjoint from every other live slot, and throws only when no slot is left
    or the heap refuses the bookkeeping of the first use. *)
Theorem pool_allocate_correct ok (p : Pool) :
  node_pool_wf p ->
  (exists a p', pool_allocate ok sizeof_node alignof_node p = Ret (Some a, p') /\
     node_pool_wf p' /\ pool_live p' = {[a]} ∪ pool_live p /\
     storage p <= a /\ a + sizeof_node <= storage p + capacity_bytes p /\
     a mod alignof_node = 0 /\
     forall a', a' ∈ pool_live p -> a' + sizeof_node <= a \/ a + sizeof_node <= a') \/
  (pool_allocate ok sizeof_node alignof_node p = Throw BadAlloc /\
     ((node_capacity p <= size (pool_live p))%nat \/ ok = false /\ first_init p = false)).
Proof.
  intros Hwf.
  destruct (pool_allocate_cases sizeof_node alignof_node eq_refl eq_refl eq_refl ok p Hwf)
    as [(a & p' & E & Hn & Hl & Hwf' & _)|?]; [left|by right].
  exists a, p'. pose proof (pool_allocate_storage _ _ _ _ _ _ E) as [Es Ec].
  assert (forall x, x ∈ pool_live p' -> storage p <= x /\ x + sizeof_node <= storage p + capacity_bytes p /\
    x mod alignof_node = 0) as Hplace.
  { intros x Hx. rewrite <- Es, <- Ec. by apply (pool_live_place sizeof_node alignof_node). }
  destruct (Hplace a) as (? & ? & ?); [set_solver|]. split_and!; try done.
  intros a' Ha'. apply (pool_live_apart sizeof_node alignof_node eq_refl p'); [done|set_solver..].
Qed.

Lemma pool_allocate_correct_witness :
  exists p, pool_new (Some 4099) CAPACITY_BYTES = Ret p /\ node_pool_wf p /\
  ((exists a p', pool_allocate true sizeof_node alignof_node p = Ret (Some a, p') /\
     a mod alignof_node = 0) \/ (node_capacity p <= size (pool_live p))%nat \/ true = false).
Proof.
  exists (mkPool false 4099 CAPACITY_BYTES [] [] 0 0 0 0 0). split; [reflexivity|].
  assert (node_pool_wf (mkPool false 4099 CAPACITY_BYTES [] [] 0 0 0 0 0)) as Hwf.
  { split; [split; [repeat split; vm_compute; reflexivity|left; repeat split; reflexivity]|].
    intros H. discriminate H. }
  split; [exact Hwf|].
  destruct (pool_allocate_correct true _ Hwf) as [(a & p' & E & _ & _ & _ & _ & Ha & _)|[_ [?|[? _]]]].
  - left. exists a, p'. exact (conj E Ha).
  - right. left. assumption.
  - right. right. assumption.
Defined.




