(* ===== verification/LFQueue.v ===== *)
(** * The single-producer single-consumer queue

    [include/order_book/core/lfqueue.hpp].  Each index is an atomic with its
    modification order, the list of values stored to it, oldest first; an
    acquire load by the other thread returns any value not older than the one
    it read before, so stale indices are part of the model.  [try_push] and
    [try_pop] are cut at their atomic and buffer accesses and interleave
    freely.  Indices are 64-bit and wrap around. *)
From S2P Require Import Prelude.

Section queue.
Context {T : Type} (SIZE : Z).

(** Where the producer is inside [try_push]: about to store into the buffer,
    or about to publish the new index. *)
Inductive PushPc := PushIdle | PushWrite (data : T) (prod_idx : Z) | PushPublish (data : T) (prod_idx : Z).
Inductive PopPc := PopIdle | PopRead (cons_idx : Z) | PopPublish (data : T) (cons_idx : Z).

Record LFQueue := mkQueue {
  prod_idx_ : list Z;
  cons_idx_ : list Z;
  buffers_ : list T;
  push_pc : PushPc;
  pop_pc : PopPc;
  cons_seen : nat;   (* position in [cons_idx_] of the producer's last load *)
  prod_seen : nat    (* position in [prod_idx_] of the consumer's last load *)
}.

Definition MASK : Z := SIZE - 1.
Definition is_empty (prod_idx cons_idx : Z) : bool := prod_idx =? cons_idx.
Definition is_full (prod_idx cons_idx : Z) : bool := u64 (prod_idx - cons_idx) =? SIZE.
Definition slot (idx : Z) : nat := Z.to_nat (Z.land idx MASK).

(** The value-initialised queue. *)
Definition queue_new (fill : T) : LFQueue :=
  mkQueue [0] [0] (replicate (Z.to_nat SIZE) fill) PushIdle PopIdle 0 0.

Inductive QEvent := Pushed (data : T) | PushFull | Popped (data : T) | PopEmpty.

(** [try_push]: its own index is the last value it stored; the consumer's index
    is whatever the acquire load returns. *)
Inductive push_step : LFQueue -> option QEvent -> LFQueue -> Prop :=
| push_full p c P C B pp cs ps cs' :
    last P = Some p -> (cs <= cs')%nat -> C !! cs' = Some c -> is_full p c = true ->
    push_step (mkQueue P C B PushIdle pp cs ps) (Some PushFull) (mkQueue P C B PushIdle pp cs' ps)
| push_begin data p c P C B pp cs ps cs' :
    last P = Some p -> (cs <= cs')%nat -> C !! cs' = Some c -> is_full p c = false ->
    push_step (mkQueue P C B PushIdle pp cs ps) None (mkQueue P C B (PushWrite data p) pp cs' ps)
| push_write data p P C B pp cs ps :
    push_step (mkQueue P C B (PushWrite data p) pp cs ps) None
              (mkQueue P C (<[slot p := data]> B) (PushPublish data p) pp cs ps)
| push_publish data p P C B pp cs ps :
    push_step (mkQueue P C B (PushPublish data p) pp cs ps) (Some (Pushed data))
              (mkQueue (P ++ [u64 (p + 1)]) C B PushIdle pp cs ps).

Inductive pop_step : LFQueue -> option QEvent -> LFQueue -> Prop :=
| pop_empty p c P C B pp cs ps ps' :
    last C = Some c -> (ps <= ps')%nat -> P !! ps' = Some p -> is_empty p c = true ->
    pop_step (mkQueue P C B pp PopIdle cs ps) (Some PopEmpty) (mkQueue P C B pp PopIdle cs ps')
| pop_begin p c P C B pp cs ps ps' :
    last C = Some c -> (ps <= ps')%nat -> P !! ps' = Some p -> is_empty p c = false ->
    pop_step (mkQueue P C B pp PopIdle cs ps) None (mkQueue P C B pp (PopRead c) cs ps')
| pop_read data c P C B pp cs ps :
    B !! slot c = Some data ->
    pop_step (mkQueue P C B pp (PopRead c) cs ps) None (mkQueue P C B pp (PopPublish data c) cs ps)
| pop_publish data c P C B pp cs ps :
    pop_step (mkQueue P C B pp (PopPublish data c) cs ps) (Some (Popped data))
             (mkQueue P (C ++ [u64 (c + 1)]) B pp PopIdle cs ps).

Inductive queue_run : LFQueue -> list QEvent -> LFQueue -> Prop :=
| run_nil q : queue_run q [] q
| run_push q e q' es q'' :
    push_step q e q' -> queue_run q' es q'' -> queue_run q (option_list e ++ es) q''
| run_pop q e q' es q'' :
    pop_step q e q' -> queue_run q' es q'' -> queue_run q (option_list e ++ es) q''.

Definition pushes (es : list QEvent) : list T :=
  es ≫= fun e => match e with Pushed x => [x] | _ => [] end.
Definition pops (es : list QEvent) : list T :=
  es ≫= fun e => match e with Popped x => [x] | _ => [] end.

(** One whole call with no interference: every load returns the newest value. *)
Definition try_push (data : T) (q : LFQueue) : outcome (bool * LFQueue) :=
  let '(mkQueue P C B ps pp _ k) := q in
  p ← from_option_or (Undefined "no index") (last P);
  c ← from_option_or (Undefined "no index") (last C);
  let cs := (length C - 1)%nat in
  if is_full p c then Ret (false, mkQueue P C B ps pp cs k)
  else Ret (true, mkQueue (P ++ [u64 (p + 1)]) C (<[slot p := data]> B) ps pp cs k).

Definition try_pop (q : LFQueue) : outcome (option T * LFQueue) :=
  let '(mkQueue P C B ps pp k _) := q in
  p ← from_option_or (Undefined "no index") (last P);
  c ← from_option_or (Undefined "no index") (last C);
  let cs := (length P - 1)%nat in
  if is_empty p c then Ret (None, mkQueue P C B ps pp k cs)
  else
    data ← from_option_or (Undefined "buffers_ out of range") (B !! slot c);
    Ret (Some data, mkQueue P (C ++ [u64 (c + 1)]) B ps pp k cs).

(** The buffer access each side is about to make. *)
Definition push_access (q : LFQueue) : option nat :=
  match push_pc q with PushWrite _ p => Some (slot p) | _ => None end.
Definition pop_access (q : LFQueue) : option nat :=
  match pop_pc q with PopRead c => Some (slot c) | _ => None end.
End queue.
Arguments LFQueue : clear implicits.
Arguments QEvent : clear implicits.

(** ** The invariant *)
Section laws.
Context {T : Type} (k : Z) (Hk : 0 <= k < 64).
Local Notation SIZE := (2 ^ k).

Lemma SIZE_bounds : 0 < SIZE < 2 ^ 64.
Proof. split; [apply Z.pow_pos_nonneg; lia|]. apply Z.pow_lt_mono_r; lia. Qed.

Lemma slot_mod n : slot SIZE (u64 n) = Z.to_nat (n mod SIZE).
Proof.
  unfold slot, MASK. replace (2 ^ k - 1) with (Z.ones k) by (rewrite Z.ones_equiv; lia).
  rewrite Z.land_ones by lia. f_equal. unfold u64.
  replace (2 ^ 64) with (2 ^ k * 2 ^ (64 - k)) by (rewrite <- Z.pow_add_r by lia; f_equal; lia).
  pose proof SIZE_bounds. assert (0 < 2 ^ (64 - k)) by (apply Z.pow_pos_nonneg; lia).
  rewrite Z.rem_mul_r by lia. rewrite (Z.mul_comm (2 ^ k)), Z_mod_plus_full. apply Z.mod_mod. lia.
Qed.

(** Fewer than [SIZE] apart, two positions use different slots. *)
Lemma slots_differ i j : i < j < i + SIZE -> Z.to_nat (i mod SIZE) <> Z.to_nat (j mod SIZE).
Proof.
  pose proof SIZE_bounds. intros Hij E.
  pose proof (Z.mod_pos_bound i SIZE ltac:(lia)). pose proof (Z.mod_pos_bound j SIZE ltac:(lia)).
  assert (i mod SIZE = j mod SIZE) as Em by lia.
  pose proof (Z.div_mod i SIZE ltac:(lia)). pose proof (Z.div_mod j SIZE ltac:(lia)).
  assert (j - i = SIZE * (j / SIZE - i / SIZE)) by (rewrite Z.mul_sub_distr_l; lia). destruct (Z.le_gt_cases (j / SIZE - i / SIZE) 0); nia.
Qed.

Lemma u64_eq_close i j : 0 <= j - i < 2 ^ 64 -> u64 i = u64 j -> i = j.
Proof.
  intros Hd E. assert (u64 (j - i) = 0) as Hz.
  { unfold u64 in *. by rewrite Zminus_mod, E, Z.sub_diag. }
  rewrite u64_small in Hz by done. lia.
Qed.

Lemma is_full_spec i j : 0 <= i - j < 2 ^ 64 -> is_full SIZE (u64 i) (u64 j) = true <-> i - j = SIZE.
Proof.
  intros Hd. unfold is_full. autorewrite with u64. rewrite u64_small, Z.eqb_eq by done. done.
Qed.

Definition counter (n : nat) : list Z := (fun i => u64 (Z.of_nat i)) <$> seq 0 (S n).

Lemma length_counter n : length (counter n) = S n.
Proof. unfold counter. by rewrite length_fmap, length_seq. Qed.

Lemma counter_last n : last (counter n) = Some (u64 (Z.of_nat n)).
Proof. unfold counter. rewrite seq_S, fmap_app. csimpl. by rewrite last_snoc. Qed.

Lemma counter_lookup n i x : counter n !! i = Some x -> (i <= n)%nat /\ x = u64 (Z.of_nat i).
Proof.
  unfold counter. rewrite list_lookup_fmap. intros (j & [-> Hlt]%lookup_seq & ->)%fmap_Some.
  split; [lia|done].
Qed.

Lemma counter_next n : counter n ++ [u64 (u64 (Z.of_nat n) + 1)] = counter (S n).
Proof.
  unfold counter. rewrite (seq_S (S n)), fmap_app. do 2 f_equal. simpl. autorewrite with u64.
  do 2 f_equal. lia.
Qed.

Local Opaque counter.

(** [H] is everything published so far, [n] how much of it was consumed. *)
Record queue_inv (H : list T) (n : nat) (q : LFQueue T) : Prop := {
  qi_prod : prod_idx_ q = counter (length H);
  qi_cons : cons_idx_ q = counter n;
  qi_len : length (buffers_ q) = Z.to_nat SIZE;
  qi_cs : (cons_seen q <= n)%nat;
  qi_room : Z.of_nat (length H) - Z.of_nat (cons_seen q) <= SIZE;
  qi_ps : (n <= prod_seen q <= length H)%nat;
  qi_buf i x : (n <= i)%nat -> H !! i = Some x ->
    buffers_ q !! Z.to_nat (Z.of_nat i mod SIZE) = Some x;
  qi_push : match push_pc q with
            | PushIdle => True
            | PushWrite _ p => p = u64 (Z.of_nat (length H)) /\
                Z.of_nat (length H) - Z.of_nat (cons_seen q) < SIZE
            | PushPublish x p => p = u64 (Z.of_nat (length H)) /\
                Z.of_nat (length H) - Z.of_nat (cons_seen q) < SIZE /\
                buffers_ q !! slot SIZE p = Some x
            end;
  qi_pop : match pop_pc q with
           | PopIdle => True
           | PopRead c => c = u64 (Z.of_nat n) /\ (n < prod_seen q)%nat
           | PopPublish x c => c = u64 (Z.of_nat n) /\ (n < prod_seen q)%nat /\ H !! n = Some x
           end
}.

Lemma queue_new_inv fill : queue_inv [] 0 (queue_new SIZE fill).
Proof.
  pose proof SIZE_bounds. split; simpl; try done; try lia.
  - by rewrite length_replicate.
Qed.

Lemma push_step_inv H n q e q' :
  push_step SIZE q e q' -> queue_inv H n q -> queue_inv (H ++ pushes (option_list e)) n q'.
Proof.
  pose proof SIZE_bounds as HS. intros Hstep [HP HC HL Hcs Hroom Hps Hbuf Hpush Hpop].
  destruct Hstep as [p c P C B pp cs ps cs' El Hle Hc Hf|data p c P C B pp cs ps cs' El Hle Hc Hf
    |data p P C B pp cs ps|data p P C B pp cs ps]; simpl in *; subst P C; rewrite ?app_nil_r.
  - rewrite counter_last in El. injection El as <-.
    apply counter_lookup in Hc as [Hn ->]. split; simpl; try done; try lia.
  - rewrite counter_last in El. injection El as <-.
    apply counter_lookup in Hc as [Hn ->]. split; simpl; try done; try lia.
    split; [done|].
    assert (Z.of_nat (length H) - Z.of_nat cs' <> SIZE); [|lia]. intros E.
    assert (is_full SIZE (u64 (Z.of_nat (length H))) (u64 (Z.of_nat cs')) = true); [|congruence].
    apply is_full_spec; lia.
  - destruct Hpush as [-> Hlt]. split; simpl; try done; try lia.
    + by rewrite length_insert.
    + intros i x Hi Hx. pose proof (lookup_lt_Some _ _ _ Hx). rewrite slot_mod.
      rewrite list_lookup_insert_ne; [by apply Hbuf|].
      intros E. symmetry in E. revert E. apply slots_differ. lia.
    + split_and!; try done. apply list_lookup_insert_eq. rewrite slot_mod, HL.
      pose proof (Z.mod_pos_bound (Z.of_nat (length H)) SIZE). lia.
  - destruct Hpush as (-> & Hlt & Hb). split; simpl; rewrite ?length_app; simpl; try done; try lia.
    + rewrite counter_next. f_equal. lia.
    + intros i x Hi Hx. apply lookup_app_Some in Hx as [Hx|[Hge Hx]]; [by apply Hbuf|].
      apply list_lookup_singleton_Some in Hx as [Hi0 <-].
      assert (i = length H) as -> by lia. by rewrite <- slot_mod.
    + destruct pp; try done. destruct Hpop as (-> & ? & Hx). split_and!; try done.
      by apply lookup_app_l_Some.
Qed.

Lemma pop_step_inv H n q e q' :
  pop_step SIZE q e q' -> queue_inv H n q ->
  exists n', queue_inv H n' q' /\ take n' H = take n H ++ pops (option_list e).
Proof.
  pose proof SIZE_bounds as HS. intros Hstep [HP HC HL Hcs Hroom Hps Hbuf Hpush Hpop].
  destruct Hstep as [p c P C B pp cs ps ps' El Hle Hp He|p c P C B pp cs ps ps' El Hle Hp He
    |data c P C B pp cs ps Hb|data c P C B pp cs ps]; simpl in *; subst P C; rewrite ?app_nil_r.
  - exists n. split; [|done].
    apply counter_lookup in Hp as [Hn ->]. split; simpl; try done; lia.
  - exists n. split; [|done]. rewrite counter_last in El. injection El as <-.
    apply counter_lookup in Hp as [Hn ->]. split; simpl; try done; try lia.
    split; [done|]. assert (ps' <> n); [|lia]. intros ->. unfold is_empty in He. by rewrite Z.eqb_refl in He.
  - exists n. split; [|done]. destruct Hpop as [-> Hlt].
    split; simpl; try done. split_and!; try done.
    destruct (lookup_lt_is_Some_2 H n) as [x Hx]; [lia|]. rewrite Hx. f_equal.
    pose proof (Hbuf n x (le_n n) Hx) as Hb'. rewrite slot_mod in Hb. congruence.
  - destruct Hpop as (-> & Hlt & Hx). exists (S n). split; [|by rewrite (take_S_r _ _ data)].
    split; simpl; try done; try lia.
    + by rewrite counter_next.
    + intros i x Hi. apply Hbuf. lia.
Qed.

Lemma queue_run_inv q es q' :
  queue_run SIZE q es q' -> forall H n, queue_inv H n q ->
  exists n', queue_inv (H ++ pushes es) n' q' /\ take n' (H ++ pushes es) = take n H ++ pops es.
Proof.
  induction 1 as [q|q e q1 es q2 Hstep _ IH|q e q1 es q2 Hstep _ IH]; intros H n Hinv.
  - exists n. by rewrite !app_nil_r.
  - destruct (IH _ n (push_step_inv _ _ _ _ _ Hstep Hinv)) as (n' & Hinv' & Ht). exists n'.
    unfold pushes, pops in *. rewrite !bind_app, !(assoc_L app) in *. split; [done|].
    rewrite Ht. assert (pops (option_list e) = []) as Ep by (by destruct Hstep).
    unfold pops in Ep. rewrite Ep, app_nil_r. f_equal.
    apply take_app_le. destruct Hinv. lia.
  - destruct (pop_step_inv _ _ _ _ _ Hstep Hinv) as (n1 & Hinv1 & Ht1).
    destruct (IH H n1 Hinv1) as (n' & Hinv' & Ht). exists n'.
    assert (pushes (option_list e) = []) as Ep by (by destruct Hstep).
    unfold pushes, pops in *. rewrite !bind_app, Ep. simpl. split; [done|].
    by rewrite Ht, Ht1, (assoc_L app).
Qed.

(** An uncontended call is the sequence of its steps. *)
Lemma try_push_steps data (q q' : LFQueue T) b :
  push_pc q = PushIdle -> (cons_seen q < length (cons_idx_ q))%nat ->
  try_push SIZE data q = Ret (b, q') ->
  queue_run SIZE q (if b then [Pushed data] else [PushFull]) q'.
Proof.
  destruct q as [P C B ps pp cs k']; simpl. intros -> Hcs. unfold try_push.
  destruct (last P) as [p|] eqn:Ep; simpl; [|done]. destruct (last C) as [c|] eqn:Ec; simpl; [|done].
  rewrite last_lookup in Ec. replace (Nat.pred (length C)) with (length C - 1)%nat in Ec by lia.
  destruct (is_full SIZE p c) eqn:Ef; intros [= <- <-].
  - eapply (run_push _ _ (Some PushFull)); [|constructor]. apply (push_full _ p c) with (cs' := (length C - 1)%nat); auto; lia.
  - eapply (run_push _ _ None); [apply (push_begin _ data p c) with (cs' := (length C - 1)%nat); auto; lia|].
    eapply (run_push _ _ None); [apply push_write|].
    eapply (run_push _ _ (Some (Pushed data))); [apply push_publish|constructor].
Qed.

Lemma try_pop_steps (q q' : LFQueue T) r :
  pop_pc q = PopIdle -> (prod_seen q < length (prod_idx_ q))%nat ->
  try_pop SIZE q = Ret (r, q') ->
  queue_run SIZE q (match r with Some x => [Popped x] | None => [PopEmpty] end) q'.
Proof.
  destruct q as [P C B ps pp k' cs]; simpl. intros -> Hcs. unfold try_pop.
  destruct (last P) as [p|] eqn:Ep; simpl; [|done]. destruct (last C) as [c|] eqn:Ec; simpl; [|done].
  rewrite last_lookup in Ep. replace (Nat.pred (length P)) with (length P - 1)%nat in Ep by lia.
  destruct (is_empty p c) eqn:Ef; [intros [= <- <-]|].
  - eapply (run_pop _ _ (Some PopEmpty)); [|constructor]. apply (pop_empty _ p c) with (ps' := (length P - 1)%nat); auto; lia.
  - destruct (B !! slot SIZE c) as [x|] eqn:Ex; simpl; [|done]. intros [= <- <-].
    eapply (run_pop _ _ None); [apply (pop_begin _ p c) with (ps' := (length P - 1)%nat); auto; lia|].
    eapply (run_pop _ _ None); [by apply pop_read|].
    eapply (run_pop _ _ (Some (Popped x))); [apply pop_publish|constructor].
Qed.

(** The items a state with history [H] and [n] consumed still holds. *)
Lemma try_push_spec data q H n :
  queue_inv H n q -> push_pc q = PushIdle ->
  exists q', queue_inv (if decide (Z.of_nat (length H - n) < SIZE) then H ++ [data] else H) n q' /\
    push_pc q' = PushIdle /\ pop_pc q' = pop_pc q /\
    try_push SIZE data q = Ret (bool_decide (Z.of_nat (length H - n) < SIZE), q').
Proof.
  intros Hinv Hpc. pose proof SIZE_bounds as HS. pose proof (qi_cs _ _ _ Hinv) as Hcs.
  pose proof (qi_ps _ _ _ Hinv) as Hps. pose proof (qi_room _ _ _ Hinv) as Hroom.
  assert (exists b q', try_push SIZE data q = Ret (b, q') /\ push_pc q' = PushIdle /\ pop_pc q' = pop_pc q /\
    b = bool_decide (Z.of_nat (length H - n) < SIZE)) as (b & q' & E & H1 & H2 & Hb).
  { pose proof (qi_prod _ _ _ Hinv) as HP. pose proof (qi_cons _ _ _ Hinv) as HC.
    destruct q as [P C B ps pp cs k']; simpl in *. subst P C ps. unfold try_push.
    rewrite !counter_last. simpl.
    assert (is_full SIZE (u64 (Z.of_nat (length H))) (u64 (Z.of_nat n)) =
            negb (bool_decide (Z.of_nat (length H - n) < SIZE))) as ->.
    { pose proof (is_full_spec (Z.of_nat (length H)) (Z.of_nat n) ltac:(lia)) as Hf.
      case_bool_decide; simpl; [|apply Hf; lia]. apply not_true_iff_false. rewrite Hf. lia. }
    case_bool_decide; simpl; eexists _, _; (split; [done|]); done. }
  exists q'. subst b. rewrite E. split_and!; try done.
  assert (cons_seen q < length (cons_idx_ q))%nat as Hc.
  { rewrite (qi_cons _ _ _ Hinv), length_counter. lia. }
  pose proof (try_push_steps data q q' _ Hpc Hc E) as Hrun.
  destruct (queue_run_inv _ _ _ Hrun H n Hinv) as (n' & Hinv' & Ht).
  revert Hinv' Ht. case_bool_decide; rewrite ?decide_True, ?decide_False by done; simpl;
    rewrite ?app_nil_r; intros Hinv' Ht.
  - assert (n' = n) as ->; [|done]. apply (f_equal length) in Ht.
    rewrite !length_take, length_app in Ht. simpl in Ht. pose proof (qi_ps _ _ _ Hinv') as Hp'.
    rewrite length_app in Hp'. simpl in Hp'. lia.
  - assert (n' = n) as ->; [|done]. apply (f_equal length) in Ht.
    rewrite !length_take in Ht. pose proof (qi_ps _ _ _ Hinv'). lia.
Qed.
End laws.

(** ** Theorems *)

(** C38: In every interleaving of the two threads, with every acquire load free
    to return a stale index and with the 64-bit counters wrapping around, the
    values popped are a prefix of the values pushed, in order, none lost and
    none twice, and at most [SIZE] are waiting. *)
Theorem queue_fifo {T} (k : Z) (fill : T) es q :
  0 <= k < 64 -> queue_run (2 ^ k) (queue_new (2 ^ k) fill) es q ->
  exists waiting, pushes es = pops es ++ waiting /\ Z.of_nat (length waiting) <= 2 ^ k.
Proof.
  intros Hk Hrun.
  destruct (queue_run_inv k Hk _ _ _ Hrun [] 0%nat (queue_new_inv k Hk fill)) as (n & Hinv & Ht).
  simpl in *. exists (drop n (pushes es)). rewrite <- Ht, take_drop. split; [done|].
  destruct Hinv. rewrite length_drop. lia.
Qed.

Lemma queue_fifo_witness :
  exists q, queue_run (2 ^ 1) (queue_new (2 ^ 1) 0) [Pushed 5; Popped 5] q /\
  exists waiting, pushes [Pushed 5; Popped 5] = pops [Pushed 5; Popped 5] ++ waiting /\
    Z.of_nat (length waiting) <= 2 ^ 1.
Proof.
  assert (exists q, queue_run (2 ^ 1) (queue_new (2 ^ 1) 0) [Pushed 5; Popped 5] q) as [q Hq].
  { eexists. change [Pushed 5; Popped 5] with (option_list (@None (QEvent Z)) ++ option_list None ++
      option_list (Some (Pushed 5)) ++ option_list None ++ option_list None ++ option_list (Some (Popped 5)) ++ []).
    eapply run_push; [eapply (push_begin _ 5 0 0 _ _ _ _ _ _ 0%nat); reflexivity || lia|].
    eapply run_push; [apply push_write|]. eapply run_push; [apply push_publish|].
    eapply run_pop; [eapply (pop_begin _ 1 0 _ _ _ _ _ _ 1%nat); reflexivity || lia|].
    eapply run_pop; [eapply (pop_read _ 5); reflexivity|]. eapply run_pop; [apply pop_publish|]. constructor. }
  exists q. split; [exact Hq|]. exact (queue_fifo 1 0 _ q ltac:(lia) Hq).
Defined.

(** C39: The queue is free of data races: no reachable state has the producer
    about to write the buffer slot the consumer is about to read. *)
Theorem queue_race_free {T} (k : Z) (fill : T) es q i j :
  0 <= k < 64 -> queue_run (2 ^ k) (queue_new (2 ^ k) fill) es q ->
  push_access (2 ^ k) q = Some i -> pop_access (2 ^ k) q = Some j -> i <> j.
Proof.
  intros Hk Hrun.
  destruct (queue_run_inv k Hk _ _ _ Hrun [] 0%nat (queue_new_inv k Hk fill)) as (n & Hinv & Ht).
  destruct Hinv. unfold push_access, pop_access.
  destruct (push_pc q) as [|x p|]; try done. destruct (pop_pc q) as [|c|]; try done.
  destruct qi_push0 as [-> Hp], qi_pop0 as [-> Hc]. intros [= <-] [= <-].
  rewrite !slot_mod by done. intros E. symmetry in E. revert E. apply slots_differ; [done|]. simpl in *. lia.
Qed.

Lemma queue_race_free_witness :
  exists q, queue_run (2 ^ 1) (queue_new (2 ^ 1) 0) [Pushed 5] q /\
    push_access (2 ^ 1) q = Some 1%nat /\ pop_access (2 ^ 1) q = Some 0%nat /\ 1%nat <> 0%nat.
Proof.
  assert (exists q, queue_run (2 ^ 1) (queue_new (2 ^ 1) 0) [Pushed 5] q /\
    push_access (2 ^ 1) q = Some 1%nat /\ pop_access (2 ^ 1) q = Some 0%nat) as (q & Hq & H1 & H2).
  { eexists. split; [|split].
    - change [Pushed 5] with (option_list (@None (QEvent Z)) ++ option_list None ++
        option_list (Some (Pushed 5)) ++ option_list None ++ option_list None ++ []).
      eapply run_push; [eapply (push_begin _ 5 0 0 _ _ _ _ _ _ 0%nat); reflexivity || lia|].
      eapply run_push; [apply push_write|]. eapply run_push; [apply push_publish|].
      eapply run_pop; [eapply (pop_begin _ 1 0 _ _ _ _ _ _ 1%nat); reflexivity || lia|].
      eapply run_push; [eapply (push_begin _ 6 1 0 _ _ _ _ _ _ 0%nat); reflexivity || lia|]. constructor.
    - reflexivity.
    - reflexivity. }
  exists q. split; [exact Hq|]. split; [exact H1|]. split; [exact H2|].
  exact (queue_race_free 1 0 _ q _ _ ltac:(lia) Hq H1 H2).
Defined.
