(* ===== verification/Registry.v ===== *)
(** * The registry of books

    [include/order_book/core/order_registry.hpp]: one book per instrument,
    created by its first accepted add, and the sequence number of the last
    accepted event.  The registry is written against the book interface; the
    optional logger is any state with a [log_event] operation. *)
From S2P Require Import Prelude StdMap Types Pool LOB OrderBook BookInterface BookTheorems.

Section registry.
Context {B : Type} `{!BookOps B} {L : Type} (log_event : MarketEvent -> ApplyResult -> L -> L).

Record OrderBookRegistry := mkRegistry {
  logger_ : option L;
  sequence_ : Sequence;
  books_ : gmap InstrumentId B
}.

(** The constructor. *)
Definition registry_new (logger : option L) : OrderBookRegistry := mkRegistry logger 0 ∅.

(** The overloads of the private [apply], on the map of books. *)
Definition apply_add_to (h : Heap) (e : AddOrder) (i : InstrumentId) (books : gmap InstrumentId B)
    : outcome (ApplyResult * gmap InstrumentId B) :=
  let inserted := bool_decide (books !! i = None) in
  b ← match books !! i with Some b => Ret b | None => bk_new h CAPACITY_BYTES end;
  '(r, b) ← bk_add h e b;
  Ret (r, if inserted && bool_decide (r <> Ok) then books else <[i := b]> books).

Definition apply_cancel_to (e : CancelOrder) (i : InstrumentId) (books : gmap InstrumentId B)
    : outcome (ApplyResult * gmap InstrumentId B) :=
  match books !! i with
  | Some b => '(r, b) ← bk_cancel e b; Ret (r, <[i := b]> books)
  | None => Ret (UnknownInstrument, books)
  end.

Definition apply_execute_to (e : ExecuteOrder) (i : InstrumentId) (books : gmap InstrumentId B)
    : outcome (ApplyResult * gmap InstrumentId B) :=
  match books !! i with
  | Some b => '(r, b) ← bk_execute e b; Ret (r, <[i := b]> books)
  | None => Ret (UnknownInstrument, books)
  end.

(** The [std::visit] under [try]. *)
Definition apply_payload (h : Heap) (e : MarketEvent) (books : gmap InstrumentId B)
    : outcome (ApplyResult * gmap InstrumentId B) :=
  match
    match ev_payload e with
    | PAdd a => apply_add_to h a (ev_instrument e) books
    | PCancel c => apply_cancel_to c (ev_instrument e) books
    | PExecute x => apply_execute_to x (ev_instrument e) books
    end
  with
  | Throw BadAlloc => Ret (AllocationFailed, books)
  | m => m
  end.

(** [ApplyResult apply(const MarketEvent&)] *)
Definition registry_apply (h : Heap) (e : MarketEvent) (r : OrderBookRegistry)
    : outcome (ApplyResult * OrderBookRegistry) :=
  '(result, books) ← apply_payload h e (books_ r);
  Ret (result, mkRegistry (log_event e result <$> logger_ r)
                 (if decide (result = Ok) then ev_sequence e else sequence_ r) books).

Definition seq_valid (seq : Sequence) (r : OrderBookRegistry) : bool :=
  bool_decide (sequence_ r < seq) && bool_decide (u64 (seq - sequence_ r) = 1).

Definition get_seq (r : OrderBookRegistry) : Sequence := sequence_ r.

(** The books are in an [std::unordered_map]; the loops below visit them in the
    order of [map_to_list]. *)
Definition registry_validate (r : OrderBookRegistry) : outcome (option string) :=
  foldM (fun found kb => match found with
                         | Some e => Ret (Some e)
                         | None => bk_validate kb.2
                         end) None (map_to_list (books_ r)).

Definition registry_order_count (r : OrderBookRegistry) : nat :=
  foldr (fun kb n => (bk_count kb.2 + n)%nat) 0%nat (map_to_list (books_ r)).

Definition instrument_count (r : OrderBookRegistry) : nat := size (books_ r).
End registry.
Arguments OrderBookRegistry : clear implicits.
Arguments mkRegistry {B L} _ _ _.
Arguments logger_ {B L} _.
Arguments sequence_ {B L} _.
Arguments books_ {B L} _.

(** ** The abstract registry *)

Abbreviation Ledger := (gmap InstrumentId LOB) (only parsing).

(** One event on the abstract books: an add to an unknown instrument starts an
    empty book and keeps it only if the order was accepted. *)
Definition ledger_apply (e : MarketEvent) (m : Ledger) : ApplyResult * Ledger :=
  let i := ev_instrument e in
  match ev_payload e with
  | PAdd a =>
    let (r, b) := lob_add a (default lob_empty (m !! i)) in
    if decide (r = Ok) then (Ok, <[i := b]> m) else (r, m)
  | PCancel c =>
    match m !! i with
    | Some b => let (r, b) := lob_cancel c b in (r, <[i := b]> m)
    | None => (UnknownInstrument, m)
    end
  | PExecute x =>
    match m !! i with
    | Some b => let (r, b) := lob_execute x b in (r, <[i := b]> m)
    | None => (UnknownInstrument, m)
    end
  end.

Section laws.
Context {B : Type} `{!BookOps B} `{!BookLaws B} {L : Type} (log_event : MarketEvent -> ApplyResult -> L -> L).
Implicit Types (r : OrderBookRegistry B L) (books : gmap InstrumentId B).

Definition books_wf books : Prop := map_Forall (fun _ b => bk_wf b) books.
Definition books_abs books : Ledger := bk_abs <$> books.

Lemma lob_add_not_Ok a b : (lob_add a b).1 <> Ok -> (lob_add a b).2 = b.
Proof. unfold lob_add. intros H. repeat (case_decide; [done|]). done. Qed.

Lemma lob_add_not_failed a b : (lob_add a b).1 <> AllocationFailed.
Proof. unfold lob_add. by repeat (case_decide; [done|]). Qed.

(** What applying a payload does to the books. *)
Definition payload_effect (e : MarketEvent) books (m : outcome (ApplyResult * gmap InstrumentId B)) : Prop :=
  exists res books', m = Ret (res, books') /\ books_wf books' /\
    ((res, books_abs books') = ledger_apply e (books_abs books) \/
     (res = AllocationFailed /\ books_abs books' = books_abs books)).

Lemma books_abs_insert books i b :
  books_abs (<[i := b]> books) = <[i := bk_abs b]> (books_abs books).
Proof. apply fmap_insert. Qed.

Lemma books_wf_insert books i b : books_wf books -> bk_wf b -> books_wf (<[i := b]> books).
Proof. intros. by apply map_Forall_insert_2. Qed.

(** Running an operation on an existing book. *)
Lemma existing_book_effect books i b b' res (r : ApplyResult) (l : LOB) :
  books_wf books -> books !! i = Some b -> bk_wf b' -> (res, bk_abs b') = (r, l) ->
  books_wf (<[i := b']> books) /\ (res, books_abs (<[i := b']> books)) = (r, <[i := l]> (books_abs books)).
Proof.
  intros Hwf Hi Hb' [= -> <-]. split; [by apply books_wf_insert|]. by rewrite books_abs_insert.
Qed.

Lemma apply_add_to_effect h e a books :
  books_wf books -> ev_payload e = PAdd a -> AddOrder_ok a -> heap_ok h CAPACITY_BYTES ->
  payload_effect e books (apply_payload h e books).
Proof.
  intros Hwf Hp Ha Hh. unfold apply_payload, payload_effect, ledger_apply, apply_add_to.
  rewrite Hp. set (i := ev_instrument e).
  assert (books_abs books !! i = bk_abs <$> books !! i) as -> by apply lookup_fmap.
  destruct (books !! i) as [b|] eqn:Ei; simpl.
  - destruct (bk_add_spec h a b) as (res & b' & -> & Hb' & _ & Hspec); [by apply (Hwf i)|done|].
    simpl. exists res, (<[i := b']> books). split; [done|]. split; [by apply books_wf_insert|].
    rewrite books_abs_insert.
    assert (<[i := bk_abs b]> (books_abs books) = books_abs books) as Hid.
    { apply insert_id. unfold books_abs. by rewrite lookup_fmap, Ei. }
    pose proof (lob_add_not_Ok a (bk_abs b)) as Hno.
    destruct (lob_add a (bk_abs b)) as [r l] eqn:El. simpl in *.
    destruct Hspec as [[= -> ->]|(-> & -> & -> & _)]; [left|right; by rewrite Hid].
    case_decide as Hr; [by rewrite Hr|]. by rewrite (Hno Hr), Hid.
  - destruct (bk_new_spec h CAPACITY_BYTES) as [(b & -> & Hb & Eb)|[-> _]];
      [vm_compute; discriminate|done| |]; simpl.
    2: { exists AllocationFailed, books. split_and!; [done..|by right]. }
    destruct (bk_add_spec h a b) as (res & b' & -> & Hb' & _ & Hspec); [done..|]. simpl.
    rewrite Eb in Hspec. destruct (lob_add a lob_empty) as [r l] eqn:El. simpl in *.
    eexists res, _. split; [done|]. destruct Hspec as [[= -> <-]|(-> & -> & _ & _)].
    + case_decide as Hr; [rewrite Hr|]; simpl.
      * split; [by apply books_wf_insert|]. left. by rewrite books_abs_insert.
      * rewrite bool_decide_true by done. split; [done|]. by left.
    + split; [done|]. by right.
Qed.

Lemma apply_payload_effect h e books :
  books_wf books -> MarketEvent_ok e -> heap_ok h CAPACITY_BYTES ->
  payload_effect e books (apply_payload h e books).
Proof.
  intros Hwf [_ _ Hp] Hh. destruct (ev_payload e) as [a|c|x] eqn:Ep.
  - by apply (apply_add_to_effect h e a).
  - unfold apply_payload, payload_effect, ledger_apply, apply_cancel_to. rewrite Ep.
    assert (books_abs books !! ev_instrument e = bk_abs <$> books !! ev_instrument e) as -> by apply lookup_fmap.
    destruct (books !! ev_instrument e) as [b|] eqn:Ei; simpl; [|by exists UnknownInstrument, books; eauto].
    destruct (bk_cancel_spec c b) as (res & b' & -> & Hb' & _ & Hspec); [by apply (Hwf _ _ Ei)|]. simpl.
    destruct (lob_cancel c (bk_abs b)) as [r l].
    destruct (existing_book_effect books _ b b' res r l Hwf Ei Hb' Hspec). eauto 6.
  - unfold apply_payload, payload_effect, ledger_apply, apply_execute_to. rewrite Ep. destruct Hp as [_ Hq].
    assert (books_abs books !! ev_instrument e = bk_abs <$> books !! ev_instrument e) as -> by apply lookup_fmap.
    destruct (books !! ev_instrument e) as [b|] eqn:Ei; simpl; [|by exists UnknownInstrument, books; eauto].
    destruct (bk_execute_spec x b) as (res & b' & -> & Hb' & _ & Hspec); [by apply (Hwf _ _ Ei)|done|]. simpl.
    destruct (lob_execute x (bk_abs b)) as [r l].
    destruct (existing_book_effect books _ b b' res r l Hwf Ei Hb' Hspec). eauto 6.
Qed.

(** ** Theorems *)


Lemma map_validate_none (l : list (InstrumentId * B)) :
  (forall i b, (i, b) ∈ l -> bk_validate b = Ret None) ->
  foldM (fun found kb => match found with
                         | Some e => Ret (Some e)
                         | None => bk_validate kb.2
                         end) None l = Ret (None : option string).
Proof.
  induction l as [|[i b] l IH]; intros Hl; simpl; [done|].
  rewrite (Hl i b) by left. simpl. apply IH. intros. eapply Hl. by right.
Qed.

(** The registry's check accepts every registry of well-formed books, and
    its order count is the number of live orders in all of them. *)
Theorem registry_queries_correct (r : OrderBookRegistry B L) :
  books_wf (books_ r) ->
  (forall i b, books_ r !! i = Some b -> Z.of_nat (lob_count (bk_abs b)) <= 2 ^ 32) ->
  registry_validate r = Ret None /\
  registry_order_count r = sum_list (lob_count <$> (map_to_list (books_abs (books_ r))).*2).
Proof.
  intros Hwf Hc. split.
  - apply map_validate_none. intros i b Hi%elem_of_map_to_list.
    apply bk_validate_spec; [by apply (Hwf i)|by eapply Hc].
  - unfold registry_order_count, books_abs. rewrite map_to_list_fmap.
    assert (forall i b, (i, b) ∈ map_to_list (books_ r) -> bk_wf b) as Hin.
    { intros i b Hi%elem_of_map_to_list. by apply (Hwf i). }
    induction (map_to_list (books_ r)) as [|[i b] l IH]; [done|]. csimpl.
    rewrite bk_count_spec by (apply (Hin i); left). f_equal. apply IH. intros j c Hj. apply (Hin j). by right.
Qed.
End laws.

(** ** Concrete instances *)

Definition sample_log : MarketEvent -> ApplyResult -> list (MarketEvent * ApplyResult) -> list (MarketEvent * ApplyResult) :=
  fun e r l => (e, r) :: l.

Definition sample_registry : OrderBookRegistry (OrderBook Pool) (list (MarketEvent * ApplyResult)) :=
  mkRegistry (Some []) 5 {[ 7 := sample_book ]}.

Lemma sample_registry_wf : books_wf (books_ sample_registry).
Proof. apply map_Forall_singleton. exact sample_book_wf. Qed.


Lemma registry_queries_correct_witness : registry_validate sample_registry = Ret None.
Proof.
  refine (proj1 (registry_queries_correct sample_registry sample_registry_wf _)).
  intros i b E. unfold sample_registry in E. cbn [books_] in E.
  apply lookup_singleton_Some in E as [_ <-]. vm_compute. discriminate.
Defined.
