(* ===== verification/Position.v ===== *)
(** * Positions

    [struct Position] of [include/order_book/trading/engine.hpp] and its
    members in [src/trading/engine.cpp].  [long double] is the x87 extended
    format of the target, 64 bits of precision, computed with the standard
    library's executable floats and rounded after every operation. *)
From Stdlib Require Import SpecFloat.
From S2P Require Import Prelude Types.

Definition LongDouble : Type := spec_float.
Definition ld_prec : Z := 64.
Definition ld_emax : Z := 16384.
Definition ld_of_Z (z : Z) : LongDouble := binary_normalize ld_prec ld_emax z 0 false.
Definition ld_zero : LongDouble := S754_zero false.
Definition ld_add (x y : LongDouble) : LongDouble := SFadd ld_prec ld_emax x y.
Definition ld_sub (x y : LongDouble) : LongDouble := SFsub ld_prec ld_emax x y.
Definition ld_mul (x y : LongDouble) : LongDouble := SFmul ld_prec ld_emax x y.
Definition ld_div (x y : LongDouble) : LongDouble := SFdiv ld_prec ld_emax x y.
Definition ld_opp (x : LongDouble) : LongDouble := SFopp x.
Definition ld_ltb (x y : LongDouble) : bool := SFltb x y.
Definition ld_eqb (x y : LongDouble) : bool := SFeqb x y.

#[export] Instance LongDouble_eq_dec : EqDecision LongDouble.
Proof. solve_decision. Defined.

Record Position := mkPosition {
  pos_quantity : Z;
  pos_volume : Z;
  pos_average_price : LongDouble;
  pos_realized_pnl : LongDouble;
  pos_cash : LongDouble
}.

#[export] Instance Position_eq_dec : EqDecision Position.
Proof. solve_decision. Defined.

(** [Position{}] *)
Definition position_default : Position := mkPosition 0 0 ld_zero ld_zero ld_zero.

Definition signed (s : Side) (size : Quantity) : Z := if decide (s = Bid) then size else - size.

(** [void Position::fill(Side, Price, Quantity)] *)
Definition position_fill (side : Side) (price : Price) (size : Quantity) (p : Position) : Position :=
  let signed_size := signed side size in
  let old := pos_quantity p in
  let old_abs := Z.abs old in
  let next := old + signed_size in
  let px := ld_of_Z price in
  let '(average, realized) :=
    if decide (old = 0 \/ bool_decide (0 < old) = bool_decide (0 < signed_size)) then
      (ld_div (ld_add (ld_mul (pos_average_price p) (ld_of_Z old_abs)) (ld_mul px (ld_of_Z size)))
              (ld_of_Z (Z.abs next)), pos_realized_pnl p)
    else
      let closed := Z.min old_abs size in
      let realized :=
        ld_add (pos_realized_pnl p)
          (ld_mul (ld_mul (ld_sub px (pos_average_price p)) (ld_of_Z closed))
                  (ld_of_Z (if decide (0 < old) then 1 else -1))) in
      (if decide (next = 0) then ld_zero
       else if decide (bool_decide (0 < next) <> bool_decide (0 < old)) then px
       else pos_average_price p, realized) in
  mkPosition next (u64 (pos_volume p + size)) average realized
    (ld_sub (pos_cash p) (ld_mul px (ld_of_Z signed_size))).

(** [long double Position::pnl(long double mark)] *)
Definition position_pnl (p : Position) (mark : LongDouble) : LongDouble :=
  ld_add (pos_cash p) (ld_mul (ld_of_Z (pos_quantity p)) mark).

Lemma position_fill_quantity s price size p :
  pos_quantity (position_fill s price size p) = pos_quantity p + signed s size.
Proof. unfold position_fill. cbv zeta. by destruct (decide (_ \/ _)). Qed.
