(* ===== verification/Market.v ===== *)
(** * The market seen through deltas

    What the update messages of the engine mean on the abstract books, and how
    the operations on one book commute: the engine proofs and the replica are
    stated with these. *)
From S2P Require Import Prelude StdMap Types Messages LOB.

(** The effect of one delta on the book of its instrument. *)
Definition delta_lob (m : Message) (b : LOB) : ApplyResult * LOB :=
  match m_update m with
  | UpdateType.Add => lob_add (mkAdd (m_exchange_id m) (m_side m) (m_price m) (m_quantity m)) b
  | UpdateType.Cancel => lob_cancel (mkCancel (m_exchange_id m)) b
  | UpdateType.Execute => lob_execute (mkExecute (m_exchange_id m) (m_quantity m)) b
  | UpdateType.Reduce =>
    match lob_remaining (m_exchange_id m) b with
    | Some old =>
      if decide (m_quantity m = 0 \/ old <= m_quantity m) then (InvalidQuantity, b)
      else lob_execute (mkExecute (m_exchange_id m) (u32 (old - m_quantity m))) b
    | None => (InvalidQuantity, b)
    end
  | UpdateType.Trade => (Ok, b)
  | _ => (ParseError, b)
  end.

(** The book of instrument [i] after a tape of deltas; [None] when one of its
    own deltas does not apply. *)
Definition replay_one (i : InstrumentId) (b : LOB) (m : Message) : option LOB :=
  if decide (m_instrument_id m = i)
  then match delta_lob m b with (Ok, b) => Some b | _ => None end
  else Some b.

Fixpoint replay_lob (i : InstrumentId) (ms : list Message) (b : LOB) : option LOB :=
  match ms with
  | [] => Some b
  | m :: ms => match replay_one i b m with Some b => replay_lob i ms b | None => None end
  end.

Lemma replay_lob_app i ms1 ms2 b :
  replay_lob i (ms1 ++ ms2) b =
  match replay_lob i ms1 b with Some b => replay_lob i ms2 b | None => None end.
Proof. revert b. induction ms1 as [|m ms1 IH]; intros b; simpl; [done|]. by destruct (replay_one i b m). Qed.

Lemma replay_lob_snoc i ms m b b' :
  replay_lob i ms b = Some b' -> replay_lob i (ms ++ [m]) b = replay_one i b' m.
Proof. intros E. rewrite replay_lob_app, E. simpl. by destruct (replay_one i b' m). Qed.

(** ** Well-formedness under the operations *)

Lemma lob_wf_empty : lob_wf lob_empty.
Proof.
  split; [by destruct s; constructor| |constructor].
  intros s v Hv. destruct s; by apply not_elem_of_nil in Hv.
Qed.

Lemma queue_set_queue s s' q b :
  queue s' (set_queue s q b) = if decide (s' = s /\ valid_side s) then q else queue s' b.
Proof.
  unfold valid_side. destruct s, s'; simpl; try done; case_decide as H; try done; naive_solver.
Qed.

Lemma lob_orders_insert v b :
  valid_side (ov_side v) -> lob_orders (lob_insert v b) ≡ₚ v :: lob_orders b.
Proof.
  intros [Hs|Hs]; unfold lob_insert, lob_orders; rewrite Hs; simpl; rewrite q_insert_perm; [done|].
  by rewrite <- Permutation_middle.
Qed.

Lemma lob_wf_insert v b :
  lob_wf b -> valid_side (ov_side v) -> order_ok (ov_side v) v -> lob_find (ov_id v) b = None ->
  lob_wf (lob_insert v b).
Proof.
  intros Hwf Hs Hok Hn. split.
  - intros s. unfold lob_insert. rewrite queue_set_queue. case_decide as H; [|apply Hwf].
    destruct H as [-> _]. apply q_insert_sorted, Hwf.
  - intros s w. unfold lob_insert. rewrite queue_set_queue. case_decide as H; [|apply Hwf].
    destruct H as [-> _]. rewrite q_insert_perm, elem_of_cons. intros [->|Hw]; [done|]. by apply Hwf.
  - rewrite (lob_orders_insert v b Hs). apply find_id_None in Hn. csimpl. constructor; [done|apply Hwf].
Qed.

Lemma lob_orders_remove id b : lob_orders (lob_remove id b) = q_remove id (lob_orders b).
Proof. symmetry. apply q_remove_app. Qed.

Lemma queue_remove s id b : queue s (lob_remove id b) = q_remove id (queue s b).
Proof. by destruct s. Qed.

Lemma queue_resize s id q b : queue s (lob_resize id q b) = q_resize id q (queue s b).
Proof. by destruct s. Qed.

Lemma NoDup_q_remove id l : NoDup (ov_id <$> l) -> NoDup (ov_id <$> q_remove id l).
Proof.
  unfold q_remove. induction l as [|w l IH]; csimpl; [done|]. intros [Hw Hl]%NoDup_cons.
  rewrite filter_cons. case_decide; csimpl; [|by apply IH]. constructor; [|by apply IH].
  intros (v & E & Hv)%list_elem_of_fmap. apply list_elem_of_filter in Hv as [_ Hv].
  apply Hw. rewrite E. by apply list_elem_of_fmap_2.
Qed.

Lemma lob_wf_remove id b : lob_wf b -> lob_wf (lob_remove id b).
Proof.
  intros Hwf. split.
  - intros s. rewrite queue_remove. apply q_remove_sorted, Hwf.
  - intros s v. rewrite queue_remove, elem_of_q_remove. intros [? _]. by apply Hwf.
  - rewrite lob_orders_remove. apply NoDup_q_remove, Hwf.
Qed.

Lemma lob_wf_resize id q b : lob_wf b -> 0 < q < 2 ^ 32 -> lob_wf (lob_resize id q b).
Proof.
  intros Hwf Hq. split.
  - intros s. rewrite queue_resize. apply q_resize_sorted, Hwf.
  - intros s v. rewrite queue_resize. unfold q_resize. intros (w & -> & Hw)%list_elem_of_fmap.
    destruct (wf_order _ Hwf _ _ Hw). case_decide; split; done.
  - assert (lob_orders (lob_resize id q b) = q_resize id q (lob_orders b)) as ->.
    { symmetry. apply q_resize_app. }
    rewrite q_resize_ids. apply Hwf.
Qed.

(** ** Lookups and commutation *)

Lemma find_id_insert_ne s v id l : ov_id v <> id -> find_id id (q_insert s v l) = find_id id l.
Proof.
  intros Hne. induction l as [|w l IH]; simpl; [by rewrite decide_False|].
  case_decide; simpl; [by rewrite IH|]. by rewrite (decide_False (P := ov_id v = id)).
Qed.

Lemma lob_find_insert_ne v b id : ov_id v <> id -> lob_find id (lob_insert v b) = lob_find id b.
Proof.
  intros Hne. unfold lob_find, lob_insert, lob_orders. destruct (ov_side v); simpl; [| |done];
    by rewrite !find_id_app, find_id_insert_ne.
Qed.

Lemma lob_find_remove_ne b id id' : id <> id' -> lob_find id (lob_remove id' b) = lob_find id b.
Proof.
  intros Hne. unfold lob_find. rewrite lob_orders_remove. induction (lob_orders b) as [|w l IH]; [done|].
  unfold q_remove in *. rewrite filter_cons. simpl. repeat case_decide; simpl; try congruence;
  try (by rewrite decide_True); by rewrite decide_False.
Qed.

Lemma lob_find_remove b id : lob_find id (lob_remove id b) = None.
Proof.
  apply find_id_None. rewrite lob_orders_remove. intros (v & -> & Hv)%list_elem_of_fmap.
  by apply elem_of_q_remove in Hv as [_ ?].
Qed.

Lemma lob_remove_notin id b : lob_find id b = None -> lob_remove id b = b.
Proof.
  intros Hn%find_id_None. destruct b as [bs ks]. unfold lob_orders in Hn. simpl in Hn.
  rewrite fmap_app, not_elem_of_app in Hn. unfold lob_remove. simpl.
  by rewrite !q_remove_notin by tauto.
Qed.

Lemma lob_remove_insert_ne id v b :
  lob_wf b -> ov_id v <> id -> lob_remove id (lob_insert v b) = lob_insert v (lob_remove id b).
Proof.
  intros Hwf Hne. pose proof (wf_sorted _ Hwf (ov_side v)) as Hs.
  unfold lob_insert, lob_remove. destruct (ov_side v); simpl in *; [| |done];
    by rewrite q_remove_insert_ne.
Qed.

Lemma q_resize_insert_ne s id q v l :
  ov_id v <> id -> q_resize id q (q_insert s v l) = q_insert s v (q_resize id q l).
Proof.
  intros Hne. unfold q_resize. induction l as [|w l IH]; csimpl; [by rewrite decide_False|].
  assert (ov_price (if decide (ov_id w = id) then with_quantity q w else w) = ov_price w) as ->
    by by case_decide.
  case_decide; csimpl; [by rewrite IH|]. by rewrite (decide_False (P := ov_id v = id)).
Qed.

Lemma lob_resize_insert_ne id q v b :
  ov_id v <> id -> lob_resize id q (lob_insert v b) = lob_insert v (lob_resize id q b).
Proof.
  intros Hne. unfold lob_insert, lob_resize. destruct (ov_side v); simpl; [| |done];
    by rewrite q_resize_insert_ne.
Qed.

Lemma lob_insert_fresh v b :
  lob_wf (lob_insert v b) -> valid_side (ov_side v) -> lob_find (ov_id v) b = None.
Proof.
  intros Hwf Hs. apply find_id_None. pose proof (wf_ids _ Hwf) as Hnd.
  rewrite (lob_orders_insert v b Hs) in Hnd. csimpl in *. by apply NoDup_cons in Hnd as [? _].
Qed.

(** Taking from the front of one side. *)
Lemma ids_other_side s b v q :
  lob_wf b -> queue s b = v :: q ->
  ov_id v ∉ (ov_id <$> q) /\ forall s', s' <> s -> ov_id v ∉ (ov_id <$> queue s' b).
Proof.
  intros Hwf Hq. pose proof (wf_ids _ Hwf) as Hnd.
  unfold lob_orders in Hnd. rewrite fmap_app in Hnd. apply NoDup_app in Hnd as (H1 & H2 & H3).
  destruct s; simpl in *; [| |done]; rewrite Hq in *; csimpl in *.
  - split; [by apply NoDup_cons in H1 as [? _]|]. intros [] Hs; try done.
    + apply H2. left.
    + apply not_elem_of_nil.
  - split; [by apply NoDup_cons in H3 as [? _]|]. intros [] Hs; try done.
    + intros Hin. apply (H2 _ Hin). left.
    + apply not_elem_of_nil.
Qed.

Lemma lob_remove_head s b v q :
  lob_wf b -> queue s b = v :: q -> lob_remove (ov_id v) b = set_queue s q b.
Proof.
  intros Hwf Hq. destruct (ids_other_side s b v q Hwf Hq) as [H1 H2].
  assert (q_remove (ov_id v) (v :: q) = q) as E.
  { unfold q_remove. rewrite filter_cons, decide_False by auto. by apply q_remove_notin. }
  destruct b as [bs ks], s; simpl in *; [| |done]; unfold lob_remove; simpl; rewrite Hq, E; f_equal.
  - apply q_remove_notin, (H2 Ask). done.
  - apply q_remove_notin, (H2 Bid). done.
Qed.

Lemma lob_resize_head s b v q x :
  lob_wf b -> queue s b = v :: q -> lob_resize (ov_id v) x b = set_queue s (with_quantity x v :: q) b.
Proof.
  intros Hwf Hq. destruct (ids_other_side s b v q Hwf Hq) as [H1 H2].
  assert (q_resize (ov_id v) x (v :: q) = with_quantity x v :: q) as E.
  { unfold q_resize. csimpl. rewrite decide_True by done. f_equal. by apply q_resize_notin. }
  destruct b as [bs ks], s; simpl in Hq, H2 |- *; [| |done]; unfold lob_resize; simpl; rewrite Hq, E; f_equal.
  - apply q_resize_notin, (H2 Ask). done.
  - apply q_resize_notin, (H2 Bid). done.
Qed.

(** No bid reaches an ask. *)
Definition lob_uncrossed (b : LOB) : Prop :=
  forall v w, v ∈ lob_bids b -> w ∈ lob_asks b -> ov_price v < ov_price w.

Lemma lob_uncrossed_remove id b : lob_uncrossed b -> lob_uncrossed (lob_remove id b).
Proof. intros H v w. simpl. rewrite !elem_of_q_remove. intros [??] [??]. auto. Qed.

Lemma q_resize_price id q l v : v ∈ q_resize id q l -> exists w, w ∈ l /\ ov_price w = ov_price v.
Proof.
  unfold q_resize. intros (w & -> & Hw)%list_elem_of_fmap. exists w. split; [done|]. by case_decide.
Qed.

Lemma lob_uncrossed_resize id q b : lob_uncrossed b -> lob_uncrossed (lob_resize id q b).
Proof.
  intros H v w (v' & Hv & <-)%q_resize_price (w' & Hw & <-)%q_resize_price. auto.
Qed.

(** The best prices tell whether a book is crossed. *)
Lemma best_uncrossed b :
  lob_wf b ->
  (match lob_best Bid b, lob_best Ask b with
   | Some bid, Some ask => bool_decide (ask <= bid)
   | _, _ => false
   end = false <-> lob_uncrossed b).
Proof.
  intros Hwf. pose proof (wf_sorted _ Hwf Bid) as Hb. pose proof (wf_sorted _ Hwf Ask) as Ha.
  unfold lob_best, lob_uncrossed. simpl in *.
  destruct (lob_bids b) as [|v bids]; [split; [intros _ x w Hx; by apply not_elem_of_nil in Hx|done]|].
  destruct (lob_asks b) as [|w asks]; [split; [intros _ x y _ Hy; by apply not_elem_of_nil in Hy|done]|].
  simpl. rewrite bool_decide_eq_false. apply StronglySorted_cons in Hb as [Hb _], Ha as [Ha _].
  rewrite Forall_forall in Hb, Ha. split.
  - intros Hlt x y Hx Hy.
    assert (ov_price x <= ov_price v) by (apply elem_of_cons in Hx as [->|Hx]; [done|exact (Hb _ Hx)]).
    assert (ov_price w <= ov_price y) by (apply elem_of_cons in Hy as [->|Hy]; [done|exact (Ha _ Hy)]). lia.
  - intros H Hle. assert (ov_price v < ov_price w) by (apply H; left). lia.
Qed.

(** Deltas that apply, by their kind. *)
Lemma delta_cancel m b v :
  m_update m = UpdateType.Cancel -> lob_find (m_exchange_id m) b = Some v ->
  delta_lob m b = (Ok, lob_remove (m_exchange_id m) b).
Proof. intros Hu Hf. unfold delta_lob, lob_cancel. rewrite Hu. cbn [cancel_id]. by rewrite Hf. Qed.

Lemma delta_execute m b v :
  m_update m = UpdateType.Execute -> lob_find (m_exchange_id m) b = Some v ->
  0 < m_quantity m <= ov_quantity v ->
  delta_lob m b = (Ok, if decide (ov_quantity v = m_quantity m) then lob_remove (m_exchange_id m) b
                       else lob_resize (m_exchange_id m) (ov_quantity v - m_quantity m) b).
Proof.
  intros Hu Hf Hq. unfold delta_lob, lob_execute. rewrite Hu. cbn [execute_id execute_quantity].
  rewrite Hf. rewrite !decide_False by lia. by case_decide.
Qed.

Lemma delta_reduce m b v :
  m_update m = UpdateType.Reduce -> lob_find (m_exchange_id m) b = Some v ->
  0 < m_quantity m < ov_quantity v -> is_u32 (ov_quantity v) ->
  delta_lob m b = (Ok, lob_resize (m_exchange_id m) (m_quantity m) b).
Proof.
  intros Hu Hf Hq Hv. unfold delta_lob, lob_execute, lob_remaining. rewrite Hu, Hf. cbn [fmap option_fmap option_map].
  rewrite decide_False by lia. cbn [execute_id execute_quantity].
  unfold is_u32 in Hv. rewrite u32_small by (unfold is_u32; lia). rewrite Hf.
  rewrite !decide_False by lia. do 2 f_equal. lia.
Qed.

Lemma delta_add m b :
  m_update m = UpdateType.Add -> valid_side (m_side m) -> m_price m <> 0 -> m_quantity m <> 0 ->
  lob_find (m_exchange_id m) b = None ->
  delta_lob m b = (Ok, lob_insert (mkView (m_exchange_id m) (m_side m) (m_price m) (m_quantity m)) b).
Proof.
  intros Hu Hs Hp Hq Hf. unfold delta_lob, lob_add. rewrite Hu.
  cbn [add_id add_side add_price add_quantity]. rewrite !decide_False by done.
  rewrite decide_False by (rewrite Hf; by intros [? ?]). by rewrite decide_False by tauto.
Qed.
