(* ===== verification/Engine.v ===== *)
(** * The matching engine

    [include/order_book/trading/engine.hpp] and [src/trading/engine.cpp].  The
    engine is written against the book interface.  Its state and the batch a
    command produces are threaded explicitly; [map::at] on a missing key and a
    failed [require] throw. *)
From S2P Require Import Prelude StdMap Types Messages Position LOB OrderBook Pool BookInterface.

(** [struct InstrumentRules] with its defaults. *)
Record InstrumentRules := mkRules {
  tick_size : Price;
  lot_size : Quantity;
  min_price : Price;
  max_price : Price;
  max_order_quantity : Quantity;
  max_notional : Z;
  max_position : Z;
  max_open_orders : Z
}.

#[export] Instance InstrumentRules_eq_dec : EqDecision InstrumentRules.
Proof. solve_decision. Defined.

Definition default_rules : InstrumentRules := mkRules 1 1 1 1000000 100000 10000000000 1000000 128.

Abbreviation Instruments := (gmap InstrumentId InstrumentRules) (only parsing).

Definition default_instruments : Instruments := {[ 1 := default_rules; 2 := default_rules ]}.

Record Batch := mkBatch { reports : list Message; updates : list Message }.

Record EngineStats := mkStats {
  st_commands : Z; st_rejected : Z; st_trades : Z; st_volume : Z
}.

Record ClientState := mkClient {
  cl_last_request : Z;
  cl_max_order_id : OrderId;
  cl_last_command : Message;
  cl_cached : list Message
}.

Definition client_default : ClientState := mkClient 0 0 message_default [].

(** [map::at] and [map::emplace] *)
Definition at_key {K V} `{Countable K} (m : gmap K V) (k : K) : outcome V :=
  from_option_or OutOfRange (m !! k).
Definition emplace {K V} `{Countable K} (k : K) (v : V) (m : gmap K V) : gmap K V :=
  match m !! k with Some _ => m | None => <[k := v]> m end.

(** [require(condition, text)] *)
Definition require (condition : bool) (text : string) : outcome unit :=
  if condition then Ret tt else Throw (LogicError text).

(** [bool crosses(const Message&, Price)] *)
Definition crosses (c : Message) (price : Price) : bool :=
  bool_decide (m_order_type c = OrderType.Market) ||
  (if decide (m_side c = Bid) then price <=? m_price c else m_price c <=? price).

(** ** Message updates *)
Definition set_exchange_id (id : OrderId) (m : Message) : Message :=
  let '(mkMessage a b c d e f g h i j k l n o p _ r s t u) := m in
  mkMessage a b c d e f g h i j k l n o p id r s t u.
Definition set_quantity (q : Quantity) (m : Message) : Message :=
  let '(mkMessage a b c d e f g h i j k l n o p x r _ t u) := m in
  mkMessage a b c d e f g h i j k l n o p x r q t u.
Definition set_remaining (q : Quantity) (m : Message) : Message :=
  let '(mkMessage a b c d e f g h i j k l n o p x r s _ u) := m in
  mkMessage a b c d e f g h i j k l n o p x r s q u.
Definition set_trade_id (t : Z) (m : Message) : Message :=
  let '(mkMessage a b c d e f g h i j k l n o p x r s q _) := m in
  mkMessage a b c d e f g h i j k l n o p x r s q t.
Definition set_price (px : Price) (m : Message) : Message :=
  let '(mkMessage a b c d e f g h i j k l _ o p x r s q t) := m in
  mkMessage a b c d e f g h i j k l px o p x r s q t.
Definition set_request_id (rq : Z) (m : Message) : Message :=
  let '(mkMessage a b c d e f g h i j k l n _ p x r s q t) := m in
  mkMessage a b c d e f g h i j k l n rq p x r s q t.
(** The fields [report] and [update] stamp. *)
Definition as_report (type : ReportType.t) (reason : Reject.t) (epoch seq : Z) (m : Message) : Message :=
  let '(mkMessage _ b c d e _ _ h i _ _ l n o p x r s q t) := m in
  mkMessage Kind.Report b c d e type reason h i epoch seq l n o p x r s q t.
Definition as_update (type : UpdateType.t) (epoch seq : Z) (m : Message) : Message :=
  let '(mkMessage _ b c d e f g _ i _ _ _ n _ _ x r s q t) := m in
  mkMessage Kind.Delta b c d e f g type i epoch seq 0 n 0 0 x r s q t.

Section engine.
Context {B : Type} `{!BookOps B}.

(** [class MatchingEngine], and the batch of the command in progress. *)
Record Engine := mkEngine {
  instruments_ : Instruments;
  e_books : gmap InstrumentId B;
  resting_ : gmap OrderId Message;
  by_client_ : gmap (ClientId * OrderId) OrderId;
  clients_ : gmap ClientId ClientState;
  positions_ : gmap (ClientId * InstrumentId) Position;
  epoch_ : Z;
  e_sequence : Sequence;
  response_sequence_ : Sequence;
  next_order_ : OrderId;
  next_trade_ : Z;
  stats_ : EngineStats;
  batch : Batch
}.

Definition set_books x (e : Engine) : Engine :=
  mkEngine (instruments_ e) x (resting_ e) (by_client_ e) (clients_ e) (positions_ e) (epoch_ e)
    (e_sequence e) (response_sequence_ e) (next_order_ e) (next_trade_ e) (stats_ e) (batch e).
Definition set_resting x (e : Engine) : Engine :=
  mkEngine (instruments_ e) (e_books e) x (by_client_ e) (clients_ e) (positions_ e) (epoch_ e)
    (e_sequence e) (response_sequence_ e) (next_order_ e) (next_trade_ e) (stats_ e) (batch e).
Definition set_by_client x (e : Engine) : Engine :=
  mkEngine (instruments_ e) (e_books e) (resting_ e) x (clients_ e) (positions_ e) (epoch_ e)
    (e_sequence e) (response_sequence_ e) (next_order_ e) (next_trade_ e) (stats_ e) (batch e).
Definition set_clients x (e : Engine) : Engine :=
  mkEngine (instruments_ e) (e_books e) (resting_ e) (by_client_ e) x (positions_ e) (epoch_ e)
    (e_sequence e) (response_sequence_ e) (next_order_ e) (next_trade_ e) (stats_ e) (batch e).
Definition set_positions x (e : Engine) : Engine :=
  mkEngine (instruments_ e) (e_books e) (resting_ e) (by_client_ e) (clients_ e) x (epoch_ e)
    (e_sequence e) (response_sequence_ e) (next_order_ e) (next_trade_ e) (stats_ e) (batch e).
Definition set_counters seq rseq (e : Engine) : Engine :=
  mkEngine (instruments_ e) (e_books e) (resting_ e) (by_client_ e) (clients_ e) (positions_ e) (epoch_ e)
    seq rseq (next_order_ e) (next_trade_ e) (stats_ e) (batch e).
Definition set_next_order x (e : Engine) : Engine :=
  mkEngine (instruments_ e) (e_books e) (resting_ e) (by_client_ e) (clients_ e) (positions_ e) (epoch_ e)
    (e_sequence e) (response_sequence_ e) x (next_trade_ e) (stats_ e) (batch e).
Definition set_next_trade x (e : Engine) : Engine :=
  mkEngine (instruments_ e) (e_books e) (resting_ e) (by_client_ e) (clients_ e) (positions_ e) (epoch_ e)
    (e_sequence e) (response_sequence_ e) (next_order_ e) x (stats_ e) (batch e).
Definition set_stats x (e : Engine) : Engine :=
  mkEngine (instruments_ e) (e_books e) (resting_ e) (by_client_ e) (clients_ e) (positions_ e) (epoch_ e)
    (e_sequence e) (response_sequence_ e) (next_order_ e) (next_trade_ e) x (batch e).
Definition set_batch x (e : Engine) : Engine :=
  mkEngine (instruments_ e) (e_books e) (resting_ e) (by_client_ e) (clients_ e) (positions_ e) (epoch_ e)
    (e_sequence e) (response_sequence_ e) (next_order_ e) (next_trade_ e) (stats_ e) x.

(** ** Reports, updates, rejections *)

Definition report (m : Message) (type : ReportType.t) (reason : Reject.t) (e : Engine) : Engine :=
  let seq := u64 (response_sequence_ e + 1) in
  let b := batch e in
  set_batch (mkBatch (reports b ++ [as_report type reason (epoch_ e) seq m]) (updates b))
    (set_counters (e_sequence e) seq e).

Definition update (m : Message) (type : UpdateType.t) (e : Engine) : Engine :=
  let seq := u64 (e_sequence e + 1) in
  let b := batch e in
  set_batch (mkBatch (reports b) (updates b ++ [as_update type (epoch_ e) seq m]))
    (set_counters seq (response_sequence_ e) e).

Definition reject (c : Message) (reason : Reject.t) (e : Engine) : Engine :=
  let s := stats_ e in
  report c ReportType.Rejected reason
    (set_stats (mkStats (st_commands s) (u64 (st_rejected s + 1)) (st_trades s) (st_volume s)) e).

(** An operation on one book that the engine relies on: [require(... == Ok)]. *)
Definition require_book (i : InstrumentId) (op : B -> outcome (ApplyResult * B)) (text : string)
    (e : Engine) : outcome Engine :=
  b ← at_key (e_books e) i;
  '(r, b) ← op b;
  _ ← require (bool_decide (r = Ok)) text;
  Ret (set_books (<[i := b]> (e_books e)) e).

(** [void MatchingEngine::cancel(Batch&, OrderId, std::uint64_t)] *)
Definition cancel (id : OrderId) (request : Z) (e : Engine) : outcome Engine :=
  m ← at_key (resting_ e) id;
  let m := set_remaining 0 (set_request_id request m) in
  e ← require_book (m_instrument_id m) (bk_cancel (mkCancel id)) "Cancel invariant" e;
  let e := update m UpdateType.Cancel e in
  let e := report m ReportType.Cancelled Reject.None e in
  let e := set_by_client (delete (m_client_id m, m_order_id m) (by_client_ e)) e in
  Ret (set_resting (delete id (resting_ e)) e).

Definition position (client : ClientId) (instrument : InstrumentId) (e : Engine) : Position :=
  default position_default (positions_ e !! (client, instrument)).

(** ** [submit], in its stages *)

(** The field checks, in order; [None] lets the command pass. *)
Definition check_fields (r : InstrumentRules) (c : Message) (old_id : OrderId) : option Reject.t :=
  if decide
    ((m_side c <> Bid /\ m_side c <> Ask) \/ m_order_id c = 0 \/
     (m_order_type c <> OrderType.Limit /\ m_order_type c <> OrderType.Market) \/
     (m_tif c <> TimeInForce.GTC /\ m_tif c <> TimeInForce.IOC /\ m_tif c <> TimeInForce.FOK) \/
     (m_order_type c = OrderType.Market /\
      (m_price c <> 0 \/ m_tif c = TimeInForce.GTC \/ m_post_only c = true)) \/
     (m_post_only c = true /\ m_tif c <> TimeInForce.GTC) \/
     (old_id <> 0 /\ (m_order_type c <> OrderType.Limit \/ m_tif c <> TimeInForce.GTC)))
  then Some Reject.InvalidCommand
  else if decide (m_quantity c = 0 \/ m_quantity c mod lot_size r <> 0) then Some Reject.InvalidQuantity
  else if decide (m_order_type c = OrderType.Limit /\
      (m_price c < min_price r \/ max_price r < m_price c \/ m_price c mod tick_size r <> 0))
  then Some Reject.InvalidPrice
  else if decide (max_order_quantity r < m_quantity c) then Some Reject.RiskQuantity
  else if decide (max_notional r <
      u64 ((if decide (m_order_type c = OrderType.Market) then max_price r else m_price c) * m_quantity c))
  then Some Reject.RiskNotional
  else None.

(** The loop over [resting_]: the client's other open orders, and the quantity
    they reserve on this side of this instrument. *)
Definition exposure (c : Message) (old_id : OrderId) (e : Engine) : Z * Z :=
  foldl (fun '(reserved, open) '(id, order) =>
      if decide (id = old_id \/ m_client_id order <> m_client_id c) then (reserved, open)
      else (if decide (m_instrument_id order = m_instrument_id c /\ m_side order = m_side c)
            then reserved + m_quantity order else reserved, open + 1))
    (0, 0) (ordered Z.le (resting_ e)).

(** Everything [submit] checks before it looks at the book. *)
Definition pre_trade (c : Message) (old_id : OrderId) (e : Engine) : outcome (option Reject.t) :=
  match instruments_ e !! m_instrument_id c with
  | None => Ret (Some Reject.UnknownInstrument)
  | Some r =>
    match check_fields r c old_id with
    | Some reason => Ret (Some reason)
    | None =>
      state ← at_key (clients_ e) (m_client_id c);
      if decide (old_id = 0 /\ m_order_id c <= cl_max_order_id state) then Ret (Some Reject.DuplicateOrder)
      else
        let (reserved, open) := exposure c old_id e in
        if decide (max_open_orders r <= open) then Ret (Some Reject.RiskOpenOrders)
        else
          let worst := pos_quantity (position (m_client_id c) (m_instrument_id c) e) +
                       (if decide (m_side c = Bid) then 1 else -1) * (reserved + m_quantity c) in
          if decide (max_position r < Z.abs worst) then Ret (Some Reject.RiskPosition) else Ret None
    end
  end.

(** A replacement at the same price for no more than the old quantity keeps its
    place in the queue. *)
Definition reduce_in_place (c : Message) (old_id : OrderId) (old : Message) (e : Engine) : outcome Engine :=
  let reduction := u32 (m_quantity old - m_quantity c) in
  let m := set_remaining (m_quantity c) (set_exchange_id old_id c) in
  e ← (if decide (reduction <> 0) then
         e ← require_book (m_instrument_id c) (bk_execute (mkExecute old_id reduction)) "Reduce invariant" e;
         Ret (update m UpdateType.Reduce e)
       else Ret e);
  order ← at_key (resting_ e) old_id;
  let e := set_resting (<[old_id := set_quantity (m_quantity c) order]> (resting_ e)) e in
  Ret (report m ReportType.Replaced Reject.None e).

Record Fill := mkFill { fill_id : OrderId; fill_price : Price; fill_size : Quantity }.

Record Plan := mkPlan { planned : list Fill; leaves : Quantity; plan_rejection : Reject.t }.

(** The visitor over the opposite side of the book. *)
Definition plan_visit (c : Message) (e : Engine) (order : OrderView) (p : Plan) : outcome (bool * Plan) :=
  if decide (leaves p = 0 \/ crosses c (ov_price order) = false) then Ret (false, p)
  else if m_post_only c then Ret (false, mkPlan (planned p) (leaves p) Reject.PostOnly)
  else
    maker ← at_key (resting_ e) (ov_id order);
    if decide (m_client_id maker = m_client_id c) then
      Ret (false, mkPlan (planned p) (leaves p) Reject.SelfTrade)
    else
      let size := Z.min (leaves p) (ov_quantity order) in
      let left := u32 (leaves p - size) in
      Ret (bool_decide (left <> 0),
           mkPlan (planned p ++ [mkFill (ov_id order) (ov_price order) size]) left (plan_rejection p)).

Definition opposite (s : Side) : Side := if decide (s = Bid) then Ask else Bid.

(** The remainder of a limit order enters [resting_], the client index and the
    book; if the book has no room everything is taken back. *)
Definition rest_order (h : Heap) (c : Message) (old_id new_id : OrderId) (left : Quantity) (e : Engine)
    : outcome (bool * Engine) :=
  let rest := set_remaining left (set_quantity left (set_remaining (m_quantity c) (set_exchange_id new_id c))) in
  let key := (m_client_id c, m_order_id c) in
  let e := set_resting (emplace new_id rest (resting_ e)) e in
  let e := if decide (old_id = 0) then set_by_client (emplace key new_id (by_client_ e)) e else e in
  b ← at_key (e_books e) (m_instrument_id c);
  '(r, b) ← bk_add h (mkAdd new_id (m_side c) (m_price c) left) b;
  let e := set_books (<[m_instrument_id c := b]> (e_books e)) e in
  if decide (r <> Ok) then
    let e := set_resting (delete new_id (resting_ e)) e in
    Ret (false, if decide (old_id = 0) then set_by_client (delete key (by_client_ e)) e else e)
  else Ret (true, e).

(** The replaced order leaves the book, [resting_] and the client index. *)
Definition retire_old (c : Message) (old_id new_id : OrderId) (rests : bool) (e : Engine) : outcome Engine :=
  if decide (old_id = 0) then Ret e
  else
    let key := (m_client_id c, m_order_id c) in
    old ← at_key (resting_ e) old_id;
    e ← require_book (m_instrument_id c) (bk_cancel (mkCancel old_id)) "Replace invariant" e;
    let e := update old UpdateType.Cancel e in
    let e := set_resting (delete old_id (resting_ e)) e in
    if (rests : bool) then
      _ ← at_key (by_client_ e) key;
      Ret (set_by_client (<[key := new_id]> (by_client_ e)) e)
    else Ret (set_by_client (delete key (by_client_ e)) e).

Definition fill_position (client : ClientId) (i : InstrumentId) (s : Side) (price : Price) (size : Quantity)
    (e : Engine) : outcome Engine :=
  p ← at_key (positions_ e) (client, i);
  Ret (set_positions (<[(client, i) := position_fill s price size p]> (positions_ e)) e).

(** The reports and updates of one fill: the maker's, then the taker's. *)
Definition publish_fill (maker incoming : Message) (taker_leaves : Quantity) (f : Fill) (e : Engine) : Engine :=
  let trade := next_trade_ e in
  let execution := set_trade_id trade (set_remaining (m_quantity maker) (set_quantity (fill_size f) maker)) in
  let e := report execution ReportType.Fill Reject.None e in
  let e := update execution UpdateType.Execute e in
  let taker := set_trade_id trade (set_remaining taker_leaves
                 (set_quantity (fill_size f) (set_price (fill_price f) incoming))) in
  let e := set_next_trade (u64 (trade + 1)) e in
  let e := report taker ReportType.Fill Reject.None e in
  update taker UpdateType.Trade e.

(** A filled order leaves the client index and [resting_]. *)
Definition drop_filled (maker : Message) (id : OrderId) (e : Engine) : Engine :=
  if decide (m_quantity maker = 0) then
    let e := set_by_client (delete (m_client_id maker, m_order_id maker) (by_client_ e)) e in
    set_resting (delete id (resting_ e)) e
  else e.

(** One planned fill: both orders are reported, published and accounted. *)
Definition execute_fill (c incoming : Message) (taker_leaves : Quantity) (f : Fill) (e : Engine)
    : outcome (Quantity * Engine) :=
  maker ← at_key (resting_ e) (fill_id f);
  let maker := set_quantity (u32 (m_quantity maker - fill_size f)) maker in
  let e := set_resting (<[fill_id f := maker]> (resting_ e)) e in
  let taker_leaves := u32 (taker_leaves - fill_size f) in
  e ← require_book (m_instrument_id c) (bk_execute (mkExecute (fill_id f) (fill_size f))) "Fill invariant" e;
  let e := publish_fill maker incoming taker_leaves f e in
  e ← fill_position (m_client_id maker) (m_instrument_id c) (m_side maker) (fill_price f) (fill_size f) e;
  e ← fill_position (m_client_id c) (m_instrument_id c) (m_side c) (fill_price f) (fill_size f) e;
  let e := drop_filled maker (fill_id f) e in
  let s := stats_ e in
  Ret (taker_leaves, set_stats (mkStats (st_commands s) (st_rejected s) (u64 (st_trades s + 1))
                                        (u64 (st_volume s + fill_size f))) e).

Definition execute_fills (c incoming : Message) (taker_leaves : Quantity) (fs : list Fill) (e : Engine)
    : outcome (Quantity * Engine) :=
  foldM (fun st f => execute_fill c incoming st.1 f st.2) (taker_leaves, e) fs.

(** From the accepted plan to the end of [submit]. *)
Definition commit (h : Heap) (c : Message) (old_id : OrderId) (plan : Plan) (e : Engine) : outcome Engine :=
  let left := leaves plan in
  let rests := bool_decide (left <> 0 /\ m_tif c = TimeInForce.GTC /\ m_order_type c = OrderType.Limit) in
  let e := set_positions (emplace (m_client_id c, m_instrument_id c) position_default (positions_ e)) e in
  let new_id := next_order_ e in
  let incoming := set_remaining (m_quantity c) (set_exchange_id new_id c) in
  '(ok, e) ← if (rests : bool) then rest_order h c old_id new_id left e else Ret (true, e);
  if negb ok then Ret (reject c Reject.Capacity e)
  else
    let e := set_next_order (u64 (next_order_ e + 1)) e in
    e ← retire_old c old_id new_id rests e;
    state ← at_key (clients_ e) (m_client_id c);
    let state := mkClient (cl_last_request state) (Z.max (cl_max_order_id state) (m_order_id c))
                   (cl_last_command state) (cl_cached state) in
    let e := set_clients (<[m_client_id c := state]> (clients_ e)) e in
    let e := report incoming (if decide (old_id = 0) then ReportType.Accepted else ReportType.Replaced)
               Reject.None e in
    '(_, e) ← execute_fills c incoming (m_quantity c) (planned plan) e;
    if (rests : bool) then Ret (update (set_remaining left (set_quantity left incoming)) UpdateType.Add e)
    else if decide (left <> 0) then
      Ret (report (set_remaining 0 (set_quantity left incoming)) ReportType.Cancelled Reject.None e)
    else Ret e.

(** The walk over the opposite side, its verdict, and the commit. *)
Definition plan_fills (c : Message) (b : B) (e : Engine) : outcome Plan :=
  bk_visit (plan_visit c e) (opposite (m_side c)) b (mkPlan [] (m_quantity c) Reject.None).

Definition plan_and_commit (h : Heap) (c : Message) (old_id : OrderId) (b : B) (e : Engine) : outcome Engine :=
  plan ← plan_fills c b e;
  if decide (plan_rejection plan <> Reject.None) then Ret (reject c (plan_rejection plan) e)
  else if decide (m_tif c = TimeInForce.FOK /\ leaves plan <> 0) then Ret (reject c Reject.Fok e)
  else commit h c old_id plan e.

(** [void MatchingEngine::submit(Batch&, const Message&, OrderId old_id = 0)] *)
Definition submit (h : Heap) (c : Message) (old_id : OrderId) (e : Engine) : outcome Engine :=
  verdict ← pre_trade c old_id e;
  match verdict with
  | Some reason => Ret (reject c reason e)
  | None =>
    b ← at_key (e_books e) (m_instrument_id c);
    if decide (old_id = 0) then plan_and_commit h c old_id b e
    else
      old ← at_key (resting_ e) old_id;
      if decide (m_instrument_id old <> m_instrument_id c \/ m_side old <> m_side c)
      then Ret (reject c Reject.InvalidCommand e)
      else if decide (m_price old = m_price c /\ m_quantity c <= m_quantity old)
      then reduce_in_place c old_id old e
      else plan_and_commit h c old_id b e
  end.

(** ** [process] *)

Definition last_request (client : ClientId) (e : Engine) : Z :=
  match clients_ e !! client with Some s => cl_last_request s | None => 0 end.

(** The loop of [CancelAll], in the order of the ids. *)
Definition cancel_all (c : Message) (e : Engine) : outcome Engine :=
  let ids := fst <$> filter (fun io => m_client_id io.2 = m_client_id c /\
               (m_instrument_id c = 0 \/ m_instrument_id io.2 = m_instrument_id c))
               (ordered Z.le (resting_ e)) in
  foldM (fun e id => cancel id (m_request_id c) e) e ids.

(** The dispatch on the action of a command in sequence. *)
Definition perform (h : Heap) (c : Message) (e : Engine) : outcome Engine :=
  match m_action c with
  | Action.New => submit h c 0 e
  | Action.Cancel | Action.Replace =>
    match by_client_ e !! (m_client_id c, m_order_id c) with
    | None => Ret (reject c Reject.UnknownOrder e)
    | Some id =>
      order ← at_key (resting_ e) id;
      if decide (m_instrument_id order <> m_instrument_id c) then Ret (reject c Reject.UnknownOrder e)
      else if decide (m_action c = Action.Cancel) then cancel id (m_request_id c) e
      else submit h c id e
    end
  | Action.CancelAll => cancel_all c e
  | _ => Ret (reject c Reject.InvalidCommand e)
  end.

(** The [Complete] report and the client's new state. *)
Definition complete (c : Message) (e : Engine) : outcome Engine :=
  m ← match by_client_ e !! (m_client_id c, m_order_id c) with
      | Some id =>
        order ← at_key (resting_ e) id;
        Ret (set_exchange_id id (set_remaining (m_quantity order) c))
      | None => Ret c
      end;
  let e := report m ReportType.Complete Reject.None e in
  state ← at_key (clients_ e) (m_client_id c);
  let cached := filter (fun m => m_client_id m = m_client_id c) (reports (batch e)) in
  Ret (set_clients (<[m_client_id c :=
    mkClient (m_request_id c) (cl_max_order_id state) c cached]> (clients_ e)) e).

(** [Batch MatchingEngine::process(const Message&)] *)
Definition process (h : Heap) (c : Message) (e : Engine) : outcome (Batch * Engine) :=
  let e := set_batch (mkBatch [] []) e in
  let done (e : Engine) := (batch e, set_batch (mkBatch [] []) e) in
  if decide (m_kind c <> Kind.Command \/ m_action c = Action.Snapshot) then
    Ret (done (reject c Reject.InvalidCommand e))
  else if decide (m_action c = Action.Status) then
    Ret (done (report (set_request_id (last_request (m_client_id c) e) c) ReportType.Status Reject.None e))
  else if decide (m_client_id c = 0 \/ m_request_id c = 0) then
    Ret (done (report c ReportType.Complete Reject.None (reject c Reject.InvalidCommand e)))
  else
    let state := default client_default (clients_ e !! m_client_id c) in
    let e := set_clients (<[m_client_id c := state]> (clients_ e)) e in
    if decide (m_request_id c = cl_last_request state /\ c = cl_last_command state) then
      Ret (done (set_batch (mkBatch (cl_cached state) []) e))
    else if decide (m_request_id c <= cl_last_request state \/
                    u64 (m_request_id c - cl_last_request state) <> 1) then
      Ret (done (report c ReportType.Complete Reject.None (reject c Reject.Sequence e)))
    else
      let s := stats_ e in
      let e := set_stats (mkStats (u64 (st_commands s + 1)) (st_rejected s) (st_trades s) (st_volume s)) e in
      e ← perform h c e;
      e ← complete c e;
      Ret (done e).

(** ** Construction and queries *)

Definition rules_valid (id : InstrumentId) (r : InstrumentRules) : bool :=
  negb (bool_decide (id = 0 \/ tick_size r = 0 \/ lot_size r = 0 \/ min_price r = 0 \/
    max_price r < min_price r \/ max_order_quantity r = 0 \/ max_notional r = 0 \/
    max_position r <= 0 \/ 1000000000000 < max_position r \/ max_open_orders r = 0 \/
    4096 < max_open_orders r)).

(** [MatchingEngine(Instruments, std::uint64_t epoch)]: one book per
    instrument, built in the order of the ids. *)
Definition engine_new (heap : InstrumentId -> Heap) (instruments : Instruments) (epoch : Z) : outcome Engine :=
  if decide (instruments = ∅ \/ epoch = 0) then
    Throw (InvalidArgument "Nonempty instruments/nonzero epoch required")
  else
    books ← foldM (fun books '(id, r) =>
        if rules_valid id r then
          b ← bk_new (heap id) CAPACITY_BYTES;
          Ret (<[id := b]> books)
        else Throw (InvalidArgument "Invalid instrument rules"))
      ∅ (ordered Z.le instruments);
    Ret (mkEngine instruments books ∅ ∅ ∅ ∅ epoch 0 0 1 1 (mkStats 0 0 0 0) (mkBatch [] [])).

(** [std::vector<Message> MatchingEngine::snapshot() const] *)
Definition snapshot_row (e : Engine) (i : InstrumentId) (v : OrderView) : Message :=
  mkMessage Kind.SnapshotOrder Action.New (ov_side v) OrderType.Limit TimeInForce.GTC ReportType.Accepted
    Reject.None UpdateType.Add false (epoch_ e) (e_sequence e) 0 (ov_price v) 0 0 (ov_id v) i
    (ov_quantity v) 0 0.
Definition snapshot_mark (kind : Kind.t) (e : Engine) : Message :=
  mkMessage kind Action.New Bid OrderType.Limit TimeInForce.GTC ReportType.Accepted Reject.None
    UpdateType.Add false (epoch_ e) (e_sequence e) 0 0 0 0 0 0 (u32 (Z.of_nat (size (resting_ e)))) 0 0.

Definition engine_snapshot (e : Engine) : outcome (list Message) :=
  rows ← mapO (fun '(i, b) =>
      levels ← bk_snapshot b;
      Ret (snapshot_row e i <$> (levels ≫= lv_orders))) (ordered Z.le (e_books e));
  Ret (snapshot_mark Kind.SnapshotBegin e :: concat rows ++ [snapshot_mark Kind.SnapshotEnd e]).

(** [bool MatchingEngine::validate_invariants(std::string* reason) const] *)
Definition check_owner (e : Engine) (i : InstrumentId) (v : OrderView) : option string :=
  match resting_ e !! ov_id v with
  | None => Some "Missing owner metadata"
  | Some m =>
    if decide (m_instrument_id m <> i \/ m_side m <> ov_side v \/ m_price m <> ov_price v \/
               m_quantity m <> ov_quantity v) then Some "Book/owner mismatch"
    else match by_client_ e !! (m_client_id m, m_order_id m) with
         | None => Some "Client index mismatch"
         | Some id => if decide (id <> ov_id v) then Some "Client index mismatch" else None
         end
  end.

Fixpoint first_some {A} (f : A -> option string) (l : list A) : option string :=
  match l with
  | [] => None
  | x :: l => match f x with Some e => Some e | None => first_some f l end
  end.

Fixpoint check_books (e : Engine) (books : list (InstrumentId * B)) (count : nat) : outcome (string + nat) :=
  match books with
  | [] => Ret (inr count)
  | (i, b) :: books =>
    bad ← bk_validate b;
    match bad with
    | Some reason => Ret (inl reason)
    | None =>
      let crossed := match bk_best Bid b, bk_best Ask b with
                     | Some bid, Some ask => bool_decide (ask <= bid)
                     | _, _ => false
                     end in
      if (crossed : bool) then Ret (inl "Crossed book")
      else
        levels ← bk_snapshot b;
        match first_some (check_owner e i) (levels ≫= lv_orders) with
        | Some reason => Ret (inl reason)
        | None => check_books e books (count + bk_count b)
        end
    end
  end.

(** The sums of [positions_] per instrument; the cash in floating point, in
    the order of the keys. *)
Definition key_le : relation (ClientId * InstrumentId) :=
  fun a b => a.1 < b.1 \/ (a.1 = b.1 /\ a.2 <= b.2).

#[export] Instance key_le_dec : RelDecision key_le.
Proof. intros a b. unfold key_le. apply _. Defined.

Definition net_positions (ps : list ((ClientId * InstrumentId) * Position))
    : gmap InstrumentId (Z * LongDouble) :=
  foldl (fun acc '((_, i), p) =>
      let (q, cash) := default (0, ld_zero) (acc !! i) in
      <[i := (q + pos_quantity p, ld_add cash (pos_cash p))]> acc) ∅ ps.

Definition engine_validate (e : Engine) : outcome (option string) :=
  r ← check_books e (ordered Z.le (e_books e)) 0;
  match r with
  | inl reason => Ret (Some reason)
  | inr count =>
    if decide (count <> size (resting_ e) \/ count <> size (by_client_ e)) then
      Ret (Some "Order counts mismatch")
    else
      let totals := net_positions (merge_sort (fun a b => key_le a.1 b.1) (map_to_list (positions_ e))) in
      match filter (fun kv => kv.2.1 <> 0 \/ ld_eqb kv.2.2 ld_zero = false) (ordered Z.le totals) with
      | [] => Ret None
      | _ => Ret (Some "Position/cash conservation")
      end
  end.
End engine.
Arguments Engine : clear implicits.
