(* ===== verification/EngineFields.v ===== *)
(** * The fields of an updated engine

    Each setter of Engine.v, by the fields of its result, and the tactic that
    replaces an updated engine by a name known through its fields alone: the
    engine is threaded through long compositions, and a proof about one field
    must not unfold the others. *)
From S2P Require Import Prelude StdMap Types Messages Position BookInterface Engine.

Section fields.
Context {B : Type}.
Implicit Types (e : Engine B).

(** All the fields of an engine. *)
Definition fields_are e I bks R byc cl P ep sq rs no nt st ba : Prop :=
  instruments_ e = I /\ e_books e = bks /\ resting_ e = R /\ by_client_ e = byc /\
  clients_ e = cl /\ positions_ e = P /\ epoch_ e = ep /\ e_sequence e = sq /\
  response_sequence_ e = rs /\ next_order_ e = no /\ next_trade_ e = nt /\ stats_ e = st /\
  batch e = ba.

Lemma set_books_fields x e :
  fields_are (set_books x e)
    (instruments_ e) x (resting_ e) (by_client_ e) (clients_ e) (positions_ e) (epoch_ e)
    (e_sequence e) (response_sequence_ e) (next_order_ e) (next_trade_ e) (stats_ e) (batch e).
Proof. by split_and!. Qed.
Lemma set_resting_fields x e :
  fields_are (set_resting x e)
    (instruments_ e) (e_books e) x (by_client_ e) (clients_ e) (positions_ e) (epoch_ e) (e_sequence
    e) (response_sequence_ e) (next_order_ e) (next_trade_ e) (stats_ e) (batch e).
Proof. by split_and!. Qed.
Lemma set_by_client_fields x e :
  fields_are (set_by_client x e)
    (instruments_ e) (e_books e) (resting_ e) x (clients_ e) (positions_ e) (epoch_ e) (e_sequence
    e) (response_sequence_ e) (next_order_ e) (next_trade_ e) (stats_ e) (batch e).
Proof. by split_and!. Qed.
Lemma set_clients_fields x e :
  fields_are (set_clients x e)
    (instruments_ e) (e_books e) (resting_ e) (by_client_ e) x (positions_ e) (epoch_ e) (e_sequence
    e) (response_sequence_ e) (next_order_ e) (next_trade_ e) (stats_ e) (batch e).
Proof. by split_and!. Qed.
Lemma set_positions_fields x e :
  fields_are (set_positions x e)
    (instruments_ e) (e_books e) (resting_ e) (by_client_ e) (clients_ e) x (epoch_ e) (e_sequence
    e) (response_sequence_ e) (next_order_ e) (next_trade_ e) (stats_ e) (batch e).
Proof. by split_and!. Qed.
Lemma set_next_order_fields x e :
  fields_are (set_next_order x e)
    (instruments_ e) (e_books e) (resting_ e) (by_client_ e) (clients_ e) (positions_ e) (epoch_ e)
    (e_sequence e) (response_sequence_ e) x (next_trade_ e) (stats_ e) (batch e).
Proof. by split_and!. Qed.
Lemma set_next_trade_fields x e :
  fields_are (set_next_trade x e)
    (instruments_ e) (e_books e) (resting_ e) (by_client_ e) (clients_ e) (positions_ e) (epoch_ e)
    (e_sequence e) (response_sequence_ e) (next_order_ e) x (stats_ e) (batch e).
Proof. by split_and!. Qed.
Lemma set_stats_fields x e :
  fields_are (set_stats x e)
    (instruments_ e) (e_books e) (resting_ e) (by_client_ e) (clients_ e) (positions_ e) (epoch_ e)
    (e_sequence e) (response_sequence_ e) (next_order_ e) (next_trade_ e) x (batch e).
Proof. by split_and!. Qed.
Lemma set_batch_fields x e :
  fields_are (set_batch x e)
    (instruments_ e) (e_books e) (resting_ e) (by_client_ e) (clients_ e) (positions_ e) (epoch_ e)
    (e_sequence e) (response_sequence_ e) (next_order_ e) (next_trade_ e) (stats_ e) x.
Proof. by split_and!. Qed.
Lemma report_fields m t r e :
  fields_are (report m t r e)
    (instruments_ e) (e_books e) (resting_ e) (by_client_ e) (clients_ e) (positions_ e) (epoch_ e)
    (e_sequence e) (u64 (response_sequence_ e + 1)) (next_order_ e) (next_trade_ e) (stats_ e)
    (mkBatch (reports (batch e) ++ [as_report t r (epoch_ e) (u64 (response_sequence_ e + 1)) m])
    (updates (batch e))).
Proof. by split_and!. Qed.
Lemma update_fields m t e :
  fields_are (update m t e)
    (instruments_ e) (e_books e) (resting_ e) (by_client_ e) (clients_ e) (positions_ e) (epoch_ e)
    (u64 (e_sequence e + 1)) (response_sequence_ e) (next_order_ e) (next_trade_ e) (stats_ e)
    (mkBatch (reports (batch e)) (updates (batch e) ++ [as_update t (epoch_ e) (u64 (e_sequence e +
    1)) m])).
Proof. by split_and!. Qed.

End fields.

(** [abstract_state e as e']: a new name for an updated engine, known by its
    fields only; [fields] rewrites with what is known. *)
Ltac abstract_with L e e' :=
  let H := fresh "Hfields" in let E := fresh "E" in
  pose proof L as H; remember e as e' eqn:E in *; clear E;
  destruct H as (?&?&?&?&?&?&?&?&?&?&?&?&?).

Tactic Notation "abstract_state" constr(e) "as" ident(e') :=
  lazymatch e with
  | set_books ?x ?e0 => abstract_with (set_books_fields x e0) e e'
  | set_resting ?x ?e0 => abstract_with (set_resting_fields x e0) e e'
  | set_by_client ?x ?e0 => abstract_with (set_by_client_fields x e0) e e'
  | set_clients ?x ?e0 => abstract_with (set_clients_fields x e0) e e'
  | set_positions ?x ?e0 => abstract_with (set_positions_fields x e0) e e'
  | set_next_order ?x ?e0 => abstract_with (set_next_order_fields x e0) e e'
  | set_next_trade ?x ?e0 => abstract_with (set_next_trade_fields x e0) e e'
  | set_stats ?x ?e0 => abstract_with (set_stats_fields x e0) e e'
  | set_batch ?x ?e0 => abstract_with (set_batch_fields x e0) e e'
  | report ?m ?t ?r ?e0 => abstract_with (report_fields m t r e0) e e'
  | update ?m ?t ?e0 => abstract_with (update_fields m t e0) e e'
  end.

Ltac fields := repeat match goal with
  | H : instruments_ ?e = _ |- context [instruments_ ?e] => rewrite H
  | H : e_books ?e = _ |- context [e_books ?e] => rewrite H
  | H : resting_ ?e = _ |- context [resting_ ?e] => rewrite H
  | H : by_client_ ?e = _ |- context [by_client_ ?e] => rewrite H
  | H : clients_ ?e = _ |- context [clients_ ?e] => rewrite H
  | H : positions_ ?e = _ |- context [positions_ ?e] => rewrite H
  | H : epoch_ ?e = _ |- context [epoch_ ?e] => rewrite H
  | H : e_sequence ?e = _ |- context [e_sequence ?e] => rewrite H
  | H : response_sequence_ ?e = _ |- context [response_sequence_ ?e] => rewrite H
  | H : next_order_ ?e = _ |- context [next_order_ ?e] => rewrite H
  | H : next_trade_ ?e = _ |- context [next_trade_ ?e] => rewrite H
  | H : stats_ ?e = _ |- context [stats_ ?e] => rewrite H
  | H : batch ?e = _ |- context [batch ?e] => rewrite H
  end.
