(* ===== verification/EngineSequence.v ===== *)
(** * The numbering of reports and updates

    Both streams carry consecutive sequence numbers and the engine's epoch,
    whatever happens to the maps: a property of every stage, proved without the
    invariant by inverting each stage's composition. *)
From S2P Require Import Prelude StdMap Types Messages Position LOB OrderBook Pool BookInterface.
From S2P Require Import Engine EngineFields.

(** [numbered k ep s l s']: the messages of [l] are of kind [k] and stamped with
    the epoch [ep] and the numbers after [s], the last being [s']. *)
Fixpoint numbered (k : Kind.t) (ep s : Z) (l : list Message) (s' : Z) : Prop :=
  match l with
  | [] => s' = s
  | m :: l => (m_kind m = k /\ m_epoch m = ep) /\ m_sequence m = u64 (s + 1) /\ numbered k ep (u64 (s + 1)) l s'
  end.

Lemma numbered_app k ep s l1 s1 l2 s2 :
  numbered k ep s l1 s1 -> numbered k ep s1 l2 s2 -> numbered k ep s (l1 ++ l2) s2.
Proof. revert s. induction l1 as [|m l1 IH]; intros s; simpl; [by intros ->|]. naive_solver. Qed.

(** Numbers in full: from [s], [length l] of them, modulo 2^64. *)
Lemma numbered_sequences k ep s l s' :
  is_u64 s -> numbered k ep s l s' ->
  m_sequence <$> l = (fun k => u64 (s + Z.of_nat k)) <$> seq 1 (length l) /\
  s' = u64 (s + Z.of_nat (length l)) /\ Forall (fun m => m_kind m = k /\ m_epoch m = ep) l.
Proof.
  revert s. induction l as [|m l IH]; intros s Hs; csimpl.
  - intros ->. rewrite Z.add_0_r, u64_small by done. by split_and!.
  - intros (He & Hm & Hl). destruct (IH _ (u64_range _) Hl) as (H1 & H2 & H3). split_and!.
    + f_equal; [by rewrite Hm|]. rewrite H1, <- (fmap_S_seq 1), <- list_fmap_compose.
      apply list_fmap_ext. intros i x _. simpl. rewrite u64_add_l. f_equal. lia.
    + rewrite H2, u64_add_l. f_equal. lia.
    + by constructor.
Qed.

Lemma as_report_stamp t r ep sq m :
  (m_kind (as_report t r ep sq m) = Kind.Report /\ m_epoch (as_report t r ep sq m) = ep) /\
  m_sequence (as_report t r ep sq m) = sq.
Proof. by destruct m. Qed.
Lemma as_update_stamp t ep sq m :
  (m_kind (as_update t ep sq m) = Kind.Delta /\ m_epoch (as_update t ep sq m) = ep) /\
  m_sequence (as_update t ep sq m) = sq.
Proof. by destruct m. Qed.

Section sequence.
Context {B : Type} {Bops : BookOps B}.
Implicit Types (e : Engine B).

(** What a stage adds to the batch. *)
Definition emits e e' : Prop :=
  epoch_ e' = epoch_ e /\
  (exists rs, reports (batch e') = reports (batch e) ++ rs /\
     numbered Kind.Report (epoch_ e) (response_sequence_ e) rs (response_sequence_ e')) /\
  (exists us, updates (batch e') = updates (batch e) ++ us /\
     numbered Kind.Delta (epoch_ e) (e_sequence e) us (e_sequence e')).

Lemma emits_quiet e e' :
  epoch_ e' = epoch_ e -> batch e' = batch e -> response_sequence_ e' = response_sequence_ e ->
  e_sequence e' = e_sequence e -> emits e e'.
Proof.
  intros He Hb Hr Hs. split; [done|]. rewrite Hb, Hr, Hs. split; exists []; by rewrite app_nil_r.
Qed.

#[export] Instance emits_refl : Reflexive emits.
Proof. intros e. by apply emits_quiet. Qed.

#[export] Instance emits_trans : Transitive emits.
Proof.
  intros e1 e2 e3 (E1 & (rs1 & R1 & N1) & (us1 & U1 & M1)) (E2 & (rs2 & R2 & N2) & (us2 & U2 & M2)).
  split; [congruence|]. rewrite E1 in N2, M2. split.
  - exists (rs1 ++ rs2). rewrite R2, R1, app_assoc. split; [done|]. by eapply numbered_app.
  - exists (us1 ++ us2). rewrite U2, U1, app_assoc. split; [done|]. by eapply numbered_app.
Qed.

Lemma emits_report m t r e : emits e (report m t r e).
Proof.
  destruct (as_report_stamp t r (epoch_ e) (u64 (response_sequence_ e + 1)) m) as [S1 S2].
  destruct (report_fields m t r e) as (_&_&_&_&_&_&He&Hs&Hr&_&_&_&Hb).
  split; [done|]. rewrite Hs, Hr, Hb. split; [eexists [_]|exists []; by rewrite app_nil_r]. split; [done|]. simpl. tauto.
Qed.

Lemma emits_update m t e : emits e (update m t e).
Proof.
  destruct (as_update_stamp t (epoch_ e) (u64 (e_sequence e + 1)) m) as [S1 S2].
  destruct (update_fields m t e) as (_&_&_&_&_&_&He&Hs&Hr&_&_&_&Hb).
  split; [done|]. rewrite Hs, Hr, Hb. split; [exists []; by rewrite app_nil_r|eexists [_]]. split; [done|]. simpl. tauto.
Qed.

(** ** Closing the goals [emits e (f (g (... e)))] *)

Lemma emits_set_books x e : emits e (set_books x e). Proof. by apply emits_quiet. Qed.
Lemma emits_set_resting x e : emits e (set_resting x e). Proof. by apply emits_quiet. Qed.
Lemma emits_set_by_client x e : emits e (set_by_client x e). Proof. by apply emits_quiet. Qed.
Lemma emits_set_clients x e : emits e (set_clients x e). Proof. by apply emits_quiet. Qed.
Lemma emits_set_positions x e : emits e (set_positions x e). Proof. by apply emits_quiet. Qed.
Lemma emits_set_next_order x e : emits e (set_next_order x e). Proof. by apply emits_quiet. Qed.
Lemma emits_set_next_trade x e : emits e (set_next_trade x e). Proof. by apply emits_quiet. Qed.
Lemma emits_set_stats x e : emits e (set_stats x e). Proof. by apply emits_quiet. Qed.

End sequence.

Create HintDb emits discriminated.
#[export] Hint Resolve emits_report emits_update emits_set_books emits_set_resting emits_set_by_client
  emits_set_clients emits_set_positions emits_set_next_order emits_set_next_trade emits_set_stats : emits.

(** Peels the outermost operation off the later state. *)
Ltac emits_step := first
  [ reflexivity | assumption
  | match goal with
    | |- emits _ (match ?b with _ => _ end) => destruct b
    | |- emits _ (?f _ ?e) => transitivity e; [|solve [auto with emits]]
    | |- emits _ (?f _ _ ?e) => transitivity e; [|solve [auto with emits]]
    | |- emits _ (?f _ _ _ ?e) => transitivity e; [|solve [auto with emits]]
    end ].
Ltac emits_solve := repeat emits_step.

Section stages.
Context {B : Type} {Bops : BookOps B}.
Implicit Types (e : Engine B).

Lemma emits_reject c r e : emits e (reject c r e).
Proof. unfold reject. cbv zeta. emits_solve. Qed.

Lemma emits_require_book i op text e e' : require_book i op text e = Ret e' -> emits e e'.
Proof.
  unfold require_book. intros (b & _ & ([r b'] & _ & ([] & _ & [= <-])%bind_Ret_inv)%bind_Ret_inv)%bind_Ret_inv.
  emits_solve.
Qed.

Lemma emits_cancel id rq e e' : cancel id rq e = Ret e' -> emits e e'.
Proof.
  unfold cancel. intros (m & _ & (e1 & H1%emits_require_book & [= <-])%bind_Ret_inv)%bind_Ret_inv. cbv zeta.
  emits_solve.
Qed.

Lemma emits_reduce c id old e e' : reduce_in_place c id old e = Ret e' -> emits e e'.
Proof.
  unfold reduce_in_place. intros (e1 & H1 & (m & _ & [= <-])%bind_Ret_inv)%bind_Ret_inv. cbv zeta.
  assert (emits e e1); [|emits_solve]. revert H1. case_decide; [|by intros [= <-]].
  intros (e2 & H2%emits_require_book & [= <-])%bind_Ret_inv. emits_solve.
Qed.

Lemma emits_fill_position c i s px q e e' : fill_position c i s px q e = Ret e' -> emits e e'.
Proof. unfold fill_position. intros (p & _ & [= <-])%bind_Ret_inv. emits_solve. Qed.

Lemma emits_publish mk inc l f e : emits e (publish_fill mk inc l f e).
Proof. unfold publish_fill. cbv zeta. emits_solve. Qed.

Lemma emits_drop mk id e : emits e (drop_filled mk id e).
Proof. unfold drop_filled. cbv zeta. case_decide; emits_solve. Qed.

Lemma emits_execute_fill c inc tl f e r : execute_fill c inc tl f e = Ret r -> emits e r.2.
Proof.
  unfold execute_fill. intros (m & _ & H)%bind_Ret_inv. cbv zeta in H.
  apply bind_Ret_inv in H as (e1 & H1%emits_require_book & H).
  apply bind_Ret_inv in H as (e2 & H2%emits_fill_position & H).
  apply bind_Ret_inv in H as (e3 & H3%emits_fill_position & [= <-]). simpl.
  pose proof (emits_publish (set_quantity (u32 (m_quantity m - fill_size f)) m) inc (u32 (tl - fill_size f)) f e1) as H4.
  pose proof (emits_drop (set_quantity (u32 (m_quantity m - fill_size f)) m) (fill_id f) e3) as H5.
  etransitivity; [|apply emits_set_stats]. etransitivity; [|exact H5].
  etransitivity; [|exact H3]. etransitivity; [|exact H2]. etransitivity; [|exact H4].
  etransitivity; [|exact H1]. emits_solve.
Qed.

Lemma emits_fills c inc fs : forall tl e r, execute_fills c inc tl fs e = Ret r -> emits e r.2.
Proof.
  unfold execute_fills. induction fs as [|f fs IH]; intros tl e r; cbn [foldM].
  - by intros [= <-].
  - intros ([tl1 e1] & H1%emits_execute_fill & H2%IH)%bind_Ret_inv. simpl in *. by transitivity e1.
Qed.

Lemma emits_rest_order h c old id left e r : rest_order h c old id left e = Ret r -> emits e r.2.
Proof.
  unfold rest_order. cbv zeta. intros (b & _ & ([res b'] & _ & H)%bind_Ret_inv)%bind_Ret_inv. revert H.
  case_decide; intros [= <-]; simpl; case_decide; emits_solve.
Qed.

Lemma emits_retire c old id rests e e' : retire_old c old id rests e = Ret e' -> emits e e'.
Proof.
  unfold retire_old. case_decide; [by intros [= <-]|]. cbv zeta.
  intros (m & _ & (e1 & H1%emits_require_book & K)%bind_Ret_inv)%bind_Ret_inv. revert K.
  destruct rests; [intros (x & _ & [= <-])%bind_Ret_inv|intros [= <-]]; emits_solve.
Qed.

Lemma emits_commit h c old p e e' : commit h c old p e = Ret e' -> emits e e'.
Proof.
  unfold commit. cbv zeta. intros ([ok e1] & H1 & H)%bind_Ret_inv.
  assert (emits e e1) as E1.
  { revert H1. destruct (bool_decide _); [intros H1%emits_rest_order|intros [= _ <-]]; simpl in *;
      [etransitivity; [|exact H1]|]; emits_solve. }
  clear H1. revert H. destruct ok; cbn [negb]; [|intros [= <-]; etransitivity; [exact E1|apply emits_reject]].
  intros (e2 & H2%emits_retire & (st & _ & ([tl e3] & H3%emits_fills & H)%bind_Ret_inv)%bind_Ret_inv)%bind_Ret_inv.
  simpl in H3. assert (emits e e3) as E3.
  { etransitivity; [exact E1|]. etransitivity; [|exact H3]. etransitivity; [|apply emits_report].
    etransitivity; [|apply emits_set_clients]. etransitivity; [|exact H2]. emits_solve. }
  revert H. destruct (bool_decide _); [intros [= <-]|destruct (decide (leaves p <> 0)); intros [= <-]];
    (etransitivity; [exact E3|]); auto with emits; reflexivity.
Qed.

Lemma emits_plan_and_commit h c old b e e' : plan_and_commit h c old b e = Ret e' -> emits e e'.
Proof.
  unfold plan_and_commit. intros (p & _ & H)%bind_Ret_inv. revert H.
  case_decide; [intros [= <-]; apply emits_reject|]. case_decide; [intros [= <-]; apply emits_reject|].
  apply emits_commit.
Qed.

Lemma emits_submit h c old e e' : submit h c old e = Ret e' -> emits e e'.
Proof.
  unfold submit. intros ([r|] & _ & H)%bind_Ret_inv; [injection H as <-; apply emits_reject|].
  apply bind_Ret_inv in H as (b & _ & H). revert H. case_decide; [apply emits_plan_and_commit|].
  intros (m & _ & K)%bind_Ret_inv. revert K. case_decide; [intros [= <-]; apply emits_reject|].
  case_decide; [apply emits_reduce|apply emits_plan_and_commit].
Qed.

Lemma emits_cancel_all c e e' : cancel_all c e = Ret e' -> emits e e'.
Proof.
  unfold cancel_all. generalize (fst <$> filter (fun io => m_client_id io.2 = m_client_id c /\
    (m_instrument_id c = 0 \/ m_instrument_id io.2 = m_instrument_id c)) (ordered Z.le (resting_ e))).
  intros ids. revert e. induction ids as [|id ids IH]; intros e; cbn [foldM]; [by intros [= <-]|].
  intros (e1 & H1%emits_cancel & H2%IH)%bind_Ret_inv. by transitivity e1.
Qed.

Lemma emits_perform h c e e' : perform h c e = Ret e' -> emits e e'.
Proof.
  assert (match by_client_ e !! (m_client_id c, m_order_id c) with
    | None => Ret (reject c Reject.UnknownOrder e)
    | Some id =>
      order ← at_key (resting_ e) id;
      if decide (m_instrument_id order <> m_instrument_id c) then Ret (reject c Reject.UnknownOrder e)
      else if decide (m_action c = Action.Cancel) then cancel id (m_request_id c) e
      else submit h c id e
    end = Ret e' -> emits e e') as Hfind.
  { destruct (by_client_ e !! _) as [id|]; [|intros [= <-]; apply emits_reject].
    intros (m & _ & H)%bind_Ret_inv. revert H. case_decide; [intros [= <-]; apply emits_reject|].
    case_decide; [apply emits_cancel|apply emits_submit]. }
  unfold perform. destruct (m_action c); try exact Hfind; try (intros [= <-]; apply emits_reject).
  - apply emits_submit.
  - apply emits_cancel_all.
Qed.

Lemma emits_complete c e e' : complete c e = Ret e' -> emits e e'.
Proof.
  unfold complete. intros (m & _ & H)%bind_Ret_inv. cbv zeta in H.
  apply bind_Ret_inv in H as (st & _ & [= <-]). emits_solve.
Qed.

(** A batch from an engine whose batch was empty. *)
Lemma emits_from_empty e e0 e1 :
  emits e0 e1 -> batch e0 = mkBatch [] [] -> epoch_ e0 = epoch_ e ->
  response_sequence_ e0 = response_sequence_ e -> e_sequence e0 = e_sequence e ->
  epoch_ e1 = epoch_ e /\ numbered Kind.Delta (epoch_ e) (e_sequence e) (updates (batch e1)) (e_sequence e1) /\
  numbered Kind.Report (epoch_ e) (response_sequence_ e) (reports (batch e1)) (response_sequence_ e1).
Proof.
  intros (He & (rs & Hr & Nr) & (us & Hu & Nu)) Hb He0 Hr0 Hs0. rewrite Hb in Hr, Hu. simpl in Hr, Hu.
  rewrite He0, Hr0 in Nr. rewrite He0, Hs0 in Nu. rewrite Hr, Hu. split; [congruence|done].
Qed.

(** One command: its updates and reports, unless the reports are old ones. *)
Lemma process_numbered h c e b e' :
  process h c e = Ret (b, e') ->
  epoch_ e' = epoch_ e /\
  numbered Kind.Delta (epoch_ e) (e_sequence e) (updates b) (e_sequence e') /\
  (numbered Kind.Report (epoch_ e) (response_sequence_ e) (reports b) (response_sequence_ e') \/
   exists st, clients_ e' !! m_client_id c = Some st /\ reports b = cl_cached st /\ updates b = [] /\
     m_request_id c = cl_last_request st /\ c = cl_last_command st /\
     response_sequence_ e' = response_sequence_ e).
Proof.
  unfold process. cbv zeta. set (e0 := set_batch (mkBatch [] []) e).
  assert (forall e1, emits e0 e1 -> Ret (batch e1, set_batch (mkBatch [] []) e1) = Ret (b, e') ->
    epoch_ e' = epoch_ e /\ numbered Kind.Delta (epoch_ e) (e_sequence e) (updates b) (e_sequence e') /\
    numbered Kind.Report (epoch_ e) (response_sequence_ e) (reports b) (response_sequence_ e')) as Hgo.
  { intros e1 He [= <- <-]. by apply (emits_from_empty e e0 e1 He). }
  case_decide; [intros K; destruct (Hgo _ (emits_reject _ _ _) K) as (?&?&?); auto|].
  case_decide; [intros K; destruct (Hgo _ (emits_report _ _ _ _) K) as (?&?&?); auto|].
  case_decide; [intros K; edestruct Hgo as (?&?&?); [|exact K|auto]|].
  { etransitivity; [|apply emits_report]. apply emits_reject. }
  set (st := default _ _). set (e1 := set_clients _ e0).
  assert (emits e0 e1) as K1 by apply emits_set_clients.
  case_decide as Hret.
  { destruct Hret as [Hq Hc]. intros [= <- <-]. split; [done|]. split; [done|].
    right. exists st. cbn [clients_ set_clients set_batch e1]. by rewrite lookup_insert_eq. }
  case_decide; [intros K; edestruct Hgo as (?&?&?); [|exact K|auto]|].
  { etransitivity; [exact K1|]. etransitivity; [|apply emits_report]. apply emits_reject. }
  intros (e2 & K2%emits_perform & (e3 & K3%emits_complete & K)%bind_Ret_inv)%bind_Ret_inv.
  edestruct Hgo as (?&?&?); [|exact K|auto].
  etransitivity; [exact K1|]. etransitivity; [|exact K3]. etransitivity; [|exact K2]. apply emits_set_stats.
Qed.

(** The updates and the reports of a batch, numbered on from an engine. *)
Definition numbered_updates e (b : Batch) e' : Prop :=
  Forall (fun m => m_kind m = Kind.Delta /\ m_epoch m = epoch_ e) (updates b) /\
  m_sequence <$> updates b = (fun k => u64 (e_sequence e + Z.of_nat k)) <$> seq 1 (length (updates b)) /\
  e_sequence e' = u64 (e_sequence e + Z.of_nat (length (updates b))).
Definition numbered_reports e (b : Batch) e' : Prop :=
  Forall (fun m => m_kind m = Kind.Report /\ m_epoch m = epoch_ e) (reports b) /\
  m_sequence <$> reports b = (fun k => u64 (response_sequence_ e + Z.of_nat k)) <$> seq 1 (length (reports b)) /\
  response_sequence_ e' = u64 (response_sequence_ e + Z.of_nat (length (reports b))).

(** C6: Updates and reports are numbered without gaps: the updates of a batch
    are deltas that carry the engine's epoch and the numbers that follow its
    sequence, modulo 2^64, and so do its reports with the response sequence,
    except in the answer to a retry, which repeats old reports and leaves both
    counters. *)
Theorem process_sequences h c e b e' :
  process h c e = Ret (b, e') -> is_u64 (e_sequence e) -> is_u64 (response_sequence_ e) ->
  epoch_ e' = epoch_ e /\ numbered_updates e b e' /\
  (numbered_reports e b e' \/
   exists st, clients_ e' !! m_client_id c = Some st /\ reports b = cl_cached st /\ updates b = [] /\
     m_request_id c = cl_last_request st /\ c = cl_last_command st /\
     response_sequence_ e' = response_sequence_ e).
Proof.
  intros H Hs Hr. destruct (process_numbered h c e b e' H) as (He & Hu & Hrep). split; [done|].
  destruct (numbered_sequences _ _ _ _ _ Hs Hu) as (? & ? & ?). split; [by split_and!|].
  destruct Hrep as [Hrep|?]; [left|by right].
  destruct (numbered_sequences _ _ _ _ _ Hr Hrep) as (? & ? & ?). by split_and!.
Qed.
End stages.
