(* ===== verification/EngineInv.v ===== *)
(** * The invariant of the matching engine

    What the engine's maps promise each other: the books and [resting_], the
    client index, the ids, the clients' watermarks, the positions and the risk
    limits.  Stated on the maps, so that each stage of a command is a step from
    maps to maps. *)
From S2P Require Import Prelude StdMap Types Messages Position LOB Market OrderBook Pool BookInterface.
From S2P Require Import Registry Engine.

(** The order the book should show for a resting message. *)
Definition rest_view (id : OrderId) (m : Message) : OrderView :=
  mkView id (m_side m) (m_price m) (m_quantity m).

Abbreviation Restings := (gmap OrderId Message) (only parsing).
Abbreviation Index := (gmap (ClientId * OrderId) OrderId) (only parsing).
Abbreviation Positions := (gmap (ClientId * InstrumentId) Position) (only parsing).

(** The book of instrument [i] shows exactly the resting orders of [i]. *)
Definition book_matches (l : LOB) (i : InstrumentId) (R : Restings) : Prop :=
  forall v, v ∈ lob_orders l <->
    exists m, R !! ov_id v = Some m /\ m_instrument_id m = i /\ rest_view (ov_id v) m = v.

(** The client index is the inverse of [resting_]. *)
Definition index_ok (R : Restings) (byc : Index) : Prop :=
  forall c o id, byc !! (c, o) = Some id <->
    exists m, R !! id = Some m /\ m_client_id m = c /\ m_order_id m = o.

Definition quantity_of (P : Positions) (c : ClientId) (i : InstrumentId) : Z :=
  pos_quantity (default position_default (P !! (c, i))).

(** What a client has open on one side of one instrument. *)
Definition open_of (c : ClientId) (i : InstrumentId) (s : Side) (_ : OrderId) (m : Message) : Z :=
  if decide (m_client_id m = c /\ m_instrument_id m = i /\ m_side m = s) then m_quantity m else 0.
Definition open_quantity (R : Restings) c i s : Z := map_sum (open_of c i s) R.

Definition net_of (i : InstrumentId) (k : ClientId * InstrumentId) (p : Position) : Z :=
  if decide (k.2 = i) then pos_quantity p else 0.
Definition net_position (P : Positions) (i : InstrumentId) : Z := map_sum (net_of i) P.

(** A quantity a client still has in flight. *)
Record Flight := mkFlight { fl_client : ClientId; fl_instrument : InstrumentId; fl_side : Side; fl_size : Z }.
Definition in_flight (f : Flight) c i s : Z :=
  if decide (fl_client f = c /\ fl_instrument f = i /\ fl_side f = s) then fl_size f else 0.

(** Even if every open order filled, no position would pass its limit. *)
Definition limits_ok (I : Instruments) (R : Restings) (P : Positions) (f : Flight) : Prop :=
  forall c i r, I !! i = Some r ->
    quantity_of P c i + open_quantity R c i Bid + in_flight f c i Bid <= max_position r /\
    - max_position r <= quantity_of P c i - open_quantity R c i Ask - in_flight f c i Ask.

Definition grounded : Flight := mkFlight 0 0 Bid 0.

Lemma in_flight_grounded c i s : in_flight grounded c i s = 0.
Proof. unfold in_flight. by case_decide. Qed.

(** Rules the constructor accepts, in the ranges of their C++ types. *)
Record rules_ok (i : InstrumentId) (r : InstrumentRules) : Prop := {
  ro_valid : rules_valid i r = true;
  ro_tick : is_u32 (tick_size r);
  ro_lot : is_u32 (lot_size r);
  ro_min : is_u32 (min_price r);
  ro_max : is_u32 (max_price r);
  ro_quantity : is_u32 (max_order_quantity r);
  ro_notional : is_u64 (max_notional r)
}.

Section inv.
Context {B : Type} `{!BookOps B} `{!BookLaws B}.
Implicit Types (books : gmap InstrumentId B) (R : Restings) (I : Instruments) (b : B) (e : Engine B).

(** The abstract book of an instrument. *)
Definition market books (i : InstrumentId) : LOB := default lob_empty (bk_abs <$> books !! i).

Record books_ok I books R : Prop := {
  bo_dom i : is_Some (books !! i) <-> is_Some (I !! i);
  bo_wf : books_wf books;
  bo_match i b : books !! i = Some b -> book_matches (bk_abs b) i R;
  bo_home id m : R !! id = Some m -> is_Some (books !! m_instrument_id m)
}.

Record clients_ok R (cl : gmap ClientId ClientState) : Prop := {
  co_known id m : R !! id = Some m ->
    exists st, cl !! m_client_id m = Some st /\ m_order_id m <= cl_max_order_id st
}.

Record engine_core I books R (byc : Index) (cl : gmap ClientId ClientState) (P : Positions) (next : OrderId) : Prop := {
  ec_books : books_ok I books R;
  ec_index : index_ok R byc;
  ec_ids id m : R !! id = Some m -> 0 < id < next /\ m_exchange_id m = id;
  ec_clients : clients_ok R cl;
  ec_positions id m : R !! id = Some m -> is_Some (P !! (m_client_id m, m_instrument_id m))
}.

(** The invariant of the engine between two commands. *)
Record engine_wf e : Prop := {
  ew_core : engine_core (instruments_ e) (e_books e) (resting_ e) (by_client_ e) (clients_ e)
              (positions_ e) (next_order_ e);
  ew_rules i r : instruments_ e !! i = Some r -> rules_ok i r;
  ew_next : 0 < next_order_ e;
  ew_net i : net_position (positions_ e) i = 0;
  ew_limits : limits_ok (instruments_ e) (resting_ e) (positions_ e) grounded;
  ew_uncrossed i : lob_uncrossed (market (e_books e) i)
}.

(** ** One operation on one book *)

Lemma market_insert_eq books i b : market (<[i := b]> books) i = bk_abs b.
Proof. unfold market. by rewrite lookup_insert_eq. Qed.
Lemma market_insert_ne books i j b : i <> j -> market (<[i := b]> books) j = market books j.
Proof. intros ?. unfold market. by rewrite lookup_insert_ne. Qed.
Lemma market_lookup books i b : books !! i = Some b -> market books i = bk_abs b.
Proof. intros E. unfold market. by rewrite E. Qed.
Lemma market_wf books i : books_wf books -> lob_wf (market books i).
Proof.
  intros Hwf. unfold market. destruct (books !! i) as [b|] eqn:E; [|apply lob_wf_empty].
  by apply bk_abs_wf, (Hwf i).
Qed.

(** The resting orders of one instrument and the view the book has of them. *)
Lemma rest_view_side id m v : rest_view id m = v -> ov_side v = m_side m.
Proof. by intros <-. Qed.

Lemma matched_order I books R id m :
  books_ok I books R -> R !! id = Some m ->
  exists b, books !! m_instrument_id m = Some b /\ bk_wf b /\ lob_wf (bk_abs b) /\
    lob_find id (bk_abs b) = Some (rest_view id m).
Proof.
  intros Hok Hm. destruct (bo_home _ _ _ Hok id m Hm) as [b Hb].
  pose proof (bo_wf _ _ _ Hok _ _ Hb) as Hwf. exists b. split_and!; [done|done|by apply bk_abs_wf|].
  apply lob_find_Some; [by apply bk_abs_wf|]. split; [|done].
  apply (bo_match _ _ _ Hok _ _ Hb). by exists m.
Qed.

Lemma resting_ok I books R id m :
  books_ok I books R -> R !! id = Some m ->
  valid_side (m_side m) /\ 0 < m_price m < 2 ^ 32 /\ 0 < m_quantity m < 2 ^ 32.
Proof.
  intros Hok Hm. destruct (matched_order _ _ _ _ _ Hok Hm) as (b & _ & _ & Hwf & Hf).
  apply lob_find_Some in Hf as [Hv _]; [|done].
  destruct (order_of_book _ _ Hwf Hv) as (Hs & [_ Hp Hq] & _). done.
Qed.

(** Replacing the book of one instrument. *)
Lemma books_ok_put I books R R' i b b' :
  books_ok I books R -> books !! i = Some b -> bk_wf b' ->
  book_matches (bk_abs b') i R' ->
  (forall id m, m_instrument_id m <> i -> R' !! id = Some m <-> R !! id = Some m) ->
  books_ok I (<[i := b']> books) R'.
Proof.
  intros [Hd Hwf Hm Hh] Hi Hb' Hmatch Hother. split.
  - intros j. rewrite <- Hd. destruct (decide (i = j)) as [->|Hne].
    + rewrite lookup_insert_eq, Hi. split; eauto.
    + by rewrite lookup_insert_ne.
  - by apply books_wf_insert.
  - intros j b1. destruct (decide (i = j)) as [->|Hne].
    + rewrite lookup_insert_eq. by intros [= <-].
    + rewrite lookup_insert_ne by done. intros Hj v. rewrite (Hm j b1 Hj v).
      split; intros (m & Hv & <- & E); exists m; (split; [|done]); by apply Hother.
  - intros id m Hid. destruct (decide (i = m_instrument_id m)) as [->|Hne].
    + rewrite lookup_insert_eq. eauto.
    + rewrite lookup_insert_ne by done. apply (Hh id). by apply Hother.
Qed.

Lemma book_matches_remove l i R id m :
  lob_wf l -> book_matches l i R -> R !! id = Some m -> m_instrument_id m = i ->
  book_matches (lob_remove id l) i (delete id R).
Proof.
  intros Hwf Hm Hid Hi v. rewrite elem_of_lob_remove, (Hm v). split.
  - intros [(m' & Hv & ? & ?) Hne]. exists m'. by rewrite lookup_delete_ne.
  - intros (m' & [Hne Hv]%lookup_delete_Some & ? & ?). split; [|congruence]. by exists m'.
Qed.

Lemma other_delete R id m i :
  R !! id = Some m -> m_instrument_id m = i ->
  forall id' m', m_instrument_id m' <> i -> delete id R !! id' = Some m' <-> R !! id' = Some m'.
Proof. intros Hid Hi id' m' Hne. rewrite lookup_delete_Some. naive_solver. Qed.

(** The books after the order [id] left or changed: what [require_book] finds. *)
Lemma require_book_cancel I R e id m text :
  books_ok I (e_books e) R -> R !! id = Some m ->
  exists b', require_book (m_instrument_id m) (bk_cancel (mkCancel id)) text e =
      Ret (set_books (<[m_instrument_id m := b']> (e_books e)) e) /\
    bk_abs b' = lob_remove id (market (e_books e) (m_instrument_id m)) /\
    books_ok I (<[m_instrument_id m := b']> (e_books e)) (delete id R).
Proof.
  intros Hok Hm. destruct (matched_order _ _ _ _ _ Hok Hm) as (b & Hb & Hwf & Hlwf & Hf).
  destruct (bk_cancel_spec (mkCancel id) b Hwf) as (r & b' & Er & Hb' & _ & Hspec).
  unfold lob_cancel in Hspec. cbn [cancel_id] in Hspec. rewrite Hf in Hspec. injection Hspec as -> Ha.
  exists b'. unfold require_book, at_key. rewrite Hb. simpl. rewrite Er. simpl. split; [done|].
  rewrite (market_lookup _ _ _ Hb). split; [done|].
  apply (books_ok_put _ _ R _ _ b); try done.
  - rewrite Ha. apply (book_matches_remove _ _ _ _ m); try done. by apply (bo_match _ _ _ Hok).
  - by apply (other_delete _ _ m).
Qed.

(** What remains of a resting order after [size] of it was executed. *)
Definition shrink (id : OrderId) (size : Quantity) R : Restings :=
  match R !! id with
  | Some m => if decide (m_quantity m = size) then delete id R
              else <[id := Engine.set_quantity (m_quantity m - size) m]> R
  | None => R
  end.

Lemma set_quantity_fields q m :
  m_instrument_id (Engine.set_quantity q m) = m_instrument_id m /\ m_side (Engine.set_quantity q m) = m_side m /\
  m_price (Engine.set_quantity q m) = m_price m /\ m_quantity (Engine.set_quantity q m) = q /\
  m_client_id (Engine.set_quantity q m) = m_client_id m /\ m_order_id (Engine.set_quantity q m) = m_order_id m /\
  m_exchange_id (Engine.set_quantity q m) = m_exchange_id m.
Proof. by destruct m. Qed.

Lemma book_matches_resize l i R id m q :
  lob_wf l -> book_matches l i R -> R !! id = Some m -> m_instrument_id m = i ->
  book_matches (lob_resize id q l) i (<[id := Engine.set_quantity q m]> R).
Proof.
  intros Hwf Hm Hid Hi v. destruct (set_quantity_fields q m) as (Fi & Fs & Fp & Fq & _).
  assert (rest_view id m ∈ lob_orders l) as Hin by (apply Hm; by exists m).
  change id with (ov_id (rest_view id m)) at 1.
  rewrite (elem_of_lob_resize l (rest_view id m) q v Hwf Hin), (Hm v). cbn [ov_id rest_view]. split.
  - intros [->|[(m' & Hv & Hi' & Ev) Hne]].
    + exists (Engine.set_quantity q m). cbn [ov_id with_quantity rest_view]. rewrite lookup_insert_eq.
      split_and!; [done|by rewrite Fi|]. unfold rest_view, with_quantity. simpl. by rewrite Fs, Fp, Fq.
    + exists m'. by rewrite lookup_insert_ne.
  - intros (m' & [[Eid <-]|[Hne Hv]]%lookup_insert_Some & Hi' & Ev).
    + left. rewrite <- Ev, <- Eid. unfold rest_view, with_quantity. simpl. by rewrite Fs, Fp, Fq.
    + right. split; [|done]. by exists m'.
Qed.

Lemma require_book_execute I R e id m size text :
  books_ok I (e_books e) R -> R !! id = Some m -> 0 < size <= m_quantity m ->
  exists b', require_book (m_instrument_id m) (bk_execute (mkExecute id size)) text e =
      Ret (set_books (<[m_instrument_id m := b']> (e_books e)) e) /\
    bk_abs b' = (if decide (m_quantity m = size)
                 then lob_remove id (market (e_books e) (m_instrument_id m))
                 else lob_resize id (m_quantity m - size) (market (e_books e) (m_instrument_id m))) /\
    books_ok I (<[m_instrument_id m := b']> (e_books e)) (shrink id size R).
Proof.
  intros Hok Hm Hsize. destruct (matched_order _ _ _ _ _ Hok Hm) as (b & Hb & Hwf & Hlwf & Hf).
  destruct (resting_ok _ _ _ _ _ Hok Hm) as (_ & _ & Hq).
  destruct (bk_execute_spec (mkExecute id size) b Hwf) as (r & b' & Er & Hb' & _ & Hspec);
    [unfold is_u32; simpl; lia|].
  unfold lob_execute in Hspec. cbn [execute_id execute_quantity] in Hspec. rewrite Hf in Hspec.
  cbn [ov_quantity rest_view] in Hspec.
  rewrite decide_False in Hspec by lia. rewrite decide_False in Hspec by lia.
  exists b'. unfold require_book, at_key, shrink. rewrite Hb, Hm. simpl. rewrite Er. simpl.
  rewrite (market_lookup _ _ _ Hb). pose proof (bo_match _ _ _ Hok _ _ Hb) as Hmatch.
  case_decide as Hfull; injection Hspec as -> Ha; (split; [done|]); (split; [done|]);
    apply (books_ok_put _ _ R _ _ b); try done.
  - rewrite Ha. by apply (book_matches_remove _ _ _ _ m).
  - by apply (other_delete _ _ m).
  - rewrite Ha. by apply book_matches_resize.
  - intros id' m' Hne. rewrite lookup_insert_Some.
    destruct (set_quantity_fields (m_quantity m - size) m) as (Fi & _). naive_solver congruence.
Qed.

Lemma book_matches_insert l i R id m :
  book_matches l i R -> R !! id = None -> m_instrument_id m = i -> valid_side (m_side m) ->
  book_matches (lob_insert (rest_view id m) l) i (<[id := m]> R).
Proof.
  intros Hm Hid Hi Hs v. rewrite elem_of_lob_insert by done. rewrite (Hm v). split.
  - intros [->|(m' & Hv & ? & ?)]; [exists m; by rewrite lookup_insert_eq|].
    exists m'. rewrite lookup_insert_ne by congruence. done.
  - intros (m' & [[<- <-]|[Hne Hv]]%lookup_insert_Some & ? & E); [by left|right]. by exists m'.
Qed.

(** An order enters the book of its instrument, or the book has no room. *)
Lemma book_add_step I h books R id m b :
  books_ok I books R -> books !! m_instrument_id m = Some b -> R !! id = None -> is_u64 id ->
  valid_side (m_side m) -> 0 < m_price m < 2 ^ 32 -> 0 < m_quantity m < 2 ^ 32 ->
  exists r b', bk_add h (mkAdd id (m_side m) (m_price m) (m_quantity m)) b = Ret (r, b') /\
    ((r = Ok /\ bk_abs b' = lob_insert (rest_view id m) (bk_abs b) /\
      books_ok I (<[m_instrument_id m := b']> books) (<[id := m]> R)) \/
     (r = AllocationFailed /\ bk_abs b' = bk_abs b /\
      books_ok I (<[m_instrument_id m := b']> books) R /\
      (~ heap_grants h \/ (bk_slots b <= lob_count (bk_abs b))%nat))).
Proof.
  intros Hok Hb Hid Hu Hs Hp Hq. pose proof (bo_wf _ _ _ Hok _ _ Hb) as Hwf.
  pose proof (bo_match _ _ _ Hok _ _ Hb) as Hmatch. pose proof (bk_abs_wf _ Hwf) as Hlwf.
  destruct (bk_add_spec h (mkAdd id (m_side m) (m_price m) (m_quantity m)) b Hwf) as (r & b' & Er & Hb' & _ & Hspec).
  { split; unfold is_u32; simpl; [done|lia|lia]. }
  assert (lob_add (mkAdd id (m_side m) (m_price m) (m_quantity m)) (bk_abs b) =
          (Ok, lob_insert (rest_view id m) (bk_abs b))) as Ea.
  { unfold lob_add. cbn [add_quantity add_price add_id add_side].
    rewrite !decide_False by lia. rewrite decide_False; [by rewrite decide_False by tauto|].
    intros [v Hv%lob_find_Some]; [|done]. destruct Hv as [(m' & Hm' & _)%Hmatch Ev]. congruence. }
  rewrite Ea in Hspec. exists r, b'. split; [done|].
  destruct Hspec as [[= -> Ha]|(-> & _ & Ha & Hno)]; [left|right]; split_and!; try done.
  - apply (books_ok_put _ _ R _ _ b); try done.
    + rewrite Ha. by apply book_matches_insert.
    + intros id' m' Hne. rewrite lookup_insert_Some. naive_solver congruence.
  - apply (books_ok_put _ _ R _ _ b); try done. by rewrite Ha.
Qed.

End inv.

(** ** The client index *)

Lemma index_lookup R byc id m :
  index_ok R byc -> R !! id = Some m -> byc !! (m_client_id m, m_order_id m) = Some id.
Proof. intros Hi Hm. apply Hi. by exists m. Qed.

Lemma index_delete R byc id m :
  index_ok R byc -> R !! id = Some m ->
  index_ok (delete id R) (delete (m_client_id m, m_order_id m) byc).
Proof.
  intros Hi Hm c o id'. rewrite lookup_delete_Some, (Hi c o id'). split.
  - intros [Hne (m' & Hm' & <- & <-)]. exists m'. split; [|done].
    rewrite lookup_delete_ne; [done|]. intros ->. congruence.
  - intros (m' & [Hne Hm']%lookup_delete_Some & <- & <-). split; [|by exists m'].
    intros [= Ec Eo]. pose proof (index_lookup _ _ _ _ Hi Hm). pose proof (index_lookup _ _ _ _ Hi Hm').
    congruence.
Qed.

Lemma index_same R byc id m m' :
  index_ok R byc -> R !! id = Some m -> m_client_id m' = m_client_id m -> m_order_id m' = m_order_id m ->
  index_ok (<[id := m']> R) byc.
Proof.
  intros Hi Hm Hc Ho c o id'. rewrite (Hi c o id'). split.
  - intros (n & Hn & <- & <-). destruct (decide (id = id')) as [<-|Hne].
    + exists m'. rewrite lookup_insert_eq. split_and!; [done|..]; congruence.
    + exists n. by rewrite lookup_insert_ne.
  - intros (n & [[<- <-]|[Hne Hn]]%lookup_insert_Some & <- & <-); [exists m|exists n]; by split_and!.
Qed.

Lemma index_insert R byc id m :
  index_ok R byc -> R !! id = None -> byc !! (m_client_id m, m_order_id m) = None ->
  index_ok (<[id := m]> R) (<[(m_client_id m, m_order_id m) := id]> byc).
Proof.
  intros Hi Hid Hk c o id'. rewrite lookup_insert_Some, (Hi c o id'). split.
  - intros [[[= <- <-] <-]|[Hne (n & Hn & <- & <-)]].
    + exists m. by rewrite lookup_insert_eq.
    + exists n. rewrite lookup_insert_ne; [done|]. congruence.
  - intros (n & [[<- <-]|[Hne Hn]]%lookup_insert_Some & <- & <-); [by left|right].
    split; [|by exists n]. intros [= Ec Eo]. pose proof (index_lookup _ _ _ _ Hi Hn). congruence.
Qed.

(** ** Quantities *)

Lemma open_insert R id m c i s :
  R !! id = None ->
  open_quantity (<[id := m]> R) c i s =
  open_quantity R c i s + in_flight (mkFlight (m_client_id m) (m_instrument_id m) (m_side m) (m_quantity m)) c i s.
Proof. intros Hid. unfold open_quantity. rewrite map_sum_insert by done. unfold open_of, in_flight. simpl. lia. Qed.

Lemma open_delete R id m c i s :
  R !! id = Some m ->
  open_quantity (delete id R) c i s =
  open_quantity R c i s - in_flight (mkFlight (m_client_id m) (m_instrument_id m) (m_side m) (m_quantity m)) c i s.
Proof.
  intros Hid. unfold open_quantity. rewrite (map_sum_delete _ R id m Hid). unfold open_of, in_flight. simpl. lia.
Qed.

Lemma open_shrink R id m size c i s :
  R !! id = Some m ->
  open_quantity (shrink id size R) c i s =
  open_quantity R c i s - in_flight (mkFlight (m_client_id m) (m_instrument_id m) (m_side m) size) c i s.
Proof.
  intros Hid. unfold shrink. rewrite Hid. case_decide as Hf; [by rewrite (open_delete R id m), Hf|].
  unfold open_quantity. rewrite (map_sum_update _ R id m) by done.
  destruct (set_quantity_fields (m_quantity m - size) m) as (Fi & Fs & Fp & Fq & Fc & _).
  unfold open_of, in_flight. cbn [fl_client fl_instrument fl_side fl_size].
  rewrite Fi, Fs, Fq, Fc. case_decide; lia.
Qed.

Definition fill_both (c1 c2 : ClientId) (i : InstrumentId) (s1 s2 : Side) (px : Price) (size : Quantity)
    (P : Positions) : Positions :=
  alter (position_fill s2 px size) (c2, i) (alter (position_fill s1 px size) (c1, i) P).

Lemma quantity_of_alter P c i s px size c' i' :
  is_Some (P !! (c, i)) ->
  quantity_of (alter (position_fill s px size) (c, i) P) c' i' =
  quantity_of P c' i' + (if decide (c = c' /\ i = i') then signed s size else 0).
Proof.
  intros [p Hp]. unfold quantity_of. rewrite lookup_alter. case_decide as H1; case_decide as H2.
  - injection H1 as <- <-. rewrite Hp. simpl. apply position_fill_quantity.
  - destruct H2. by injection H1.
  - destruct H1. by destruct H2 as [-> ->].
  - lia.
Qed.

Lemma net_alter P c i s px size j :
  is_Some (P !! (c, i)) ->
  net_position (alter (position_fill s px size) (c, i) P) j =
  net_position P j + (if decide (i = j) then signed s size else 0).
Proof.
  intros [p Hp]. unfold net_position.
  assert (alter (position_fill s px size) (c, i) P = <[(c, i) := position_fill s px size p]> P) as ->.
  { apply map_eq. intros k. rewrite lookup_alter. case_decide as Hk; subst.
    - by rewrite Hp, lookup_insert_eq.
    - by rewrite lookup_insert_ne. }
  rewrite (map_sum_update _ P _ p) by done. unfold net_of. simpl.
  rewrite position_fill_quantity. case_decide; lia.
Qed.

Lemma fill_both_dom c1 c2 i s1 s2 px size P k :
  is_Some (P !! k) -> is_Some (fill_both c1 c2 i s1 s2 px size P !! k).
Proof. intros Hk. unfold fill_both. rewrite !lookup_alter_is_Some. done. Qed.

(** An empty position changes nothing. *)
Lemma quantity_of_emplace P k c i : quantity_of (emplace k position_default P) c i = quantity_of P c i.
Proof.
  unfold quantity_of, emplace. destruct (P !! k) eqn:E; [done|]. rewrite lookup_insert. case_decide; subst; [|done].
  by rewrite E.
Qed.

Lemma net_emplace P k i : net_position (emplace k position_default P) i = net_position P i.
Proof.
  unfold net_position, emplace. destruct (P !! k) eqn:E; [done|]. rewrite map_sum_insert by done.
  unfold net_of. case_decide; simpl; lia.
Qed.

Lemma signed_opposite s size : valid_side s -> signed (opposite s) size = - signed s size.
Proof. intros [-> | ->]; unfold signed, opposite; simpl; lia. Qed.

(** A trade moves the same quantity from one client to the other. *)
Lemma net_fill_both P c1 c2 i s px size j :
  is_Some (P !! (c1, i)) -> is_Some (P !! (c2, i)) -> valid_side s ->
  net_position (fill_both c1 c2 i (opposite s) s px size P) j = net_position P j.
Proof.
  intros H1 H2 Hs. unfold fill_both. rewrite !net_alter, signed_opposite; try done.
  - case_decide; lia.
  - rewrite lookup_alter. case_decide; [|done]. destruct H1 as [p Hp]. rewrite Hp. by eexists.
Qed.

(** ** The limits *)

(** Case analysis on who and where a quantity belongs to. *)
Ltac flight :=
  unfold in_flight in *; cbn [fl_client fl_instrument fl_side fl_size] in *;
  repeat case_decide; try lia; exfalso; naive_solver congruence.

Lemma limits_fill I R P c i s x id m size px :
  limits_ok I R P (mkFlight c i s x) -> R !! id = Some m -> m_instrument_id m = i ->
  m_side m = opposite s -> valid_side s -> 0 <= size ->
  is_Some (P !! (m_client_id m, i)) -> is_Some (P !! (c, i)) ->
  limits_ok I (shrink id size R) (fill_both (m_client_id m) c i (opposite s) s px size P) (mkFlight c i s (x - size)).
Proof.
  intros Hl Hm Hi Hside Hs Hsize H1 H2 c' i' r Hr. specialize (Hl c' i' r Hr).
  rewrite !(open_shrink R id m) by done. unfold fill_both.
  assert (is_Some (alter (position_fill (opposite s) px size) (m_client_id m, i) P !! (c, i))) as H3.
  { rewrite lookup_alter. case_decide; [|done]. destruct H1 as [p Hp]. rewrite Hp. by eexists. }
  rewrite !quantity_of_alter, signed_opposite by done. rewrite Hi, Hside.
  unfold in_flight in *. cbn [fl_client fl_instrument fl_side fl_size] in *.
  destruct Hs as [-> | ->]; [change (opposite Bid) with Ask in *; change (signed Bid size) with size
                            |change (opposite Ask) with Bid in *; change (signed Ask size) with (- size)];
    destruct (decide (i = i')); destruct (decide (c = c')); destruct (decide (m_client_id m = c'));
    repeat (case_decide; try (exfalso; intuition congruence)); lia.
Qed.

Lemma limits_shrink I R P f id m size :
  limits_ok I R P f -> R !! id = Some m -> 0 <= size -> limits_ok I (shrink id size R) P f.
Proof.
  intros Hl Hm Hq c i r Hr. specialize (Hl c i r Hr). rewrite !(open_shrink R id m) by done.
  unfold in_flight in *. cbn [fl_client fl_instrument fl_side fl_size]. repeat case_decide; lia.
Qed.

Lemma limits_delete I R P f id m :
  limits_ok I R P f -> R !! id = Some m -> 0 <= m_quantity m -> limits_ok I (delete id R) P f.
Proof.
  intros Hl Hm Hq. assert (delete id R = shrink id (m_quantity m) R) as ->.
  { unfold shrink. rewrite Hm. by rewrite decide_True. }
  by apply (limits_shrink _ _ _ _ _ m).
Qed.

Lemma limits_emplace I R P k f : limits_ok I R (emplace k position_default P) f <-> limits_ok I R P f.
Proof. unfold limits_ok. by setoid_rewrite quantity_of_emplace. Qed.

Lemma limits_grounded I R P c i s : limits_ok I R P (mkFlight c i s 0) <-> limits_ok I R P grounded.
Proof.
  assert (forall c' i' s', in_flight (mkFlight c i s 0) c' i' s' = 0) as E by (intros; flight).
  split; intros Hl c' i' r Hr; specialize (Hl c' i' r Hr); rewrite ?E, ?in_flight_grounded in *; done.
Qed.

Lemma limits_flight_le I R P c i s x y :
  limits_ok I R P (mkFlight c i s x) -> y <= x -> limits_ok I R P (mkFlight c i s y).
Proof.
  intros Hl Hy c' i' r Hr. specialize (Hl c' i' r Hr). unfold in_flight in *.
  cbn [fl_client fl_instrument fl_side fl_size] in *. repeat case_decide; lia.
Qed.

(** Part of what is in flight comes to rest. *)
Lemma limits_insert I R P c i s x id m :
  limits_ok I R P (mkFlight c i s x) -> R !! id = None ->
  m_client_id m = c -> m_instrument_id m = i -> m_side m = s ->
  limits_ok I (<[id := m]> R) P (mkFlight c i s (x - m_quantity m)).
Proof.
  intros Hl Hid <- <- <- c' i' r Hr. specialize (Hl c' i' r Hr). rewrite !open_insert by done.
  unfold in_flight in *. cbn [fl_client fl_instrument fl_side fl_size] in *. repeat case_decide; lia.
Qed.

(** ** The rest of the core *)

(** Every order of [R'] is an order of [R], perhaps smaller. *)
Definition derived (R' R : Restings) : Prop :=
  forall id m', R' !! id = Some m' -> exists m, R !! id = Some m /\
    m_client_id m' = m_client_id m /\ m_order_id m' = m_order_id m /\
    m_instrument_id m' = m_instrument_id m /\ m_exchange_id m' = m_exchange_id m.

Lemma derived_delete R id : derived (delete id R) R.
Proof. intros id' m' [_ Hm]%lookup_delete_Some. by exists m'. Qed.

Lemma derived_resize R id m q : R !! id = Some m -> derived (<[id := Engine.set_quantity q m]> R) R.
Proof.
  intros Hm id' m' [[<- <-]|[_ Hm']]%lookup_insert_Some; [exists m|by exists m'].
  destruct (set_quantity_fields q m) as (Fi & _ & _ & _ & Fc & Fo & Fx). done.
Qed.

Lemma derived_shrink R id size : derived (shrink id size R) R.
Proof.
  unfold shrink. destruct (R !! id) as [m|] eqn:Hm; [|intros id' m' ?; by exists m'].
  case_decide; [apply derived_delete|by apply derived_resize].
Qed.

(** The key of a filled order leaves the index with it. *)
Definition unindex (id : OrderId) (size : Quantity) (R : Restings) (byc : Index) : Index :=
  match R !! id with
  | Some m => if decide (m_quantity m = size) then delete (m_client_id m, m_order_id m) byc else byc
  | None => byc
  end.

Lemma index_shrink R byc id m size :
  index_ok R byc -> R !! id = Some m -> index_ok (shrink id size R) (unindex id size R byc).
Proof.
  intros Hi Hm. unfold shrink, unindex. rewrite Hm.
  destruct (set_quantity_fields (m_quantity m - size) m) as (_ & _ & _ & _ & Fc & Fo & _).
  case_decide; [by apply index_delete|by apply (index_same _ _ _ m)].
Qed.

Section core.
Context {B : Type} `{!BookOps B} `{!BookLaws B}.
Implicit Types (books : gmap InstrumentId B) (R : Restings) (I : Instruments).

Lemma core_derived I books books' R R' byc byc' cl P P' next :
  engine_core I books R byc cl P next -> books_ok I books' R' -> index_ok R' byc' -> derived R' R ->
  (forall k, is_Some (P !! k) -> is_Some (P' !! k)) ->
  engine_core I books' R' byc' cl P' next.
Proof.
  intros [_ _ Hids [Hcl] Hpos] Hb Hi Hd HP. split; [done|done| |split|].
  - intros id m' (m & Hm & _ & _ & _ & ->)%Hd. by apply Hids.
  - intros id m' (m & Hm & -> & -> & _)%Hd. by eapply Hcl.
  - intros id m' (m & Hm & -> & _ & -> & _)%Hd. by eapply HP, Hpos.
Qed.

Lemma core_weaken I books R byc cl cl' P P' next next' :
  engine_core I books R byc cl P next -> next <= next' ->
  (forall c st, cl !! c = Some st ->
     exists st', cl' !! c = Some st' /\ cl_max_order_id st <= cl_max_order_id st') ->
  (forall k, is_Some (P !! k) -> is_Some (P' !! k)) ->
  engine_core I books R byc cl' P' next'.
Proof.
  intros [Hb Hi Hids [Hcl] Hpos] Hn Hc HP. split; [done|done| |split|].
  - intros id m Hm. destruct (Hids id m Hm). split; [lia|done].
  - intros id m Hm. destruct (Hcl id m Hm) as (st & Hst & Hle).
    destruct (Hc _ _ Hst) as (st' & ? & ?). exists st'. split; [done|lia].
  - eauto.
Qed.
End core.
