(* ===== verification/EngineSteps.v ===== *)
(** * The stages of a command

    Each stage of [process] under the invariant: it returns, and what it does
    to the maps, the books and the tape of deltas. *)
From S2P Require Import Prelude StdMap Types Messages Position LOB Market OrderBook Pool BookInterface.
From S2P Require Import Registry Engine EngineFields EngineInv.

(** ** The fields of stamped messages *)

Lemma as_update_fields t ep sq m :
  m_update (as_update t ep sq m) = t /\ m_instrument_id (as_update t ep sq m) = m_instrument_id m /\
  m_exchange_id (as_update t ep sq m) = m_exchange_id m /\ m_side (as_update t ep sq m) = m_side m /\
  m_price (as_update t ep sq m) = m_price m /\ m_quantity (as_update t ep sq m) = m_quantity m.
Proof. by destruct m. Qed.

(** ** The tape of deltas and the books *)

Definition tracked (M0 : InstrumentId -> LOB) (us : list Message) (M : InstrumentId -> LOB) : Prop :=
  forall i, replay_lob i us (M0 i) = Some (M i).

Definition market_put (i : InstrumentId) (l : LOB) (M : InstrumentId -> LOB) : InstrumentId -> LOB :=
  fun j => if decide (j = i) then l else M j.

Lemma tracked_delta M0 us M m l :
  tracked M0 us M -> delta_lob m (M (m_instrument_id m)) = (Ok, l) ->
  tracked M0 (us ++ [m]) (market_put (m_instrument_id m) l M).
Proof.
  intros Ht Hd i. rewrite (replay_lob_snoc _ _ _ _ _ (Ht i)). unfold replay_one, market_put.
  destruct (decide (m_instrument_id m = i)) as [<-|Hne].
  - rewrite Hd. by rewrite decide_True.
  - by rewrite decide_False.
Qed.

Lemma market_put_self i M : forall j, market_put i (M i) M j = M j.
Proof. intros j. unfold market_put. by case_decide; subst. Qed.

Lemma tracked_ext M0 us M M' : tracked M0 us M -> (forall j, M j = M' j) -> tracked M0 us M'.
Proof. intros Ht HM i. by rewrite <- HM. Qed.

(** An order that already rests in the books while the tape has yet to say so. *)
Definition with_pending (i : InstrumentId) (o : option OrderView) (M : InstrumentId -> LOB) : InstrumentId -> LOB :=
  fun j => match o with
           | Some v => if decide (j = i) then lob_insert v (M j) else M j
           | None => M j
           end.

Section steps.
Context {B : Type} `{!BookOps B} `{!BookLaws B}.
Implicit Types (e : Engine B).

Definition tape e : list Message := updates (batch e).

Definition frame e e' : Prop :=
  instruments_ e' = instruments_ e /\ epoch_ e' = epoch_ e /\ clients_ e' = clients_ e /\
  next_order_ e' = next_order_ e.

(** ** [cancel] *)

Lemma cancel_ret e id m rq :
  books_ok (instruments_ e) (e_books e) (resting_ e) -> resting_ e !! id = Some m ->
  exists e' b' u, cancel id rq e = Ret e' /\ frame e e' /\
    e_books e' = <[m_instrument_id m := b']> (e_books e) /\
    bk_abs b' = lob_remove id (market (e_books e) (m_instrument_id m)) /\
    books_ok (instruments_ e) (e_books e') (delete id (resting_ e)) /\
    resting_ e' = delete id (resting_ e) /\
    by_client_ e' = delete (m_client_id m, m_order_id m) (by_client_ e) /\
    positions_ e' = positions_ e /\ stats_ e' = stats_ e /\ next_trade_ e' = next_trade_ e /\
    tape e' = tape e ++ [as_update UpdateType.Cancel (epoch_ e) (u64 (e_sequence e + 1)) u] /\
    m_exchange_id u = m_exchange_id m /\ m_instrument_id u = m_instrument_id m.
Proof.
  intros Hok Hm. unfold cancel, at_key at 1. rewrite Hm. cbn [from_option_or mbind outcome_bind].
  set (u := Engine.set_remaining 0 (set_request_id rq m)).
  assert (m_instrument_id u = m_instrument_id m /\ m_exchange_id u = m_exchange_id m /\
          m_client_id u = m_client_id m /\ m_order_id u = m_order_id m) as (Ei & Ex & Ec & Eo) by by destruct m.
  rewrite Ei, Ec, Eo.
  destruct (require_book_cancel _ _ e id m "Cancel invariant" Hok Hm) as (b' & -> & Ha & Hok').
  cbn [mbind outcome_bind]. eexists _, b', u. split; [done|]. by split_and!.
Qed.

(** ** One fill *)

Lemma fill_position_ret c i s px size e :
  is_Some (positions_ e !! (c, i)) ->
  fill_position c i s px size e = Ret (set_positions (alter (position_fill s px size) (c, i) (positions_ e)) e).
Proof.
  intros [p Hp]. unfold fill_position, at_key. rewrite Hp. simpl. do 2 f_equal.
  apply map_eq. intros k. rewrite lookup_alter. case_decide as Hk; subst.
  - by rewrite Hp, lookup_insert_eq.
  - by rewrite lookup_insert_ne.
Qed.

(** The two messages a fill publishes. *)
Definition execution_of (maker : Message) (size trade : Z) : Message :=
  set_trade_id trade (set_remaining (m_quantity maker) (set_quantity size maker)).
Definition taker_of (incoming : Message) (px : Price) (size left trade : Z) : Message :=
  set_trade_id trade (set_remaining left (set_quantity size (set_price px incoming))).

(** The maps of an engine, which publishing leaves alone. *)
Definition same_maps e e' : Prop :=
  e_books e' = e_books e /\ resting_ e' = resting_ e /\ by_client_ e' = by_client_ e /\
  positions_ e' = positions_ e.

Lemma publish_fill_eq maker incoming left f e :
  let ex := execution_of maker (fill_size f) (next_trade_ e) in
  let tk := taker_of incoming (fill_price f) (fill_size f) left (next_trade_ e) in
  let sq := e_sequence e in let rs := response_sequence_ e in
  let e' := publish_fill maker incoming left f e in
  frame e e' /\ same_maps e e' /\ stats_ e' = stats_ e /\ next_trade_ e' = u64 (next_trade_ e + 1) /\
  reports (batch e') = reports (batch e) ++
    [as_report ReportType.Fill Reject.None (epoch_ e) (u64 (rs + 1)) ex;
     as_report ReportType.Fill Reject.None (epoch_ e) (u64 (u64 (rs + 1) + 1)) tk] /\
  tape e' = tape e ++ [as_update UpdateType.Execute (epoch_ e) (u64 (sq + 1)) ex;
                       as_update UpdateType.Trade (epoch_ e) (u64 (u64 (sq + 1) + 1)) tk].
Proof.
  unfold publish_fill, execution_of, taker_of. generalize (set_trade_id (next_trade_ e)
    (set_remaining (m_quantity maker) (Engine.set_quantity (fill_size f) maker))). intros ex.
  generalize (set_trade_id (next_trade_ e) (set_remaining left
    (Engine.set_quantity (fill_size f) (set_price (fill_price f) incoming)))). intros tk.
  destruct e as [ins bks R byc cl P ep sq rs no nt st [rp up]]. cbv beta zeta.
  unfold frame, same_maps, tape. split_and!; try reflexivity.
  - apply (eq_sym (app_assoc rp [_] [_])).
  - apply (eq_sym (app_assoc up [_] [_])).
Qed.

Lemma at_key_Some {K V} `{Countable K} (m : gmap K V) k v : m !! k = Some v -> at_key m k = Ret v.
Proof. unfold at_key. by intros ->. Qed.

Lemma execute_fill_unfold c incoming tl f e mk e2 e4 e5 :
  let mk' := set_quantity (u32 (m_quantity mk - fill_size f)) mk in
  let left := u32 (tl - fill_size f) in
  resting_ e !! fill_id f = Some mk ->
  require_book (m_instrument_id c) (bk_execute (mkExecute (fill_id f) (fill_size f))) "Fill invariant"
    (set_resting (<[fill_id f := mk']> (resting_ e)) e) = Ret e2 ->
  fill_position (m_client_id mk') (m_instrument_id c) (m_side mk') (fill_price f) (fill_size f)
    (publish_fill mk' incoming left f e2) = Ret e4 ->
  fill_position (m_client_id c) (m_instrument_id c) (m_side c) (fill_price f) (fill_size f) e4 = Ret e5 ->
  exists st, execute_fill c incoming tl f e = Ret (left, set_stats st (drop_filled mk' (fill_id f) e5)).
Proof.
  intros mk' left Hm Hb H1 H2. unfold execute_fill. rewrite (at_key_Some _ _ _ Hm), bind_Ret. cbv zeta.
  fold mk' left. rewrite Hb, bind_Ret, H1, bind_Ret, H2, bind_Ret. by eexists.
Qed.

Lemma drop_filled_eq mk id e :
  let full := bool_decide (m_quantity mk = 0) in
  let e' := drop_filled mk id e in
  frame e e' /\ e_books e' = e_books e /\ positions_ e' = positions_ e /\ next_trade_ e' = next_trade_ e /\
  batch e' = batch e /\
  resting_ e' = (if full then delete id (resting_ e) else resting_ e) /\
  by_client_ e' = (if full then delete (m_client_id mk, m_order_id mk) (by_client_ e) else by_client_ e).
Proof.
  unfold drop_filled. case_decide as E; [rewrite bool_decide_true by done|rewrite bool_decide_false by done];
    by split_and!.
Qed.

Lemma execute_fill_ret c incoming tl f e mk :
  books_ok (instruments_ e) (e_books e) (resting_ e) ->
  resting_ e !! fill_id f = Some mk -> m_instrument_id mk = m_instrument_id c ->
  0 < fill_size f <= m_quantity mk ->
  is_Some (positions_ e !! (m_client_id mk, m_instrument_id c)) ->
  is_Some (positions_ e !! (m_client_id c, m_instrument_id c)) ->
  let i := m_instrument_id c in
  let left := u32 (tl - fill_size f) in
  let ex := execution_of (set_quantity (m_quantity mk - fill_size f) mk) (fill_size f) (next_trade_ e) in
  let tk := taker_of incoming (fill_price f) (fill_size f) left (next_trade_ e) in
  let sq := e_sequence e in let rs := response_sequence_ e in
  exists e' b', execute_fill c incoming tl f e = Ret (left, e') /\ frame e e' /\
    e_books e' = <[i := b']> (e_books e) /\
    bk_abs b' = (if decide (m_quantity mk = fill_size f)
                 then lob_remove (fill_id f) (market (e_books e) i)
                 else lob_resize (fill_id f) (m_quantity mk - fill_size f) (market (e_books e) i)) /\
    books_ok (instruments_ e) (e_books e') (shrink (fill_id f) (fill_size f) (resting_ e)) /\
    resting_ e' = shrink (fill_id f) (fill_size f) (resting_ e) /\
    by_client_ e' = unindex (fill_id f) (fill_size f) (resting_ e) (by_client_ e) /\
    positions_ e' = fill_both (m_client_id mk) (m_client_id c) i (m_side mk) (m_side c)
                      (fill_price f) (fill_size f) (positions_ e) /\
    next_trade_ e' = u64 (next_trade_ e + 1) /\
    reports (batch e') = reports (batch e) ++
      [as_report ReportType.Fill Reject.None (epoch_ e) (u64 (rs + 1)) ex;
       as_report ReportType.Fill Reject.None (epoch_ e) (u64 (u64 (rs + 1) + 1)) tk] /\
    tape e' = tape e ++ [as_update UpdateType.Execute (epoch_ e) (u64 (sq + 1)) ex;
                         as_update UpdateType.Trade (epoch_ e) (u64 (u64 (sq + 1) + 1)) tk].
Proof.
  intros Hok Hm Hi Hsize Hp1 Hp2 i left ex tk sq rs.
  destruct (resting_ok _ _ _ _ _ Hok Hm) as (_ & _ & Hq).
  assert (is_Some (alter (position_fill (m_side mk) (fill_price f) (fill_size f)) (m_client_id mk, i)
    (positions_ e) !! (m_client_id c, i))) as H3.
  { rewrite lookup_alter. case_decide; [|exact Hp2]. destruct Hp1 as [p Hp].
    exists (position_fill (m_side mk) (fill_price f) (fill_size f) p). unfold i. by rewrite Hp. }
  pose proof (execute_fill_unfold c incoming tl f e mk) as Hun. cbv zeta in Hun.
  rewrite (u32_small (m_quantity mk - fill_size f)) in Hun by (unfold is_u32; lia).
  set (mk' := Engine.set_quantity (m_quantity mk - fill_size f) mk) in *.
  destruct (set_quantity_fields (m_quantity mk - fill_size f) mk) as (_ & Fs & _ & Fq & Fc & Fo & _).
  abstract_state (set_resting (<[fill_id f := mk']> (resting_ e)) e) as e1.
  destruct (require_book_execute (instruments_ e) (resting_ e) e1 (fill_id f) mk (fill_size f) "Fill invariant")
    as (b' & Er & Ha & Hok'); [congruence|done..|].
  rewrite Hi in Er, Ha, Hok'. abstract_state (set_books (<[m_instrument_id c := b']> (e_books e1)) e1) as e2.
  specialize (Hun e2). destruct (publish_fill_eq mk' incoming left f e2)
    as ((F1 & F2 & F3 & F4) & (Hb & HR & Hx & HP) & _ & Ht & Hrp & Hup).
  fold left in Hun. remember (publish_fill mk' incoming left f e2) as e3 eqn:E3 in *. clear E3.
  fold mk' in Fs, Fc, Fq, Fo. rewrite Fs, Fc in Hun. fold i in Hun.
  assert (is_Some (positions_ e3 !! (m_client_id mk, i))) as A1 by (fields; exact Hp1).
  apply (fill_position_ret _ _ (m_side mk) (fill_price f) (fill_size f)) in A1.
  abstract_state (set_positions (alter (position_fill (m_side mk) (fill_price f) (fill_size f))
    (m_client_id mk, i) (positions_ e3)) e3) as e4.
  assert (is_Some (positions_ e4 !! (m_client_id c, i))) as A2 by (fields; exact H3).
  apply (fill_position_ret _ _ (m_side c) (fill_price f) (fill_size f)) in A2.
  abstract_state (set_positions (alter (position_fill (m_side c) (fill_price f) (fill_size f))
    (m_client_id c, i) (positions_ e4)) e4) as e5.
  destruct (Hun _ _ Hm Er A1 A2) as [st E]. rewrite E.
  destruct (drop_filled_eq mk' (fill_id f) e5) as ((G1 & G2 & G3 & G4) & Gb & GP & Gt & Gbt & GR & Gx).
  remember (drop_filled mk' (fill_id f) e5) as e6 eqn:E6 in *. clear E6.
  abstract_state (set_stats st e6) as e7.
  exists e7, b'. split; [done|]. unfold frame, tape in *. revert Ha Hok'. fields. rewrite Hrp, Hup, Fq, Fc, Fo.
  fields. intros Ha Hok'.
  unfold shrink, unindex in *. rewrite Hm in *.
  destruct (decide (m_quantity mk = fill_size f)) as [Ef|Ef];
    [rewrite bool_decide_true by lia; rewrite delete_insert_eq|rewrite bool_decide_false by lia]; by split_and!.
Qed.

(** ** The stages and the invariant *)

Lemma market_insert i b books j :
  market (<[i := b]> books) j = market_put i (bk_abs b) (market books) j.
Proof.
  unfold market_put. case_decide as E; subst; [apply market_insert_eq|by apply market_insert_ne].
Qed.

Lemma tracked_put M0 us M M' u i l :
  tracked M0 us M -> m_instrument_id u = i -> delta_lob u (M i) = (Ok, l) ->
  (forall j, M' j = market_put i l M j) -> tracked M0 (us ++ [u]) M'.
Proof.
  intros Ht <- Hd HM. eapply tracked_ext; [by apply (tracked_delta M0 us M u l)|].
  intros j. by rewrite HM.
Qed.

(** A resting order as the market shows it. *)
Lemma market_find I books R id m :
  books_ok I books R -> R !! id = Some m ->
  lob_find id (market books (m_instrument_id m)) = Some (rest_view id m).
Proof.
  intros Hok Hm. destruct (matched_order _ _ _ _ _ Hok Hm) as (b & Hb & _ & _ & Hf).
  by rewrite (market_lookup _ _ _ Hb).
Qed.

Lemma uncrossed_put books i b :
  lob_uncrossed (bk_abs b) -> (forall j, lob_uncrossed (market books j)) ->
  forall j, lob_uncrossed (market (<[i := b]> books) j).
Proof. intros Hb Ho j. rewrite market_insert. unfold market_put. by case_decide. Qed.

Lemma cancel_step e id m rq :
  engine_wf e -> resting_ e !! id = Some m ->
  exists e', cancel id rq e = Ret e' /\ engine_wf e' /\ frame e e' /\
    resting_ e' = delete id (resting_ e) /\ by_client_ e' = delete (m_client_id m, m_order_id m) (by_client_ e) /\
    positions_ e' = positions_ e /\
    (forall M0, tracked M0 (tape e) (market (e_books e)) -> tracked M0 (tape e') (market (e_books e'))).
Proof.
  intros [Hcore Hrules Hnext Hnet Hlim Hun] Hm. pose proof (ec_books _ _ _ _ _ _ _ Hcore) as Hok.
  destruct (ec_ids _ _ _ _ _ _ _ Hcore id m Hm) as [Hid Hx].
  destruct (resting_ok _ _ _ _ _ Hok Hm) as (_ & _ & Hq).
  destruct (cancel_ret e id m rq Hok Hm) as (e' & b' & u & -> & (FI & Fe & Fc & Fn) & Eb & Ha & Hok' & ER & Ex &
    EP & _ & _ & Et & Eux & Eui).
  exists e'. split; [done|]. split; [|split; [done|split; [done|split; [done|split; [done|]]]]].
  - split; rewrite ?FI, ?Fc, ?Fn, ?ER, ?Ex, ?EP; try done.
    + rewrite Eb in Hok' |- *. eapply core_derived; [done|done| |apply derived_delete|done].
      by apply index_delete; [apply Hcore|].
    + eapply limits_delete; [done..|lia].
    + rewrite Eb. apply uncrossed_put; [|done]. rewrite Ha. by apply lob_uncrossed_remove.
  - intros M0 Ht. rewrite Et, Eb.
    destruct (as_update_fields UpdateType.Cancel (epoch_ e) (u64 (e_sequence e + 1)) u) as (U1 & U2 & U3 & _).
    eapply (tracked_put _ _ _ _ _ (m_instrument_id m)); [done|congruence| |apply market_insert].
    rewrite (delta_cancel _ _ (rest_view id m)); [by rewrite U3, Eux, Hx, Ha|done|].
    rewrite U3, Eux, Hx. by eapply market_find.
Qed.

(** ** [reduce_in_place] *)

Lemma set_quantity_id m : set_quantity (m_quantity m) m = m.
Proof. by destruct m. Qed.

Lemma shrink_partial (R : Restings) id m q :
  R !! id = Some m -> 0 < q -> shrink id (m_quantity m - q) R = <[id := set_quantity q m]> R.
Proof.
  intros Hm Hq. unfold shrink. rewrite Hm, decide_False by lia. do 2 f_equal. lia.
Qed.

Lemma unindex_partial (R : Restings) byc id m q :
  R !! id = Some m -> 0 < q -> unindex id (m_quantity m - q) R byc = byc.
Proof. intros Hm Hq. unfold unindex. by rewrite Hm, decide_False by lia. Qed.

(** The optional execution of the difference. *)
Lemma reduce_book I e id m q u :
  books_ok I (e_books e) (resting_ e) -> resting_ e !! id = Some m -> 0 < q <= m_quantity m ->
  m_exchange_id u = id -> m_instrument_id u = m_instrument_id m -> m_quantity u = q ->
  let reduction := u32 (m_quantity m - q) in
  exists e', (if decide (reduction <> 0) then
      e ← require_book (m_instrument_id m) (bk_execute (mkExecute id reduction)) "Reduce invariant" e;
      Ret (update u UpdateType.Reduce e)
    else Ret e) = Ret e' /\ frame e e' /\ resting_ e' = resting_ e /\ by_client_ e' = by_client_ e /\
    positions_ e' = positions_ e /\
    books_ok I (e_books e') (<[id := set_quantity q m]> (resting_ e)) /\
    (forall j, market (e_books e') j = market (e_books e) j \/
       exists x, market (e_books e') j = lob_resize id x (market (e_books e) j)) /\
    (forall M0, tracked M0 (tape e) (market (e_books e)) -> tracked M0 (tape e') (market (e_books e'))).
Proof.
  intros Hok Hm Hq Hx Hi Huq reduction. destruct (resting_ok _ _ _ _ _ Hok Hm) as (_ & _ & Hmq).
  assert (reduction = m_quantity m - q) as Er by (apply u32_small; unfold is_u32; lia).
  rewrite Er. case_decide as Hr.
  - destruct (require_book_execute I (resting_ e) e id m (m_quantity m - q) "Reduce invariant")
      as (b' & -> & Ha & Hok'); [done..|lia|]. rewrite bind_Ret.
    rewrite decide_False in Ha by lia. rewrite (shrink_partial _ _ m) in Hok' by (done || lia).
    abstract_state (set_books (<[m_instrument_id m := b']> (e_books e)) e) as e1.
    abstract_state (update u UpdateType.Reduce e1) as e2.
    exists e2. unfold frame, tape. fields. split_and!; try done.
    + intros j. rewrite market_insert. unfold market_put. case_decide as E; subst; [right|by left].
      rewrite Ha. by eexists.
    + intros M0 Ht. cbn [updates].
      destruct (as_update_fields UpdateType.Reduce (epoch_ e1) (u64 (e_sequence e1 + 1)) u) as (U1 & U2 & U3 & _ & _ & U6).
      fields. eapply (tracked_put _ _ _ _ _ (m_instrument_id m)); [done| | |apply market_insert].
      * rewrite <- Hi. revert U2. by fields.
      * pose proof (market_find _ _ _ _ _ Hok Hm) as Hf. revert U1 U2 U3 U6. fields. intros U1 U2 U3 U6.
        rewrite (delta_reduce _ _ (rest_view id m)); rewrite ?U3, ?U6, ?Hx, ?Huq; unfold is_u32; cbn; try done; try lia.
        rewrite Ha. do 2 f_equal. lia.
  - exists e. split_and!; try done; [|by left].
    assert (q = m_quantity m) as -> by lia. by rewrite set_quantity_id, insert_id.
Qed.

Lemma reduced_fields c id :
  let u := set_remaining (m_quantity c) (set_exchange_id id c) in
  m_exchange_id u = id /\ m_instrument_id u = m_instrument_id c /\ m_quantity u = m_quantity c.
Proof. by destruct c. Qed.

Lemma reduce_in_place_step e c id m :
  engine_wf e -> resting_ e !! id = Some m -> m_instrument_id c = m_instrument_id m ->
  0 < m_quantity c <= m_quantity m ->
  exists e', reduce_in_place c id m e = Ret e' /\ engine_wf e' /\ frame e e' /\
    resting_ e' = <[id := set_quantity (m_quantity c) m]> (resting_ e) /\ by_client_ e' = by_client_ e /\
    positions_ e' = positions_ e /\
    (forall M0, tracked M0 (tape e) (market (e_books e)) -> tracked M0 (tape e') (market (e_books e'))).
Proof.
  intros [Hcore Hrules Hnext Hnet Hlim Hun] Hm Hi Hq. pose proof (ec_books _ _ _ _ _ _ _ Hcore) as Hok.
  destruct (reduced_fields c id) as (Ux & Ui & Uq). unfold reduce_in_place. rewrite Hi.
  destruct (reduce_book _ e id m (m_quantity c) (set_remaining (m_quantity c) (set_exchange_id id c)) Hok Hm Hq)
    as (e1 & E & (FI & Fe & Fc & Fn) & ER & Ex & EP & Hok' & Hmk & Ht); [done|congruence|done|].
  rewrite E, bind_Ret. clear E. rewrite (at_key_Some _ _ m) by by rewrite ER. rewrite bind_Ret.
  abstract_state (set_resting (<[id := set_quantity (m_quantity c) m]> (resting_ e1)) e1) as e2.
  abstract_state (report (set_remaining (m_quantity c) (set_exchange_id id c)) ReportType.Replaced Reject.None e2) as e3.
  exists e3. unfold frame, tape in *. split; [done|]. fields. split_and!; try done.
  split; fields; rewrite ?FI, ?Fc, ?Fn, ?ER, ?Ex, ?EP; try done.
  - eapply core_derived; [done|done| |by apply derived_resize|done].
    destruct (set_quantity_fields (m_quantity c) m) as (_ & _ & _ & _ & Sc & So & _).
    by apply (index_same _ _ _ m); [apply Hcore|..].
  - rewrite <- (shrink_partial _ _ m) by (done || lia). eapply limits_shrink; [done..|lia].
  - intros j. destruct (Hmk j) as [-> |[x ->]]; [done|by apply lob_uncrossed_resize].
Qed.

(** ** The plan *)

(** [plan_ok c q l fs l']: walking the queue [q], an order of [c]'s kind for [l]
    takes the fills [fs] and leaves [l']: whole orders from the front while they
    cross and are smaller than what is left, then a part of the next.  With
    nothing left nothing more is taken. *)
Inductive plan_ok (c : Message) : list OrderView -> Quantity -> list Fill -> Quantity -> Prop :=
| plan_done q : plan_ok c q 0 [] 0
| plan_end l : 0 < l -> plan_ok c [] l [] l
| plan_stop v q l : 0 < l -> crosses c (ov_price v) = false -> plan_ok c (v :: q) l [] l
| plan_last v q l :
    0 < l <= ov_quantity v -> crosses c (ov_price v) = true ->
    plan_ok c (v :: q) l [mkFill (ov_id v) (ov_price v) l] 0
| plan_take v q l fs l' :
    0 < ov_quantity v < l -> crosses c (ov_price v) = true -> plan_ok c q (l - ov_quantity v) fs l' ->
    plan_ok c (v :: q) l (mkFill (ov_id v) (ov_price v) (ov_quantity v) :: fs) l'.

Definition total_size (fs : list Fill) : Z := sumZ (fill_size <$> fs).

Lemma plan_ok_total c q l fs l' : plan_ok c q l fs l' -> total_size fs + l' = l /\ 0 <= l' <= l.
Proof. unfold total_size. induction 1; csimpl; lia. Qed.

(** One visit, case by case. *)
Lemma plan_visit_cases c e v acc l m :
  0 < l -> resting_ e !! ov_id v = Some m ->
  plan_visit c e v (mkPlan acc l Reject.None) =
    Ret (if crosses c (ov_price v) then
           if m_post_only c then (false, mkPlan acc l Reject.PostOnly)
           else if decide (m_client_id m = m_client_id c) then (false, mkPlan acc l Reject.SelfTrade)
           else let size := Z.min l (ov_quantity v) in
                (bool_decide (u32 (l - size) <> 0),
                 mkPlan (acc ++ [mkFill (ov_id v) (ov_price v) size]) (u32 (l - size)) Reject.None)
         else (false, mkPlan acc l Reject.None)).
Proof.
  intros Hl Hm. unfold plan_visit. cbn [leaves planned plan_rejection]. rewrite (at_key_Some _ _ _ Hm), bind_Ret.
  destruct (crosses c (ov_price v)); [rewrite decide_False by naive_solver lia|by rewrite decide_True by tauto].
  destruct (m_post_only c); [done|]. by case_decide.
Qed.

(** What the visitor finds on a queue whose orders all have owners. *)
Lemma plan_visit_list c e q acc l :
  0 < l < 2 ^ 32 -> Forall (fun v => is_Some (resting_ e !! ov_id v) /\ 0 < ov_quantity v < 2 ^ 32) q ->
  exists p, visit_list (plan_visit c e) q (mkPlan acc l Reject.None) = Ret p /\
    (plan_rejection p = Reject.None /\ (exists fs, planned p = acc ++ fs /\ plan_ok c q l fs (leaves p) /\
       (fs <> [] -> m_post_only c = false) /\
       Forall (fun f => exists m, resting_ e !! fill_id f = Some m /\ m_client_id m <> m_client_id c) fs) \/
     plan_rejection p = Reject.PostOnly /\ m_post_only c = true /\
       (exists v, head q = Some v /\ crosses c (ov_price v) = true) \/
     plan_rejection p = Reject.SelfTrade /\
       (exists v m, v ∈ q /\ crosses c (ov_price v) = true /\ resting_ e !! ov_id v = Some m /\
          m_client_id m = m_client_id c)).
Proof.
  revert acc l. induction q as [|v q IH]; intros acc l Hl Hq; cbn [visit_list].
  { eexists. split; [done|]. left. split; [done|]. exists []. rewrite app_nil_r.
    split_and!; [done|apply plan_end; simpl; lia|done|constructor]. }
  apply Forall_cons in Hq as [[[m Hm] Hv] Hq].
  rewrite (plan_visit_cases _ _ _ _ _ m) by (done || lia). rewrite bind_Ret.
  destruct (crosses c (ov_price v)) eqn:Hc.
  2: { eexists. split; [done|]. left. split; [done|]. exists []. rewrite app_nil_r.
       split_and!; [done|apply plan_stop; [simpl; lia|done]|done|constructor]. }
  destruct (m_post_only c) eqn:Hpost.
  { eexists. split; [done|]. right; left. split_and!; [done|done|by exists v]. }
  case_decide as Hself.
  { eexists. split; [done|]. right; right. split; [done|]. exists v, m. split_and!; [left|done..]. }
  cbv zeta. rewrite u32_small by (unfold is_u32; lia).
  destruct (decide (ov_quantity v < l)) as [Hlt|Hge].
  - rewrite Z.min_r by lia. rewrite bool_decide_true by lia.
    destruct (IH (acc ++ [mkFill (ov_id v) (ov_price v) (ov_quantity v)]) (l - ov_quantity v)) as (p & -> & Hp);
      [lia|done|]. exists p. split; [done|].
    destruct Hp as [(Hr & fs & Hfs & Hplan & Hpo & Hown)|[(_ & ? & _)|(Hr & w & m' & Hw & Hrest)]];
      [left|congruence|right; right].
    + split; [done|]. eexists (_ :: fs). rewrite Hfs, <- app_assoc. split; [done|].
      split; [apply plan_take; [lia|done|done]|]. split; [done|]. constructor; [by exists m|done].
    + split; [done|]. exists w, m'. split; [by right|done].
  - rewrite Z.min_l by lia. rewrite bool_decide_false by lia. eexists. split; [done|].
    left. split; [done|]. eexists. split; [done|]. cbn [leaves]. rewrite Z.sub_diag.
    split; [apply plan_last; [lia|done]|]. split; [done|]. constructor; [by exists m|constructor].
Qed.

End steps.
