(* ===== verification/EngineCommit.v ===== *)
(** * Committing a plan

    The second half of [submit]: the order comes to rest, the order it replaces
    leaves, and the planned fills are executed. *)
From S2P Require Import Prelude StdMap Types Messages Position LOB Market OrderBook Pool BookInterface.
From S2P Require Import Registry Engine EngineFields EngineInv EngineSteps.

(** What a report says was done: its type, to which order, at what price, how much. *)
Abbreviation ReportRow := (ReportType.t * OrderId * Price * Quantity)%type (only parsing).
Definition report_row (m : Message) : ReportRow := (m_report m, m_exchange_id m, m_price m, m_quantity m).

(** The reports of one fill, to the maker and to the taker. *)
Definition fill_rows (taker : OrderId) (f : Fill) : list ReportRow :=
  [(ReportType.Fill, fill_id f, fill_price f, fill_size f); (ReportType.Fill, taker, fill_price f, fill_size f)].

Section commit.
Context {B : Type} `{!BookOps B} `{!BookLaws B}.
Implicit Types (e : Engine B).

(** ** The fills *)

(** The state between two fills: [q] is the opposite side of the book, [fs] are
    the fills to come, [l] what the taker still has, [pend] the order that rests
    in the book while its [Add] is still to be published, [rows] all the reports
    there will be when the loop ends. *)
Record filling (e0 : Engine B) (c incoming : Message) (rows : list ReportRow) (pend : option OrderView) (M0 : InstrumentId -> LOB)
    (q : list OrderView) (l : Quantity) (fs : list Fill) (left : Quantity) (e : Engine B) : Prop := {
  fl_frame : frame e0 e;
  fl_core : engine_core (instruments_ e) (e_books e) (resting_ e) (by_client_ e) (clients_ e)
              (positions_ e) (next_order_ e);
  fl_net i : net_position (positions_ e) i = 0;
  fl_limits : limits_ok (instruments_ e) (resting_ e) (positions_ e)
                (mkFlight (m_client_id c) (m_instrument_id c) (m_side c) (total_size fs));
  fl_opp : queue (opposite (m_side c)) (market (e_books e) (m_instrument_id c)) = q;
  fl_own : queue (m_side c) (market (e_books e) (m_instrument_id c)) =
           queue (m_side c) (market (e_books e0) (m_instrument_id c));
  fl_other j : j <> m_instrument_id c -> market (e_books e) j = market (e_books e0) j;
  fl_plan : plan_ok c q l fs left;
  fl_taker : is_Some (positions_ e !! (m_client_id c, m_instrument_id c));
  fl_tape : exists M, tracked M0 (tape e) M /\ (forall j, lob_wf (M j)) /\
              (forall j, lob_uncrossed (M j)) /\ forall j, market (e_books e) j = with_pending (m_instrument_id c) pend M j;
  fl_rows : (report_row <$> reports (batch e)) ++ (fs ≫= fill_rows (m_exchange_id incoming)) = rows
}.

Lemma as_report_row t r ep sq m :
  report_row (as_report t r ep sq m) = (t, m_exchange_id m, m_price m, m_quantity m).
Proof. by destruct m. Qed.

Lemma fill_report_rows mk size tid incoming px left ep s1 s2 id :
  m_exchange_id mk = id -> m_price mk = px ->
  report_row <$> [as_report ReportType.Fill Reject.None ep s1 (execution_of mk size tid);
                  as_report ReportType.Fill Reject.None ep s2 (taker_of incoming px size left tid)] =
  fill_rows (m_exchange_id incoming) (mkFill id px size).
Proof. intros <- <-. by destruct mk, incoming. Qed.

Lemma opposite_ne s : valid_side s -> opposite s <> s.
Proof. by intros [-> | ->]. Qed.
Lemma opposite_valid s : valid_side s -> valid_side (opposite s).
Proof. intros [-> | ->]; [by right|by left]. Qed.

(** The order at the front of a side, as a resting message. *)
Lemma front_maker I books R i s v q :
  books_ok I books R -> is_Some (books !! i) -> valid_side s -> queue s (market books i) = v :: q ->
  exists m, R !! ov_id v = Some m /\ m_instrument_id m = i /\ rest_view (ov_id v) m = v /\ m_side m = s.
Proof.
  intros Hok [b Hb] Hs Hq. rewrite (market_lookup _ _ _ Hb) in Hq.
  pose proof (bk_abs_wf _ (bo_wf _ _ _ Hok _ _ Hb)) as Hwf.
  assert (v ∈ queue s (bk_abs b)) as Hv by (rewrite Hq; left).
  apply (elem_of_queue_side _ _ _ Hwf Hs) in Hv as [Hv Hside].
  apply (bo_match _ _ _ Hok _ _ Hb) in Hv as (m & Hm & Hi & Ev).
  exists m. split_and!; try done. by rewrite <- (rest_view_side _ _ _ Ev).
Qed.

(** The pending order does not hide the others from the tape. *)
Lemma pending_find i pend M v :
  lob_wf (with_pending i pend M i) -> (forall w, pend = Some w -> valid_side (ov_side w) /\ ov_side v <> ov_side w) ->
  lob_find (ov_id v) (with_pending i pend M i) = Some v ->
  lob_find (ov_id v) (M i) = Some v /\ forall w, pend = Some w -> ov_id w <> ov_id v.
Proof.
  intros Hwf Hp Hf. unfold with_pending in *. destruct pend as [w|]; [|by split].
  rewrite decide_True in Hwf, Hf by done. destruct (Hp w eq_refl) as [Hs Hne].
  assert (ov_id w <> ov_id v) as Hid.
  { intros E. apply lob_find_Some in Hf as [Hv _]; [|done].
    assert (w ∈ lob_orders (lob_insert w (M i))) as Hw by (apply elem_of_lob_insert; [done|by left]).
    by rewrite (orders_unique _ _ _ Hwf Hw Hv E) in Hne. }
  rewrite lob_find_insert_ne in Hf by done. split; [done|]. by intros ? [= <-].
Qed.

Lemma pending_put i pend M (op : LOB -> LOB) j :
  (forall w, pend = Some w -> op (lob_insert w (M i)) = lob_insert w (op (M i))) ->
  market_put i (op (with_pending i pend M i)) (with_pending i pend M) j =
  with_pending i pend (market_put i (op (M i)) M) j.
Proof.
  intros Hop. unfold market_put, with_pending. destruct pend as [w|]; repeat case_decide; subst; try done.
  by apply Hop.
Qed.

(** The queue after the order at its front lost [size]. *)
Definition front_after (v : OrderView) (size : Quantity) (q : list OrderView) : list OrderView :=
  if decide (ov_quantity v = size) then q else with_quantity (ov_quantity v - size) v :: q.

(** What one fill does to the abstract book. *)
Definition hit (id : OrderId) (mq size : Quantity) (b : LOB) : LOB :=
  if decide (mq = size) then lob_remove id b else lob_resize id (mq - size) b.

Lemma hit_front s b v q size :
  lob_wf b -> valid_side s -> queue s b = v :: q ->
  hit (ov_id v) (ov_quantity v) size b = set_queue s (front_after v size q) b.
Proof.
  intros Hwf Hs Hq. unfold hit, front_after.
  case_decide; [by apply lob_remove_head|by apply lob_resize_head].
Qed.

Lemma hit_wf id mq size b : lob_wf b -> 0 < size <= mq -> mq < 2 ^ 32 -> lob_wf (hit id mq size b).
Proof. intros Hwf Hs Hm. unfold hit. case_decide; [by apply lob_wf_remove|apply lob_wf_resize; [done|lia]]. Qed.

Lemma hit_uncrossed id mq size b : lob_uncrossed b -> lob_uncrossed (hit id mq size b).
Proof. intros H. unfold hit. case_decide; [by apply lob_uncrossed_remove|by apply lob_uncrossed_resize]. Qed.

Lemma hit_pending id mq size w b :
  lob_wf b -> ov_id w <> id -> hit id mq size (lob_insert w b) = lob_insert w (hit id mq size b).
Proof.
  intros Hwf Hne. unfold hit. case_decide; [by apply lob_remove_insert_ne|by apply lob_resize_insert_ne].
Qed.

Lemma taker_of_fields incoming px size left t :
  m_instrument_id (taker_of incoming px size left t) = m_instrument_id incoming.
Proof. by destruct incoming. Qed.

Lemma execution_of_fields m size t :
  m_instrument_id (execution_of m size t) = m_instrument_id m /\
  m_exchange_id (execution_of m size t) = m_exchange_id m /\ m_quantity (execution_of m size t) = size.
Proof. by destruct m. Qed.

(** The two deltas of a fill, played on the tape's books. *)
Lemma tracked_fill M0 us M i v size ex tk :
  tracked M0 us M -> m_update ex = UpdateType.Execute -> m_instrument_id ex = i ->
  m_exchange_id ex = ov_id v -> m_quantity ex = size -> m_update tk = UpdateType.Trade -> m_instrument_id tk = i ->
  lob_find (ov_id v) (M i) = Some v -> 0 < size <= ov_quantity v ->
  tracked M0 (us ++ [ex; tk]) (market_put i (hit (ov_id v) (ov_quantity v) size (M i)) M).
Proof.
  intros Ht Hu Hi Hx Hq Hu' Hi' Hf Hs. change [ex; tk] with ([ex] ++ [tk]). rewrite app_assoc.
  set (M' := market_put i (hit (ov_id v) (ov_quantity v) size (M i)) M).
  assert (tracked M0 (us ++ [ex]) M') as H1.
  { eapply (tracked_put _ _ _ _ _ i); [done|done| |by intros j].
    rewrite (delta_execute _ _ v); rewrite ?Hx, ?Hq; done. }
  eapply (tracked_put _ _ _ _ _ i); [done|done|unfold delta_lob; by rewrite Hu'|].
  intros j. unfold M', market_put. by repeat case_decide.
Qed.

(** One step of the loop. *)
Lemma plan_ok_head c q l f fs left :
  plan_ok c q l (f :: fs) left ->
  exists v q', q = v :: q' /\ f = mkFill (ov_id v) (ov_price v) (fill_size f) /\
    0 < fill_size f <= ov_quantity v /\ crosses c (ov_price v) = true /\
    plan_ok c (front_after v (fill_size f) q') (l - fill_size f) fs left.
Proof.
  inversion 1 as [| | |v q' l' Hl Hc|v q' l' fs' l'' Hl Hc Hp]; subst; exists v, q'; cbn [fill_size];
    split_and!; try done; try lia.
  - rewrite Z.sub_diag. constructor.
  - unfold front_after. by rewrite decide_True.
Qed.

Lemma fill_step e0 c incoming rows pend M0 q l f fs left tl e :
  valid_side (m_side c) -> m_instrument_id incoming = m_instrument_id c ->
  (forall w, pend = Some w -> ov_side w = m_side c) ->
  is_Some (e_books e !! m_instrument_id c) ->
  filling e0 c incoming rows pend M0 q l (f :: fs) left e ->
  exists e' q', execute_fill c incoming tl f e = Ret (u32 (tl - fill_size f), e') /\
    is_Some (e_books e' !! m_instrument_id c) /\
    filling e0 c incoming rows pend M0 q' (l - fill_size f) fs left e'.
Proof.
  intros Hs Hinc Hpend Hbook [Hframe Hcore Hnet Hlim Hopp Hown Hother Hplan Htaker (M & HM & HMwf & HMun & Hpm) Hrows].
  apply plan_ok_head in Hplan as (v & q' & -> & Ef & Hsize & Hcross & Hplan).
  pose proof (ec_books _ _ _ _ _ _ _ Hcore) as Hok.
  destruct (front_maker _ _ _ _ _ _ _ Hok Hbook (opposite_valid _ Hs) Hopp) as (mk & Hmk & Hi & Ev & Hside).
  assert (m_quantity mk = ov_quantity v) as Emq by by rewrite <- Ev.
  assert (fill_id f = ov_id v) as Eid by by rewrite Ef.
  destruct (resting_ok _ _ _ _ _ Hok Hmk) as (_ & _ & Hmq).
  destruct (execute_fill_ret c incoming tl f e mk Hok) as (e' & b' & Er & (FI & Fe & Fc & Fn) & Eb & Ha & Hok' & ER & Ex &
    EP & _ & Erp & Et); [by rewrite Eid|done|lia|by rewrite <- Hi; eapply ec_positions|done|].
  cbv zeta in *. rewrite Eid, Emq, <- !Hi in *. 
  exists e', (front_after v (fill_size f) q'). split; [done|].
  set (i := m_instrument_id mk) in *. set (size := fill_size f) in *.
  assert (bk_abs b' = hit (ov_id v) (ov_quantity v) size (market (e_books e) i)) as Ha' by exact Ha.
  assert (lob_wf (market (e_books e) i)) as Hwf by (apply market_wf, Hok).
  assert (bk_abs b' = set_queue (opposite (m_side c)) (front_after v size q') (market (e_books e) i)) as Hq'.
  { rewrite Ha'. apply hit_front; [done|by apply opposite_valid|done]. }
  assert (forall j, market (e_books e') j = market_put i (bk_abs b') (market (e_books e)) j) as Hmk'.
  { intros j. rewrite Eb. apply market_insert. }
  assert (forall k, is_Some (positions_ e !! k) -> is_Some (positions_ e' !! k)) as HPk.
  { intros k Hk. rewrite EP. by apply fill_both_dom. }
  assert (is_Some (positions_ e !! (m_client_id mk, i))) as Hmaker by by eapply ec_positions.
  split; [rewrite Eb, lookup_insert_eq; eauto|].
  split; rewrite <- ?Hi, ?FI, ?Fc, ?Fn.
  - destruct Hframe as (?&?&?&?). split_and!; congruence.
  - rewrite ER, Ex. eapply core_derived; [done|done| |apply derived_shrink|done].
    by apply (index_shrink _ _ _ mk); [apply Hcore|].
  - intros j. rewrite EP, Hside. by rewrite net_fill_both.
  - rewrite ER, EP, Hside. replace (total_size fs) with (total_size (f :: fs) - size) by (unfold total_size; csimpl; lia).
    by apply limits_fill; [done..|lia|done|done].
  - rewrite Hmk'. unfold market_put. rewrite decide_True by done. rewrite Hq', queue_set_queue.
    rewrite decide_True; [done|]. split; [done|by apply opposite_valid].
  - rewrite Hmk'. unfold market_put. rewrite decide_True by done. rewrite Hq', queue_set_queue.
    rewrite decide_False; [done|]. intros [E _]. by apply (opposite_ne _ Hs).
  - intros j Hj. rewrite Hmk'. unfold market_put. rewrite decide_False by done. by apply Hother.
  - done.
  - by apply HPk.
  - destruct (pending_find i pend M v) as [Hf Hne]; rewrite <- ?Hpm; [done| | |].
    { intros w Hw. rewrite (Hpend w Hw). split; [done|]. rewrite <- Ev. cbn. rewrite Hside. by apply opposite_ne. }
    { rewrite <- Ev at 2. by eapply market_find. }
    exists (market_put i (hit (ov_id v) (ov_quantity v) size (M i)) M). split_and!.
    + rewrite Et. destruct (as_update_fields UpdateType.Execute (epoch_ e) (u64 (e_sequence e + 1))
        (execution_of (set_quantity (ov_quantity v - size) mk) size (next_trade_ e))) as (U1 & U2 & U3 & _ & _ & U6).
      destruct (as_update_fields UpdateType.Trade (epoch_ e) (u64 (u64 (e_sequence e + 1) + 1))
        (taker_of incoming (fill_price f) size (u32 (tl - size)) (next_trade_ e))) as (V1 & V2 & _).
      destruct (execution_of_fields (set_quantity (ov_quantity v - size) mk) size (next_trade_ e)) as (X1 & X2 & X3).
      destruct (set_quantity_fields (ov_quantity v - size) mk) as (S1 & _ & _ & _ & _ & _ & S7).
      destruct (ec_ids _ _ _ _ _ _ _ Hcore _ _ Hmk) as [_ Hxid].
      apply tracked_fill; try done; rewrite ?U2, ?U3, ?U6, ?V2, ?X1, ?X2, ?X3, ?S1, ?S7; try done.
      by rewrite taker_of_fields.
    + intros j. unfold market_put. destruct (decide (j = i)); [|apply HMwf]. apply hit_wf; [apply HMwf|lia|lia].
    + intros j. unfold market_put. destruct (decide (j = i)); [|apply HMun]. by apply hit_uncrossed.
    + intros j. rewrite Hmk', Ha', Hpm. rewrite <- (pending_put i pend M (hit (ov_id v) (ov_quantity v) size)).
      * unfold market_put. by destruct (decide (j = i)).
      * intros w Hw. apply hit_pending; [apply HMwf|]. by apply Hne.
  - rewrite <- Hrows, Erp, fmap_app, bind_cons, <- app_assoc. f_equal. f_equal.
    destruct (set_quantity_fields (ov_quantity v - size) mk) as (_ & _ & S3 & _ & _ & _ & S7).
    destruct (ec_ids _ _ _ _ _ _ _ Hcore _ _ Hmk) as [_ Hxid].
    rewrite (fill_report_rows _ _ _ _ _ _ _ _ _ (ov_id v)); [by rewrite Ef|congruence|].
    rewrite S3, Ef, <- Ev. done.
Qed.

(** The whole loop. *)
Lemma fills_step e0 c incoming rows pend M0 fs : forall q l left tl e,
  valid_side (m_side c) -> m_instrument_id incoming = m_instrument_id c ->
  (forall w, pend = Some w -> ov_side w = m_side c) ->
  is_Some (e_books e !! m_instrument_id c) ->
  filling e0 c incoming rows pend M0 q l fs left e ->
  exists tl' e' q', execute_fills c incoming tl fs e = Ret (tl', e') /\
    filling e0 c incoming rows pend M0 q' left [] left e'.
Proof.
  unfold execute_fills. induction fs as [|f fs IH]; intros q l left tl e Hs Hinc Hp Hb Hf.
  - exists tl, e, q. split; [done|].
    assert (l = left) as <-; [|done]. pose proof (plan_ok_total _ _ _ _ _ (fl_plan _ _ _ _ _ _ _ _ _ _ _ Hf)) as [E _].
    unfold total_size in E. simpl in E. lia.
  - destruct (fill_step e0 c incoming rows pend M0 q l f fs left tl e) as (e1 & q1 & E & Hb1 & Hf1); [done..|].
    cbn [foldM fst snd]. rewrite E, bind_Ret. by apply (IH q1 (l - fill_size f)).
Qed.

(** A side whose front does not cross does not cross at all. *)
Lemma rest_uncrossed c q left b :
  lob_wf b -> valid_side (m_side c) -> m_order_type c = OrderType.Limit -> 0 < left ->
  queue (opposite (m_side c)) b = q -> plan_ok c q left [] left ->
  forall v, v ∈ q -> crosses c (ov_price v) = false.
Proof.
  intros Hwf Hs Hlim Hl Hq Hplan v Hv. pose proof (wf_sorted _ Hwf (opposite (m_side c))) as Hsort. rewrite Hq in Hsort.
  destruct q as [|w q2]; [by apply not_elem_of_nil in Hv|].
  assert (crosses c (ov_price w) = false) as Hc by (inversion Hplan; [lia|done]).
  apply StronglySorted_cons in Hsort as [Hall _]. rewrite Forall_forall in Hall.
  unfold crosses in Hc |- *. rewrite Hlim in *. simpl in Hc |- *.
  apply elem_of_cons in Hv as [->|Hv]; [done|]. specialize (Hall v Hv). unfold before in Hall.
  destruct Hs as [Hs|Hs]; rewrite Hs in *; unfold opposite in Hall; simpl in Hall, Hc |- *; unfold flip in *; lia.
Qed.

Lemma insert_uncrossed w b :
  lob_uncrossed b -> valid_side (ov_side w) ->
  (forall v, v ∈ queue (opposite (ov_side w)) b ->
     if decide (ov_side w = Bid) then ov_price w < ov_price v else ov_price v < ov_price w) ->
  lob_uncrossed (lob_insert w b).
Proof.
  intros Hun Hs Hw v u. unfold lob_insert. destruct Hs as [Hs|Hs]; rewrite Hs in *; simpl in *; rewrite q_insert_perm, elem_of_cons.
  - intros [->|Hv] Hu; [by apply Hw|by apply Hun].
  - intros Hv [->|Hu]; [by apply Hw|by apply Hun].
Qed.

End commit.
