(* ===== verification/EngineSubmit.v ===== *)
(** * Submitting an order

    From the risk checks to the end of [submit]. *)
From S2P Require Import Prelude StdMap Types Messages Position LOB Market OrderBook Pool BookInterface.
From S2P Require Import Registry Engine EngineFields EngineInv EngineSteps EngineCommit.

Section submit.
Context {B : Type} `{!BookOps B} `{!BookLaws B}.
Implicit Types (e : Engine B).

(** ** Coming to rest *)

Definition rest_message (c : Message) (new_id : OrderId) (left : Quantity) : Message :=
  set_remaining left (set_quantity left (set_remaining (m_quantity c) (set_exchange_id new_id c))).

Lemma rest_message_fields c id left :
  let m := rest_message c id left in
  m_client_id m = m_client_id c /\ m_order_id m = m_order_id c /\ m_instrument_id m = m_instrument_id c /\
  m_side m = m_side c /\ m_price m = m_price c /\ m_quantity m = left /\ m_exchange_id m = id.
Proof. by destruct c. Qed.

Lemma emplace_fresh {K V} `{Countable K} (k : K) (v : V) (m : gmap K V) :
  m !! k = None -> emplace k v m = <[k := v]> m.
Proof. unfold emplace. by intros ->. Qed.

Lemma emplace_dom {K V} `{Countable K} (k : K) (v : V) (m : gmap K V) k' :
  is_Some (m !! k') -> is_Some (emplace k v m !! k').
Proof.
  intros Hk. unfold emplace. destruct (m !! k) eqn:E; [done|]. rewrite lookup_insert.
  case_decide; [by eexists|done].
Qed.

Lemma emplace_self {K V} `{Countable K} (k : K) (v : V) (m : gmap K V) : is_Some (emplace k v m !! k).
Proof. unfold emplace. destruct (m !! k) eqn:E; [rewrite E; by eexists|rewrite lookup_insert_eq; by eexists]. Qed.

(** The key of a new order is fresh; a replacement keeps its key. *)
Definition fresh_key (old_id : OrderId) (c : Message) e : Prop :=
  old_id = 0 -> by_client_ e !! (m_client_id c, m_order_id c) = None.

Lemma rest_order_ret h c old_id left I e b :
  let id := next_order_ e in
  let m := rest_message c id left in
  let key := (m_client_id c, m_order_id c) in
  books_ok I (e_books e) (resting_ e) -> e_books e !! m_instrument_id c = Some b ->
  resting_ e !! id = None -> is_u64 id -> fresh_key old_id c e ->
  valid_side (m_side c) -> 0 < m_price c < 2 ^ 32 -> 0 < left < 2 ^ 32 ->
  exists ok e' b', rest_order h c old_id id left e = Ret (ok, e') /\ frame e e' /\
    e_books e' = <[m_instrument_id c := b']> (e_books e) /\ positions_ e' = positions_ e /\
    tape e' = tape e /\ stats_ e' = stats_ e /\ reports (batch e') = reports (batch e) /\
    response_sequence_ e' = response_sequence_ e /\ e_sequence e' = e_sequence e /\
    ((ok = true /\ bk_abs b' = lob_insert (rest_view id m) (bk_abs b) /\
      resting_ e' = <[id := m]> (resting_ e) /\
      by_client_ e' = (if decide (old_id = 0) then <[key := id]> (by_client_ e) else by_client_ e) /\
      books_ok I (e_books e') (resting_ e')) \/
     (ok = false /\ bk_abs b' = bk_abs b /\ resting_ e' = resting_ e /\ by_client_ e' = by_client_ e /\
      books_ok I (e_books e') (resting_ e') /\
      (~ heap_grants h \/ (bk_slots b <= lob_count (bk_abs b))%nat))).
Proof.
  intros id m key Hok Hb Hid Hu Hkey Hs Hp Hl.
  destruct (rest_message_fields c id left) as (Fc & Fo & Fi & Fs & Fp & Fq & Fx). fold m in Fc, Fo, Fi, Fs, Fp, Fq, Fx.
  destruct (book_add_step I h (e_books e) (resting_ e) id m b) as (r & b' & Er & Hr);
    [done|by rewrite Fi|done|done|by rewrite Fs|by rewrite Fp|by rewrite Fq|].
  rewrite Fs, Fp, Fq, Fi in *. unfold rest_order. fold m key.
  rewrite (emplace_fresh id m) by done.
  abstract_state (set_resting (<[id := m]> (resting_ e)) e) as e1.
  assert (exists e2, (if decide (old_id = 0) then set_by_client (emplace key id (by_client_ e1)) e1 else e1) = e2 /\
    frame e1 e2 /\ e_books e2 = e_books e1 /\ resting_ e2 = resting_ e1 /\ positions_ e2 = positions_ e1 /\
    stats_ e2 = stats_ e1 /\ batch e2 = batch e1 /\ response_sequence_ e2 = response_sequence_ e1 /\
    e_sequence e2 = e_sequence e1 /\
    by_client_ e2 = (if decide (old_id = 0) then <[key := id]> (by_client_ e) else by_client_ e))
    as (e2 & -> & (F1 & F2 & F3 & F4) & ? & ? & ? & ? & ? & ? & ? & Hby).
  { case_decide as Hz; eexists; (split; [done|]); fields; [|by split_and!].
    rewrite (emplace_fresh key id) by by apply Hkey.
    abstract_state (set_by_client (<[key := id]> (by_client_ e)) e1) as e2. unfold frame. fields. by split_and!. }
  rewrite (at_key_Some _ _ b) by (fields; done). rewrite bind_Ret, Er, bind_Ret.
  abstract_state (set_books (<[m_instrument_id c := b']> (e_books e2)) e2) as e3.
  destruct Hr as [(-> & Ha & Hok')|(-> & Ha & Hok' & Hno)].
  - rewrite decide_False by tauto. exists true, e3, b'. unfold frame, tape in *. fields. split_and!; try done.
    left. by split_and!.
  - rewrite decide_True by done. abstract_state (set_resting (delete id (resting_ e3)) e3) as e4.
    case_decide as Hz.
    + abstract_state (set_by_client (delete key (by_client_ e4)) e4) as e5.
      exists false, e5, b'. unfold frame, tape in *. fields. split_and!; try done. right.
      rewrite !delete_insert_id by (done || by apply Hkey). by split_and!.
    + exists false, e4, b'. unfold frame, tape in *. fields. split_and!; try done. right.
      rewrite !delete_insert_id by done. by split_and!.
Qed.

(** ** The replaced order *)

Lemma retire_old_ret c old_id new_id rests I e old :
  let key := (m_client_id c, m_order_id c) in
  old_id <> 0 -> books_ok I (e_books e) (resting_ e) -> resting_ e !! old_id = Some old ->
  m_instrument_id old = m_instrument_id c -> is_Some (by_client_ e !! key) ->
  exists e' b' u, retire_old c old_id new_id rests e = Ret e' /\ frame e e' /\
    e_books e' = <[m_instrument_id c := b']> (e_books e) /\
    bk_abs b' = lob_remove old_id (market (e_books e) (m_instrument_id c)) /\
    books_ok I (e_books e') (delete old_id (resting_ e)) /\
    resting_ e' = delete old_id (resting_ e) /\ positions_ e' = positions_ e /\
    by_client_ e' = (if (rests : bool) then <[key := new_id]> (by_client_ e) else delete key (by_client_ e)) /\
    tape e' = tape e ++ [as_update UpdateType.Cancel (epoch_ e) u old] /\ reports (batch e') = reports (batch e).
Proof.
  intros key Hne Hok Hold Hi Hkey. unfold retire_old. rewrite decide_False by done.
  rewrite (at_key_Some _ _ _ Hold), bind_Ret.
  destruct (require_book_cancel I (resting_ e) e old_id old "Replace invariant" Hok Hold) as (b' & Er & Ha & Hok').
  rewrite Hi in Er, Ha, Hok'. rewrite Er, bind_Ret. clear Er.
  abstract_state (set_books (<[m_instrument_id c := b']> (e_books e)) e) as e1.
  abstract_state (update old UpdateType.Cancel e1) as e2.
  abstract_state (set_resting (delete old_id (resting_ e2)) e2) as e3.
  destruct rests; fold key.
  - destruct Hkey as [x Hkey]. rewrite (at_key_Some _ _ x) by (fields; done). rewrite bind_Ret.
    abstract_state (set_by_client (<[key := new_id]> (by_client_ e3)) e3) as e4.
    eexists e4, b', _. unfold frame, tape in *. fields. by split_and!.
  - abstract_state (set_by_client (delete key (by_client_ e3)) e3) as e4.
    eexists e4, b', _. unfold frame, tape in *. fields. by split_and!.
Qed.

(** ** What the checks before the commit establish *)

Record admitted (c : Message) (old_id : OrderId) e : Prop := {
  ad_side : valid_side (m_side c);
  ad_quantity : 0 < m_quantity c < 2 ^ 32;
  ad_price : m_order_type c = OrderType.Limit -> 0 < m_price c < 2 ^ 32;
  ad_book : is_Some (e_books e !! m_instrument_id c);
  ad_client : exists st, clients_ e !! m_client_id c = Some st /\ (old_id = 0 -> cl_max_order_id st < m_order_id c);
  ad_old : old_id <> 0 -> exists old, resting_ e !! old_id = Some old /\ m_client_id old = m_client_id c /\
             m_order_id old = m_order_id c /\ m_instrument_id old = m_instrument_id c /\ m_side old = m_side c;
  ad_limits : limits_ok (instruments_ e) (delete old_id (resting_ e)) (positions_ e)
                (mkFlight (m_client_id c) (m_instrument_id c) (m_side c) (m_quantity c))
}.

Lemma admitted_fresh_key c old_id e :
  engine_wf e -> admitted c old_id e -> fresh_key old_id c e.
Proof.
  intros Hwf Had Hz. destruct (by_client_ e !! _) as [id|] eqn:E; [exfalso|done].
  pose proof (ew_core _ Hwf) as Hcore. apply (ec_index _ _ _ _ _ _ _ Hcore) in E as (m & Hm & Hc & Ho).
  destruct (co_known _ _ (ec_clients _ _ _ _ _ _ _ Hcore) _ _ Hm) as (st & Hst & Hle).
  destruct (ad_client _ _ _ Had) as (st' & Hst' & Hlt). rewrite Hc in Hst. specialize (Hlt Hz).
  assert (st = st') as -> by congruence. lia.
Qed.

(** The maps after the order entered and the one it replaces left. *)
Definition entered (old_id new_id : OrderId) (rests : bool) (m : Message) (R : gmap OrderId Message) : gmap OrderId Message :=
  if rests then <[new_id := m]> (delete old_id R) else delete old_id R.
Definition reindexed (old_id new_id : OrderId) (rests : bool) (key : ClientId * OrderId)
    (byc : gmap (ClientId * OrderId) OrderId) : gmap (ClientId * OrderId) OrderId :=
  if rests then <[key := new_id]> byc else if decide (old_id = 0) then byc else delete key byc.

Lemma index_entered (R : gmap OrderId Message) (byc : gmap (ClientId * OrderId) OrderId) old_id id rests m :
  index_ok R byc -> R !! id = None -> R !! 0 = None ->
  (old_id = 0 -> byc !! (m_client_id m, m_order_id m) = None) ->
  (old_id <> 0 -> exists old, R !! old_id = Some old /\ m_client_id old = m_client_id m /\ m_order_id old = m_order_id m) ->
  index_ok (entered old_id id rests m R) (reindexed old_id id rests (m_client_id m, m_order_id m) byc).
Proof.
  intros Hi Hid H0 Hz Hnz. unfold entered, reindexed. destruct (decide (old_id = 0)) as [->|Hne].
  - rewrite (delete_id R 0) by done. destruct rests; [by apply index_insert; [| |apply Hz]|done].
  - destruct (Hnz Hne) as (old & Hold & Ec & Eo).
    pose proof (index_delete _ _ _ _ Hi Hold) as Hd. rewrite Ec, Eo in Hd. destruct rests; [|done].
    rewrite <- (insert_delete_eq byc). apply index_insert; [done| |apply lookup_delete_eq].
    rewrite lookup_delete. by case_decide.
Qed.

Lemma core_entered I (books books' : gmap InstrumentId B) (R : gmap OrderId Message) byc cl P next c old_id rests left st :
  let m := rest_message c next left in
  let R1 := entered old_id next rests m R in
  engine_core I books R byc cl P next -> books_ok I books' R1 ->
  (old_id = 0 -> byc !! (m_client_id c, m_order_id c) = None) ->
  (old_id <> 0 -> exists old, R !! old_id = Some old /\ m_client_id old = m_client_id c /\ m_order_id old = m_order_id c) ->
  0 < next -> cl !! m_client_id c = Some st ->
  engine_core I books' R1 (reindexed old_id next rests (m_client_id c, m_order_id c) byc)
    (<[m_client_id c := mkClient (cl_last_request st) (Z.max (cl_max_order_id st) (m_order_id c))
                          (cl_last_command st) (cl_cached st)]> cl)
    (emplace (m_client_id c, m_instrument_id c) position_default P) (next + 1).
Proof.
  intros m R1 Hcore Hb Hz Hnz Hn Hst.
  destruct (rest_message_fields c next left) as (Fc & Fo & Fi & _ & _ & _ & Fx). fold m in Fc, Fo, Fi, Fx.
  assert (R !! next = None) as Hfresh.
  { destruct (R !! next) eqn:E; [|done]. destruct (ec_ids _ _ _ _ _ _ _ Hcore _ _ E). lia. }
  assert (forall id m', R1 !! id = Some m' -> (id = next /\ m' = m) \/ R !! id = Some m') as Hcase.
  { intros id m'. unfold R1, entered. destruct rests; [rewrite lookup_insert_Some|]; rewrite lookup_delete_Some; naive_solver. }
  split; [done| | |split|].
  - rewrite <- Fc, <- Fo. apply index_entered; rewrite ?Fc, ?Fo; try done; [apply Hcore|].
    destruct (R !! 0) eqn:E; [|done]. destruct (ec_ids _ _ _ _ _ _ _ Hcore _ _ E). lia.
  - intros id m' [[-> ->]|Hm]%Hcase; [split; [lia|done]|].
    destruct (ec_ids _ _ _ _ _ _ _ Hcore _ _ Hm). split; [lia|done].
  - intros id m' [[-> ->]|Hm]%Hcase.
    + rewrite Fc, Fo, lookup_insert_eq. eexists. split; [done|]. simpl. lia.
    + destruct (co_known _ _ (ec_clients _ _ _ _ _ _ _ Hcore) _ _ Hm) as (st' & Hst' & Hle).
      destruct (decide (m_client_id c = m_client_id m')) as [Ec|Ec].
      * rewrite <- Ec, lookup_insert_eq. eexists. split; [done|]. rewrite <- Ec, Hst in Hst'.
        injection Hst' as <-. simpl. lia.
      * rewrite lookup_insert_ne by done. eauto.
  - intros id m' [[-> ->]|Hm]%Hcase; [rewrite Fc, Fi; apply emplace_self|].
    by eapply emplace_dom, (ec_positions _ _ _ _ _ _ _ Hcore).
Qed.

(** ** The two book operations of the commit, resting or not, replacing or not *)

Definition pending_view (rests : bool) (id : OrderId) (m : Message) : option OrderView :=
  if rests then Some (rest_view id m) else None.

Lemma maybe_rest_ret h c old_id left (rests : bool) I e b :
  let id := next_order_ e in
  let m := rest_message c id left in
  let key := (m_client_id c, m_order_id c) in
  books_ok I (e_books e) (resting_ e) -> e_books e !! m_instrument_id c = Some b ->
  resting_ e !! id = None -> is_u64 id -> fresh_key old_id c e -> valid_side (m_side c) ->
  (rests = true -> 0 < m_price c < 2 ^ 32 /\ 0 < left < 2 ^ 32) ->
  exists ok e', (if rests then rest_order h c old_id id left e else Ret (true, e)) = Ret (ok, e') /\ frame e e' /\
    is_Some (e_books e' !! m_instrument_id c) /\
    positions_ e' = positions_ e /\ tape e' = tape e /\ reports (batch e') = reports (batch e) /\
    ((ok = true /\ resting_ e' = (if rests then <[id := m]> (resting_ e) else resting_ e) /\
      by_client_ e' = (if rests then if decide (old_id = 0) then <[key := id]> (by_client_ e) else by_client_ e
                       else by_client_ e) /\
      books_ok I (e_books e') (resting_ e') /\
      forall j, market (e_books e') j =
        with_pending (m_instrument_id c) (pending_view rests id m) (market (e_books e)) j) \/
     (ok = false /\ resting_ e' = resting_ e /\ by_client_ e' = by_client_ e /\
      books_ok I (e_books e') (resting_ e') /\ (forall j, market (e_books e') j = market (e_books e) j) /\
      (~ heap_grants h \/ (bk_slots b <= lob_count (bk_abs b))%nat))).
Proof.
  intros id m key Hok Hb Hid Hu Hkey Hs Hp. destruct rests.
  2: { exists true, e. split_and!; try done; left; by split_and!. }
  destruct (Hp eq_refl) as [Hpx Hleft].
  destruct (rest_order_ret h c old_id left I e b Hok Hb Hid Hu Hkey Hs Hpx Hleft)
    as (ok & e' & b' & Er & Hf & Eb & EP & Et & _ & Erp & _ & _ & Hcase).
  exists ok, e'. split; [done|]. split; [done|]. split; [rewrite Eb, lookup_insert_eq; by eexists|].
  split; [done|]. split; [done|]. split; [done|].
  destruct Hcase as [(-> & Ha & ER & Ex & Hok')|(-> & Ha & ER & Ex & Hok' & Hno)]; [left|right]; split_and!; try done.
  - intros j. rewrite Eb, market_insert. unfold market_put, with_pending, pending_view.
    destruct (decide (j = m_instrument_id c)) as [Hj|]; [|done]. by rewrite Ha, Hj, (market_lookup _ _ _ Hb).
  - intros j. rewrite Eb, market_insert. unfold market_put.
    case_decide as Hj; [|done]. by rewrite Ha, Hj, (market_lookup _ _ _ Hb).
Qed.

Lemma maybe_retire_ret c old_id new_id rests I e M0 M i pend :
  let key := (m_client_id c, m_order_id c) in
  i = m_instrument_id c ->
  books_ok I (e_books e) (resting_ e) -> resting_ e !! 0 = None -> is_Some (e_books e !! i) ->
  (old_id <> 0 -> (exists old, resting_ e !! old_id = Some old /\ m_instrument_id old = m_instrument_id c /\
                     m_exchange_id old = old_id /\ m_side old = m_side c) /\ is_Some (by_client_ e !! key)) ->
  tracked M0 (tape e) M -> (forall j, lob_wf (M j)) -> (forall j, lob_uncrossed (M j)) ->
  (forall j, market (e_books e) j = with_pending i pend M j) ->
  (forall w, pend = Some w -> ov_id w <> old_id) ->
  (old_id <> 0 -> exists v, lob_find old_id (M i) = Some v /\ ov_side v = m_side c) ->
  exists e', retire_old c old_id new_id rests e = Ret e' /\ frame e e' /\
    is_Some (e_books e' !! i) /\
    books_ok I (e_books e') (resting_ e') /\ resting_ e' = delete old_id (resting_ e) /\
    positions_ e' = positions_ e /\ reports (batch e') = reports (batch e) /\
    by_client_ e' = (if decide (old_id = 0) then by_client_ e
                     else if (rests : bool) then <[key := new_id]> (by_client_ e) else delete key (by_client_ e)) /\
    exists M', tracked M0 (tape e') M' /\ (forall j, lob_wf (M' j)) /\ (forall j, lob_uncrossed (M' j)) /\
      (forall j, market (e_books e') j = with_pending i pend M' j) /\
      (forall j, queue (opposite (m_side c)) (M' j) = queue (opposite (m_side c)) (M j)).
Proof.
  intros key Hi Hok H0 Hb Hold Ht Hwf Hun Hpm Hpend Hfind. destruct (decide (old_id = 0)) as [->|Hne].
  { exists e. unfold retire_old. rewrite decide_True by done. rewrite delete_id by done.
    split_and!; try done. by exists M. }
  destruct (Hold Hne) as [(old & Hm & Hio & Hx & Hside) Hkey].
  destruct (retire_old_ret c old_id new_id rests I e old Hne Hok Hm Hio Hkey)
    as (e' & b' & u & Er & Hf & Eb & Ha & Hok' & ER & EP & Ex & Et & Erp). rewrite <- Hi in *.
  destruct (Hfind Hne) as (v & Hv & Hvs).
  exists e'. split; [done|]. split; [done|]. split; [rewrite Eb, lookup_insert_eq; by eexists|].
  split; [by rewrite ER|]. split; [done|]. split; [done|]. split; [done|]. split; [done|].
  exists (market_put i (lob_remove old_id (M i)) M). split_and!.
  - rewrite Et. destruct (as_update_fields UpdateType.Cancel (epoch_ e) u old) as (U1 & U2 & U3 & _).
    eapply (tracked_put _ _ _ _ _ i); [done|by rewrite U2, Hio| |done].
    rewrite (delta_cancel _ _ v); rewrite ?U3, ?Hx; done.
  - intros j. unfold market_put. destruct (decide (j = i)); [by apply lob_wf_remove|done].
  - intros j. unfold market_put. destruct (decide (j = i)); [by apply lob_uncrossed_remove|done].
  - intros j. rewrite Eb, market_insert, Ha, Hpm. rewrite <- (pending_put i pend M (lob_remove old_id)).
    + unfold market_put. by destruct (decide (j = i)).
    + intros w Hw. apply lob_remove_insert_ne; [done|by apply Hpend].
  - intros j. unfold market_put. destruct (decide (j = i)) as [->|]; [|done]. rewrite queue_remove.
    apply q_remove_notin. intros (w & Ew & Hw)%list_elem_of_fmap.
    apply lob_find_Some in Hv as [Hvm Hvid]; [|done].
    assert (valid_side (m_side c)) as Hs by (rewrite <- Hvs; eapply order_of_book; done).
    apply (elem_of_queue_side _ _ _ (Hwf i)) in Hw as [Hw Hws]; [|by apply opposite_valid].
    assert (v = w) as -> by (eapply orders_unique; [apply (Hwf i)|done..|congruence]).
    by apply (opposite_ne _ Hs); congruence.
Qed.

(** ** [commit] *)

Definition comes_to_rest (c : Message) (left : Quantity) : bool :=
  bool_decide (left <> 0 /\ m_tif c = TimeInForce.GTC /\ m_order_type c = OrderType.Limit).
Definition incoming_of (c : Message) (id : OrderId) : Message :=
  set_remaining (m_quantity c) (set_exchange_id id c).
Definition with_max_order (c : Message) (st : ClientState) : ClientState :=
  mkClient (cl_last_request st) (Z.max (cl_max_order_id st) (m_order_id c)) (cl_last_command st) (cl_cached st).
Definition entry_type (old_id : OrderId) : ReportType.t :=
  if decide (old_id = 0) then ReportType.Accepted else ReportType.Replaced.

(** What follows the fills. *)
Definition finish (c incoming : Message) (left : Quantity) e : Engine B :=
  if comes_to_rest c left then update (set_remaining left (set_quantity left incoming)) UpdateType.Add e
  else if decide (left <> 0) then
    report (set_remaining 0 (set_quantity left incoming)) ReportType.Cancelled Reject.None e
  else e.

Lemma commit_unfold h c old_id p e e1 ok e2 :
  let id := next_order_ e1 in let rests := comes_to_rest c (leaves p) in
  e1 = set_positions (emplace (m_client_id c, m_instrument_id c) position_default (positions_ e)) e ->
  (if rests then rest_order h c old_id id (leaves p) e1 else Ret (true, e1)) = Ret (ok, e2) ->
  if (ok : bool) then
    forall e4 st tl e7,
      retire_old c old_id id rests (set_next_order (u64 (next_order_ e2 + 1)) e2) = Ret e4 ->
      clients_ e4 !! m_client_id c = Some st ->
      execute_fills c (incoming_of c id) (m_quantity c) (planned p)
        (report (incoming_of c id) (entry_type old_id) Reject.None
          (set_clients (<[m_client_id c := with_max_order c st]> (clients_ e4)) e4)) = Ret (tl, e7) ->
      commit h c old_id p e = Ret (finish c (incoming_of c id) (leaves p) e7)
  else commit h c old_id p e = Ret (reject c Reject.Capacity e2).
Proof.
  intros id rests -> Hrest. unfold commit. fold (comes_to_rest c (leaves p)). fold rests.
  subst id. rewrite Hrest, bind_Ret. destruct ok; cbn [negb]; [|done].
  intros e4 st tl e7 Hret Hst Hfill. rewrite Hret, bind_Ret, (at_key_Some _ _ _ Hst), bind_Ret.
  fold (with_max_order c st) (entry_type old_id) (incoming_of c (next_order_ (set_positions
    (emplace (m_client_id c, m_instrument_id c) position_default (positions_ e)) e))).
  rewrite Hfill, bind_Ret. unfold finish. fold rests. destruct rests; [done|]. by case_decide.
Qed.

(** The rows the end of a command adds. *)
Definition finish_rows (c : Message) (id : OrderId) (left : Quantity) : list ReportRow :=
  if comes_to_rest c left then []
  else if decide (left <> 0) then [(ReportType.Cancelled, id, m_price c, left)] else [].

Lemma finish_frame c incoming left e :
  frame e (finish c incoming left e) /\ same_maps e (finish c incoming left e).
Proof.
  unfold finish. destruct (comes_to_rest c left); [|case_decide; [|by split_and!]].
  - abstract_state (update (set_remaining left (set_quantity left incoming)) UpdateType.Add e) as e'.
    unfold frame, same_maps. fields. by split_and!.
  - abstract_state (report (set_remaining 0 (set_quantity left incoming)) ReportType.Cancelled Reject.None e) as e'.
    unfold frame, same_maps. fields. by split_and!.
Qed.

Lemma finish_reports c id left e :
  report_row <$> reports (batch (finish c (incoming_of c id) left e)) =
  (report_row <$> reports (batch e)) ++ finish_rows c id left.
Proof.
  unfold finish, finish_rows. destruct (comes_to_rest c left); [by rewrite app_nil_r|].
  case_decide; [|by rewrite app_nil_r].
  destruct (report_fields (set_remaining 0 (set_quantity left (incoming_of c id))) ReportType.Cancelled Reject.None e)
    as (_&_&_&_&_&_&_&_&_&_&_&_&->). cbn [reports]. rewrite fmap_app. f_equal. csimpl.
  rewrite as_report_row. by destruct c.
Qed.

Lemma added_fields c id left :
  let m := set_remaining left (set_quantity left (incoming_of c id)) in
  m_instrument_id m = m_instrument_id c /\ m_exchange_id m = id /\ m_side m = m_side c /\
  m_price m = m_price c /\ m_quantity m = left.
Proof. by destruct c. Qed.

Lemma finish_tape c id left M0 M e :
  let rests := comes_to_rest c left in
  let pend := pending_view rests id (rest_message c id left) in
  valid_side (m_side c) -> (rests = true -> 0 < m_price c /\ 0 < left) ->
  tracked M0 (tape e) M -> lob_wf (market (e_books e) (m_instrument_id c)) ->
  (forall j, market (e_books e) j = with_pending (m_instrument_id c) pend M j) ->
  tracked M0 (tape (finish c (incoming_of c id) left e)) (market (e_books (finish c (incoming_of c id) left e))).
Proof.
  intros rests pend Hs Hr Ht Hwf Hpm. destruct (finish_frame c (incoming_of c id) left e) as [_ (-> & _)].
  unfold finish. fold rests. destruct rests eqn:Erests.
  - destruct (Hr eq_refl) as [Hp Hl]. destruct (rest_message_fields c id left) as (_ & _ & _ & Fs & Fp & Fq & _).
    abstract_state (update (set_remaining left (set_quantity left (incoming_of c id))) UpdateType.Add e) as e'.
    unfold tape in *. fields. cbn [updates].
    set (a := set_remaining left (set_quantity left (incoming_of c id))).
    destruct (added_fields c id left) as (A1 & A2 & A3 & A4 & A5). fold a in A1, A2, A3, A4, A5.
    destruct (as_update_fields UpdateType.Add (epoch_ e) (u64 (e_sequence e + 1)) a) as (U1 & U2 & U3 & U4 & U5 & U6).
    rewrite Hpm in Hwf. unfold pend, pending_view, with_pending in Hwf, Hpm. rewrite decide_True in Hwf by done.
    assert (valid_side (ov_side (rest_view id (rest_message c id left)))) as Hvs by (cbn; by rewrite Fs).
    eapply (tracked_put _ _ _ _ _ (m_instrument_id c)); [done|by rewrite U2, A1| |].
    + rewrite delta_add; rewrite ?U3, ?U4, ?U5, ?U6, ?A2, ?A3, ?A4, ?A5; try done; try lia.
      by apply (lob_insert_fresh (rest_view id (rest_message c id left))).
    + intros j. rewrite Hpm. unfold market_put. case_decide as Hj; [|done]. subst j. f_equal.
      unfold rest_view. by rewrite Fs, Fp, Fq.
  - assert (tape (if decide (left <> 0) then report (set_remaining 0 (set_quantity left (incoming_of c id)))
      ReportType.Cancelled Reject.None e else e) = tape e) as -> by by case_decide.
    eapply tracked_ext; [done|]. intros j. by rewrite Hpm.
Qed.

Lemma finish_step e0 c id rows M0 q left e :
  let rests := comes_to_rest c left in
  let pend := pending_view rests id (rest_message c id left) in
  valid_side (m_side c) -> (rests = true -> 0 < m_price c /\ 0 < left) ->
  (forall i r, instruments_ e !! i = Some r -> rules_ok i r) -> 0 < next_order_ e ->
  filling e0 c (incoming_of c id) rows pend M0 q left [] left e ->
  let e' := finish c (incoming_of c id) left e in
  engine_wf e' /\ frame e e' /\ tracked M0 (tape e') (market (e_books e')) /\
  report_row <$> reports (batch e') = rows ++ finish_rows c id left.
Proof.
  intros rests pend Hs Hr Hrules Hnext [Hframe Hcore Hnet Hlim Hopp Hown Hother Hplan Htaker
    (M & HM & HMwf & HMun & Hpm) Hrows] e'.
  destruct (finish_frame c (incoming_of c id) left e) as [(F1 & F2 & F3 & F4) (Fb & FR & Fx & FP)]. fold e' in F1, F2, F3, F4, Fb, FR, Fx, FP.
  assert (lob_wf (market (e_books e) (m_instrument_id c))) as Hwf by (apply market_wf, (ec_books _ _ _ _ _ _ _ Hcore)).
  split; [|split; [by split_and!|split]].
  - split; rewrite ?F1, ?Fb, ?FR, ?Fx, ?F3, ?FP, ?F4; try done.
    + by apply (limits_grounded _ _ _ (m_client_id c) (m_instrument_id c) (m_side c)).
    + intros j. rewrite Hpm. unfold with_pending, pend, pending_view. destruct rests eqn:Er; [|apply HMun].
      case_decide as Hj; [subst j|apply HMun]. destruct (Hr eq_refl) as [Hpx Hleft].
      destruct (rest_message_fields c id left) as (_ & _ & _ & Fs & Fp & _ & _).
      apply bool_decide_eq_true in Er as (_ & _ & Hlimit).
      apply insert_uncrossed; [apply HMun|cbn; by rewrite Fs|]. cbn [ov_side ov_price rest_view]. rewrite Fs, Fp.
      intros v Hv. pose proof (rest_uncrossed c q left _ Hwf Hs Hlimit Hleft Hopp Hplan v) as Hc.
      rewrite <- Hopp, Hpm in Hc. unfold with_pending, pend, pending_view in Hc. rewrite decide_True in Hc by done.
      unfold lob_insert in Hc. rewrite queue_set_queue in Hc. cbn [ov_side rest_view] in Hc. rewrite Fs in Hc.
      rewrite decide_False in Hc by (intros [E _]; by apply (opposite_ne _ Hs)). specialize (Hc Hv).
      unfold crosses in Hc. rewrite Hlimit in Hc. simpl in Hc. case_decide; simpl in Hc; lia.
  - by apply (finish_tape _ _ _ _ M).
  - unfold e'. rewrite finish_reports. f_equal. rewrite <- Hrows. csimpl. by rewrite app_nil_r.
Qed.

(** Rejecting changes no map and publishes nothing. *)
Lemma reject_eq c r e :
  frame e (reject c r e) /\ same_maps e (reject c r e) /\ tape (reject c r e) = tape e /\
  exists sq, reports (batch (reject c r e)) =
    reports (batch e) ++ [as_report ReportType.Rejected r (epoch_ e) sq c].
Proof. unfold frame, same_maps. split_and!; try done. by eexists. Qed.

Lemma engine_wf_same e e' : engine_wf e -> frame e e' -> same_maps e e' -> engine_wf e'.
Proof.
  intros [Hcore Hrules Hnext Hnet Hlim Hun] (F1 & F2 & F3 & F4) (Fb & FR & Fx & FP).
  by split; rewrite ?F1, ?Fb, ?FR, ?Fx, ?F3, ?FP, ?F4.
Qed.

Lemma rest_view_id id m : ov_id (rest_view id m) = id.
Proof. done. Qed.

Lemma incoming_exchange c id :
  m_exchange_id (incoming_of c id) = id /\ m_instrument_id (incoming_of c id) = m_instrument_id c.
Proof. by destruct c. Qed.

(** The state when the fills begin. *)
Lemma entered_filling c old_id id (rests : bool) left fs e e3 e4 e6 M0 st :
  let m := rest_message c id left in
  let pend := pending_view rests id m in
  engine_wf e -> admitted c old_id e -> id = next_order_ e ->
  clients_ e !! m_client_id c = Some st -> is_Some (e_books e4 !! m_instrument_id c) ->
  instruments_ e6 = instruments_ e -> next_order_ e6 = next_order_ e + 1 ->
  clients_ e6 = <[m_client_id c := with_max_order c st]> (clients_ e) ->
  positions_ e6 = emplace (m_client_id c, m_instrument_id c) position_default (positions_ e) ->
  resting_ e6 = entered old_id id rests m (resting_ e) ->
  by_client_ e6 = reindexed old_id id rests (m_client_id c, m_order_id c) (by_client_ e) ->
  e_books e6 = e_books e4 -> books_ok (instruments_ e) (e_books e4) (resting_ e6) ->
  (rests = true -> 0 <= left) -> (rests = false -> total_size fs <= m_quantity c) -> total_size fs + left = m_quantity c ->
  plan_ok c (queue (opposite (m_side c)) (market (e_books e6) (m_instrument_id c))) (m_quantity c) fs left ->
  (exists M, tracked M0 (tape e6) M /\ (forall j, lob_wf (M j)) /\ (forall j, lob_uncrossed (M j)) /\
     forall j, market (e_books e6) j = with_pending (m_instrument_id c) pend M j) ->
  filling e6 c (incoming_of c id)
    ((report_row <$> reports (batch e6)) ++ (fs ≫= fill_rows (m_exchange_id (incoming_of c id))))
    pend M0 (queue (opposite (m_side c)) (market (e_books e6) (m_instrument_id c))) (m_quantity c) fs left e6.
Proof.
  intros m pend Hwf Had -> Hst Hb4 FI Fn Fc FP FR Fx Fb Hok Hl1 Hl2 Hsum Hplan HM.
  pose proof (ew_core _ Hwf) as Hcore. set (id := next_order_ e) in *.
  destruct (rest_message_fields c id left) as (Mc & Mo & Mi & Ms & _ & Mq & _). fold m in Mc, Mo, Mi, Ms, Mq.
  split; try done; rewrite ?FI, ?FP, ?Fn, ?Fc, ?Fb.
  - rewrite Fx, FR. unfold with_max_order. apply (core_entered _ (e_books e)); try done.
    + by rewrite FR in Hok.
    + by apply admitted_fresh_key.
    + intros Hne. destruct (ad_old _ _ _ Had Hne) as (old & ? & ? & ? & _). by exists old.
    + apply Hwf.
  - intros j. rewrite net_emplace. apply Hwf.
  - apply limits_emplace. rewrite FR. unfold entered. pose proof (ad_limits _ _ _ Had) as Hlim.
    destruct rests; [|eapply limits_flight_le; [done|by apply Hl2]].
    replace (total_size fs) with (m_quantity c - m_quantity m) by (rewrite Mq; lia).
    apply limits_insert; [done| |done..]. rewrite lookup_delete. case_decide; [done|].
    destruct (resting_ e !! id) eqn:E; [|done]. destruct (ec_ids _ _ _ _ _ _ _ Hcore _ _ E). lia.
  - apply emplace_self.
Qed.

(** What [commit] does: the order is taken, or there was no room for it. *)
Definition committed (c : Message) (old_id : OrderId) (p : Plan) e e' : Prop :=
  next_order_ e' = next_order_ e + 1 /\
  report_row <$> reports (batch e') =
    (report_row <$> reports (batch e)) ++
    (entry_type old_id, next_order_ e, m_price c, m_quantity c) ::
    (planned p ≫= fill_rows (next_order_ e)) ++ finish_rows c (next_order_ e) (leaves p).
Definition no_room (h : Heap) (c : Message) (b : B) e e' : Prop :=
  (~ heap_grants h \/ (bk_slots b <= lob_count (bk_abs b))%nat) /\
  next_order_ e' = next_order_ e /\ resting_ e' = resting_ e /\ by_client_ e' = by_client_ e /\
  tape e' = tape e /\ (forall i, market (e_books e') i = market (e_books e) i) /\
  report_row <$> reports (batch e') =
    (report_row <$> reports (batch e)) ++ [(ReportType.Rejected, m_exchange_id c, m_price c, m_quantity c)].

Lemma resting_fresh e : engine_wf e -> resting_ e !! next_order_ e = None /\ resting_ e !! 0 = None.
Proof.
  intros [Hcore _ _ _ _ _]. split; destruct (resting_ e !! _) eqn:E; try done;
    destruct (ec_ids _ _ _ _ _ _ _ Hcore _ _ E); lia.
Qed.

Lemma commit_no_room h c b e e1 e2 :
  engine_wf e -> frame e e1 -> same_maps e (set_positions (positions_ e) e1) ->
  positions_ e1 = emplace (m_client_id c, m_instrument_id c) position_default (positions_ e) -> tape e1 = tape e ->
  reports (batch e1) = reports (batch e) -> frame e1 e2 -> positions_ e2 = positions_ e1 -> tape e2 = tape e1 ->
  reports (batch e2) = reports (batch e1) -> resting_ e2 = resting_ e1 -> by_client_ e2 = by_client_ e1 ->
  books_ok (instruments_ e) (e_books e2) (resting_ e2) ->
  (forall j, market (e_books e2) j = market (e_books e1) j) ->
  (~ heap_grants h \/ (bk_slots b <= lob_count (bk_abs b))%nat) ->
  engine_wf (reject c Reject.Capacity e2) /\ no_room h c b e (reject c Reject.Capacity e2).
Proof.
  intros Hwf (F1&F2&F3&F4) (Fb&FR&Fx&_) FP Ft Frp (G1&G2&G3&G4) GP Gt Grp GR Gx Hok Hmk Hno.
  cbn [e_books resting_ by_client_ set_positions] in Fb, FR, Fx.
  destruct (reject_eq c Reject.Capacity e2) as (Hf & Hs & Ht & sq & Hr).
  destruct Hwf as [Hcore Hrules Hnext Hnet Hlim Hun].
  assert (engine_wf e2) as Hwf2.
  { split; rewrite ?G1, ?G3, ?G4, ?GP, ?GR, ?Gx, ?F1, ?F3, ?F4, ?FP, ?FR, ?Fx; try done.
    - rewrite GR, FR in Hok. eapply core_weaken; [|done|intros c' st' ?; exists st'; by split|by intros k; apply emplace_dom].
      eapply core_derived; [done|done|apply Hcore|by intros id m Hm; exists m|done].
    - intros i. by rewrite net_emplace.
    - by apply limits_emplace.
    - intros i. by rewrite Hmk, Fb. }
  split; [by apply (engine_wf_same e2)|].
  destruct Hf as (H1&H2&H3&H4), Hs as (Hb&HR&Hx&HP).
  unfold no_room. rewrite H4, G4, F4, HR, GR, FR, Hx, Gx, Fx, Ht, Gt, Ft, Hb, Hr, Grp, Frp, fmap_app. split_and!; try done.
  - intros i. by rewrite Hmk, Fb.
  - csimpl. by rewrite as_report_row.
Qed.

(** The order is in the book: the rest of [commit]. *)
Lemma commit_taken c old_id left fs e e2 e3 M0 st :
  let id := next_order_ e in
  let rests := comes_to_rest c left in
  let m := rest_message c id left in
  let pend := pending_view rests id m in
  let key := (m_client_id c, m_order_id c) in
  engine_wf e -> admitted c old_id e -> next_order_ e + 1 < 2 ^ 64 -> clients_ e !! m_client_id c = Some st ->
  plan_ok c (queue (opposite (m_side c)) (market (e_books e) (m_instrument_id c))) (m_quantity c) fs left ->
  tracked M0 (tape e) (market (e_books e)) ->
  frame e e2 -> is_Some (e_books e2 !! m_instrument_id c) ->
  positions_ e2 = emplace (m_client_id c, m_instrument_id c) position_default (positions_ e) -> tape e2 = tape e ->
  reports (batch e2) = reports (batch e) ->
  resting_ e2 = (if rests then <[id := m]> (resting_ e) else resting_ e) ->
  by_client_ e2 = (if rests then if decide (old_id = 0) then <[key := id]> (by_client_ e) else by_client_ e
                   else by_client_ e) ->
  books_ok (instruments_ e) (e_books e2) (resting_ e2) ->
  (forall j, market (e_books e2) j = with_pending (m_instrument_id c) pend (market (e_books e)) j) ->
  e3 = set_next_order (u64 (next_order_ e2 + 1)) e2 ->
  exists e4, retire_old c old_id id rests e3 = Ret e4 /\ clients_ e4 = clients_ e /\
    let e6 := report (incoming_of c id) (entry_type old_id) Reject.None
                (set_clients (<[m_client_id c := with_max_order c st]> (clients_ e4)) e4) in
    instruments_ e6 = instruments_ e /\ epoch_ e6 = epoch_ e /\ is_Some (e_books e6 !! m_instrument_id c) /\
    next_order_ e6 = next_order_ e + 1 /\
    report_row <$> reports (batch e6) =
      (report_row <$> reports (batch e)) ++ [(entry_type old_id, id, m_price c, m_quantity c)] /\
    filling e6 c (incoming_of c id) ((report_row <$> reports (batch e6)) ++ (fs ≫= fill_rows (m_exchange_id (incoming_of c id))))
      pend M0 (queue (opposite (m_side c)) (market (e_books e6) (m_instrument_id c))) (m_quantity c) fs left e6.
Proof.
  intros id rests m pend key Hwf Had Hnext Hst Hplan Ht (F1&F2&F3&F4) Hb FP Ft Frp ER Ex Hok Hpm ->.
  destruct (resting_fresh e Hwf) as [Hfresh H0]. fold id in Hfresh.
  pose proof (ew_core _ Hwf) as Hcore. pose proof (ec_books _ _ _ _ _ _ _ Hcore) as Hok0.
  pose proof (ew_next _ Hwf) as Hpos. pose proof (ad_side _ _ _ Had) as Hs.
  assert (old_id <> 0 -> exists old, resting_ e !! old_id = Some old /\ id <> old_id /\
    m_instrument_id old = m_instrument_id c /\ m_exchange_id old = old_id /\ m_side old = m_side c /\
    by_client_ e !! key = Some old_id) as Hold.
  { intros Hne. destruct (ad_old _ _ _ Had Hne) as (old & Hm & Hc & Ho & Hi & Hsd).
    destruct (ec_ids _ _ _ _ _ _ _ Hcore _ _ Hm) as [_ Hx]. exists old. split_and!; try done; [congruence|].
    unfold key. rewrite <- Hc, <- Ho. by eapply index_lookup; [apply Hcore|]. }
  rewrite ER in Hok. abstract_state (set_next_order (u64 (next_order_ e2 + 1)) e2) as e3.
  destruct (maybe_retire_ret c old_id id rests (instruments_ e) e3 M0 (market (e_books e)) (m_instrument_id c) pend)
    as (e4 & E4 & (G1&G2&G3&G4) & Hb4 & Hok4 & GR & GP & Grp & Gx & M' & HM & HMwf & HMun & Hpm4 & Hopp);
    unfold tape in *; fields; try done.
  - destruct rests; [|done]. rewrite lookup_insert_ne; [done|unfold id; lia].
  - intros Hne. destruct (Hold Hne) as (old & Hm & Hid & Hi & Hx & Hsd & Hk). split.
    + exists old. split_and!; try done. destruct rests; [by rewrite lookup_insert_ne|done].
    + exists old_id. destruct rests; [|done]. by rewrite decide_False.
  - by rewrite Ft.
  - intros j. by apply market_wf, Hok0.
  - apply Hwf.
  - intros w. unfold pend, pending_view. destruct rests; [|done]. intros [= <-]. cbn.
    destruct (decide (old_id = 0)) as [->|Hne]; [unfold id; lia|]. by destruct (Hold Hne) as (old & _ & ? & _).
  - intros Hne. destruct (Hold Hne) as (old & Hm & _ & Hi & _ & Hsd & _). exists (rest_view old_id old).
    split; [rewrite <- Hi; by eapply market_find|done].
  - exists e4. split; [done|]. assert (clients_ e4 = clients_ e) as GC by (rewrite G3; fields; done).
    split; [done|].
    abstract_state (set_clients (<[m_client_id c := with_max_order c st]> (clients_ e4)) e4) as e5.
    abstract_state (report (incoming_of c id) (entry_type old_id) Reject.None e5) as e6. cbv zeta.
    assert (old_id <> id) as Hne.
    { intros ->. destruct (decide (id = 0)) as [Hz|Hz]; [unfold id in Hz; lia|].
      by destruct (Hold Hz) as (_ & _ & ? & _). }
    assert (forall j, market (e_books e6) j = with_pending (m_instrument_id c) pend M' j) as Hpm6 by by fields.
    assert (queue (opposite (m_side c)) (market (e_books e6) (m_instrument_id c)) =
            queue (opposite (m_side c)) (market (e_books e) (m_instrument_id c))) as Hq.
    { rewrite Hpm6, <- Hopp. unfold with_pending, pend, pending_view. destruct rests; [|done].
      rewrite decide_True by done. unfold lob_insert. rewrite queue_set_queue, decide_False; [done|].
      destruct (rest_message_fields c id left) as (_ & _ & _ & Ms & _). fold m in Ms. cbn. rewrite Ms.
      intros [E _]. by apply (opposite_ne _ Hs). }
    assert (resting_ e6 = entered old_id id rests m (resting_ e)) as HR6.
    { fields. unfold entered. destruct rests; [|done]. by apply delete_insert_ne. }
    assert (reports (batch e6) = reports (batch e) ++
      [as_report (entry_type old_id) Reject.None (epoch_ e5) (u64 (response_sequence_ e5 + 1)) (incoming_of c id)]) as Hrp6.
    { fields. cbn [reports]. rewrite Grp; fields; by rewrite Frp. }
    destruct (plan_ok_total _ _ _ _ _ Hplan) as [Hsum Hleft].
    split; [by fields|]. split; [by fields|]. split; [by fields|].
    split; [fields; unfold id in *; rewrite u64_small by (unfold is_u64; lia); done|].
    split; [rewrite Hrp6, fmap_app; csimpl; rewrite as_report_row; by destruct c|].
    eapply (entered_filling c old_id id rests left fs e e3 e4 e6 M0 st); try done; try (by fields); try lia.
    + fields. rewrite u64_small by (unfold is_u64; lia). done.
    + fields. unfold reindexed. destruct (decide (old_id = 0)), rests; done.
    + clear HR6. revert Hok4. by fields.
    + by rewrite Hq.
    + exists M'. unfold tape. fields. cbn [updates]. by split_and!.
Qed.

Lemma commit_step h c old_id p e b M0 :
  engine_wf e -> admitted c old_id e -> e_books e !! m_instrument_id c = Some b ->
  next_order_ e + 1 < 2 ^ 64 ->
  plan_ok c (queue (opposite (m_side c)) (market (e_books e) (m_instrument_id c))) (m_quantity c) (planned p) (leaves p) ->
  tracked M0 (tape e) (market (e_books e)) ->
  exists e', commit h c old_id p e = Ret e' /\ engine_wf e' /\ instruments_ e' = instruments_ e /\ epoch_ e' = epoch_ e /\
    is_Some (clients_ e' !! m_client_id c) /\
    tracked M0 (tape e') (market (e_books e')) /\ (committed c old_id p e e' \/ no_room h c b e e').
Proof.
  intros Hwf Had Hb Hnext Hplan Ht. destruct (resting_fresh e Hwf) as [Hfresh H0].
  pose proof (ew_core _ Hwf) as Hcore. pose proof (ec_books _ _ _ _ _ _ _ Hcore) as Hok.
  destruct (plan_ok_total _ _ _ _ _ Hplan) as [Hsum Hleft]. pose proof (ad_quantity _ _ _ Had) as Hq.
  pose proof (ad_side _ _ _ Had) as Hs. pose proof (ew_next _ Hwf) as Hpos.
  destruct (ad_client _ _ _ Had) as (st & Hst & _).
  set (rests := comes_to_rest c (leaves p)) in *.
  assert (rests = true -> 0 < m_price c < 2 ^ 32 /\ 0 < leaves p < 2 ^ 32) as Hrest.
  { intros (Hl & _ & Hlim)%bool_decide_eq_true. split; [by eapply ad_price|lia]. }
  pose proof (commit_unfold h c old_id p e) as Hun. cbv zeta in Hun.
  abstract_state (set_positions (emplace (m_client_id c, m_instrument_id c) position_default (positions_ e)) e) as e1.
  specialize (Hun e1).
  destruct (maybe_rest_ret h c old_id (leaves p) rests (instruments_ e) e1 b) as (ok & e2 & E2 & (F1&F2&F3&F4) & Hb2 & FP & Ft & Frp & Hcase);
    [by fields|by fields|by fields|fields; unfold is_u64; lia| |done|done|].
  { pose proof (admitted_fresh_key _ _ _ Hwf Had) as Hk. unfold fresh_key in *. by fields. }
  specialize (Hun ok e2). fold rests in Hun.
  destruct Hcase as [(-> & ER & Ex & Hok2 & Hpm)|(-> & ER & Ex & Hok2 & Hmk & Hno)].
  2: { exists (reject c Reject.Capacity e2). specialize (Hun eq_refl E2). cbn [negb] in Hun.
       destruct (commit_no_room h c b e e1 e2) as [Hwf' Hnr]; try done; try (unfold frame, tape; by fields).
       destruct (reject_eq c Reject.Capacity e2) as ((G1&G2&G3&_) & _).
       split; [done|]. split; [done|]. rewrite G1, G2, G3, F1, F2, F3. fields.
       split; [done|]. split; [done|]. split; [by exists st|].
       split; [|by right]. destruct Hnr as (_ & _ & _ & _ & -> & Hm & _).
       eapply tracked_ext; [done|]. intros j. by rewrite Hm. }
  destruct (commit_taken c old_id (leaves p) (planned p) e e2 (set_next_order (u64 (next_order_ e2 + 1)) e2) M0 st)
    as (e4 & E4 & EC & FI6 & Fe6 & Hb6 & Fn6 & Hr6 & Hfill); try done.
  { unfold frame. rewrite F1, F2, F3, F4. by fields. }
  { rewrite FP. by fields. }
  { rewrite Ft. unfold tape. by fields. }
  { rewrite Frp. by fields. }
  { revert ER. by fields. }
  { revert Ex. by fields. }
  { intros j. rewrite Hpm. by fields. }
  fold rests in E4, Hfill. cbv zeta in *.
  set (e6 := report _ _ _ (set_clients _ e4)) in *.
  assert (next_order_ e1 = next_order_ e) as Hn1 by done. rewrite Hn1 in Hun, E2.
  pose proof (incoming_exchange c (next_order_ e)) as [Hxi Hii].
  assert (forall w, pending_view rests (next_order_ e) (rest_message c (next_order_ e) (leaves p)) = Some w ->
    ov_side w = m_side c) as Hpend.
  { intros w. unfold pending_view. destruct rests; [|done]. intros [= <-].
    by destruct (rest_message_fields c (next_order_ e) (leaves p)) as (_ & _ & _ & ? & _). }
  destruct (fills_step e6 c _ _ _ M0 (planned p) _ _ _ (m_quantity c) e6 Hs Hii Hpend Hb6 Hfill)
    as (tl & e7 & q7 & E7 & Hfill7).
  specialize (Hun eq_refl E2 e4 st tl e7 E4). rewrite EC in Hun. specialize (Hun Hst).
  destruct (fl_frame _ _ _ _ _ _ _ _ _ _ _ Hfill7) as (J1&J2&J3&J4).
  assert (rests = true -> 0 < m_price c /\ 0 < leaves p) as Hrest' by (intros Er; destruct (Hrest Er); lia).
  assert (forall i r, instruments_ e7 !! i = Some r -> rules_ok i r) as Hrules7.
  { rewrite J1, FI6. apply Hwf. }
  assert (0 < next_order_ e7) as Hn7 by lia.
  destruct (finish_step e6 c (next_order_ e) _ M0 q7 (leaves p) e7 Hs Hrest' Hrules7 Hn7 Hfill7)
    as (Hwf8 & (K1&K2&K3&K4) & Ht8 & Hr8).
  exists (finish c (incoming_of c (next_order_ e)) (leaves p) e7).
  split; [by apply Hun; rewrite <- EC|]. split; [done|]. split; [congruence|]. split; [congruence|].
  split; [rewrite K3, J3; unfold e6; cbn [clients_ report set_clients set_batch set_counters]; rewrite lookup_insert_eq; by eexists|].
  split; [done|]. left. split; [congruence|]. rewrite Hr8, Hr6, Hxi, <- !app_assoc. done.
Qed.

End submit.
