(* ===== verification/EngineProcess.v ===== *)
(** * Processing a command

    The checks before an order is committed, [submit], and [process]: under the
    invariant every command returns, keeps the invariant, and publishes deltas
    that replay to the new books. *)
From S2P Require Import Prelude StdMap Types Messages Position LOB Market OrderBook Pool BookInterface.
From S2P Require Import Registry Engine EngineFields EngineInv EngineSteps EngineCommit EngineSubmit.

Section process.
Context {B : Type} `{!BookOps B} `{!BookLaws B}.
Implicit Types (e : Engine B).

(** ** The checks *)

Definition counted (c : Message) (old_id : OrderId) (id : OrderId) (m : Message) : Z :=
  if decide (id = old_id) then 0 else open_of (m_client_id c) (m_instrument_id c) (m_side c) id m.

Lemma exposure_sum c old_id (l : list (OrderId * Message)) a n :
  (foldl (fun '(reserved, open) '(id, order) =>
      if decide (id = old_id \/ m_client_id order <> m_client_id c) then (reserved, open)
      else (if decide (m_instrument_id order = m_instrument_id c /\ m_side order = m_side c)
            then reserved + m_quantity order else reserved, open + 1)) (a, n) l).1 =
  a + sumZ ((fun kv => counted c old_id kv.1 kv.2) <$> l).
Proof.
  revert a n. induction l as [|[id m] l IH]; intros a n; csimpl; [lia|].
  unfold counted at 1. unfold open_of.
  destruct (decide (id = old_id \/ m_client_id m <> m_client_id c)) as [Hskip|Htake].
  - rewrite IH. destruct (decide (id = old_id)); [lia|]. rewrite decide_False by naive_solver. lia.
  - rewrite IH, (decide_False (P := id = old_id)) by tauto.
    assert (m_client_id m = m_client_id c) by (destruct (decide (m_client_id m = m_client_id c)); tauto).
    destruct (decide (m_instrument_id m = m_instrument_id c /\ m_side m = m_side c)).
    + rewrite decide_True by tauto. lia.
    + rewrite decide_False by tauto. lia.
Qed.

(** [reserved] is what the client has open besides the order it replaces. *)
Lemma exposure_reserved c old_id e :
  (exposure c old_id e).1 =
  open_quantity (delete old_id (resting_ e)) (m_client_id c) (m_instrument_id c) (m_side c).
Proof.
  unfold exposure. rewrite exposure_sum, (map_sum_perm (counted c old_id) (resting_ e)) by apply ordered_Permutation.
  unfold open_quantity. destruct (resting_ e !! old_id) as [m|] eqn:E.
  - rewrite (map_sum_delete _ _ _ _ E). unfold counted at 1. rewrite decide_True by done.
    simpl. apply map_sum_ext. intros k v [Hne _]%lookup_delete_Some. unfold counted. by rewrite decide_False.
  - rewrite delete_id by done. simpl. apply map_sum_ext. intros k v Hk. unfold counted.
    rewrite decide_False; [done|]. intros ->. congruence.
Qed.

(** The command's fields in the ranges of their types, as far as they matter here. *)
Definition order_typed (c : Message) : Prop := is_u32 (m_price c) /\ is_u32 (m_quantity c).

Lemma check_fields_None r c old_id :
  check_fields r c old_id = None ->
  valid_side (m_side c) /\ m_order_id c <> 0 /\ m_quantity c <> 0 /\ m_quantity c mod lot_size r = 0 /\
  (m_order_type c = OrderType.Limit ->
     min_price r <= m_price c <= max_price r /\ m_price c mod tick_size r = 0) /\
  m_quantity c <= max_order_quantity r /\
  u64 ((if decide (m_order_type c = OrderType.Market) then max_price r else m_price c) * m_quantity c) <= max_notional r /\
  (old_id <> 0 -> m_order_type c = OrderType.Limit /\ m_tif c = TimeInForce.GTC).
Proof.
  unfold check_fields, valid_side. intros H.
  destruct (decide (_ \/ _)) as [|H1] in H; [done|]. destruct (decide (_ \/ _)) as [|H2] in H; [done|].
  destruct (decide (_ /\ _)) as [|H3] in H; [done|]. destruct (decide (_ < _)) as [|H4] in H; [done|].
  destruct (decide (_ < _)) as [|H5] in H; [done|].
  repeat (apply Decidable.not_or in H1 as [? H1]).
  split_and!; try lia.
  - destruct (decide (m_side c = Bid)); [by left|]. destruct (decide (m_side c = Ask)); [by right|tauto].
  - intros Hl. clear - H3 Hl.
    destruct (decide (m_price c < min_price r \/ max_price r < m_price c \/ m_price c mod tick_size r <> 0)); [tauto|lia].
  - intros Ho. clear - H1 Ho.
    split; [destruct (decide (m_order_type c = OrderType.Limit))|destruct (decide (m_tif c = TimeInForce.GTC))]; tauto.
Qed.

(** What is known of the order to replace before its side is checked. *)
Definition replaceable (c : Message) (old_id : OrderId) e : Prop :=
  old_id <> 0 -> exists old, resting_ e !! old_id = Some old /\ m_client_id old = m_client_id c /\
    m_order_id old = m_order_id c /\ m_instrument_id old = m_instrument_id c.

Lemma limits_without I R P f id :
  limits_ok I R P f -> (forall m, R !! id = Some m -> 0 <= m_quantity m) -> limits_ok I (delete id R) P f.
Proof.
  intros Hl Hq. destruct (R !! id) as [m|] eqn:E; [by eapply limits_delete; eauto|by rewrite delete_id].
Qed.

Lemma pre_trade_step c old_id e :
  engine_wf e -> order_typed c -> is_Some (clients_ e !! m_client_id c) ->
  exists v, pre_trade c old_id e = Ret v /\
    (v = None ->
     (old_id <> 0 -> exists old, resting_ e !! old_id = Some old /\ m_client_id old = m_client_id c /\
        m_order_id old = m_order_id c /\ m_instrument_id old = m_instrument_id c /\ m_side old = m_side c) ->
     admitted c old_id e).
Proof.
  intros Hwf [Hp Hq] [st Hst]. unfold pre_trade.
  destruct (instruments_ e !! m_instrument_id c) as [r|] eqn:Er; [|by eexists].
  destruct (check_fields r c old_id) as [reason|] eqn:Ec; [by eexists|].
  apply check_fields_None in Ec as (Hs & Ho & Hq0 & _ & Hprice & _).
  rewrite (at_key_Some _ _ _ Hst), bind_Ret. case_decide as Hdup; [by eexists|].
  destruct (exposure c old_id e) as [reserved open] eqn:Ex.
  pose proof (exposure_reserved c old_id e) as Hres. rewrite Ex in Hres. cbn [fst] in Hres.
  case_decide as Hopen; [by eexists|]. case_decide as Hworst; [by eexists|].
  exists None. split; [done|]. intros _ Hold. destruct (ew_rules _ Hwf _ _ Er) as [Hvalid _ _ Hmin _ _ _].
  pose proof (ew_core _ Hwf) as Hcore. pose proof (ec_books _ _ _ _ _ _ _ Hcore) as Hok.
  assert (min_price r <> 0) as Hmin0.
  { unfold rules_valid in Hvalid. apply negb_true_iff, bool_decide_eq_false in Hvalid. tauto. }
  unfold is_u32 in *. split; try done; try lia.
  - intros Hl. destruct (Hprice Hl). lia.
  - apply (bo_dom _ _ _ Hok). by exists r.
  - exists st. split; [done|]. intros ->. lia.
  - intros c' i' r' Hr'.
    assert (limits_ok (instruments_ e) (delete old_id (resting_ e)) (positions_ e) grounded) as Hl.
    { apply limits_without; [apply Hwf|]. intros m Hm. destruct (resting_ok _ _ _ _ _ Hok Hm). lia. }
    specialize (Hl c' i' r' Hr'). rewrite !in_flight_grounded in Hl. unfold in_flight. cbn [fl_client fl_instrument fl_side fl_size].
    destruct (decide (m_client_id c = c')) as [<-|]; [|rewrite !decide_False by tauto; lia].
    destruct (decide (m_instrument_id c = i')) as [<-|]; [|rewrite !decide_False by tauto; lia].
    assert (r' = r) as -> by congruence. rewrite Hres in Hworst. unfold position in Hworst.
    fold (quantity_of (positions_ e) (m_client_id c) (m_instrument_id c)) in Hworst.
    destruct Hs as [Hs|Hs]; rewrite Hs in *; [rewrite decide_True in Hworst by done|rewrite decide_False in Hworst by done];
      [rewrite decide_True by done; rewrite decide_False by naive_solver|rewrite decide_False by naive_solver; rewrite decide_True by done]; lia.
Qed.

(** ** The plan against the book *)

Lemma plan_fills_step c b e :
  engine_wf e -> valid_side (m_side c) -> 0 < m_quantity c < 2 ^ 32 -> e_books e !! m_instrument_id c = Some b ->
  let q := queue (opposite (m_side c)) (market (e_books e) (m_instrument_id c)) in
  exists p, plan_fills c b e = Ret p /\
    (plan_rejection p = Reject.None /\ plan_ok c q (m_quantity c) (planned p) (leaves p) /\
       (planned p <> [] -> m_post_only c = false) /\
       Forall (fun f => exists m, resting_ e !! fill_id f = Some m /\ m_client_id m <> m_client_id c) (planned p) \/
     plan_rejection p = Reject.PostOnly /\ m_post_only c = true /\
       (exists v, head q = Some v /\ crosses c (ov_price v) = true) \/
     plan_rejection p = Reject.SelfTrade /\
       (exists v m, v ∈ q /\ crosses c (ov_price v) = true /\ resting_ e !! ov_id v = Some m /\
          m_client_id m = m_client_id c)).
Proof.
  intros Hwf Hs Hq Hb q. pose proof (ec_books _ _ _ _ _ _ _ (ew_core _ Hwf)) as Hok.
  pose proof (bo_wf _ _ _ Hok _ _ Hb) as Hbwf. unfold plan_fills. rewrite bk_visit_spec by done.
  rewrite <- (market_lookup _ _ _ Hb). fold q.
  destruct (plan_visit_list c e q [] (m_quantity c)) as (p & -> & Hp); [done| |].
  - apply Forall_forall. intros v Hv. unfold q in Hv. rewrite (market_lookup _ _ _ Hb) in Hv.
    pose proof (bk_abs_wf _ Hbwf) as Hlwf. pose proof (wf_order _ Hlwf _ _ Hv) as [_ _ Hvq].
    split; [|done]. apply (elem_of_queue_side _ _ _ Hlwf (opposite_valid _ Hs)) in Hv as [Hv _].
    apply (bo_match _ _ _ Hok _ _ Hb) in Hv as (m & Hm & _). by exists m.
  - exists p. split; [done|]. destruct Hp as [(Hr & fs & Hfs & Hplan & Hpo & Hown)|Hp]; [left|by right].
    simpl in Hfs. subst fs. done.
Qed.

(** ** [submit] *)

(** What a submission can come to. *)
Inductive submitted (h : Heap) (c : Message) (old_id : OrderId) e e' : Prop :=
| Refused reason :
    frame e e' -> same_maps e e' -> tape e' = tape e ->
    (exists sq, reports (batch e') =
       reports (batch e) ++ [as_report ReportType.Rejected reason (epoch_ e) sq c]) ->
    submitted h c old_id e e'
| NoRoom b : e_books e !! m_instrument_id c = Some b -> no_room h c b e e' -> submitted h c old_id e e'
| Reduced old :
    old_id <> 0 -> resting_ e !! old_id = Some old -> m_price old = m_price c ->
    m_quantity c <= m_quantity old ->
    resting_ e' = <[old_id := set_quantity (m_quantity c) old]> (resting_ e) ->
    by_client_ e' = by_client_ e -> positions_ e' = positions_ e -> frame e e' ->
    submitted h c old_id e e'
| Taken p :
    plan_ok c (queue (opposite (m_side c)) (market (e_books e) (m_instrument_id c)))
      (m_quantity c) (planned p) (leaves p) ->
    (planned p <> [] -> m_post_only c = false) ->
    (m_tif c = TimeInForce.FOK -> leaves p = 0) ->
    Forall (fun f => exists m, resting_ e !! fill_id f = Some m /\ m_client_id m <> m_client_id c) (planned p) ->
    committed c old_id p e e' -> submitted h c old_id e e'.

(** The engine after a step, with its tape. *)
Definition stepped (c : Message) (M0 : InstrumentId -> LOB) e e' : Prop :=
  engine_wf e' /\ instruments_ e' = instruments_ e /\ epoch_ e' = epoch_ e /\
  is_Some (clients_ e' !! m_client_id c) /\ tracked M0 (tape e') (market (e_books e')) /\
  next_order_ e <= next_order_ e' <= next_order_ e + 1.

Lemma reject_step c M0 r e :
  engine_wf e -> is_Some (clients_ e !! m_client_id c) -> tracked M0 (tape e) (market (e_books e)) ->
  stepped c M0 e (reject c r e).
Proof.
  intros Hwf Hst Ht. destruct (reject_eq c r e) as (Hf & Hs & Et & _).
  pose proof (engine_wf_same e _ Hwf Hf Hs) as Hwf'.
  destruct Hf as (F1&F2&F3&F4), Hs as (Fb&_). unfold stepped. rewrite F1, F2, F3, F4, Et, Fb. split_and!; try done; lia.
Qed.

Lemma refused h c old_id r e : submitted h c old_id e (reject c r e).
Proof. destruct (reject_eq c r e) as (Hf & Hs & Et & Hr). by apply (Refused _ _ _ _ _ r). Qed.

Lemma plan_and_commit_step h c old_id e b M0 :
  engine_wf e -> admitted c old_id e -> e_books e !! m_instrument_id c = Some b ->
  next_order_ e + 1 < 2 ^ 64 -> tracked M0 (tape e) (market (e_books e)) ->
  exists e', plan_and_commit h c old_id b e = Ret e' /\ stepped c M0 e e' /\ submitted h c old_id e e'.
Proof.
  intros Hwf Had Hb Hn Ht. unfold plan_and_commit.
  assert (is_Some (clients_ e !! m_client_id c)) as Hst by (destruct (ad_client _ _ _ Had) as (st & ? & _); eauto).
  destruct (plan_fills_step c b e Hwf (ad_side _ _ _ Had) (ad_quantity _ _ _ Had) Hb) as (p & -> & Hp).
  rewrite bind_Ret. case_decide as Hrej.
  { eexists. split; [done|]. split; [by apply reject_step|apply refused]. }
  destruct Hp as [(_ & Hplan & Hpo & Hown)|[(Hr & _)|(Hr & _)]]; [|by rewrite Hr in Hrej..].
  case_decide as Hfok.
  { eexists. split; [done|]. split; [by apply reject_step|apply refused]. }
  destruct (commit_step h c old_id p e b M0 Hwf Had Hb Hn Hplan Ht) as (e' & -> & Hwf' & HI & He & Hc & Ht' & Hout).
  exists e'. split; [done|]. split.
  - split_and!; try done; destruct Hout as [[-> _]|(_ & -> & _)]; lia.
  - destruct Hout as [Hcom|Hno]; [|by eapply NoRoom]. apply (Taken _ _ _ _ _ p); try done.
    intros Hf. destruct (decide (leaves p = 0)); [done|]. tauto.
Qed.

Lemma submit_step h c old_id e M0 :
  engine_wf e -> order_typed c -> is_Some (clients_ e !! m_client_id c) -> replaceable c old_id e ->
  next_order_ e + 1 < 2 ^ 64 -> tracked M0 (tape e) (market (e_books e)) ->
  exists e', submit h c old_id e = Ret e' /\ stepped c M0 e e' /\ submitted h c old_id e e'.
Proof.
  intros Hwf Hty Hst Hrep Hn Ht. unfold submit.
  destruct (pre_trade_step c old_id e Hwf Hty Hst) as (v & -> & Hv). rewrite bind_Ret.
  destruct v as [reason|].
  { eexists. split; [done|]. split; [by apply reject_step|apply refused]. }
  specialize (Hv eq_refl). pose proof (ec_books _ _ _ _ _ _ _ (ew_core _ Hwf)) as Hok.
  destruct (decide (old_id = 0)) as [Hz|Hnz].
  - assert (admitted c old_id e) as Had by (apply Hv; done). destruct (ad_book _ _ _ Had) as [b Hb].
    rewrite (at_key_Some _ _ _ Hb), bind_Ret. by apply plan_and_commit_step.
  - destruct (Hrep Hnz) as (old & Hold & Hc & Ho & Hi).
    destruct (bo_home _ _ _ Hok _ _ Hold) as [b Hb]. rewrite Hi in Hb.
    rewrite (at_key_Some _ _ _ Hb), bind_Ret, (at_key_Some _ _ _ Hold), bind_Ret.
    case_decide as Hside.
    { eexists. split; [done|]. split; [by apply reject_step|apply refused]. }
    assert (m_side old = m_side c) as Hs by (destruct (decide (m_side old = m_side c)); tauto).
    assert (admitted c old_id e) as Had.
    { apply Hv. intros _. by exists old. }
    case_decide as Hred; [|by apply plan_and_commit_step].
    destruct Hred as [Hpx Hq]. pose proof (ad_quantity _ _ _ Had) as Hq0.
    destruct (reduce_in_place_step e c old_id old Hwf Hold) as (e' & -> & Hwf' & Hf & HR & Hx & HP & Ht');
      [done|lia|]. exists e'. split; [done|]. split; [|by apply (Reduced _ _ _ _ _ old)].
    destruct Hf as (F1&F2&F3&F4). split_and!; try done; [by rewrite F3|by apply Ht'|lia|lia].
Qed.

(** ** [CancelAll] *)

Definition selected (c : Message) (m : Message) : Prop :=
  m_client_id m = m_client_id c /\ (m_instrument_id c = 0 \/ m_instrument_id m = m_instrument_id c).

#[export] Instance selected_dec c m : Decision (selected c m).
Proof. unfold selected. apply _. Defined.

Lemma cancel_all_step c e M0 :
  engine_wf e -> tracked M0 (tape e) (market (e_books e)) ->
  exists e', cancel_all c e = Ret e' /\ engine_wf e' /\ frame e e' /\
    tracked M0 (tape e') (market (e_books e')) /\ positions_ e' = positions_ e /\
    resting_ e' = filter (fun kv => ~ selected c kv.2) (resting_ e).
Proof.
  intros Hwf Ht. unfold cancel_all.
  set (sel := filter _ (ordered Z.le (resting_ e))).
  assert (forall id, id ∈ sel.*1 <-> exists m, resting_ e !! id = Some m /\ selected c m) as Hids.
  { intros id. rewrite list_elem_of_fmap. split.
    - intros ([k m] & -> & [Hs Hm]%list_elem_of_filter). apply (elem_of_ordered Z.le) in Hm. by exists m.
    - intros (m & Hm & Hs). exists (id, m). split; [done|]. apply list_elem_of_filter. split; [done|].
      by apply elem_of_ordered. }
  assert (NoDup sel.*1) as Hnd.
  { pose proof (NoDup_ordered_keys Z.le (resting_ e)) as Hnd. unfold sel.
    apply (sublist_NoDup _ _ Hnd), fmap_sublist, sublist_filter. }
  destruct (foldM_inv (fun done e' => engine_wf e' /\ frame e e' /\ tracked M0 (tape e') (market (e_books e')) /\
      positions_ e' = positions_ e /\
      forall id, resting_ e' !! id = if decide (id ∈ done) then None else resting_ e !! id)
    (fun e id => cancel id (m_request_id c) e) sel.*1) with (s := e) as (e' & -> & Hwf' & Hf & Ht' & HP & HR).
  - intros done id rest e1 Esel (Hwf1 & (F1&F2&F3&F4) & Ht1 & HP1 & HR1).
    rewrite Esel in Hnd. apply NoDup_app in Hnd as (_ & Hdone & Hrest).
    assert (id ∉ done) as Hid by (intros Hin; apply (Hdone _ Hin); left).
    assert (id ∈ sel.*1) as Hin by (rewrite Esel; set_solver).
    apply Hids in Hin as (m & Hm & _).
    destruct (cancel_step e1 id m (m_request_id c) Hwf1) as (e2 & -> & Hwf2 & (G1&G2&G3&G4) & HR2 & _ & HP2 & Ht2).
    { rewrite HR1. by rewrite decide_False. }
    exists e2. split; [done|]. split; [done|]. split; [split_and!; congruence|]. split; [by apply Ht2|].
    split; [congruence|]. intros id'. rewrite HR2, lookup_delete, HR1.
    destruct (decide (id = id')) as [->|Hne].
    + by rewrite decide_True by set_solver.
    + destruct (decide (id' ∈ done)); [rewrite decide_True|rewrite decide_False]; set_solver.
  - by split_and!.
  - exists e'. split_and!; try done. apply map_eq. intros id. rewrite HR.
    destruct (decide (id ∈ sel.*1)) as [Hin|Hni].
    + symmetry. apply map_lookup_filter_None. right. intros m Hm. simpl.
      apply Hids in Hin as (m' & Hm' & Hs). intros Hns. by replace m with m' in Hns by congruence.
    + destruct (resting_ e !! id) as [m|] eqn:Hm; symmetry.
      * apply map_lookup_filter_Some. split; [done|]. simpl. intros Hs. apply Hni, Hids. by exists m.
      * apply map_lookup_filter_None. by left.
Qed.

(** ** [process] *)

Lemma index_order e c o id :
  engine_wf e -> by_client_ e !! (c, o) = Some id ->
  exists m, resting_ e !! id = Some m /\ m_client_id m = c /\ m_order_id m = o.
Proof. intros Hwf Hk. by apply (ec_index _ _ _ _ _ _ _ (ew_core _ Hwf)). Qed.

Lemma perform_step h c e M0 :
  engine_wf e -> order_typed c -> is_Some (clients_ e !! m_client_id c) ->
  next_order_ e + 1 < 2 ^ 64 -> tracked M0 (tape e) (market (e_books e)) ->
  exists e', perform h c e = Ret e' /\ stepped c M0 e e'.
Proof.
  intros Hwf Hty Hst Hn Ht. unfold perform.
  assert (exists e', Ret (reject c Reject.UnknownOrder e) = Ret e' /\ stepped c M0 e e') as Hunknown
    by (eexists; split; [done|by apply reject_step]).
  assert (exists e', Ret (reject c Reject.InvalidCommand e) = Ret e' /\ stepped c M0 e e') as Hinvalid
    by (eexists; split; [done|by apply reject_step]).
  assert (exists e', match by_client_ e !! (m_client_id c, m_order_id c) with
    | None => Ret (reject c Reject.UnknownOrder e)
    | Some id =>
      order ← at_key (resting_ e) id;
      if decide (m_instrument_id order <> m_instrument_id c) then Ret (reject c Reject.UnknownOrder e)
      else if decide (m_action c = Action.Cancel) then cancel id (m_request_id c) e
      else submit h c id e
    end = Ret e' /\ stepped c M0 e e') as Hfind.
  { destruct (by_client_ e !! _) as [id|] eqn:Hk; [|done].
    destruct (index_order e _ _ _ Hwf Hk) as (m & Hm & Hc & Ho).
    rewrite (at_key_Some _ _ _ Hm), bind_Ret. case_decide as Hi; [done|].
    destruct (decide (m_instrument_id m = m_instrument_id c)) as [Hi'|]; [|tauto]. case_decide as Hact.
    - destruct (cancel_step e id m (m_request_id c) Hwf Hm) as (e' & -> & Hwf' & (F1&F2&F3&F4) & _ & _ & _ & Ht').
      exists e'. split; [done|]. split_and!; try done; [by rewrite F3|by apply Ht'|lia|lia].
    - destruct (submit_step h c id e M0) as (e' & -> & Hs & _); [done..| |done|done|by exists e'].
      intros _. by exists m. }
  destruct (m_action c); try done.
  - destruct (submit_step h c 0 e M0) as (e' & -> & Hs & _); [done|done|done|by intros ?|done|done|by exists e'].
  - destruct (cancel_all_step c e M0 Hwf Ht) as (e' & -> & Hwf' & (F1&F2&F3&F4) & Ht' & _ & _).
    exists e'. split; [done|]. split_and!; try done; [by rewrite F3|lia|lia].
Qed.

(** Updating the client's watermark keeps the invariant. *)
Lemma engine_wf_clients e c st :
  engine_wf e ->
  (forall st', clients_ e !! c = Some st' -> cl_max_order_id st' <= cl_max_order_id st) ->
  engine_wf (set_clients (<[c := st]> (clients_ e)) e).
Proof.
  intros [Hcore Hrules Hnext Hnet Hlim Hun] Hst.
  abstract_state (set_clients (<[c := st]> (clients_ e)) e) as e'. split; fields; try done.
  eapply core_weaken; [done|lia| |done]. intros c' st' Hc'. destruct (decide (c = c')) as [<-|].
  - exists st. rewrite lookup_insert_eq. split; [done|by apply Hst].
  - exists st'. by rewrite lookup_insert_ne.
Qed.

Lemma complete_step c e M0 :
  engine_wf e -> is_Some (clients_ e !! m_client_id c) -> tracked M0 (tape e) (market (e_books e)) ->
  exists e' m, complete c e = Ret e' /\ engine_wf e' /\ instruments_ e' = instruments_ e /\ epoch_ e' = epoch_ e /\
    tracked M0 (tape e') (market (e_books e')) /\ next_order_ e' = next_order_ e /\ same_maps e e' /\
    batch e' = mkBatch (reports (batch e) ++
      [as_report ReportType.Complete Reject.None (epoch_ e) (u64 (response_sequence_ e + 1)) m]) (updates (batch e)) /\
    (exists mx, clients_ e' = <[m_client_id c := mkClient (m_request_id c) mx c
       (filter (fun m => m_client_id m = m_client_id c) (reports (batch e')))]> (clients_ e)).
Proof.
  intros Hwf [st Hst] Ht. unfold complete.
  assert (exists m, match by_client_ e !! (m_client_id c, m_order_id c) with
      | Some id =>
        order ← at_key (resting_ e) id;
        Ret (set_exchange_id id (set_remaining (m_quantity order) c))
      | None => Ret c
      end = Ret m) as [m ->].
  { destruct (by_client_ e !! _) as [id|] eqn:Hk; [|by eexists].
    destruct (index_order e _ _ _ Hwf Hk) as (m & Hm & _). rewrite (at_key_Some _ _ _ Hm), bind_Ret. by eexists. }
  rewrite bind_Ret. assert (engine_wf (report m ReportType.Complete Reject.None e)) as Hwf1.
  { apply (engine_wf_same e); [done|by split_and!|by split_and!]. }
  abstract_state (report m ReportType.Complete Reject.None e) as e1.
  rewrite (at_key_Some _ _ st) by (fields; done). rewrite bind_Ret.
  set (st1 := mkClient _ _ _ _).
  pose proof (engine_wf_clients e1 (m_client_id c) st1 Hwf1) as Hwf2.
  abstract_state (set_clients (<[m_client_id c := st1]> (clients_ e1)) e1) as e2.
  exists e2, m. split; [done|]. split.
  { apply Hwf2. intros st'. fields. rewrite Hst. intros [= <-]. done. }
  unfold same_maps, tape in *. fields. split_and!; try done.
  exists (cl_max_order_id st). unfold st1. by fields.
Qed.

Lemma tracked_nil M : tracked M [] M.
Proof. by intros i. Qed.

(** Emptying the batch, and everything else [process] does before it acts. *)
Lemma engine_wf_batch e b : engine_wf e -> engine_wf (set_batch b e).
Proof. intros Hwf. apply (engine_wf_same e); [done|by split_and!|by split_and!]. Qed.

(** A command that only reports: the maps stay, nothing is published. *)
Definition only_reports e e' : Prop :=
  frame e e' /\ same_maps e e' /\ tape e' = tape e.

(** What [process] promises. *)
Definition processed e b e' : Prop :=
  engine_wf e' /\ instruments_ e' = instruments_ e /\ epoch_ e' = epoch_ e /\
  next_order_ e <= next_order_ e' <= next_order_ e + 1 /\
  forall i, replay_lob i (updates b) (market (e_books e) i) = Some (market (e_books e') i).

Lemma done_step e e1 :
  engine_wf e1 -> instruments_ e1 = instruments_ e -> epoch_ e1 = epoch_ e ->
  next_order_ e <= next_order_ e1 <= next_order_ e + 1 ->
  tracked (market (e_books e)) (tape e1) (market (e_books e1)) ->
  exists b e', Ret (batch e1, set_batch (mkBatch [] []) e1) = Ret (b, e') /\ processed e b e'.
Proof.
  intros Hwf HI He [? ?] Ht. pose proof (engine_wf_batch e1 (mkBatch [] []) Hwf) as Hwf2. unfold tape in Ht.
  abstract_state (set_batch (mkBatch [] []) e1) as e2. exists (batch e1), e2. split; [done|].
  unfold processed. fields. by split_and!.
Qed.

Lemma done_reports e e0 e1 :
  engine_wf e0 -> instruments_ e0 = instruments_ e -> epoch_ e0 = epoch_ e -> next_order_ e0 = next_order_ e ->
  e_books e0 = e_books e -> tape e0 = [] -> frame e0 e1 -> same_maps e0 e1 -> tape e1 = tape e0 ->
  exists b e', Ret (batch e1, set_batch (mkBatch [] []) e1) = Ret (b, e') /\ processed e b e'.
Proof.
  intros Hwf HI He Hn Hb Ht0 Hf Hs Ht. pose proof (engine_wf_same e0 e1 Hwf Hf Hs) as Hwf1.
  destruct Hf as (F1&F2&F3&F4), Hs as (Fb&_).
  apply done_step; [done|congruence|congruence|lia|]. rewrite Ht, Ht0, Fb, Hb. apply tracked_nil.
Qed.

Lemma process_step h c e :
  engine_wf e -> order_typed c -> next_order_ e + 1 < 2 ^ 64 ->
  exists b e', process h c e = Ret (b, e') /\ processed e b e'.
Proof.
  intros Hwf Hty Hn. unfold process.
  pose proof (engine_wf_batch e (mkBatch [] []) Hwf) as Hwf0.
  abstract_state (set_batch (mkBatch [] []) e) as e0. cbv zeta.
  assert (tape e0 = []) as Et0 by (unfold tape; by fields).
  do 3 (case_decide; [eapply (done_reports e e0); first [done|by split_and!]|]).
  set (state := default client_default (clients_ e0 !! m_client_id c)).
  assert (engine_wf (set_clients (<[m_client_id c := state]> (clients_ e0)) e0)) as Hwf1.
  { apply engine_wf_clients; [done|]. intros st' Hst. unfold state. by rewrite Hst. }
  abstract_state (set_clients (<[m_client_id c := state]> (clients_ e0)) e0) as e1.
  assert (tape e1 = []) as Et1 by (unfold tape in *; by fields).
  case_decide; [eapply (done_reports e e1); first [done|by fields|by split_and!]|].
  case_decide; [eapply (done_reports e e1); first [done|by fields|by split_and!]|].
  set (s := mkStats _ _ _ _).
  assert (engine_wf (set_stats s e1)) as Hwf2 by (apply (engine_wf_same e1); [done|by split_and!|by split_and!]).
  abstract_state (set_stats s e1) as e2.
  assert (tracked (market (e_books e)) (tape e2) (market (e_books e2))) as Ht2.
  { assert (tape e2 = []) as -> by (unfold tape in *; by fields). fields. apply tracked_nil. }
  assert (is_Some (clients_ e2 !! m_client_id c)) as Hst2 by (fields; rewrite lookup_insert_eq; by eexists).
  destruct (perform_step h c e2 (market (e_books e)) Hwf2 Hty Hst2) as (e3 & -> & Hwf3 & HI3 & He3 & Hst3 & Ht3 & Hn3);
    [by fields|done|]. rewrite bind_Ret.
  destruct (complete_step c e3 (market (e_books e)) Hwf3 Hst3 Ht3)
    as (e4 & m & -> & Hwf4 & HI4 & He4 & Ht4 & Hn4 & _ & _ & _). rewrite bind_Ret.
  apply done_step; [done|rewrite HI4, HI3; by fields|rewrite He4, He3; by fields| |done].
  rewrite Hn4. revert Hn3. by fields.
Qed.

End process.
