(* ===== verification/EngineTheorems.v ===== *)
(** * What the matching engine guarantees

    The engine from its construction through any sequence of commands. *)
From S2P Require Import Prelude StdMap Types Messages Position LOB Market OrderBook Pool BookInterface BookTheorems.
From S2P Require Import Registry Engine EngineFields EngineInv EngineSteps EngineCommit EngineSubmit EngineProcess.

Section engine_theorems.
Context {B : Type} `{!BookOps B} `{!BookLaws B}.
Implicit Types (e : Engine B).

(** ** Construction *)

Lemma new_books (heap : InstrumentId -> Heap) l :
  (forall i, heap_ok (heap i) CAPACITY_BYTES) -> NoDup l.*1 ->
  forall books b', (foldM (fun books '(id, r) =>
        if rules_valid id r then
          b ← bk_new (heap id) CAPACITY_BYTES;
          Ret (<[id := b]> books)
        else Throw (InvalidArgument "Invalid instrument rules")) books l : outcome (gmap InstrumentId B)) = Ret b' ->
  (forall i b, books !! i = Some b -> bk_wf b /\ bk_abs b = lob_empty) ->
  (forall i b, b' !! i = Some b -> bk_wf b /\ bk_abs b = lob_empty) /\
  (forall i, is_Some (b' !! i) <-> is_Some (books !! i) \/ i ∈ l.*1) /\
  Forall (fun ir => rules_valid ir.1 ir.2 = true) l.
Proof.
  intros Hheap. induction l as [|[id r] l IH]; intros Hnd books b'; csimpl.
  { intros [= <-] Hb. split_and!; [done| |constructor]. set_solver. }
  apply NoDup_cons in Hnd as [Hid Hnd].
  destruct (rules_valid id r) eqn:Hv; [|done]. intros (books1 & (b & Eb & [= <-])%bind_Ret_inv & H)%bind_Ret_inv Hb.
  destruct (bk_new_spec (heap id) CAPACITY_BYTES) as [(b1 & Eb1 & Hwf & Ha)|[Eb1 _]]; [vm_compute; discriminate|done| |congruence].
  assert (b1 = b) as -> by congruence.
  destruct (IH Hnd _ _ H) as (H1 & H2 & H3).
  { intros i b1. destruct (decide (id = i)) as [->|]; [rewrite lookup_insert_eq; by intros [= <-]|].
    rewrite lookup_insert_ne by done. apply Hb. }
  split; [done|]. split; [|by constructor]. intros i. rewrite H2, elem_of_cons.
  destruct (decide (id = i)) as [->|]; [rewrite lookup_insert_eq; naive_solver|].
  rewrite lookup_insert_ne by done. naive_solver.
Qed.

Definition rules_typed (r : InstrumentRules) : Prop :=
  is_u32 (tick_size r) /\ is_u32 (lot_size r) /\ is_u32 (min_price r) /\ is_u32 (max_price r) /\
  is_u32 (max_order_quantity r) /\ is_u64 (max_notional r).

Lemma engine_new_wf heap I epoch e :
  (forall i, heap_ok (heap i) CAPACITY_BYTES) -> map_Forall (fun _ r => rules_typed r) I ->
  engine_new heap I epoch = Ret e ->
  engine_wf e /\ instruments_ e = I /\ next_order_ e = 1 /\ forall i, market (e_books e) i = lob_empty.
Proof.
  intros Hheap Hty. unfold engine_new. case_decide; [done|].
  intros (books & Hr & [= <-])%bind_Ret_inv.
  destruct (new_books heap (ordered Z.le I) Hheap (NoDup_ordered_keys Z.le I) ∅ books Hr)
    as (Hb & Hdom & Hrules); [done|]. rewrite Forall_forall in Hrules.
  assert (forall i, market books i = lob_empty) as Hm.
  { intros i. unfold market. destruct (books !! i) as [b|] eqn:E; [|done]. by apply (Hb i). }
  split; [|done]. split; cbn [instruments_ e_books resting_ by_client_ clients_ positions_ next_order_]; [| |lia| | |].
  - split; [split| | | |]; try done.
    + intros i. rewrite Hdom. rewrite list_elem_of_fmap. split.
      * intros [[? ?]|([k r] & -> & Hkr)]; [done|]. apply (elem_of_ordered Z.le) in Hkr. by exists r.
      * intros [r Hr']. right. exists (i, r). split; [done|]. by apply elem_of_ordered.
    + intros i b Hi. by apply (Hb i).
    + intros i b Hi v. destruct (Hb i b Hi) as [_ ->]. split; [set_solver|].
      intros (m & Hm' & _). by rewrite lookup_empty in Hm'.
    + intros c o id. rewrite lookup_empty. split; [done|]. intros (m & Hm' & _). by rewrite lookup_empty in Hm'.
  - intros i r Hr'. destruct (Hty i r Hr') as (? & ? & ? & ? & ? & ?). split; try done.
    apply (Hrules (i, r)). by apply elem_of_ordered.
  - intros i. apply map_sum_empty.
  - intros c i r Hr'. unfold open_quantity. rewrite !map_sum_empty, !in_flight_grounded.
    unfold quantity_of. rewrite lookup_empty. simpl. destruct (Hty i r Hr').
    assert (rules_valid i r = true) as Hv by (apply (Hrules (i, r)); by apply elem_of_ordered).
    unfold rules_valid in Hv. apply negb_true_iff, bool_decide_eq_false in Hv. lia.
  - intros i. rewrite Hm. intros v w Hv. by apply not_elem_of_nil in Hv.
Qed.

(** ** A sequence of commands *)

(** Each command with the heap it finds, and the batches they produce. *)
Fixpoint engine_run (cs : list (Heap * Message)) e : outcome (list Batch * Engine B) :=
  match cs with
  | [] => Ret ([], e)
  | (h, c) :: cs =>
    '(b, e) ← process h c e;
    '(bs, e) ← engine_run cs e;
    Ret (b :: bs, e)
  end.

Lemma engine_run_step cs : forall e,
  engine_wf e -> Forall (fun hc => order_typed hc.2) cs -> next_order_ e + Z.of_nat (length cs) < 2 ^ 64 ->
  exists bs e', engine_run cs e = Ret (bs, e') /\ engine_wf e' /\ instruments_ e' = instruments_ e /\
    next_order_ e' <= next_order_ e + Z.of_nat (length cs) /\
    forall i, replay_lob i (bs ≫= updates) (market (e_books e) i) = Some (market (e_books e') i).
Proof.
  induction cs as [|[h c] cs IH]; intros e Hwf Hty Hn.
  { exists [], e. split_and!; try done; simpl; lia. }
  apply Forall_cons in Hty as [Hc Hty]. cbn [length] in Hn. cbn [engine_run].
  destruct (process_step h c e Hwf Hc) as (b & e1 & -> & Hwf1 & HI1 & _ & Hn1 & Ht1); [lia|].
  rewrite bind_Ret. destruct (IH e1 Hwf1 Hty) as (bs & e2 & -> & Hwf2 & HI2 & Hn2 & Ht2); [lia|].
  rewrite bind_Ret. exists (b :: bs), e2. split; [done|]. split; [done|]. split; [congruence|].
  split; [cbn [length]; lia|]. intros i. rewrite bind_cons, replay_lob_app, Ht1. apply Ht2.
Qed.

Lemma open_quantity_nonneg I books (R : gmap OrderId Message) c i s :
  books_ok (B := B) I books R -> 0 <= open_quantity R c i s.
Proof.
  intros Hok. apply map_sum_nonneg. intros id m Hm. unfold open_of. case_decide; [|done].
  destruct (resting_ok _ _ _ _ _ Hok Hm). lia.
Qed.

Lemma position_within e c i r :
  engine_wf e -> instruments_ e !! i = Some r -> Z.abs (quantity_of (positions_ e) c i) <= max_position r.
Proof.
  intros Hwf Hr. pose proof (ec_books _ _ _ _ _ _ _ (ew_core _ Hwf)) as Hok.
  destruct (ew_limits _ Hwf c i r Hr) as [H1 H2]. rewrite !in_flight_grounded in *.
  pose proof (open_quantity_nonneg _ _ _ c i Bid Hok). pose proof (open_quantity_nonneg _ _ _ c i Ask Hok). lia.
Qed.

(** C1: An engine the constructor built processes any sequence of commands
    without an exception and without undefined behaviour: no [map::at] misses,
    no [require] fails, no book operation is refused.  Afterwards no book is
    crossed, the positions in every instrument sum to zero, no position exceeds
    its limit, and the books, the resting orders, the client index and the
    positions agree with each other.  2^64 order ids are enough for as many
    commands. *)
Theorem engine_run_safe heap I epoch cs e :
  (forall i, heap_ok (heap i) CAPACITY_BYTES) -> map_Forall (fun _ r => rules_typed r) I ->
  engine_new heap I epoch = Ret e ->
  Forall (fun hc => order_typed hc.2) cs -> Z.of_nat (length cs) < 2 ^ 64 - 1 ->
  exists bs e', engine_run cs e = Ret (bs, e') /\ engine_wf e' /\
    (forall i, lob_uncrossed (market (e_books e') i)) /\
    (forall i, net_position (positions_ e') i = 0) /\
    (forall c i r, I !! i = Some r -> Z.abs (quantity_of (positions_ e') c i) <= max_position r).
Proof.
  intros Hheap Hrules Hnew Hty Hlen. destruct (engine_new_wf heap I epoch e Hheap Hrules Hnew) as (Hwf & HI & Hn & _).
  destruct (engine_run_step cs e Hwf Hty) as (bs & e' & E & Hwf' & HI' & _ & _); [lia|].
  exists bs, e'. split; [done|]. split; [done|]. split; [apply Hwf'|]. split; [apply Hwf'|].
  intros c i r Hr. apply position_within; [done|]. congruence.
Qed.

(** C3: The published deltas tell the whole story of the books: replaying the
    updates of any commands, in order, on the books as they were gives exactly
    the books as they are, orders and time priority included, instrument by
    instrument; every delta applies. *)
Theorem updates_replay cs e :
  engine_wf e -> Forall (fun hc => order_typed hc.2) cs -> next_order_ e + Z.of_nat (length cs) < 2 ^ 64 ->
  exists bs e', engine_run cs e = Ret (bs, e') /\
    forall i, replay_lob i (bs ≫= updates) (market (e_books e) i) = Some (market (e_books e') i).
Proof.
  intros Hwf Hty Hn. destruct (engine_run_step cs e Hwf Hty Hn) as (bs & e' & E & _ & _ & _ & Ht).
  by exists bs, e'.
Qed.


(** C5: [CancelAll] takes out exactly the client's orders, in one instrument or
    in all, keeps every other order and all positions, and its deltas replay. *)
Theorem cancel_all_correct c e :
  engine_wf e -> updates (batch e) = [] ->
  exists e', cancel_all c e = Ret e' /\ engine_wf e' /\ positions_ e' = positions_ e /\
    resting_ e' = filter (fun kv => ~ selected c kv.2) (resting_ e) /\
    forall i, replay_lob i (updates (batch e')) (market (e_books e) i) = Some (market (e_books e') i).
Proof.
  intros Hwf Hb. destruct (cancel_all_step c e (market (e_books e)) Hwf) as (e' & E & Hwf' & _ & Ht & HP & HR).
  { unfold tape. rewrite Hb. apply tracked_nil. }
  by exists e'.
Qed.

(** ** Retries *)

(** A command in sequence from a client: everything [process] checks before it
    performs it. *)
Record in_sequence (c : Message) e : Prop := {
  sq_kind : m_kind c = Kind.Command;
  sq_action : m_action c <> Action.Snapshot /\ m_action c <> Action.Status;
  sq_ids : m_client_id c <> 0;
  sq_request : m_request_id c = last_request (m_client_id c) e + 1;
  sq_range : 0 < m_request_id c < 2 ^ 64
}.

Lemma process_in_sequence h c e :
  in_sequence c e ->
  let state := default client_default (clients_ e !! m_client_id c) in
  let e0 := set_clients (<[m_client_id c := state]> (clients_ e)) (set_batch (mkBatch [] []) e) in
  let s := stats_ e in
  process h c e =
    (e1 ← perform h c (set_stats (mkStats (u64 (st_commands s + 1)) (st_rejected s) (st_trades s) (st_volume s)) e0);
     e2 ← complete c e1; Ret (batch e2, set_batch (mkBatch [] []) e2)).
Proof.
  intros [Hk [Ha1 Ha2] Hc Hr Hrange] state e0 s. unfold process. cbv zeta.
  rewrite decide_False by tauto. rewrite decide_False by done. rewrite decide_False by lia.
  change (clients_ (set_batch (mkBatch [] []) e)) with (clients_ e). fold state. fold e0.
  assert (cl_last_request state = last_request (m_client_id c) e) as El.
  { unfold state, last_request. by destruct (clients_ e !! m_client_id c). }
  rewrite El. rewrite decide_False by lia. rewrite decide_False; [done|].
  rewrite u64_small by (unfold is_u64; lia). lia.
Qed.

Lemma complete_client c e e' :
  complete c e = Ret e' ->
  exists mx, clients_ e' !! m_client_id c =
    Some (mkClient (m_request_id c) mx c (filter (fun m => m_client_id m = m_client_id c) (reports (batch e')))).
Proof.
  unfold complete. intros (m & _ & H)%bind_Ret_inv. cbv zeta in H.
  apply bind_Ret_inv in H as (st & _ & [= <-]). exists (cl_max_order_id st).
  cbn [clients_ set_clients batch]. by rewrite lookup_insert_eq.
Qed.

Lemma set_batch_twice b1 b2 e : set_batch b1 (set_batch b2 e) = set_batch b1 e.
Proof. done. Qed.

(** C4: A command sent again after it was processed is answered from the cache:
    the client gets exactly the reports the first answer had for it, nothing is
    published, and the engine is left as it was, to the last field. *)
Theorem retry_idempotent h h' c e b e' :
  in_sequence c e -> process h c e = Ret (b, e') ->
  process h' c e' = Ret (mkBatch (filter (fun m => m_client_id m = m_client_id c) (reports b)) [], e').
Proof.
  intros Hseq. rewrite (process_in_sequence h c e Hseq). cbv zeta.
  intros (e1 & _ & (e2 & Hc & [= <- <-])%bind_Ret_inv)%bind_Ret_inv.
  destruct (complete_client c e1 e2 Hc) as (mx & Hst). destruct Hseq as [Hk [Ha1 Ha2] Hcl Hr Hrange].
  set (e3 := set_batch (mkBatch [] []) e2).
  assert (clients_ e3 !! m_client_id c = clients_ e2 !! m_client_id c) as E3 by done.
  unfold process. cbv zeta. rewrite decide_False by tauto. rewrite decide_False by done. rewrite decide_False by lia.
  unfold e3. rewrite set_batch_twice. fold e3. rewrite E3, Hst. cbn [default from_option cl_last_request cl_last_command cl_cached].
  rewrite decide_True by done. do 2 f_equal.
  transitivity (set_batch (mkBatch [] []) (set_clients (clients_ e3) e3)); [|done].
  rewrite set_batch_twice. do 2 f_equal. apply insert_id. by rewrite E3.
Qed.

End engine_theorems.
