(* ===== verification/EngineSamples.v ===== *)
(** * A sample engine

    An engine over pool-backed books with the default instruments, after a few
    commands of two clients; it carries the witnesses of the engine's theorems. *)
From S2P Require Import Prelude StdMap Types Messages Position LOB Market OrderBook Pool BookInterface BookTheorems.
From S2P Require Import Registry Engine EngineFields EngineInv EngineSteps EngineCommit EngineSubmit EngineProcess EngineTheorems EngineSequence.

Definition command (a : Action.t) (s : Side) (client request order price quantity : Z) : Message :=
  mkMessage Kind.Command a s OrderType.Limit TimeInForce.GTC ReportType.Accepted Reject.None UpdateType.Add
    false 0 0 client price request order 0 1 quantity 0 0.

Definition sample_commands : list (Heap * Message) :=
  (sample_heap,.) <$>
    [ command Action.New Ask 1 1 11 101 5; command Action.New Ask 1 2 12 102 5;
      command Action.New Bid 2 1 21 99 4; command Action.New Bid 2 2 22 101 2 ].

Definition from_ret {A} (d : A) (m : outcome A) : A := match m with Ret a => a | _ => d end.

Definition engine_empty : Engine (OrderBook Pool) := mkEngine ∅ ∅ ∅ ∅ ∅ ∅ 0 0 0 1 1 (mkStats 0 0 0 0) (mkBatch [] []).
Definition sample_start : Engine (OrderBook Pool) :=
  from_ret engine_empty (engine_new (fun _ => sample_heap) default_instruments 1).
Definition sample_engine : Engine (OrderBook Pool) :=
  (from_ret ([], engine_empty) (engine_run sample_commands sample_start)).2.

Lemma sample_heaps_ok (i : InstrumentId) : heap_ok sample_heap CAPACITY_BYTES.
Proof. apply sample_heap_ok. Qed.

Lemma default_instruments_typed : map_Forall (fun _ r => rules_typed r) default_instruments.
Proof.
  assert (rules_typed default_rules) as Hr by (repeat split; vm_compute; congruence).
  apply map_Forall_insert_2; [done|]. by apply map_Forall_singleton.
Qed.

Lemma sample_commands_typed : Forall (fun hc => order_typed hc.2) sample_commands.
Proof. repeat constructor; vm_compute; congruence. Qed.

Lemma sample_start_eq : engine_new (fun _ => sample_heap) default_instruments 1 = Ret sample_start.
Proof. vm_compute. reflexivity. Qed.

Lemma sample_engine_wf : engine_wf sample_engine.
Proof.
  destruct (engine_new_wf _ _ _ _ sample_heaps_ok default_instruments_typed sample_start_eq) as (Hwf & _ & Hn & _).
  destruct (engine_run_step sample_commands sample_start Hwf sample_commands_typed) as (bs & e & E & He & _).
  { rewrite Hn. vm_compute. congruence. }
  unfold sample_engine. by rewrite E.
Qed.

Lemma engine_run_safe_witness :
  exists bs e', engine_run sample_commands sample_start = Ret (bs, e') /\ engine_wf e'.
Proof.
  destruct (engine_run_safe (fun _ => sample_heap) default_instruments 1 sample_commands sample_start
    sample_heaps_ok default_instruments_typed sample_start_eq sample_commands_typed)
    as (bs & e' & E & Hwf & _); [vm_compute; congruence|].
  exists bs, e'. exact (conj E Hwf).
Defined.

(** A bid that fills one ask in full, the next in part, and rests. *)
Definition sample_taker : Message := command Action.New Bid 3 1 31 102 12.

Lemma updates_replay_witness :
  exists bs e', engine_run [(sample_heap, sample_taker)] sample_engine = Ret (bs, e') /\
    forall i, replay_lob i (bs ≫= updates) (market (e_books sample_engine) i) = Some (market (e_books e') i).
Proof.
  apply (updates_replay [(sample_heap, sample_taker)] sample_engine sample_engine_wf).
  - repeat constructor; vm_compute; congruence.
  - vm_compute. reflexivity.
Defined.

Definition sample_known : Message := command Action.New Bid 2 3 23 102 12.


Lemma cancel_all_correct_witness :
  exists e', cancel_all (command Action.CancelAll Bid 1 3 0 0 0) sample_engine = Ret e' /\
    positions_ e' = positions_ sample_engine.
Proof.
  destruct (cancel_all_correct (command Action.CancelAll Bid 1 3 0 0 0) sample_engine sample_engine_wf)
    as (e' & E & _ & HP & _); [vm_compute; reflexivity|].
  exists e'. exact (conj E HP).
Defined.

Definition sample_answer : Batch * Engine (OrderBook Pool) :=
  from_ret (mkBatch [] [], engine_empty) (process sample_heap sample_taker sample_engine).

Lemma sample_answer_eq : process sample_heap sample_taker sample_engine = Ret (sample_answer.1, sample_answer.2).
Proof. vm_compute. reflexivity. Qed.

Lemma retry_idempotent_witness :
  process sample_heap sample_taker sample_answer.2 =
    Ret (mkBatch (filter (fun m => m_client_id m = 3) (reports sample_answer.1)) [], sample_answer.2) /\
  length (reports sample_answer.1) = 6%nat.
Proof.
  split; [|vm_compute; reflexivity].
  refine (retry_idempotent sample_heap sample_heap sample_taker sample_engine _ _ _ sample_answer_eq).
  split; repeat split; vm_compute; congruence.
Defined.

Lemma process_sequences_witness : numbered_updates sample_engine sample_answer.1 sample_answer.2.
Proof.
  refine (proj1 (proj2 (process_sequences sample_heap sample_taker sample_engine _ _ sample_answer_eq _ _)));
    split; vm_compute; congruence.
Defined.
