(* ===== verification/Replica.v ===== *)
(** * The market replica

    [include/order_book/trading/replica.hpp] and [src/trading/replica.cpp]:
    the client's copy of the books, built from a snapshot and kept up to date by
    the deltas.  Both mutators change the replica and may throw, so they return
    the outcome beside the state. *)
From S2P Require Import Prelude StdMap Types Messages LOB Market OrderBook Pool BookInterface Engine.

Section replica.
Context {B : Type} {Bops : BookOps B}.

Record MarketReplica := mkReplica {
  rp_books : gmap InstrumentId B;
  rp_epoch : Z;
  rp_sequence : Sequence;
  rp_synchronized : bool
}.

Definition replica_new : MarketReplica := mkReplica ∅ 0 0 false.

(** [void invalidate() noexcept] *)
Definition invalidate (r : MarketReplica) : MarketReplica :=
  mkReplica (rp_books r) (rp_epoch r) (rp_sequence r) false.

(** [books[m.instrument_id].apply(AddOrder{...})]: [operator[]] builds a book
    for a new instrument, and leaves it there when the order is refused. *)
Definition add_row (h : Heap) (m : Message) (books : gmap InstrumentId B)
    : outcome (ApplyResult * gmap InstrumentId B) :=
  b ← match books !! m_instrument_id m with Some b => Ret b | None => bk_new h CAPACITY_BYTES end;
  '(r, b) ← bk_add h (mkAdd (m_exchange_id m) (m_side m) (m_price m) (m_quantity m)) b;
  Ret (r, <[m_instrument_id m := b]> books).

(** One round of the loop of [restore]; [heaps i] is the heap it meets. *)
Definition restore_row (heaps : nat -> Heap) (front : Message) (total : nat)
    (st : gmap InstrumentId B * gset OrderId) (im : nat * Message)
    : outcome (gmap InstrumentId B * gset OrderId) :=
  let '(books, ids) := st in
  let '(i, m) := im in
  if decide (m_epoch m <> m_epoch front \/ m_sequence m <> m_sequence front)
  then Throw (RuntimeError "Inconsistent snapshot watermark")
  else if decide (i = 0 \/ i = total - 1)%nat then Ret st
  else if decide (m_kind m <> Kind.SnapshotOrder \/ m_instrument_id m = 0 \/ m_exchange_id m = 0 \/
                  m_exchange_id m ∈ ids)
  then Throw (RuntimeError "Invalid snapshot order")
  else
    '(r, books) ← add_row (heaps i) m books;
    if decide (r <> Ok) then Throw (RuntimeError "Invalid snapshot order")
    else Ret (books, {[m_exchange_id m]} ∪ ids).

(** [*book.best_bid() >= *book.best_ask()] when both are there. *)
Definition book_crossed (b : B) : bool :=
  match bk_best Bid b, bk_best Ask b with
  | Some bid, Some ask => bool_decide (ask <= bid)
  | _, _ => false
  end.

Definition check_restored (books : gmap InstrumentId B) : outcome unit :=
  foldM (fun _ kb =>
    bad ← bk_validate kb.2;
    if decide (bad <> None) then Throw (RuntimeError "Invalid snapshot book")
    else if book_crossed kb.2 then Throw (RuntimeError "Invalid snapshot book")
    else Ret tt) tt (ordered Z.le books).

(** The private build of [restore]. *)
Definition restore_books (heaps : nat -> Heap) (rows : list Message) : outcome (Message * gmap InstrumentId B) :=
  match rows, last rows with
  | front :: _ :: _, Some back =>
    if decide (m_kind front <> Kind.SnapshotBegin \/ m_kind back <> Kind.SnapshotEnd \/ m_epoch front = 0 \/
               Z.of_nat (length rows) - 2 <> m_quantity front \/ m_quantity back <> m_quantity front)
    then Throw (RuntimeError "Invalid snapshot envelope/count")
    else
      '(books, _) ← foldM (restore_row heaps front (length rows)) (∅, ∅) (zip (seq 0 (length rows)) rows);
      _ ← check_restored books;
      Ret (front, books)
  | _, _ => Throw (RuntimeError "Invalid snapshot envelope/count")
  end.

(** [void restore(std::span<const Message>)] *)
Definition restore (heaps : nat -> Heap) (rows : list Message) (r : MarketReplica) : outcome unit * MarketReplica :=
  match restore_books heaps rows with
  | Ret (front, books) => (Ret tt, mkReplica books (m_epoch front) (m_sequence front) true)
  | Throw e => (Throw e, invalidate r)
  end.

(** The books after one delta; [it] is looked up before [operator[]] runs. *)
Definition apply_delta (h : Heap) (m : Message) (books : gmap InstrumentId B)
    : outcome (ApplyResult * gmap InstrumentId B) :=
  let i := m_instrument_id m in
  if decide (m_update m = UpdateType.Trade) then Ret (Ok, books)
  else if decide (m_update m = UpdateType.Add) then add_row h m books
  else match books !! i with
  | None => Ret (UnknownInstrument, books)
  | Some b =>
    match m_update m with
    | UpdateType.Cancel =>
      '(r, b) ← bk_cancel (mkCancel (m_exchange_id m)) b; Ret (r, <[i := b]> books)
    | UpdateType.Execute =>
      '(r, b) ← bk_execute (mkExecute (m_exchange_id m) (m_quantity m)) b; Ret (r, <[i := b]> books)
    | UpdateType.Reduce =>
      old ← bk_remaining (m_exchange_id m) b;
      match old with
      | None => Ret (InvalidQuantity, books)
      | Some old =>
        if decide (m_quantity m = 0 \/ old <= m_quantity m) then Ret (InvalidQuantity, books)
        else
          '(r, b) ← bk_execute (mkExecute (m_exchange_id m) (u32 (old - m_quantity m))) b;
          Ret (r, <[i := b]> books)
      end
    | _ => Ret (ParseError, books)
    end
  end.

(** [bool consume(const Message&)] *)
Definition consume (h : Heap) (m : Message) (r : MarketReplica) : outcome bool * MarketReplica :=
  if negb (rp_synchronized r) then (Ret false, r)
  else if decide (m_epoch m <> rp_epoch r) then (Ret false, invalidate r)
  else if decide (m_kind m = Kind.Heartbeat) then
    if decide (rp_sequence r < m_sequence m) then (Ret false, invalidate r) else (Ret true, r)
  else if decide (m_kind m <> Kind.Delta) then (Ret false, invalidate r)
  else if decide (m_sequence m <= rp_sequence r) then (Ret true, r)
  else if decide (u64 (m_sequence m - rp_sequence r) <> 1) then (Ret false, invalidate r)
  else match apply_delta h m (rp_books r) with
  | Throw e => (Throw e, r)
  | Ret (result, books) =>
    if decide (result <> Ok) then (Ret false, mkReplica books (rp_epoch r) (rp_sequence r) false)
    else (Ret true, mkReplica books (rp_epoch r) (m_sequence m) true)
  end.

(** Queries. *)
Definition replica_book (i : InstrumentId) (r : MarketReplica) : option B := rp_books r !! i.

Definition replica_order_count (r : MarketReplica) : nat :=
  sum_list ((fun kb => bk_count kb.2) <$> ordered Z.le (rp_books r)).

Definition replica_mark (kind : Kind.t) (r : MarketReplica) : Message :=
  mkMessage kind Action.New Bid OrderType.Limit TimeInForce.GTC ReportType.Accepted Reject.None
    UpdateType.Add false (rp_epoch r) (rp_sequence r) 0 0 0 0 0 0
    (u32 (Z.of_nat (replica_order_count r))) 0 0.

Definition replica_row (r : MarketReplica) (i : InstrumentId) (v : OrderView) : Message :=
  mkMessage Kind.SnapshotOrder Action.New (ov_side v) OrderType.Limit TimeInForce.GTC ReportType.Accepted
    Reject.None UpdateType.Add false (rp_epoch r) (rp_sequence r) 0 (ov_price v) 0 0 (ov_id v) i
    (ov_quantity v) 0 0.

(** [std::vector<Message> snapshot() const] *)
Definition replica_snapshot (r : MarketReplica) : outcome (list Message) :=
  if negb (rp_synchronized r) then Throw (LogicError "Unsynchronized book is unavailable")
  else
    rows ← mapO (fun '(i, b) =>
        levels ← bk_snapshot b;
        Ret (replica_row r i <$> (levels ≫= lv_orders))) (ordered Z.le (rp_books r));
    Ret (replica_mark Kind.SnapshotBegin r :: concat rows ++ [replica_mark Kind.SnapshotEnd r]).
End replica.
Arguments MarketReplica : clear implicits.
