(* ===== verification/ReplicaTheorems.v ===== *)
(** * What the market replica guarantees

    Its books are those of the engine it follows, or it says so. *)
From S2P Require Import Prelude StdMap Types Messages LOB Market OrderBook Pool BookInterface.
From S2P Require Import Registry Engine EngineSequence EngineInv EngineProcess EngineTheorems Replica.

Section replica_laws.
Context {B : Type} {Bops : BookOps B} {Blaws : BookLaws B}.
Implicit Types (books : gmap InstrumentId B) (r : MarketReplica B).

(** Memory ran out: the heap refused something, or a pool is full. *)
Definition short (h : Heap) books : Prop :=
  ~ heap_grants h \/ heap_block h = None \/
  exists i b, books !! i = Some b /\ (bk_slots b <= lob_count (bk_abs b))%nat.

(** Every pool is one that was there, or one built with [h]. *)
Definition pools_from (h : Heap) books books' : Prop :=
  forall Q : nat -> Prop, map_Forall (fun _ b => Q (bk_slots b)) books ->
    (forall b, bk_new h CAPACITY_BYTES = Ret b -> Q (bk_slots b)) -> map_Forall (fun _ b => Q (bk_slots b)) books'.

(** An operation on the book of instrument [i] that should do [spec]. *)
Definition row_effect (h : Heap) (i : InstrumentId) (spec : ApplyResult * LOB) books
    (out : outcome (ApplyResult * gmap InstrumentId B)) : Prop :=
  (out = Throw BadAlloc /\ heap_block h = None) \/
  exists res books', out = Ret (res, books') /\ books_wf books' /\ pools_from h books books' /\
    ((res = Ok /\ spec.1 = Ok /\ forall j, market books' j = if decide (j = i) then spec.2 else market books j) \/
     (res <> Ok /\ (forall j, market books' j = market books j) /\ (spec.1 <> Ok \/ short h books'))).

Lemma market_put books i b l j :
  bk_abs b = l -> market (<[i := b]> books) j = if decide (j = i) then l else market books j.
Proof. intros <-. case_decide as E; [subst; apply market_insert_eq|by apply market_insert_ne]. Qed.

Lemma market_same books i b l j :
  market books i = l -> bk_abs b = l -> market (<[i := b]> books) j = market books j.
Proof. intros E1 E2. rewrite (market_put books i b l j E2). by case_decide; subst. Qed.

Lemma add_row_effect h m books :
  books_wf books -> message_typed m -> heap_ok h CAPACITY_BYTES ->
  row_effect h (m_instrument_id m)
    (lob_add (mkAdd (m_exchange_id m) (m_side m) (m_price m) (m_quantity m)) (market books (m_instrument_id m)))
    books (add_row h m books).
Proof.
  intros Hwf Hm Hh. set (i := m_instrument_id m). set (a := mkAdd _ _ _ _).
  assert (AddOrder_ok a) as Ha by (split; apply Hm).
  assert ((match books !! i with Some b => Ret b | None => bk_new h CAPACITY_BYTES end = Throw BadAlloc /\
           heap_block h = None) \/
          exists b, match books !! i with Some b => Ret b | None => bk_new h CAPACITY_BYTES end = Ret b /\
            bk_wf b /\ bk_abs b = market books i /\ (books !! i = Some b \/ bk_new h CAPACITY_BYTES = Ret b))
    as [[E1 E2]|(b & E & Hb & Eb & Hfrom)].
  { destruct (books !! i) as [b|] eqn:Ei.
    - right. exists b. split; [done|]. split; [by apply (Hwf i)|]. split; [|by left]. symmetry. by apply market_lookup.
    - unfold market. rewrite Ei. destruct (bk_new_spec h CAPACITY_BYTES) as [(b & E & Hb & Eb)|[E Hn]];
        [vm_compute; discriminate|done|right; exists b; by auto|left]. split; [done|].
      destruct Hn as [Hn|Hn]; [done|by vm_compute in Hn]. }
  { left. unfold add_row. fold i. by rewrite E1. }
  right. unfold add_row. fold i a. rewrite E, bind_Ret.
  destruct (bk_add_spec h a b Hb Ha) as (res & b' & -> & Hb' & Hs & Hspec). rewrite bind_Ret.
  exists res, (<[i := b']> books). split; [done|]. split; [by apply books_wf_insert|]. split.
  { intros Q HQ Hnew. apply map_Forall_insert_2; [|done]. rewrite Hs. destruct Hfrom as [Hi|Hi]; [by apply (HQ i)|by apply Hnew]. }
  rewrite Eb in Hspec. pose proof (lob_add_not_Ok a (market books i)) as Hno.
  destruct (lob_add a (market books i)) as [res' l]. simpl in *.
  destruct Hspec as [[= -> El]|(-> & -> & Es & Hshort)].
  - destruct (decide (res' = Ok)) as [->|Hr]; [left|right].
    + split; [done|]. split; [done|]. intros j. by apply market_put.
    + split; [done|]. split; [|by left]. intros j. eapply market_same; [done|]. by rewrite El, (Hno Hr).
  - right. split; [done|]. split; [intros j; by eapply market_same|]. right. unfold short.
    destruct Hshort as [?|Hfull]; [by left|right; right]. exists i, b'.
    rewrite lookup_insert_eq. split; [done|]. by rewrite Es, Hs.
Qed.

Lemma existing_row_effect h i b spec books out :
  books_wf books -> books !! i = Some b -> effect bk_wf bk_abs bk_slots b out spec ->
  (spec.1 <> Ok -> spec.2 = market books i) ->
  row_effect h i spec books ('(res, b) ← out; Ret (res, <[i := b]> books)).
Proof.
  intros Hwf Hi (res & b' & -> & Hb' & Hs & Hspec) Hno. rewrite bind_Ret. right.
  exists res, (<[i := b']> books). split; [done|]. split; [by apply books_wf_insert|]. split.
  { intros Q HQ _. apply map_Forall_insert_2; [|done]. rewrite Hs. by apply (HQ i). }
  destruct spec as [res' l]. injection Hspec as -> El. simpl in *.
  destruct (decide (res' = Ok)) as [->|Hr]; [left|right].
  - split; [done|]. split; [done|]. intros j. by apply market_put.
  - split; [done|]. split; [|by left]. intros j. eapply market_same; [done|]. rewrite El. auto.
Qed.

Lemma lob_cancel_not_Ok e b : (lob_cancel e b).1 <> Ok -> (lob_cancel e b).2 = b.
Proof. unfold lob_cancel. by destruct (lob_find _ _). Qed.
Lemma lob_execute_not_Ok e b : (lob_execute e b).1 <> Ok -> (lob_execute e b).2 = b.
Proof. unfold lob_execute. destruct (lob_find _ _); [|done]. by repeat case_decide. Qed.

Lemma refuse_effect h i spec books res :
  books_wf books -> res <> Ok -> spec.1 <> Ok -> row_effect h i spec books (Ret (res, books)).
Proof. intros Hwf Hr Hs. right. exists res, books. do 2 (split; [done|]). split; [by intros Q ? _|]. right. auto. Qed.

Lemma apply_delta_effect h m books :
  books_wf books -> message_typed m -> heap_ok h CAPACITY_BYTES ->
  row_effect h (m_instrument_id m) (delta_lob m (market books (m_instrument_id m))) books (apply_delta h m books).
Proof.
  intros Hwf Hm Hh. unfold apply_delta, delta_lob. cbv zeta. case_decide as Ht.
  { rewrite Ht. right. exists Ok, books. do 2 (split; [done|]). split; [by intros Q ? _|]. left. split; [done|]. split; [done|].
    intros j. simpl. by case_decide; subst. }
  case_decide as Hadd; [rewrite Hadd; by apply add_row_effect|].
  destruct (books !! m_instrument_id m) as [b|] eqn:Ei.
  2: { apply refuse_effect; [done..|]. assert (market books (m_instrument_id m) = lob_empty) as ->.
       { unfold market. by rewrite Ei. }
       by destruct (m_update m). }
  pose proof (Hwf _ _ Ei) as Hb. simpl in Hb. rewrite (market_lookup _ _ _ Ei).
  destruct (m_update m); try done; try (by apply refuse_effect).
  - apply existing_row_effect with (b := b); try done; [by apply bk_cancel_spec|].
    rewrite (market_lookup _ _ _ Ei). apply lob_cancel_not_Ok.
  - apply existing_row_effect with (b := b); try done; [apply bk_execute_spec; [done|apply Hm]|].
    rewrite (market_lookup _ _ _ Ei). apply lob_execute_not_Ok.
  - rewrite bk_remaining_spec by done. rewrite bind_Ret.
    destruct (lob_remaining (m_exchange_id m) (bk_abs b)) as [old|]; [|by apply refuse_effect].
    case_decide; [by apply refuse_effect|].
    apply existing_row_effect with (b := b); try done; [apply bk_execute_spec; [done|apply u32_range]|].
    rewrite (market_lookup _ _ _ Ei). apply lob_execute_not_Ok.
Qed.

(** ** Following the deltas *)

Record live r : Prop := {
  lv_books : books_wf (rp_books r);
  lv_synchronized : rp_synchronized r = true
}.

(** The next delta of the epoch. *)
Definition next_delta (m : Message) r : Prop :=
  m_kind m = Kind.Delta /\ m_epoch m = rp_epoch r /\ m_sequence m = rp_sequence r + 1.

Lemma consume_next h m r :
  live r -> next_delta m r -> message_typed m -> heap_ok h CAPACITY_BYTES ->
  let spec := delta_lob m (market (rp_books r) (m_instrument_id m)) in
  (consume h m r = (Throw BadAlloc, r) /\ heap_block h = None) \/
  (exists r', consume h m r = (Ret true, r') /\ live r' /\ rp_epoch r' = rp_epoch r /\
     rp_sequence r' = m_sequence m /\ spec.1 = Ok /\
     forall j, market (rp_books r') j = if decide (j = m_instrument_id m) then spec.2 else market (rp_books r) j) \/
  (exists r', consume h m r = (Ret false, r') /\ rp_synchronized r' = false /\
     (forall j, market (rp_books r') j = market (rp_books r) j) /\ (spec.1 <> Ok \/ short h (rp_books r'))).
Proof.
  intros [Hwf Hs] (Hk & He & Hq) Hm Hh spec. unfold consume. rewrite Hs. cbn [negb].
  rewrite decide_False by congruence. rewrite decide_False by congruence.
  rewrite decide_False by (rewrite Hk; tauto). rewrite decide_False by lia.
  rewrite decide_False by (replace (m_sequence m - rp_sequence r) with 1 by lia; vm_compute; tauto).
  destruct (apply_delta_effect h m (rp_books r) Hwf Hm Hh) as [[-> ?]|(res & books' & -> & Hwf' & _ & [(-> & Hok & Hmk)|(Hr & Hmk & Hbad)])].
  - by left.
  - right; left. rewrite decide_False by tauto. eexists. split; [done|]. by split_and!.
  - right; right. rewrite decide_True by done. eexists. by split_and!.
Qed.

(** The loop of a subscriber: every message in turn, until one throws. *)
Fixpoint follow (hms : list (Heap * Message)) r : outcome unit * MarketReplica B :=
  match hms with
  | [] => (Ret tt, r)
  | (h, m) :: hms =>
    match consume h m r with
    | (Ret _, r) => follow hms r
    | (Throw e, r) => (Throw e, r)
    end
  end.

Lemma follow_desynchronized hms r : rp_synchronized r = false -> follow hms r = (Ret tt, r).
Proof. intros Hs. induction hms as [|[h m] hms IH]; simpl; [done|]. unfold consume. rewrite Hs. apply IH. Qed.

(** How following can fail. *)
Definition gave_up (hms : list (Heap * Message)) (res : outcome unit) r' : Prop :=
  (res = Throw BadAlloc /\ exists h, h ∈ hms.*1 /\ heap_block h = None) \/
  (res = Ret tt /\ rp_synchronized r' = false /\ exists h, h ∈ hms.*1 /\ short h (rp_books r')).

Lemma gave_up_cons hm hms res r' : gave_up hms res r' -> gave_up (hm :: hms) res r'.
Proof. intros [(? & h & ? & ?)|(? & ? & h & ? & ?)]; [left|right]; split_and!; try done; exists h; csimpl; split; try done; by right. Qed.

Lemma follow_step hms : forall r M s',
  live r -> is_u64 (rp_sequence r) -> rp_sequence r + Z.of_nat (length hms) < 2 ^ 64 ->
  numbered Kind.Delta (rp_epoch r) (rp_sequence r) hms.*2 s' ->
  Forall (fun hm => message_typed hm.2 /\ heap_ok hm.1 CAPACITY_BYTES) hms ->
  (forall i, replay_lob i hms.*2 (market (rp_books r) i) = Some (M i)) ->
  (exists r', follow hms r = (Ret tt, r') /\ live r' /\ rp_epoch r' = rp_epoch r /\ rp_sequence r' = s' /\
     forall i, market (rp_books r') i = M i) \/
  (exists res r', follow hms r = (res, r') /\ gave_up hms res r').
Proof.
  induction hms as [|[h m] hms IH]; intros r M s' Hl Hr Hlen Hn Hty HM; csimpl.
  { left. exists r. csimpl in Hn. split; [done|]. split; [done|]. split; [done|]. split; [done|].
    intros i. specialize (HM i). simpl in HM. congruence. }
  csimpl in Hn. destruct Hn as ([Hk He] & Hq & Hn). cbn [length] in Hlen.
  apply Forall_cons in Hty as [[Hm Hh] Hty]. cbn [fst snd] in *.
  rewrite u64_small in Hq, Hn by (unfold is_u64 in *; lia).
  assert (next_delta m r) as Hnd by done.
  destruct (consume_next h m r Hl Hnd Hm Hh) as [[-> Hb]|[(r' & -> & Hl' & He' & Hq' & Hok & Hmk)|(r' & -> & Hs' & Hmk & Hbad)]].
  - right. exists (Throw BadAlloc), r. split; [done|]. left. split; [done|]. exists h. split; [by left|done].
  - assert (forall i, replay_lob i hms.*2 (market (rp_books r') i) = Some (M i)) as HM'.
    { intros i. specialize (HM i). csimpl in HM. unfold replay_one in HM. rewrite Hmk.
      destruct (decide (i = m_instrument_id m)) as [->|Hi].
      - rewrite decide_True in HM by done. destruct (delta_lob _ _) as [res l]. simpl in *. by rewrite Hok in HM.
      - by rewrite decide_False in HM by congruence. }
    rewrite <- Hq in Hn. rewrite <- Hq', <- He' in Hn.
    destruct (IH r' M s' Hl') as [(r2 & E & H1 & H2 & H3 & H4)|(res & r2 & E & Hg)]; try done.
    + rewrite Hq', Hq. unfold is_u64 in *. lia.
    + rewrite Hq', Hq. lia.
    + left. exists r2. by rewrite H2, He'.
    + right. exists res, r2. split; [done|]. by apply gave_up_cons.
  - right. exists (Ret tt), r'. split; [by apply follow_desynchronized|]. right. split; [done|]. split; [done|].
    exists h. split; [by left|]. destruct Hbad as [Hbad|]; [|done]. destruct Hbad.
    specialize (HM (m_instrument_id m)). csimpl in HM. unfold replay_one in HM.
    rewrite decide_True in HM by done. by destruct (delta_lob _ _) as [[] ?].
Qed.

(** The replica agrees with the engine. *)
Record mirrors (e : Engine B) r : Prop := {
  mi_live : live r;
  mi_epoch : rp_epoch r = epoch_ e;
  mi_sequence : rp_sequence r = e_sequence e;
  mi_books i : market (rp_books r) i = market (e_books e) i
}.

Lemma engine_run_numbered cs : forall (e : Engine B) bs e',
  engine_run cs e = Ret (bs, e') ->
  epoch_ e' = epoch_ e /\ numbered Kind.Delta (epoch_ e) (e_sequence e) (bs ≫= updates) (e_sequence e').
Proof.
  induction cs as [|[h c] cs IH]; intros e bs e'; cbn [engine_run].
  - by intros [= <- <-].
  - intros ([b e1] & (He & Hu & _)%process_numbered & ([bs1 e2] & H2 & [= <- <-])%bind_Ret_inv)%bind_Ret_inv.
    destruct (IH e1 bs1 e2 H2) as [He2 Hu2]. split; [congruence|]. rewrite bind_cons.
    eapply numbered_app; [exact Hu|]. by rewrite <- He.
Qed.

(** C7: A replica that agrees with the engine and receives the updates of any
    sequence of commands, in order and each as the wire types it, agrees with
    the engine again: same epoch, same sequence, and in every instrument the
    same orders with the same quantities in the same priority.  The only other
    ends are an exhausted memory: the replica reports itself unsynchronized, or
    the construction of a book threw [bad_alloc]. *)
Theorem replica_tracks_engine cs (e : Engine B) r hms bs e' :
  engine_wf e -> Forall (fun hc => order_typed hc.2) cs -> next_order_ e + Z.of_nat (length cs) < 2 ^ 64 ->
  engine_run cs e = Ret (bs, e') -> mirrors e r -> is_u64 (e_sequence e) ->
  hms.*2 = bs ≫= updates -> e_sequence e + Z.of_nat (length hms) < 2 ^ 64 ->
  Forall (fun hm => message_typed hm.2 /\ heap_ok hm.1 CAPACITY_BYTES) hms ->
  (exists r', follow hms r = (Ret tt, r') /\ mirrors e' r') \/
  (exists res r', follow hms r = (res, r') /\ gave_up hms res r').
Proof.
  intros Hwf Hty Hn Hrun [Hl He Hq Hb] Hs Hhms Hlen Hok.
  destruct (engine_run_numbered _ _ _ _ Hrun) as [He' Hnum].
  destruct (engine_run_step cs e Hwf Hty Hn) as (bs1 & e1 & E & _ & _ & _ & Ht).
  assert (bs1 = bs /\ e1 = e') as [-> ->] by (split; congruence). rewrite <- Hhms in Hnum, Ht.
  destruct (follow_step hms r (market (e_books e')) (e_sequence e') Hl) as [(r' & Ef & H1 & H2 & H3 & H4)|Hg]; try done.
  - by rewrite Hq.
  - by rewrite Hq.
  - by rewrite Hq, He.
  - intros i. rewrite Hb. apply Ht.
  - left. exists r'. split; [done|]. split; [done|congruence|done|done].
  - by right.
Qed.

(** ** Restoring a snapshot *)

Definition row_view (m : Message) : OrderView :=
  mkView (m_exchange_id m) (m_side m) (m_price m) (m_quantity m).

(** The book the rows of a snapshot describe. *)
Definition rows_book (i : InstrumentId) (rows : list Message) : LOB :=
  foldl (fun b m => if decide (m_instrument_id m = i) then lob_insert (row_view m) b else b) lob_empty rows.

Definition watermark_ok (front m : Message) : Prop := m_epoch m = m_epoch front /\ m_sequence m = m_sequence front.

Record row_ok (front m : Message) : Prop := {
  ro_mark : watermark_ok front m;
  ro_kind : m_kind m = Kind.SnapshotOrder;
  ro_instrument : m_instrument_id m <> 0;
  ro_id : m_exchange_id m <> 0;
  ro_side : valid_side (m_side m);
  ro_price : m_price m <> 0;
  ro_quantity : m_quantity m <> 0
}.

(** What a snapshot must be. *)
Definition snapshot_ok (rows : list Message) (front : Message) (mid : list Message) : Prop :=
  exists back, rows = front :: mid ++ [back] /\
    m_kind front = Kind.SnapshotBegin /\ m_kind back = Kind.SnapshotEnd /\ m_epoch front <> 0 /\
    m_quantity front = Z.of_nat (length mid) /\ m_quantity back = m_quantity front /\ watermark_ok front back /\
    Forall (row_ok front) mid /\ NoDup (m_exchange_id <$> mid) /\ forall i, lob_uncrossed (rows_book i mid).

Lemma rows_book_snoc i rows m :
  rows_book i (rows ++ [m]) =
  if decide (m_instrument_id m = i) then lob_insert (row_view m) (rows_book i rows) else rows_book i rows.
Proof. unfold rows_book. by rewrite foldl_app. Qed.

Lemma lob_insert_ids v b : forall w, w ∈ lob_orders (lob_insert v b) -> w = v \/ w ∈ lob_orders b.
Proof.
  intros w. unfold lob_insert, lob_orders. destruct (ov_side v); simpl; [| |auto];
    rewrite !elem_of_app, q_insert_perm, elem_of_cons; tauto.
Qed.

Lemma lob_insert_count v b : (lob_count (lob_insert v b) <= S (lob_count b))%nat.
Proof.
  unfold lob_count, lob_insert, lob_orders. destruct (ov_side v); simpl; rewrite ?length_app; [| |lia];
    rewrite (Permutation_length (q_insert_perm _ _ _)); simpl; lia.
Qed.

Lemma rows_book_ids i rows v : v ∈ lob_orders (rows_book i rows) -> ov_id v ∈ m_exchange_id <$> rows.
Proof.
  induction rows as [|m rows IH] using rev_ind; [intros Hv; by apply not_elem_of_nil in Hv|].
  rewrite rows_book_snoc, fmap_app, elem_of_app. case_decide; [|auto].
  intros [->|Hv]%lob_insert_ids; [right; by left|auto].
Qed.

Lemma rows_book_count i rows : (lob_count (rows_book i rows) <= length rows)%nat.
Proof.
  induction rows as [|m rows IH] using rev_ind; [done|]. rewrite rows_book_snoc, length_app. simpl.
  case_decide; [|lia]. pose proof (lob_insert_count (row_view m) (rows_book i rows)). lia.
Qed.

Section restore.
Context (heaps : nat -> Heap) (Hheaps : forall j, heap_ok (heaps j) CAPACITY_BYTES) (front : Message) (total : nat).

Definition owned (n : nat) : Prop :=
  exists j b, (j < total)%nat /\ bk_new (heaps j) CAPACITY_BYTES = Ret b /\ bk_slots b = n.

(** The memory does not suffice for a snapshot of [total] messages. *)
Definition starved : Prop :=
  (exists j, (j < total)%nat /\ (~ heap_grants (heaps j) \/ heap_block (heaps j) = None)) \/
  (exists n, owned n /\ (n <= total - 2)%nat).

(** The private books after the rows [done]. *)
Record restored (done : list Message) books (ids : gset OrderId) : Prop := {
  rs_wf : books_wf books;
  rs_market i : market books i = rows_book i done;
  rs_ids x : x ∈ ids <-> x ∈ m_exchange_id <$> done;
  rs_rows : Forall (row_ok front) done;
  rs_nodup : NoDup (m_exchange_id <$> done);
  rs_pools : map_Forall (fun _ b => owned (bk_slots b)) books
}.

Definition refused_with (ex : exn) : Prop := ex = BadAlloc \/ exists what, ex = RuntimeError what.

Lemma row_accepted m done i :
  (lob_add (mkAdd (m_exchange_id m) (m_side m) (m_price m) (m_quantity m)) (rows_book i done)).1 <> Ok ->
  row_ok front m -> m_exchange_id m ∈ m_exchange_id <$> done.
Proof.
  unfold lob_add. cbn [add_id add_side add_price add_quantity]. intros H [_ _ _ _ Hs Hp Hq]. revert H.
  rewrite !decide_False by done. case_decide as Hf; [intros _|].
  - destruct Hf as [v Hv]. apply find_id_Some in Hv as [Hv <-]. by eapply rows_book_ids.
  - by rewrite decide_False by tauto.
Qed.

Lemma restore_row_step k done m books ids :
  restored done books ids -> message_typed m -> (0 < k < total - 1)%nat -> (length done <= total - 2)%nat ->
  (exists books' ids', restore_row heaps front total (books, ids) (k, m) = Ret (books', ids') /\
     restored (done ++ [m]) books' ids') \/
  (exists ex, restore_row heaps front total (books, ids) (k, m) = Throw ex /\ refused_with ex /\
     (~ (row_ok front m /\ m_exchange_id m ∉ m_exchange_id <$> done) \/ starved)).
Proof.
  intros [Hwf Hmk Hids Hrows Hnd Hpools] Hm Hk Hlen. unfold restore_row. case_decide as Hw.
  { right. eexists. split; [done|]. split; [by right; eexists|]. left. intros [[[? ?]] _]. tauto. }
  rewrite decide_False by lia. case_decide as Hbad.
  { right. eexists. split; [done|]. split; [by right; eexists|]. left. intros [[] Hn]. rewrite <- Hids in Hn. tauto. }
  pose proof (add_row_effect (heaps k) m books Hwf Hm (Hheaps k)) as Heff. rewrite Hmk in Heff.
  assert (m_exchange_id m ∉ m_exchange_id <$> done) as Hfresh by (rewrite <- Hids; tauto).
  destruct Heff as [[-> Hn]|(res & books' & -> & Hwf' & Hfrom & Hres)].
  { right. eexists. split; [done|]. split; [by left|]. right. left. exists k. split; [lia|by right]. }
  rewrite bind_Ret.
  assert (map_Forall (fun _ b => owned (bk_slots b)) books') as Hpools'.
  { apply (Hfrom owned Hpools). intros b Hb. exists k, b. split; [lia|done]. }
  destruct Hres as [(-> & Hok & Hmk')|(Hr & Hmk' & Hwhy)].
  - left. rewrite decide_False by tauto. eexists _, _. split; [done|].
    revert Hok Hmk'. unfold lob_add. cbn [add_id add_side add_price add_quantity].
    do 4 (case_decide; [done|]). intros _ Hmk'. split; try done.
    + intros i. rewrite Hmk', rows_book_snoc. cbn [snd]. destruct (decide (i = m_instrument_id m)) as [->|Hi].
      * by rewrite decide_True by done.
      * by rewrite decide_False by congruence.
    + intros x. rewrite fmap_app, elem_of_app, elem_of_union, elem_of_singleton, Hids. simpl.
      rewrite list_elem_of_singleton. tauto.
    + apply Forall_app. split; [done|]. constructor; [|done].
      split; [split|..]; apply dec_stable; tauto.
    + rewrite fmap_app. apply NoDup_app. split; [done|]. simpl. split; [|apply NoDup_singleton].
      intros x Hx ->%list_elem_of_singleton. done.
  - right. rewrite decide_True by done. eexists. split; [done|]. split; [by right; eexists|].
    destruct Hwhy as [Hno|Hs]; [left|right].
    + intros [Hrow _]. apply Hfresh. eapply row_accepted; [|done]. done.
    + destruct Hs as [?|[?|(i & b & Hi & Hfull)]]; [left; exists k; split; [lia|by left]|left; exists k; split; [lia|by right]|].
      right. exists (bk_slots b). split; [by apply (Hpools' i)|].
      pose proof (rows_book_count i done) as Hc. rewrite <- Hmk, <- Hmk', (market_lookup _ _ _ Hi) in Hc. lia.
Qed.

Lemma restore_loop mid : forall k done books ids,
  restored done books ids -> Forall message_typed mid -> (0 < k)%nat -> (k + length mid <= total - 1)%nat ->
  (length done + length mid <= total - 2)%nat ->
  (exists books' ids', foldM (restore_row heaps front total) (books, ids) (zip (seq k (length mid)) mid) =
     Ret (books', ids') /\ restored (done ++ mid) books' ids') \/
  (exists ex, foldM (restore_row heaps front total) (books, ids) (zip (seq k (length mid)) mid) = Throw ex /\
     refused_with ex /\ (~ (Forall (row_ok front) mid /\ NoDup (m_exchange_id <$> done ++ mid)) \/ starved)).
Proof.
  induction mid as [|m mid IH]; intros k done books ids Hr Hty Hk Hend Hlen;
    cbn [length seq zip zip_with foldM] in *.
  { left. exists books, ids. by rewrite app_nil_r. }
  apply Forall_cons in Hty as [Hm Hty].
  destruct (restore_row_step k done m books ids Hr Hm) as [(books' & ids' & -> & Hr')|(ex & -> & Hex & Hwhy)]; [lia..| |].
  - rewrite bind_Ret. destruct (IH (S k) (done ++ [m]) books' ids' Hr' Hty) as [(b2 & i2 & E & H2)|(ex & E & Hex & Hwhy)];
      [lia|lia|rewrite length_app; simpl; lia| |].
    + left. exists b2, i2. by rewrite <- app_assoc in H2.
    + right. exists ex. split; [done|]. split; [done|]. destruct Hwhy as [Hno|]; [left|by right].
      rewrite <- app_assoc in Hno. intros [[_ ?]%Forall_cons ?]. by apply Hno.
  - right. exists ex. split; [by simpl|]. split; [done|]. destruct Hwhy as [Hno|]; [left|by right].
    intros [[? _]%Forall_cons Hnd]. apply Hno. split; [done|]. rewrite fmap_app in Hnd.
    apply NoDup_app in Hnd as (_ & Hdis & _). intros Hin. apply (Hdis _ Hin). left.
Qed.
End restore.

Lemma check_restored_spec books :
  books_wf books -> (forall i, Z.of_nat (lob_count (market books i)) <= 2 ^ 32) ->
  (check_restored books = Ret tt /\ forall i, lob_uncrossed (market books i)) \/
  (check_restored books = Throw (RuntimeError "Invalid snapshot book") /\ ~ forall i, lob_uncrossed (market books i)).
Proof.
  intros Hwf Hc. unfold check_restored.
  assert (forall l, (forall i b, (i, b) ∈ l -> books !! i = Some b) ->
    let out := foldM (fun _ kb => bad ← bk_validate kb.2;
      if decide (bad <> None) then Throw (RuntimeError "Invalid snapshot book")
      else if book_crossed kb.2 then Throw (RuntimeError "Invalid snapshot book") else Ret tt) tt l in
    (out = Ret tt /\ forall i b, (i, b) ∈ l -> lob_uncrossed (bk_abs b)) \/
    (out = Throw (RuntimeError "Invalid snapshot book") /\ exists i b, (i, b) ∈ l /\ ~ lob_uncrossed (bk_abs b))) as Hl.
  { induction l as [|[i b] l IH]; intros Hin; cbv zeta; cbn [foldM snd].
    { left. split; [done|]. intros i b Hb. by apply not_elem_of_nil in Hb. }
    assert (books !! i = Some b) as Hi by (apply Hin; left). pose proof (Hwf i b Hi) as Hb. simpl in Hb.
    specialize (Hc i). rewrite (market_lookup _ _ _ Hi) in Hc.
    rewrite bk_validate_spec by done. rewrite bind_Ret, decide_False by tauto.
    pose proof (best_uncrossed (bk_abs b) (bk_abs_wf b Hb)) as Hbest. unfold book_crossed.
    rewrite (bk_best_spec Bid b Hb), (bk_best_spec Ask b Hb) by (unfold valid_side; auto).
    destruct (match lob_best Bid (bk_abs b), lob_best Ask (bk_abs b) with
              | Some bid, Some ask => bool_decide (ask <= bid) | _, _ => false end) eqn:E.
    - right. split; [by simpl|]. exists i, b. split; [left|]. intros H%Hbest. congruence.
    - rewrite bind_Ret. destruct IH as [[E2 Hall]|[E2 (j & b' & Hj & Hn)]].
      + intros j b' Hj. apply Hin. by right.
      + left. split; [done|]. intros j b' [[= -> ->]|Hj]%elem_of_cons; [by apply Hbest|by apply (Hall j)].
      + right. split; [done|]. exists j, b'. split; [by right|done]. }
  destruct (Hl (ordered Z.le books)) as [[E Hall]|[E (i & b & Hi & Hn)]].
  - intros i b Hb. by apply (elem_of_ordered Z.le) in Hb.
  - left. split; [done|]. intros i. unfold market. destruct (books !! i) as [b|] eqn:Hi; simpl.
    + apply (Hall i). by apply elem_of_ordered.
    + intros v w Hv. by apply not_elem_of_nil in Hv.
  - right. split; [done|]. intros H. apply Hn. apply (elem_of_ordered Z.le) in Hi.
    rewrite <- (market_lookup _ _ _ Hi). apply H.
Qed.

Lemma restored_empty heaps front total : restored heaps front total [] ∅ ∅.
Proof. split; try done; [set_solver|constructor]. Qed.

(** The loop over all the rows, the first and the last of which only carry the watermark. *)
Lemma restore_rows heaps front mid back :
  (forall j, heap_ok (heaps j) CAPACITY_BYTES) -> Forall message_typed mid ->
  let rows := front :: mid ++ [back] in
  let out := foldM (restore_row heaps front (length rows)) (∅, ∅) (zip (seq 0 (length rows)) rows) in
  (exists books ids, out = Ret (books, ids) /\ restored heaps front (length rows) mid books ids /\ watermark_ok front back) \/
  (exists ex, out = Throw ex /\ refused_with ex /\
     (~ (Forall (row_ok front) mid /\ NoDup (m_exchange_id <$> mid) /\ watermark_ok front back) \/
      starved heaps (length rows))).
Proof.
  intros Hh Hty rows out. set (total := length rows) in *.
  assert (total = S (S (length mid))) as Et by (unfold total, rows; simpl; rewrite length_app; simpl; lia).
  assert (zip (seq 0 total) rows = (0%nat, front) :: zip (seq 1 (length mid)) mid ++ [(S (length mid), back)]) as Ez.
  { rewrite Et. unfold rows. cbn [seq zip zip_with]. f_equal.
    change (zip (seq 1 (S (length mid))) (mid ++ [back]) = zip (seq 1 (length mid)) mid ++ [(S (length mid), back)]).
    rewrite seq_S, zip_with_app by (by rewrite length_seq). done. }
  assert (restore_row heaps front total (∅, ∅) (0%nat, front) = Ret (∅, ∅)) as E0.
  { unfold restore_row. rewrite decide_False by tauto. by rewrite decide_True by tauto. }
  assert (out = (st ← foldM (restore_row heaps front total) (∅, ∅) (zip (seq 1 (length mid)) mid);
                 foldM (restore_row heaps front total) st [(S (length mid), back)])) as ->.
  { unfold out. rewrite Ez, <- foldM_app. change (foldM ?f ?s (?x :: ?l)) with (s' ← f s x; foldM f s' l).
    by rewrite E0. }
  destruct (restore_loop heaps Hh front total mid 1 [] ∅ ∅ (restored_empty _ _ _) Hty)
    as [(books & ids & -> & Hr)|(ex & -> & Hex & Hwhy)]; [lia|rewrite Et; lia|rewrite Et; cbn [length]; lia| |].
  - rewrite bind_Ret. cbn [foldM]. unfold restore_row. case_decide as Hw.
    + right. eexists. split; [by simpl|]. split; [by right; eexists|]. left. intros (_ & _ & [? ?]). tauto.
    + rewrite decide_True by lia. rewrite bind_Ret. left. exists books, ids. split; [done|]. split; [done|].
      split; apply dec_stable; tauto.
  - right. exists ex. split; [by simpl|]. split; [done|]. destruct Hwhy as [Hno|?]; [left|by right].
    intros (? & ? & _). by apply Hno.
Qed.

Lemma restore_cases heaps rows r :
  (forall j, heap_ok (heaps j) CAPACITY_BYTES) -> Forall message_typed rows ->
  (exists front mid r', snapshot_ok rows front mid /\ restore heaps rows r = (Ret tt, r') /\ live r' /\
     rp_epoch r' = m_epoch front /\ rp_sequence r' = m_sequence front /\
     forall i, market (rp_books r') i = rows_book i mid) \/
  (exists ex, restore heaps rows r = (Throw ex, invalidate r) /\ refused_with ex /\
     ((forall front mid, ~ snapshot_ok rows front mid) \/ starved heaps (length rows))).
Proof.
  intros Hh Hty. unfold restore, restore_books.
  assert (forall what, (forall front mid, ~ snapshot_ok rows front mid) ->
    exists ex, (Throw (RuntimeError what) : outcome unit, invalidate r) = (Throw ex, invalidate r) /\ refused_with ex /\
     ((forall front mid, ~ snapshot_ok rows front mid) \/ starved heaps (length rows))) as Hthrow.
  { intros what Hno. eexists. split; [done|]. split; [by right; eexists|by left]. }
  destruct rows as [|front [|x rest]]; [right; apply Hthrow; by intros f m (? & ? & _)|right; apply Hthrow|].
  { intros f m (back & [= _ E] & _). by destruct m. }
  destruct (last (x :: rest)) as [back|] eqn:El; [|by apply last_None in El].
  assert (last (front :: x :: rest) = Some back) as -> by done.
  apply last_Some in El as [mid Emid]. rewrite Emid in *.
  assert (forall f m, snapshot_ok (front :: mid ++ [back]) f m -> f = front /\ m = mid /\
    m_kind front = Kind.SnapshotBegin /\ m_kind back = Kind.SnapshotEnd /\ m_epoch front <> 0 /\
    m_quantity front = Z.of_nat (length mid) /\ m_quantity back = m_quantity front /\ watermark_ok front back /\
    Forall (row_ok front) mid /\ NoDup (m_exchange_id <$> mid) /\ forall i, lob_uncrossed (rows_book i mid)) as Hinv.
  { intros f m (b & [= -> E] & H). apply app_inj_tail in E as [-> ->].
    split; [done|]. split; [done|]. exact H. }
  apply Forall_cons in Hty as [Hf [Hty _]%Forall_app].
  destruct (mid ++ [back]) as [|m0 rest0] eqn:Eapp in |- *; [by destruct mid|]. rewrite <- Eapp in *.
  assert (length (front :: mid ++ [back]) = S (S (length mid))) as Elen by (simpl; rewrite length_app; simpl; lia).
  case_decide as Henv.
  { right. apply Hthrow. intros f m (-> & -> & H1 & H2 & H3 & H4 & H5 & _)%Hinv. rewrite Elen in Henv.
    destruct Henv as [?|[?|[?|[?|?]]]]; try done; lia. }
  destruct (restore_rows heaps front mid back Hh Hty) as [(books & ids & -> & Hr & Hw)|(ex & -> & Hex & Hwhy)].
  - rewrite bind_Ret.
    destruct (check_restored_spec books (rs_wf _ _ _ _ _ _ Hr)) as [[-> Hun]|[-> Hun]].
    { intros i. rewrite (rs_market _ _ _ _ _ _ Hr). pose proof (rows_book_count i mid).
      pose proof (mt_quantity _ Hf). unfold is_u32 in *. rewrite Elen in Henv. lia. }
    + left. eexists front, mid, _. split; [|split; [by rewrite bind_Ret|]].
      * exists back. split; [done|]. rewrite Elen in Henv. destruct Hr as [_ Hm _ Hrows Hnd _].
        split; [apply dec_stable; tauto|]. split; [apply dec_stable; tauto|]. split; [tauto|].
        split; [lia|]. split; [apply dec_stable; tauto|]. do 3 (split; [done|]).
        intros i. rewrite <- Hm. apply Hun.
      * split; [split; [apply Hr|done]|]. split; [done|]. split; [done|]. apply Hr.
    + right. apply Hthrow. intros f m (-> & -> & H)%Hinv. apply Hun. intros i. rewrite (rs_market _ _ _ _ _ _ Hr). apply H.
  - right. exists ex. split; [done|]. split; [done|]. destruct Hwhy as [Hno|?]; [left|by right].
    intros f m (-> & -> & H)%Hinv. tauto.
Qed.

(** C9: [restore] is all or nothing: it takes exactly the snapshots whose
    envelope, count, watermark, rows and books are in order, and then the
    replica holds, instrument by instrument, the book the rows describe, in
    their order; anything else, or memory that does not suffice, makes it throw
    with the replica's books, epoch and sequence as they were and marked
    unsynchronized. *)
Theorem restore_correct heaps rows r :
  (forall j, heap_ok (heaps j) CAPACITY_BYTES) -> Forall message_typed rows ->
  (exists front mid r', snapshot_ok rows front mid /\ restore heaps rows r = (Ret tt, r') /\ live r' /\
     rp_epoch r' = m_epoch front /\ rp_sequence r' = m_sequence front /\
     forall i, market (rp_books r') i = rows_book i mid) \/
  (exists ex, restore heaps rows r = (Throw ex, invalidate r) /\ refused_with ex /\
     ((forall front mid, ~ snapshot_ok rows front mid) \/ starved heaps (length rows))).
Proof. apply restore_cases. Qed.

(** ** The engine's snapshot *)

Definition place (i : InstrumentId) (b : LOB) (m : Message) : LOB :=
  if decide (m_instrument_id m = i) then lob_insert (row_view m) b else b.

Lemma insert_side_rows s l2 : forall l1 l3 b,
  StronglySorted (before s) (l1 ++ l2) -> Forall (fun v => ov_side v = s) l2 -> valid_side s ->
  queue s b = l1 -> queue (opposite s) b = l3 ->
  queue s (foldl (fun b v => lob_insert v b) b l2) = l1 ++ l2 /\
  queue (opposite s) (foldl (fun b v => lob_insert v b) b l2) = l3.
Proof.
  induction l2 as [|v l2 IH]; intros l1 l3 b Hs Hf Hv H1 H3; simpl; [by rewrite app_nil_r|].
  apply Forall_cons in Hf as [Hvs Hf].
  assert (l1 ++ v :: l2 = (l1 ++ [v]) ++ l2) as E by by rewrite <- app_assoc.
  rewrite E in *. apply IH; try done.
  - unfold lob_insert. rewrite Hvs, queue_set_queue, decide_True, H1 by done.
    rewrite <- (app_nil_r l1) at 1. apply q_insert_app; [|constructor].
    apply StronglySorted_app in Hs as (_ & Hs & _). apply StronglySorted_app in Hs as (Hs & _).
    apply Forall_forall. intros w Hw. apply (Hs w v); [done|left].
  - unfold lob_insert. rewrite Hvs, queue_set_queue, decide_False; [done|]. destruct Hv as [-> | ->]; simpl; naive_solver.
Qed.

Lemma insert_rows b : lob_wf b -> foldl (fun b v => lob_insert v b) lob_empty (lob_orders b) = b.
Proof.
  intros Hwf. unfold lob_orders. rewrite foldl_app.
  assert (forall s, Forall (fun v => ov_side v = s) (queue s b)) as Hs.
  { intros s. apply Forall_forall. intros v Hv. by apply (wf_order _ Hwf). }
  destruct (insert_side_rows Bid (lob_bids b) [] [] lob_empty (wf_sorted _ Hwf Bid) (Hs Bid)
    (or_introl eq_refl) eq_refl eq_refl) as [H1 H2].
  set (b1 := foldl _ lob_empty _) in *.
  destruct (insert_side_rows Ask (lob_asks b) [] (lob_bids b) b1 (wf_sorted _ Hwf Ask) (Hs Ask)
    (or_intror eq_refl) H2 H1) as [H3 H4].
  generalize dependent (foldl (fun b v => lob_insert v b) b1 (lob_asks b)). intros [x y]. simpl. intros -> ->.
  by destruct b.
Qed.

Section snapshot.
Context (e : Engine B) (Hwf : engine_wf e).

Definition book_rows (kb : InstrumentId * B) : list Message := snapshot_row e kb.1 <$> lob_orders (bk_abs kb.2).

Lemma engine_snapshot_eq :
  engine_snapshot e = Ret (snapshot_mark Kind.SnapshotBegin e ::
    concat (book_rows <$> ordered Z.le (e_books e)) ++ [snapshot_mark Kind.SnapshotEnd e]).
Proof.
  unfold engine_snapshot. rewrite (mapO_Ret _ book_rows); [done|]. intros [i b] Hb.
  apply (elem_of_ordered Z.le) in Hb. pose proof (ec_books _ _ _ _ _ _ _ (ew_core _ Hwf)) as Hok.
  destruct (bk_snapshot_spec b (bo_wf _ _ _ Hok i b Hb)) as (bs & ks & -> & Eb & Ek & _).
  rewrite bind_Ret. unfold book_rows, lob_orders. cbn [fst snd]. by rewrite bind_app, Eb, Ek.
Qed.

Lemma place_rows i j b l :
  foldl (place i) b (snapshot_row e j <$> l) =
  if decide (j = i) then foldl (fun b v => lob_insert v b) b l else b.
Proof.
  revert b. induction l as [|v l IH]; intros b; csimpl; [by case_decide|].
  rewrite IH. unfold place. simpl. case_decide; [|done]. by destruct v.
Qed.

Lemma place_books i b l :
  (forall kb, kb ∈ l -> bk_wf kb.2) -> NoDup l.*1 ->
  (i ∉ l.*1 -> foldl (place i) b (concat (book_rows <$> l)) = b) /\
  (forall c, (i, c) ∈ l -> b = lob_empty -> foldl (place i) b (concat (book_rows <$> l)) = bk_abs c).
Proof.
  revert b. induction l as [|[j c] l IH]; intros b Hl Hnd; csimpl.
  { split; [done|]. intros c Hc. by apply not_elem_of_nil in Hc. }
  apply NoDup_cons in Hnd as [Hj Hnd]. rewrite foldl_app.
  change (book_rows (j, c)) with (snapshot_row e j <$> lob_orders (bk_abs c)).
  assert (forall kb, kb ∈ l -> bk_wf kb.2) as Hl' by (intros; apply Hl; by right).
  rewrite place_rows. split.
  - rewrite not_elem_of_cons. intros [Hij Hi]. rewrite decide_False by done. by apply (IH b Hl' Hnd).
  - intros c' [[= <- <-]|Hc]%elem_of_cons ->.
    + rewrite decide_True by done. rewrite insert_rows by (apply bk_abs_wf, (Hl (i, c')); left).
      by apply (proj1 (IH (bk_abs c') Hl' Hnd)).
    + rewrite decide_False; [by apply (IH _ Hl' Hnd)|].
      intros ->. apply Hj. by apply (list_elem_of_fmap_2' fst _ (i, c')).
Qed.

Lemma snapshot_rows_book i :
  rows_book i (concat (book_rows <$> ordered Z.le (e_books e))) = market (e_books e) i.
Proof.
  pose proof (ec_books _ _ _ _ _ _ _ (ew_core _ Hwf)) as Hok.
  destruct (place_books i lob_empty (ordered Z.le (e_books e))) as [H1 H2].
  - intros [j b] Hb. apply (elem_of_ordered Z.le) in Hb. by apply (bo_wf _ _ _ Hok j).
  - apply (NoDup_ordered_keys Z.le).
  - unfold market. destruct (e_books e !! i) as [b|] eqn:E.
    + apply H2; [by apply elem_of_ordered|done].
    + apply H1. intros ([j b] & -> & Hb)%list_elem_of_fmap. apply (elem_of_ordered Z.le) in Hb. simpl in E. congruence.
Qed.

Lemma snapshot_ids :
  m_exchange_id <$> concat (book_rows <$> ordered Z.le (e_books e)) =
  ordered Z.le (e_books e) ≫= (fun kb => ov_id <$> lob_orders (bk_abs kb.2)).
Proof.
  induction (ordered Z.le (e_books e)) as [|[i b] l IH]; csimpl; [done|].
  rewrite fmap_app, IH. f_equal. unfold book_rows. simpl. rewrite <- list_fmap_compose. by apply list_fmap_ext.
Qed.

Lemma snapshot_ids_permutation :
  NoDup (m_exchange_id <$> concat (book_rows <$> ordered Z.le (e_books e))) /\
  m_exchange_id <$> concat (book_rows <$> ordered Z.le (e_books e)) ≡ₚ (map_to_list (resting_ e)).*1.
Proof.
  pose proof (ec_books _ _ _ _ _ _ _ (ew_core _ Hwf)) as Hok. rewrite snapshot_ids.
  assert (forall i b, (i, b) ∈ ordered Z.le (e_books e) -> e_books e !! i = Some b) as Hin.
  { intros i b Hb. by apply (elem_of_ordered Z.le). }
  assert (NoDup (ordered Z.le (e_books e) ≫= (fun kb => ov_id <$> lob_orders (bk_abs kb.2)))) as Hnd.
  { apply NoDup_bind; [| |eapply NoDup_fmap_1, (NoDup_ordered_keys Z.le)].
    - intros [i b] [j c] id Hb Hc (v & -> & Hv)%list_elem_of_fmap (w & E & Hw)%list_elem_of_fmap.
      apply Hin in Hb, Hc. cbn [snd] in *.
      apply (bo_match _ _ _ Hok _ _ Hb) in Hv as (m & Hm & <- & _).
      apply (bo_match _ _ _ Hok _ _ Hc) in Hw as (m' & Hm' & <- & _). rewrite <- E in Hm'.
      assert (m = m') as -> by congruence. f_equal. congruence.
    - intros [i b] Hb. apply Hin in Hb. cbn [snd]. apply wf_ids. by apply bk_abs_wf, (bo_wf _ _ _ Hok i). }
  split; [done|]. apply NoDup_Permutation; [done|apply NoDup_fst_map_to_list|]. intros id.
  rewrite list_elem_of_bind, list_elem_of_fmap. split.
  - intros ([i b] & (v & -> & Hv)%list_elem_of_fmap & Hb). apply Hin in Hb.
    apply (bo_match _ _ _ Hok _ _ Hb) in Hv as (m & Hm & _). exists (ov_id v, m). split; [done|].
    by apply elem_of_map_to_list.
  - intros ([k m] & -> & Hm%elem_of_map_to_list). destruct (bo_home _ _ _ Hok _ _ Hm) as [b Hb].
    exists (m_instrument_id m, b). split; [|by apply elem_of_ordered]. cbn [fst snd].
    apply list_elem_of_fmap. exists (rest_view k m). split; [done|].
    apply (bo_match _ _ _ Hok _ _ Hb). by exists m.
Qed.

Lemma engine_snapshot_ok :
  epoch_ e <> 0 -> Z.of_nat (size (resting_ e)) < 2 ^ 32 ->
  exists rows front mid, engine_snapshot e = Ret rows /\ snapshot_ok rows front mid /\
    m_epoch front = epoch_ e /\ m_sequence front = e_sequence e /\ forall i, rows_book i mid = market (e_books e) i.
Proof.
  intros He Hsize. destruct snapshot_ids_permutation as [Hnd Hp].
  pose proof (ec_books _ _ _ _ _ _ _ (ew_core _ Hwf)) as Hok.
  rewrite engine_snapshot_eq.
  eexists _, (snapshot_mark Kind.SnapshotBegin e), (concat (book_rows <$> ordered Z.le (e_books e))).
  split; [done|]. split; [|split; [done|split; [done|apply snapshot_rows_book]]].
  eexists. split; [done|]. do 2 (split; [done|]). split; [done|].
  set (mid := concat _) in *.
  assert (length mid = size (resting_ e)) as Elen.
  { rewrite <- (length_fmap m_exchange_id), Hp, length_fmap. apply length_map_to_list. }
  split; [cbn; rewrite Elen; apply u32_small; unfold is_u32; lia|]. split; [done|]. split; [done|].
  split; [|split; [done|intros i; unfold mid; rewrite snapshot_rows_book; apply Hwf]].
  apply Forall_forall. intros x Hx. unfold mid in Hx. apply list_elem_of_In, in_concat in Hx as (rows & Hrows%list_elem_of_In & Hx%list_elem_of_In).
  apply list_elem_of_fmap in Hrows as ([i b] & -> & Hb). apply (elem_of_ordered Z.le) in Hb.
  unfold book_rows in Hx. apply list_elem_of_fmap in Hx as (v & -> & Hv). cbn [fst snd] in *.
  pose proof (bk_abs_wf b (bo_wf _ _ _ Hok i b Hb)) as Hbwf.
  destruct (order_of_book _ _ Hbwf Hv) as (Hs & [_ ? ?] & _).
  apply (bo_match _ _ _ Hok _ _ Hb) in Hv as (m & Hm & _).
  destruct (ec_ids _ _ _ _ _ _ _ (ew_core _ Hwf) _ _ Hm) as [? _].
  assert (i <> 0) as Hi.
  { destruct (proj1 (bo_dom _ _ _ Hok i)) as [r Hr]; [by exists b|].
    pose proof (ro_valid _ _ (ew_rules _ Hwf i r Hr)) as Hval. unfold rules_valid in Hval.
    apply negb_true_iff, bool_decide_eq_false in Hval. tauto. }
  split; try done; simpl; lia.
Qed.
End snapshot.

(** C8: The engine's snapshot restores: it is always produced, and a replica
    that restores it agrees with the engine, unless memory does not suffice for
    its rows; then the replica is unsynchronized with its books as they were. *)
Theorem snapshot_restores (e : Engine B) :
  engine_wf e -> epoch_ e <> 0 -> Z.of_nat (size (resting_ e)) < 2 ^ 32 ->
  exists rows, engine_snapshot e = Ret rows /\
    forall heaps r, (forall j, heap_ok (heaps j) CAPACITY_BYTES) -> Forall message_typed rows ->
      (exists r', restore heaps rows r = (Ret tt, r') /\ mirrors e r') \/
      (exists ex, restore heaps rows r = (Throw ex, invalidate r) /\ starved heaps (length rows)).
Proof.
  intros Hwf He Hsize. destruct (engine_snapshot_ok e Hwf He Hsize) as (rows & front & mid & E & Hok & Hep & Hsq & Hb).
  exists rows. split; [done|]. intros heaps r Hh Hty.
  destruct (restore_cases heaps rows r Hh Hty) as [(f & m & r' & Hok' & Er & Hl & He' & Hs' & Hb')|(ex & Er & _ & [Hno|Hst])].
  - left. exists r'. split; [done|].
    assert (f = front /\ m = mid) as [-> ->].
    { destruct Hok as (b1 & -> & _), Hok' as (b2 & [= -> E2] & _). by apply app_inj_tail in E2 as [-> _]. }
    split; [done|congruence|congruence|]. intros i. by rewrite Hb', Hb.
  - by destruct (Hno _ _ Hok).
  - right. by exists ex.
Qed.

(** ** The replica's own snapshot *)

Definition rows_of (f : InstrumentId -> OrderView -> Message) (kb : InstrumentId * B) : list Message :=
  f kb.1 <$> lob_orders (bk_abs kb.2).

(** Two maps of books with the same market list the same rows. *)
Lemma rows_same_market f books books' :
  (forall i, market books i = market books' i) ->
  concat (rows_of f <$> ordered Z.le books) = concat (rows_of f <$> ordered Z.le books').
Proof.
  assert (forall m : gmap InstrumentId B, concat (rows_of f <$> ordered Z.le m) =
    concat ((fun kl => f kl.1 <$> lob_orders kl.2) <$>
      ordered Z.le (filter (fun kl => lob_orders kl.2 <> []) (bk_abs <$> m)))) as Hnorm.
  { intros m. rewrite <- (concat_ordered_filter Z.le).
    - rewrite (ordered_fmap Z.le), <- list_fmap_compose. done.
    - intros [k l] Hl. simpl in *. destruct (lob_orders l); [done|]. by destruct Hl. }
  intros Hm. rewrite !Hnorm. do 3 f_equal. apply map_eq. intros i. apply option_eq. intros l.
  rewrite !map_lookup_filter_Some, !lookup_fmap. specialize (Hm i). unfold market in Hm.
  split; intros [E Hl]; (split; [|done]);
    destruct (books !! i) as [b|], (books' !! i) as [b'|]; simpl in *; try congruence;
    destruct Hl; injection E as <-; [by rewrite Hm|by rewrite <- Hm].
Qed.

Lemma sum_counts (l : list (InstrumentId * B)) f :
  (forall kb, kb ∈ l -> bk_wf kb.2) ->
  sum_list ((fun kb => bk_count kb.2) <$> l) = length (concat (rows_of f <$> l)).
Proof.
  induction l as [|kb l IH]; intros Hl; csimpl; [done|].
  rewrite length_app, IH by (intros; apply Hl; by right). f_equal.
  unfold rows_of. rewrite length_fmap. apply bk_count_spec, Hl. by left.
Qed.

(** C10: A synchronized replica republishes what it was given: when it agrees
    with the engine its snapshot is, message for message, the engine's. *)
Theorem replica_snapshot_correct (e : Engine B) r :
  engine_wf e -> mirrors e r -> replica_snapshot r = engine_snapshot e.
Proof.
  intros Hwf [[Hr Hs] He Hq Hb]. rewrite (engine_snapshot_eq e Hwf). unfold replica_snapshot. rewrite Hs. cbn [negb].
  assert (forall kb, kb ∈ ordered Z.le (rp_books r) -> bk_wf kb.2) as Hin.
  { intros [i b] Hi. apply (elem_of_ordered Z.le) in Hi. by apply (Hr i). }
  rewrite (mapO_Ret _ (rows_of (replica_row r))).
  2: { intros [i b] Hi. destruct (bk_snapshot_spec b (Hin _ Hi)) as (bs & ks & -> & Eb & Ek & _).
       rewrite bind_Ret. unfold rows_of, lob_orders. cbn [fst snd]. by rewrite bind_app, Eb, Ek. }
  rewrite bind_Ret.
  assert (concat (rows_of (replica_row r) <$> ordered Z.le (rp_books r)) =
          concat (book_rows e <$> ordered Z.le (e_books e))) as Erows.
  { rewrite (rows_same_market _ _ _ Hb). f_equal. apply list_fmap_ext. intros j [i b] _.
    unfold rows_of, book_rows. apply list_fmap_ext. intros k v _. cbn [fst snd].
    unfold replica_row, snapshot_row. by rewrite He, Hq. }
  assert (replica_order_count r = size (resting_ e)) as Ec.
  { unfold replica_order_count. rewrite (sum_counts _ (replica_row r) Hin), Erows.
    rewrite <- (length_fmap m_exchange_id), (proj2 (snapshot_ids_permutation e Hwf)), length_fmap.
    apply length_map_to_list. }
  assert (forall k, replica_mark k r = snapshot_mark k e) as Hmark.
  { intros k. unfold replica_mark, snapshot_mark. by rewrite Ec, He, Hq. }
  by rewrite !Hmark, Erows.
Qed.
End replica_laws.
