(* ===== verification/ReplicaSamples.v ===== *)
(** * A sample replica

    A replica that follows the sample engine, and one that restores its
    snapshot. *)
From S2P Require Import Prelude StdMap Types Messages LOB Market OrderBook Pool BookInterface BookTheorems.
From S2P Require Import Registry Engine EngineInv EngineTheorems EngineSamples Replica ReplicaTheorems.

(** Field ranges, decided. *)
Definition typed_b (m : Message) : bool :=
  let r n x := (0 <=? x) && (x <? 2 ^ n) in
  bool_decide (Kind.of_byte (Kind.to_byte (m_kind m)) = m_kind m) && r 8 (Kind.to_byte (m_kind m)) &&
  bool_decide (Action.of_byte (Action.to_byte (m_action m)) = m_action m) && r 8 (Action.to_byte (m_action m)) &&
  bool_decide (OrderType.of_byte (OrderType.to_byte (m_order_type m)) = m_order_type m) &&
  r 8 (OrderType.to_byte (m_order_type m)) &&
  bool_decide (TimeInForce.of_byte (TimeInForce.to_byte (m_tif m)) = m_tif m) && r 8 (TimeInForce.to_byte (m_tif m)) &&
  bool_decide (ReportType.of_byte (ReportType.to_byte (m_report m)) = m_report m) &&
  r 8 (ReportType.to_byte (m_report m)) &&
  bool_decide (Reject.of_byte (Reject.to_byte (m_reject m)) = m_reject m) && r 8 (Reject.to_byte (m_reject m)) &&
  bool_decide (UpdateType.of_byte (UpdateType.to_byte (m_update m)) = m_update m) &&
  r 8 (UpdateType.to_byte (m_update m)) &&
  r 64 (m_epoch m) && r 64 (m_sequence m) && r 32 (m_client_id m) && r 32 (m_price m) && r 64 (m_request_id m) &&
  r 64 (m_order_id m) && r 64 (m_exchange_id m) && r 64 (m_instrument_id m) && r 32 (m_quantity m) &&
  r 32 (m_remaining m) && r 64 (m_trade_id m).

Lemma typed_b_sound m : typed_b m = true -> message_typed m.
Proof.
  unfold typed_b. cbv zeta. rewrite !andb_true_iff, !bool_decide_eq_true, !Z.leb_le, !Z.ltb_lt.
  intros H. split; unfold is_u8, is_u32, is_u64; tauto.
Qed.

Lemma typed_all ms : forallb typed_b ms = true -> Forall message_typed ms.
Proof. rewrite forallb_forall. intros H. apply Forall_forall. intros m Hm%list_elem_of_In. by apply typed_b_sound, H. Qed.

Definition sample_replica : MarketReplica (OrderBook Pool) :=
  mkReplica (e_books sample_engine) (epoch_ sample_engine) (e_sequence sample_engine) true.

Lemma sample_mirrors : mirrors sample_engine sample_replica.
Proof. split; [split; [apply sample_engine_wf|done]|done..]. Qed.

Definition sample_feed : list (Heap * Message) := (sample_heap,.) <$> updates sample_answer.1.

Lemma deliver_messages (h : Heap) (ms : list Message) : ((h,.) <$> ms).*2 = ms.
Proof. induction ms as [|m ms IH]; csimpl; [done|by rewrite IH]. Qed.

Lemma sample_run : engine_run [(sample_heap, sample_taker)] sample_engine = Ret ([sample_answer.1], sample_answer.2).
Proof. cbn [engine_run]. by rewrite sample_answer_eq. Qed.

Lemma sample_feed_typed :
  Forall (fun hm => message_typed hm.2 /\ heap_ok hm.1 CAPACITY_BYTES) sample_feed.
Proof.
  unfold sample_feed. apply Forall_fmap. eapply Forall_impl; [apply typed_all; vm_compute; reflexivity|].
  intros m Hm. split; [done|]. apply sample_heap_ok.
Qed.

Lemma replica_tracks_engine_witness :
  exists r', follow sample_feed sample_replica = (Ret tt, r') /\ mirrors sample_answer.2 r'.
Proof.
  destruct (replica_tracks_engine [(sample_heap, sample_taker)] sample_engine sample_replica sample_feed
    [sample_answer.1] sample_answer.2) as [H|(res & r' & E & Hg)].
  - apply sample_engine_wf.
  - repeat constructor; vm_compute; congruence.
  - vm_compute. reflexivity.
  - exact sample_run.
  - exact sample_mirrors.
  - split; vm_compute; congruence.
  - transitivity (updates sample_answer.1); [apply deliver_messages|symmetry; apply app_nil_r].
  - vm_compute. reflexivity.
  - exact sample_feed_typed.
  - exact H.
  - exfalso. assert ((follow sample_feed sample_replica).1 = Ret tt) as E1 by (vm_compute; reflexivity).
    assert (rp_synchronized (follow sample_feed sample_replica).2 = true) as E2 by (vm_compute; reflexivity).
    rewrite E in E1, E2. cbn [fst snd] in E1, E2. destruct Hg as [[E3 _]|(_ & E3 & _)]; congruence.
Defined.

Definition sample_rows : list Message := from_ret [] (engine_snapshot sample_engine).

Lemma sample_rows_eq : engine_snapshot sample_engine = Ret sample_rows.
Proof. vm_compute. reflexivity. Qed.

Lemma sample_rows_typed : Forall message_typed sample_rows.
Proof. apply typed_all. vm_compute. reflexivity. Qed.

Lemma restore_correct_witness :
  exists front mid r', snapshot_ok sample_rows front mid /\
    restore (fun _ => sample_heap) sample_rows replica_new = (Ret tt, r').
Proof.
  destruct (restore_correct (B := OrderBook Pool) (fun _ => sample_heap) sample_rows replica_new)
    as [(front & mid & r' & H & E & _)|(ex & E & _)].
  - intros _. apply sample_heap_ok.
  - exact sample_rows_typed.
  - exists front, mid, r'. exact (conj H E).
  - exfalso. assert ((restore (B := OrderBook Pool) (fun _ => sample_heap) sample_rows replica_new).1 = Ret tt) as E1
      by (vm_compute; reflexivity).
    rewrite E in E1. discriminate.
Defined.

Lemma snapshot_restores_witness :
  exists r', restore (fun _ => sample_heap) sample_rows replica_new = (Ret tt, r') /\ mirrors sample_engine r'.
Proof.
  destruct (snapshot_restores sample_engine sample_engine_wf) as (rows & E & H); [vm_compute; congruence..|].
  assert (rows = sample_rows) as -> by (pose proof sample_rows_eq; congruence).
  destruct (H (fun _ => sample_heap) replica_new) as [Hr|(ex & Er & _)].
  - intros _. apply sample_heap_ok.
  - exact sample_rows_typed.
  - exact Hr.
  - exfalso. assert ((restore (B := OrderBook Pool) (fun _ => sample_heap) sample_rows replica_new).1 = Ret tt) as E1
      by (vm_compute; reflexivity).
    rewrite Er in E1. discriminate.
Defined.

Lemma replica_snapshot_correct_witness : replica_snapshot sample_replica = Ret sample_rows.
Proof.
  exact (eq_trans (replica_snapshot_correct sample_engine sample_replica sample_engine_wf sample_mirrors) sample_rows_eq).
Defined.
