(* ===== verification/Features.v ===== *)
(** * Market features

    [include/order_book/trading/features.hpp] and [src/trading/features.cpp]:
    the microprice of each instrument and, for its last trade, how much of the
    best passive level the aggressor took.  A [const OrderBook*] is an optional
    book. *)
From S2P Require Import Prelude StdMap Types Messages Position LOB OrderBook Pool BookInterface BookTheorems.

Record Features := mkFeatures {
  microprice : option LongDouble;
  aggressive_ratio : option LongDouble;
  ft_trade_id : Z;
  aggressor : Side
}.

Definition features_empty : Features := mkFeatures None None 0 Bid.

Record Pending := mkPending { pd_trade : Z; pd_quantity : Z }.

Record FeatureEngine := mkFeatureEngine {
  values_ : gmap InstrumentId Features;
  pending_ : gmap InstrumentId Pending
}.

Definition feature_engine_new : FeatureEngine := mkFeatureEngine ∅ ∅.

(** [void reset() noexcept] *)
Definition features_reset (f : FeatureEngine) : FeatureEngine := mkFeatureEngine ∅ ∅.

(** [const Features& get(InstrumentId) const noexcept] *)
Definition features_get (i : InstrumentId) (f : FeatureEngine) : Features := default features_empty (values_ f !! i).

Section features.
Context {B : Type} {Bops : BookOps B}.

(** Both best prices of a book that is there. *)
Definition best_prices (book : option B) : option (B * Price * Price) :=
  b ← book; bid ← bk_best Bid b; ask ← bk_best Ask b; Some (b, bid, ask).

Definition microprice_of (bid ask bid_quantity ask_quantity : Z) : LongDouble :=
  ld_div (ld_add (ld_mul (ld_of_Z bid) (ld_of_Z ask_quantity)) (ld_mul (ld_of_Z ask) (ld_of_Z bid_quantity)))
         (ld_add (ld_of_Z bid_quantity) (ld_of_Z ask_quantity)).

(** [void refresh(InstrumentId id, const OrderBook* book)] *)
Definition refresh (i : InstrumentId) (book : option B) (f : FeatureEngine) : FeatureEngine :=
  let old := features_get i f in
  let price :=
    match best_prices book with
    | Some (b, bid, ask) => Some (microprice_of bid ask (bk_best_quantity Bid b) (bk_best_quantity Ask b))
    | None => None
    end in
  mkFeatureEngine
    (<[i := mkFeatures price (aggressive_ratio old) (ft_trade_id old) (aggressor old)]> (values_ f)) (pending_ f).

(** [void before(const Message& m, const OrderBook* book)] *)
Definition features_before (m : Message) (book : option B) (f : FeatureEngine) : FeatureEngine :=
  if decide (m_kind m = Kind.Delta /\ m_update m = UpdateType.Execute) then
    let quantity := match book with Some b => bk_best_quantity (m_side m) b | None => 0 end in
    mkFeatureEngine (values_ f) (<[m_instrument_id m := mkPending (m_trade_id m) quantity]> (pending_ f))
  else f.

(** [void after(const Message& m, const OrderBook* book)] *)
Definition features_after (m : Message) (book : option B) (f : FeatureEngine) : FeatureEngine :=
  let i := m_instrument_id m in
  let f := refresh i book f in
  if decide (m_kind m <> Kind.Delta \/ m_update m <> UpdateType.Trade) then f
  else
    let price := microprice (features_get i f) in
    let put ratio pending :=
      mkFeatureEngine (<[i := mkFeatures price ratio (m_trade_id m) (m_side m)]> (values_ f)) pending in
    match pending_ f !! i with
    | Some p =>
      if decide (pd_trade p = m_trade_id m) then
        put (if decide (pd_quantity p = 0) then None
             else Some (ld_div (ld_of_Z (m_quantity m)) (ld_of_Z (pd_quantity p))))
            (delete i (pending_ f))
      else put None (pending_ f)
    | None => put None (pending_ f)
    end.

(** ** Theorems *)

Context {Blaws : BookLaws B}.

Lemma refresh_get i book f j :
  features_get j (refresh i book f) =
  if decide (j = i) then features_get i (refresh i book f) else features_get j f.
Proof.
  case_decide as E; [by subst|]. unfold features_get, refresh. cbn [values_]. by rewrite lookup_insert_ne.
Qed.

Lemma refresh_microprice i b f :
  bk_wf b ->
  microprice (features_get i (refresh i (Some b) f)) =
  match lob_best Bid (bk_abs b), lob_best Ask (bk_abs b) with
  | Some bid, Some ask =>
    Some (microprice_of bid ask (lob_best_quantity Bid (bk_abs b)) (lob_best_quantity Ask (bk_abs b)))
  | _, _ => None
  end.
Proof.
  intros Hb. unfold features_get, refresh. cbn [values_]. rewrite lookup_insert_eq. cbn [default from_option microprice].
  unfold best_prices. simpl.
  rewrite (bk_best_spec Bid b Hb), (bk_best_spec Ask b Hb) by (unfold valid_side; auto).
  destruct (lob_best Bid _) as [bid|]; [|done]. destruct (lob_best Ask _) as [ask|]; [|done]. simpl.
  by rewrite !bk_best_quantity_spec.
Qed.

Lemma before_execute m b f :
  m_kind m = Kind.Delta -> m_update m = UpdateType.Execute ->
  features_before m (Some b) f =
  mkFeatureEngine (values_ f)
    (<[m_instrument_id m := mkPending (m_trade_id m) (bk_best_quantity (m_side m) b)]> (pending_ f)).
Proof. intros Hk Hu. unfold features_before. by rewrite decide_True. Qed.

Lemma before_other m book f : m_update m <> UpdateType.Execute -> features_before m book f = f.
Proof. intros Hu. unfold features_before. by rewrite decide_False by tauto. Qed.

(** C13: The ratio of a trade is measured against the book before the execution
    that made it.  The engine publishes the maker's Execute and then the Trade;
    with [before] and [after] around both, the features of the instrument name
    the trade and its aggressor, the ratio is the traded quantity over the best
    passive quantity before the Execute (none when that side was empty), the
    microprice is that of the book after the trade, the pending entry is
    consumed, and no other instrument is touched. *)
Theorem trade_features (execute trade : Message) b1 b2 b3 f :
  bk_wf b1 -> bk_wf b3 ->
  m_kind execute = Kind.Delta -> m_update execute = UpdateType.Execute ->
  m_kind trade = Kind.Delta -> m_update trade = UpdateType.Trade ->
  m_instrument_id trade = m_instrument_id execute -> m_trade_id trade = m_trade_id execute ->
  let passive := lob_best_quantity (m_side execute) (bk_abs b1) in
  let f' := features_after trade (Some b3) (features_before trade (Some b2)
              (features_after execute (Some b2) (features_before execute (Some b1) f))) in
  features_get (m_instrument_id trade) f' =
    mkFeatures (match lob_best Bid (bk_abs b3), lob_best Ask (bk_abs b3) with
                | Some bid, Some ask => Some (microprice_of bid ask (lob_best_quantity Bid (bk_abs b3))
                                                (lob_best_quantity Ask (bk_abs b3)))
                | _, _ => None
                end)
      (if decide (passive = 0) then None else Some (ld_div (ld_of_Z (m_quantity trade)) (ld_of_Z passive)))
      (m_trade_id trade) (m_side trade) /\
  pending_ f' = delete (m_instrument_id trade) (pending_ f) /\
  forall j, j <> m_instrument_id trade -> features_get j f' = features_get j f.
Proof.
  intros Hb1 Hb3 He1 He2 Ht1 Ht2 Hi Hid passive f'.
  unfold f'. rewrite (before_execute execute b1 f He1 He2), (before_other trade) by (rewrite Ht2; discriminate).
  set (f1 := mkFeatureEngine _ _).
  assert (features_after execute (Some b2) f1 = refresh (m_instrument_id execute) (Some b2) f1) as ->.
  { unfold features_after. cbv zeta. case_decide as Hno; [done|]. destruct Hno. rewrite He2. by right. }
  set (i := m_instrument_id execute) in *. set (f2 := refresh i (Some b2) f1).
  assert (pending_ f2 !! i = Some (mkPending (m_trade_id execute) passive)) as Hp.
  { unfold f2, refresh, f1. cbn [pending_]. rewrite lookup_insert_eq. unfold passive.
    by rewrite bk_best_quantity_spec. }
  unfold features_after. cbv zeta. rewrite Hi, decide_False by (rewrite Ht1, Ht2; tauto).
  change (pending_ (refresh i (Some b3) f2)) with (pending_ f2). rewrite Hp. cbn [pd_trade pd_quantity].
  rewrite decide_True by done. rewrite (refresh_microprice i b3 f2 Hb3).
  split; [unfold features_get at 1; cbn [values_]; by rewrite lookup_insert_eq|]. split.
  - cbn [pending_ f2 f1 refresh]. by rewrite delete_insert_eq.
  - intros j Hj. unfold features_get at 1. cbn [values_]. rewrite lookup_insert_ne by congruence.
    change (features_get j (refresh i (Some b3) f2) = features_get j f). rewrite refresh_get, decide_False by done.
    unfold f2. by rewrite refresh_get, decide_False by done.
Qed.
End features.

(** ** A concrete instance *)

Definition sample_execute : Message :=
  mkMessage Kind.Delta Action.New Ask OrderType.Limit TimeInForce.GTC ReportType.Accepted Reject.None
    UpdateType.Execute false 1 1 1 101 1 1 3 1 4 0 7.
Definition sample_trade : Message :=
  mkMessage Kind.Delta Action.New Bid OrderType.Limit TimeInForce.GTC ReportType.Accepted Reject.None
    UpdateType.Trade false 1 2 2 101 1 1 4 1 4 0 7.

Lemma trade_features_witness :
  pending_ (features_after sample_trade (Some sample_book) (features_before sample_trade (Some sample_book)
    (features_after sample_execute (Some sample_book)
      (features_before sample_execute (Some sample_book) feature_engine_new)))) = ∅.
Proof.
  exact (proj1 (proj2 (trade_features sample_execute sample_trade sample_book sample_book sample_book
    feature_engine_new sample_book_wf sample_book_wf eq_refl eq_refl eq_refl eq_refl eq_refl eq_refl))).
Defined.
