(* ===== verification/Strategy.v ===== *)
(** * Strategies and the client's own risk check

    [include/order_book/trading/strategy.hpp] and [src/trading/strategy.cpp]:
    the client's orders and positions as its reports tell them, the check
    before a command is sent, and the two quoting strategies.  Signed 64-bit
    arithmetic that could overflow is checked: leaving the range is undefined
    behaviour. *)
From S2P Require Import Prelude StdMap Types Messages Position LOB OrderBook Pool BookInterface.
From S2P Require Import Engine Replica.

(** ** The order manager *)

Record OrderManager := mkManager {
  om_last_report : Sequence;
  om_orders : gmap OrderId Message;
  om_positions : gmap InstrumentId Position
}.

Definition manager_new : OrderManager := mkManager 0 ∅ ∅.

(** [it->second.quantity = m.remaining; if (m.remaining == 0) orders_.erase(it);] *)
Definition settle (m : Message) (orders : gmap OrderId Message) : gmap OrderId Message :=
  match orders !! m_order_id m with
  | Some o => if decide (m_remaining m = 0) then delete (m_order_id m) orders
              else <[m_order_id m := set_quantity (m_remaining m) o]> orders
  | None => orders
  end.

(** [Position position(InstrumentId) const] *)
Definition om_position (i : InstrumentId) (o : OrderManager) : Position := default position_default (om_positions o !! i).

(** [bool consume(const Message&)] *)
Definition om_consume (m : Message) (o : OrderManager) : bool * OrderManager :=
  if decide (m_kind m <> Kind.Report \/ m_report m = ReportType.Status \/ m_sequence m <= om_last_report o)
  then (false, o)
  else
    let orders := om_orders o in
    let positions := om_positions o in
    (true,
     match m_report m with
     | ReportType.Accepted | ReportType.Replaced =>
       mkManager (m_sequence m) (<[m_order_id m := set_quantity (m_remaining m) m]> orders) positions
     | ReportType.Fill =>
       mkManager (m_sequence m) (settle m orders)
         (<[m_instrument_id m :=
              position_fill (m_side m) (m_price m) (m_quantity m) (om_position (m_instrument_id m) o)]> positions)
     | ReportType.Cancelled => mkManager (m_sequence m) (delete (m_order_id m) orders) positions
     | ReportType.Complete =>
       if decide (m_reject m = Reject.None /\ m_order_id m <> 0)
       then mkManager (m_sequence m) (settle m orders) positions
       else mkManager (m_sequence m) orders positions
     | _ => mkManager (m_sequence m) orders positions
     end).

(** ** Quotes *)

Record Quote := mkQuote { qt_side : Side; qt_price : Price; qt_quantity : Quantity }.

Record StrategyConfig := mkConfig {
  sc_instrument : InstrumentId;
  sc_clip : Quantity;
  sc_fair_price : Price;
  sc_edge : Price;
  sc_tick : Price;
  sc_inventory_limit : Z;
  sc_use_microprice : bool;
  sc_use_trade_ratio : bool;
  sc_trade_ratio : LongDouble
}.

Definition config_default : StrategyConfig := mkConfig 1 5 100 2 1 50 false false (ld_div (ld_of_Z 1) (ld_of_Z 2)).

(** A signed 64-bit result. *)
Definition i64 (z : Z) : outcome Z :=
  if decide (- 2 ^ 63 <= z < 2 ^ 63) then Ret z else Throw (Undefined "signed overflow").

(** [push_back] of one side's quote, guarded by the price and by what its
    fill would do to the inventory. *)
Definition quote_when (prices : bool) (inventory_after : Z) (within : Z -> bool) (q : Quote) : outcome (list Quote) :=
  if prices then after ← i64 inventory_after; Ret (if within after then [q] else []) else Ret [].

(** [std::vector<Quote> maker_quotes(const StrategyConfig&, std::int64_t)] *)
Definition maker_quotes (c : StrategyConfig) (inventory : Z) : outcome (list Quote) :=
  if decide (sc_tick c = 0 \/ sc_edge c = 0 \/ sc_clip c = 0 \/ sc_inventory_limit c <= 0) then Ret []
  else
    skew ← i64 (Z.quot inventory (sc_clip c) * sc_tick c);
    fair ← i64 (sc_fair_price c - skew);
    low ← i64 (fair - sc_edge c);
    bid ← i64 (Z.quot low (sc_tick c) * sc_tick c);
    high ← i64 (fair + sc_edge c);
    high ← i64 (high + sc_tick c);
    high ← i64 (high - 1);
    ask ← i64 (Z.quot high (sc_tick c) * sc_tick c);
    bids ← quote_when (bool_decide (0 < bid /\ bid < ask /\ bid <= 2 ^ 32 - 1)) (inventory + sc_clip c)
             (fun after => after <=? sc_inventory_limit c) (mkQuote Bid (u32 bid) (sc_clip c));
    asks ← quote_when (bool_decide (bid < ask /\ 0 < ask /\ ask <= 2 ^ 32 - 1)) (inventory - sc_clip c)
             (fun after => - sc_inventory_limit c <=? after) (mkQuote Ask (u32 ask) (sc_clip c));
    Ret (bids ++ asks).

Section strategy.
Context {B : Type} {Bops : BookOps B}.

(** [std::optional<Quote> taker_quote(const StrategyConfig&, const OrderBook*, std::int64_t)] *)
Definition taker_quote (c : StrategyConfig) (book : option B) (inventory : Z) : option Quote :=
  match book with
  | None => None
  | Some b =>
    if decide (sc_clip c = 0 \/ sc_inventory_limit c <= 0) then None
    else
      let buy := match bk_best Ask b with
                 | Some ask =>
                   if decide (u64 (ask + sc_edge c) <= sc_fair_price c /\
                              inventory + sc_clip c <= sc_inventory_limit c)
                   then Some (mkQuote Bid ask (sc_clip c)) else None
                 | None => None
                 end in
      match buy with
      | Some q => Some q
      | None =>
        match bk_best Bid b with
        | Some bid =>
          if decide (u64 (sc_fair_price c + sc_edge c) <= bid /\
                     - sc_inventory_limit c <= inventory - sc_clip c)
          then Some (mkQuote Ask bid (sc_clip c)) else None
        | None => None
        end
      end
  end.

(** The loop over the client's open orders: what is reserved on the command's
    side, and how many are open. *)
Definition om_exposure (c : Message) (o : OrderManager) : Z * nat :=
  foldl (fun acc io =>
      if decide (m_action c = Action.Replace /\ io.1 = m_order_id c) then acc
      else (if decide (m_instrument_id io.2 = m_instrument_id c /\ m_side io.2 = m_side c)
            then acc.1 + m_quantity io.2 else acc.1, S acc.2))
    (0, 0%nat) (ordered Z.le (om_orders o)).

(** The price positions are marked at. *)
Definition mark_price (c : Message) (market : MarketReplica B) (p : Position) : LongDouble :=
  let own := if decide (m_price c <> 0) then ld_of_Z (m_price c) else pos_average_price p in
  match replica_book (m_instrument_id c) market with
  | Some b =>
    match bk_best Bid b, bk_best Ask b with
    | Some bid, Some ask => ld_div (ld_add (ld_of_Z bid) (ld_of_Z ask)) (ld_of_Z 2)
    | _, _ => own
    end
  | None => own
  end.

(** [Reject check(const Message&, const InstrumentRules&, const MarketReplica&, long double) const] *)
Definition om_check (c : Message) (limits : InstrumentRules) (market : MarketReplica B) (max_loss : LongDouble)
    (o : OrderManager) : Reject.t :=
  if decide (m_action c = Action.Cancel \/ m_action c = Action.CancelAll) then Reject.None
  else if negb (rp_synchronized market) then Reject.KillSwitch
  else if decide (m_quantity c = 0 \/ max_order_quantity limits < m_quantity c) then Reject.RiskQuantity
  else
    let p := om_position (m_instrument_id c) o in
    if ld_ltb (position_pnl p (mark_price c market p)) (ld_opp max_loss) then Reject.KillSwitch
    else
      let risk_price := if decide (m_order_type c = OrderType.Market) then max_price limits else m_price c in
      if decide (max_notional limits < u64 (risk_price * m_quantity c)) then Reject.RiskNotional
      else
        let '(reserved, open) := om_exposure c o in
        if decide (max_open_orders limits <= Z.of_nat open) then Reject.RiskOpenOrders
        else if decide (max_position limits <
                        Z.abs (pos_quantity p + (if decide (m_side c = Bid) then 1 else -1) *
                                                (reserved + m_quantity c)))
        then Reject.RiskPosition
        else Reject.None.
End strategy.

(** ** The quotes *)

Record config_typed (c : StrategyConfig) : Prop := {
  ct_clip : is_u32 (sc_clip c);
  ct_fair : is_u32 (sc_fair_price c);
  ct_edge : is_u32 (sc_edge c);
  ct_tick : is_u32 (sc_tick c);
  ct_limit : - 2 ^ 63 < sc_inventory_limit c < 2 ^ 63
}.

(** The fair price skewed one tick per clip held. *)
Definition skewed_fair (c : StrategyConfig) (inventory : Z) : Z :=
  sc_fair_price c - Z.quot inventory (sc_clip c) * sc_tick c.

(** A quote on the tick grid, at least the edge away from the fair price and
    less than one tick further, whose fill keeps the inventory in its limit. *)
Record good_quote (c : StrategyConfig) (inventory : Z) (q : Quote) : Prop := {
  gq_quantity : qt_quantity q = sc_clip c;
  gq_price : 0 < qt_price q < 2 ^ 32;
  gq_tick : qt_price q mod sc_tick c = 0;
  gq_edge : match qt_side q with
            | Bid => qt_price q <= skewed_fair c inventory - sc_edge c < qt_price q + sc_tick c
            | _ => qt_price q - sc_tick c < skewed_fair c inventory + sc_edge c <= qt_price q
            end;
  gq_inventory : match qt_side q with
                 | Bid => inventory + sc_clip c <= sc_inventory_limit c
                 | _ => - sc_inventory_limit c <= inventory - sc_clip c
                 end
}.

Lemma i64_ok z : - 2 ^ 63 <= z < 2 ^ 63 -> i64 z = Ret z.
Proof. intros H. unfold i64. by rewrite decide_True. Qed.

Lemma quot_grid x t : 0 < t -> 0 < Z.quot x t * t -> Z.quot x t * t <= x < Z.quot x t * t + t.
Proof.
  intros Ht Hpos. assert (0 < Z.quot x t) by nia. assert (0 <= x) as Hx.
  { destruct (Z.le_gt_cases 0 x); [done|]. pose proof (Z.quot_opp_l x t ltac:(lia)).
    pose proof (Z.quot_pos (- x) t ltac:(lia) ltac:(lia)). lia. }
  rewrite Z.quot_div_nonneg in * by lia. pose proof (Z.div_mod x t ltac:(lia)). pose proof (Z.mod_pos_bound x t ltac:(lia)). nia.
Qed.

Lemma quot_bound x t m : 0 < t -> Z.abs x <= m -> Z.abs (Z.quot x t * t) <= m.
Proof.
  intros Ht Hx. pose proof (Z.quot_rem x t ltac:(lia)). pose proof (Z.rem_bound_abs x t ltac:(lia)).
  destruct (Z.le_gt_cases 0 x).
  - pose proof (Z.rem_nonneg x t ltac:(lia) ltac:(lia)). pose proof (Z.quot_pos x t ltac:(lia) ltac:(lia)). nia.
  - pose proof (Z.rem_nonpos x t ltac:(lia) ltac:(lia)).
    pose proof (Z.quot_pos (- x) t ltac:(lia) ltac:(lia)). pose proof (Z.quot_opp_l x t ltac:(lia)). nia.
Qed.

Lemma quote_when_spec b after within q :
  - 2 ^ 63 <= after < 2 ^ 63 -> quote_when b after within q = Ret (if b && within after then [q] else []).
Proof. intros H. unfold quote_when. destruct b; [|done]. by rewrite i64_ok. Qed.

Lemma skew_bound c inventory :
  0 < sc_clip c -> Z.abs inventory * sc_tick c <= 2 ^ 62 -> 0 < sc_tick c ->
  Z.abs (Z.quot inventory (sc_clip c) * sc_tick c) <= 2 ^ 62.
Proof.
  intros Hc Hb Ht. rewrite Z.abs_mul, (Z.abs_eq (sc_tick c)) by lia.
  assert (Z.abs (Z.quot inventory (sc_clip c)) <= Z.abs inventory); [|nia].
  rewrite <- Z.quot_abs by lia. rewrite (Z.abs_eq (sc_clip c)), Z.quot_div_nonneg by lia. apply Z.div_le_upper_bound; [lia|nia].
Qed.

(** The two prices before they are filtered. *)
Definition raw_bid (c : StrategyConfig) (inventory : Z) : Z :=
  Z.quot (skewed_fair c inventory - sc_edge c) (sc_tick c) * sc_tick c.
Definition raw_ask (c : StrategyConfig) (inventory : Z) : Z :=
  Z.quot (skewed_fair c inventory + sc_edge c + sc_tick c - 1) (sc_tick c) * sc_tick c.

Lemma maker_quotes_eq c inventory :
  config_typed c -> Z.abs inventory * sc_tick c <= 2 ^ 62 ->
  0 < sc_tick c -> 0 < sc_edge c -> 0 < sc_clip c -> 0 < sc_inventory_limit c ->
  let bid := raw_bid c inventory in
  let ask := raw_ask c inventory in
  maker_quotes c inventory = Ret (
    (if bool_decide (0 < bid /\ bid < ask /\ bid <= 2 ^ 32 - 1) && (inventory + sc_clip c <=? sc_inventory_limit c)
     then [mkQuote Bid (u32 bid) (sc_clip c)] else []) ++
    (if bool_decide (bid < ask /\ 0 < ask /\ ask <= 2 ^ 32 - 1) && (- sc_inventory_limit c <=? inventory - sc_clip c)
     then [mkQuote Ask (u32 ask) (sc_clip c)] else [])).
Proof.
  intros [Hc Hf He Ht Hl] Hinv Ht0 He0 Hc0 Hl0 bid ask. unfold is_u32 in *.
  pose proof (skew_bound c inventory Hc0 Hinv Ht0) as Hskew. unfold maker_quotes.
  rewrite decide_False by lia. set (skew := Z.quot inventory (sc_clip c) * sc_tick c) in *.
  assert (Z.abs inventory <= 2 ^ 62) as Hi by nia.
  rewrite (i64_ok skew) by lia. rewrite bind_Ret, (i64_ok (sc_fair_price c - skew)) by lia. rewrite bind_Ret.
  set (fair := sc_fair_price c - skew) in *.
  assert (Z.abs bid <= 2 ^ 62 + 2 ^ 33) as Hb by (apply quot_bound; [done|unfold skewed_fair; fold skew; lia]).
  assert (Z.abs ask <= 2 ^ 62 + 2 ^ 34) as Ha by (apply quot_bound; [done|unfold skewed_fair; fold skew; lia]).
  unfold bid, ask, raw_bid, raw_ask, skewed_fair in *. fold skew in Hb, Ha |- *. fold fair in Hb, Ha |- *.
  rewrite (i64_ok (fair - sc_edge c)), bind_Ret by lia. rewrite (i64_ok (Z.quot (fair - sc_edge c) _ * _)), bind_Ret by lia.
  rewrite (i64_ok (fair + sc_edge c)), bind_Ret by lia. rewrite (i64_ok (_ + sc_tick c)), bind_Ret by lia.
  rewrite (i64_ok (_ - 1)), bind_Ret by lia. rewrite (i64_ok (Z.quot (_ - 1) _ * _)), bind_Ret by lia.
  rewrite !quote_when_spec by lia. by rewrite !bind_Ret.
Qed.

(** C12: The market maker never overflows while a position times its tick stays
    within 2^62, and every quote it returns is a good one: on the tick grid, in
    the range of a price, at least the edge and less than the edge and one tick
    from the skewed fair price, of one clip, and with an inventory limit its
    fill respects; its bid is below its ask. *)
Theorem maker_quotes_correct c inventory :
  config_typed c -> Z.abs inventory * sc_tick c <= 2 ^ 62 ->
  exists qs, maker_quotes c inventory = Ret qs /\ Forall (good_quote c inventory) qs /\
    forall p q, p ∈ qs -> q ∈ qs -> qt_side p = Bid -> qt_side q = Ask -> qt_price p < qt_price q.
Proof.
  intros Hc Hinv. pose proof Hc as [Hcl Hf He Ht Hl]. unfold is_u32 in *.
  destruct (decide (sc_tick c = 0 \/ sc_edge c = 0 \/ sc_clip c = 0 \/ sc_inventory_limit c <= 0)) as [Hno|Hyes].
  { exists []. unfold maker_quotes. rewrite decide_True by done. split; [done|]. split; [constructor|].
    intros p q Hp. by apply not_elem_of_nil in Hp. }
  eexists. split; [apply maker_quotes_eq; try done; lia|].
  set (bid := raw_bid c inventory). set (ask := raw_ask c inventory).
  assert (0 < bid -> bid <= skewed_fair c inventory - sc_edge c < bid + sc_tick c) as Hbid by (apply quot_grid; lia).
  assert (0 < ask -> ask <= skewed_fair c inventory + sc_edge c + sc_tick c - 1 < ask + sc_tick c) as Hask
    by (apply quot_grid; lia).
  assert (bid mod sc_tick c = 0 /\ ask mod sc_tick c = 0) as [Hbt Hat] by (split; apply Z_mod_mult).
  set (bs := if _ && _ then [mkQuote Bid _ _] else []). set (ks := if _ && _ then [mkQuote Ask _ _] else []).
  assert (forall q, q ∈ bs -> q = mkQuote Bid bid (sc_clip c) /\ 0 < bid < 2 ^ 32 /\ bid < ask /\
            inventory + sc_clip c <= sc_inventory_limit c) as Hbs.
  { intros q. unfold bs. case_bool_decide as Hg; simpl; [|by intros ?%not_elem_of_nil].
    destruct (Z.leb_spec (inventory + sc_clip c) (sc_inventory_limit c)); [|by intros ?%not_elem_of_nil].
    rewrite u32_small by (unfold is_u32; lia). intros ->%list_elem_of_singleton. split; [done|lia]. }
  assert (forall q, q ∈ ks -> q = mkQuote Ask ask (sc_clip c) /\ 0 < ask < 2 ^ 32 /\
            - sc_inventory_limit c <= inventory - sc_clip c) as Hks.
  { intros q. unfold ks. case_bool_decide as Hg; simpl; [|by intros ?%not_elem_of_nil].
    destruct (Z.leb_spec (- sc_inventory_limit c) (inventory - sc_clip c)); [|by intros ?%not_elem_of_nil].
    rewrite u32_small by (unfold is_u32; lia). intros ->%list_elem_of_singleton. split; [done|lia]. }
  split.
  - apply Forall_forall. intros q [(-> & ? & ? & ?)%Hbs|(-> & ? & ?)%Hks]%elem_of_app; split; cbn [qt_side qt_price qt_quantity]; try done; lia.
  - intros p q [(-> & ? & ? & ?)%Hbs|(-> & ? & ?)%Hks]%elem_of_app [(-> & ? & ? & ?)%Hbs|(-> & ? & ?)%Hks]%elem_of_app;
      cbn [qt_side qt_price]; done.
Qed.
