(* ===== verification/StrategyTheorems.v ===== *)
(** * What the client's risk check and the taker guarantee *)
From S2P Require Import Prelude StdMap Types Messages Position LOB Market OrderBook Pool BookInterface BookTheorems.
From S2P Require Import Registry Engine EngineInv EngineSteps EngineProcess EngineTheorems EngineSamples Replica ReplicaTheorems ReplicaSamples Strategy.

(** ** The exposure loops *)

Definition Brief : Type := OrderId * (InstrumentId * Side * Quantity).
Definition brief (x : OrderId) (m : Message) : Brief := (x, (m_instrument_id m, m_side m, m_quantity m)).

(** What one order adds to the reservation on side [s] of instrument [i]. *)
Definition weight (i : InstrumentId) (s : Side) (t : Brief) : Z :=
  if decide (t.2.1.1 = i /\ t.2.1.2 = s) then t.2.2 else 0.

Definition reserved_by (i : InstrumentId) (s : Side) (l : list Brief) : Z := sumZ (weight i s <$> l).

Lemma om_exposure_sum c o :
  let l := (fun io => brief io.1 io.2) <$>
             filter (fun io => ~ (m_action c = Action.Replace /\ io.1 = m_order_id c)) (ordered Z.le (om_orders o)) in
  om_exposure c o = (reserved_by (m_instrument_id c) (m_side c) l, length l).
Proof.
  unfold om_exposure. cbv zeta. generalize (ordered Z.le (om_orders o)). intros l.
  assert (forall l a n, foldl (fun acc io =>
      if decide (m_action c = Action.Replace /\ io.1 = m_order_id c) then acc
      else (if decide (m_instrument_id io.2 = m_instrument_id c /\ m_side io.2 = m_side c)
            then acc.1 + m_quantity io.2 else acc.1, S acc.2)) (a, n) l =
    (a + reserved_by (m_instrument_id c) (m_side c) ((fun io => brief io.1 io.2) <$>
       filter (fun io => ~ (m_action c = Action.Replace /\ io.1 = m_order_id c)) l),
     (n + length (filter (fun io : OrderId * Message => ~ (m_action c = Action.Replace /\ io.1 = m_order_id c)) l))%nat)) as Hgen.
  { clear l. induction l as [|[x m] l IH]; intros a n; [unfold reserved_by; simpl; f_equal; lia|].
    cbn [foldl fst snd]. rewrite filter_cons. cbn [fst].
    destruct (decide (m_action c = Action.Replace /\ x = m_order_id c)) as [Hex|Hex].
    - rewrite IH. rewrite (decide_False (P := ~ _)) by tauto. done.
    - rewrite (decide_True (P := ~ _)) by done. rewrite IH. unfold reserved_by. csimpl. cbn [sumZ].
      unfold weight at 2. cbn [fst snd brief length].
      destruct (decide (m_instrument_id m = _ /\ _)); apply f_equal2; lia. }
  rewrite Hgen, length_fmap. f_equal; lia.
Qed.

Section check.
Context {B : Type} {Bops : BookOps B} {Blaws : BookLaws B}.
Implicit Types (e : Engine B).

Lemma exposure_briefs c old_id e :
  let l := (fun io => brief (m_order_id io.2) io.2) <$>
             filter (fun io => ~ (io.1 = old_id \/ m_client_id io.2 <> m_client_id c)) (ordered Z.le (resting_ e)) in
  exposure c old_id e = (reserved_by (m_instrument_id c) (m_side c) l, Z.of_nat (length l)).
Proof.
  unfold exposure. cbv zeta. generalize (ordered Z.le (resting_ e)). intros l.
  assert (forall l a n, foldl (fun '(reserved, open) '(id, order) =>
      if decide (id = old_id \/ m_client_id order <> m_client_id c) then (reserved, open)
      else (if decide (m_instrument_id order = m_instrument_id c /\ m_side order = m_side c)
            then reserved + m_quantity order else reserved, open + 1)) (a, n) l =
    (a + reserved_by (m_instrument_id c) (m_side c) ((fun io => brief (m_order_id io.2) io.2) <$>
       filter (fun io => ~ (io.1 = old_id \/ m_client_id io.2 <> m_client_id c)) l),
     n + Z.of_nat (length (filter (fun io : OrderId * Message => ~ (io.1 = old_id \/ m_client_id io.2 <> m_client_id c)) l)))) as Hgen.
  { clear l. induction l as [|[x m] l IH]; intros a n; [unfold reserved_by; simpl; f_equal; lia|].
    cbn [foldl fst snd]. rewrite filter_cons. cbn [fst snd].
    destruct (decide (x = old_id \/ m_client_id m <> m_client_id c)) as [Hex|Hex].
    - rewrite IH. rewrite (decide_False (P := ~ _)) by tauto. done.
    - rewrite (decide_True (P := ~ _)) by done. rewrite IH. unfold reserved_by. csimpl. cbn [sumZ].
      unfold weight at 2. cbn [fst snd brief length].
      destruct (decide (m_instrument_id m = _ /\ _)); apply f_equal2; lia. }
  rewrite Hgen, length_fmap. f_equal; lia.
Qed.

(** The client's books agree with the engine: the same open orders under the
    client's ids, and the same positions. *)
Record agrees e (k : ClientId) (o : OrderManager) : Prop := {
  ag_orders x t :
    (exists m, om_orders o !! x = Some m /\ brief x m = t) <->
    (exists id m, by_client_ e !! (k, x) = Some id /\ resting_ e !! id = Some m /\ brief x m = t);
  ag_positions i : pos_quantity (om_position i o) = quantity_of (positions_ e) k i
}.

(** The id of the order a command replaces, 0 for a new one. *)
Definition replaces c (old_id : OrderId) e : Prop :=
  (m_action c = Action.New /\ old_id = 0) \/
  (m_action c = Action.Replace /\ by_client_ e !! (m_client_id c, m_order_id c) = Some old_id).

Lemma exposures_agree c old_id e o :
  engine_wf e -> agrees e (m_client_id c) o -> replaces c old_id e ->
  exposure c old_id e = ((om_exposure c o).1, Z.of_nat (om_exposure c o).2).
Proof.
  intros Hwf [Ho _] Hrep. rewrite exposure_briefs, om_exposure_sum. cbn [fst snd].
  pose proof (ec_index _ _ _ _ _ _ _ (ew_core _ Hwf)) as Hindex.
  set (l1 := _ <$> filter _ (ordered Z.le (resting_ e))). set (l2 := _ <$> filter _ (ordered Z.le (om_orders o))).
  assert (l1 ≡ₚ l2) as Hp; [|by rewrite (Permutation_length Hp); unfold reserved_by; rewrite (sumZ_perm _ _ (fmap_Permutation _ _ _ Hp))].
  assert (forall id m, resting_ e !! id = Some m -> m_client_id m = m_client_id c ->
            by_client_ e !! (m_client_id c, m_order_id m) = Some id) as Hback.
  { intros id m Hm Hc. apply Hindex. by exists m. }
  apply NoDup_Permutation.
  - unfold l1. apply NoDup_fmap_2_strong; [|apply NoDup_filter; eapply NoDup_fmap_1, (NoDup_ordered_keys Z.le)].
    intros [a ma] [b mb] [Ha Hma]%list_elem_of_filter [Hb Hmb]%list_elem_of_filter E. unfold brief in E. simpl in *.
    injection E as E1 _ _ _. apply (elem_of_ordered Z.le) in Hma, Hmb.
    pose proof (Hback _ _ Hma ltac:(apply dec_stable; tauto)) as H1.
    pose proof (Hback _ _ Hmb ltac:(apply dec_stable; tauto)) as H2. rewrite E1 in H1.
    assert (a = b) as -> by congruence. f_equal. congruence.
  - unfold l2. apply NoDup_fmap_2_strong; [|apply NoDup_filter; eapply NoDup_fmap_1, (NoDup_ordered_keys Z.le)].
    intros [a ma] [b mb] [_ Hma]%list_elem_of_filter [_ Hmb]%list_elem_of_filter E. unfold brief in E. simpl in *.
    injection E as -> _ _ _. apply (elem_of_ordered Z.le) in Hma, Hmb. f_equal. congruence.
  - intros t. unfold l1, l2. rewrite !list_elem_of_fmap. split.
    + intros ([id m] & -> & [Hkeep Hm]%list_elem_of_filter). simpl in *. apply (elem_of_ordered Z.le) in Hm.
      assert (m_client_id m = m_client_id c) as Hc by (apply dec_stable; tauto).
      destruct (proj2 (Ho (m_order_id m) (brief (m_order_id m) m))) as (m' & Hm' & E).
      { exists id, m. split; [by apply Hback|done]. }
      exists (m_order_id m, m'). split; [done|]. apply list_elem_of_filter. split; [|by apply (elem_of_ordered Z.le)].
      simpl. intros [Hr Hx]. destruct Hrep as [[Hn _]|[_ Hi]]; [congruence|].
      rewrite <- Hx, (Hback _ _ Hm Hc) in Hi. injection Hi as Hi. tauto.
    + intros ([x m'] & -> & [Hkeep Hm']%list_elem_of_filter). simpl in *. apply (elem_of_ordered Z.le) in Hm'.
      destruct (proj1 (Ho x (brief x m'))) as (id & m & Hid & Hm & E); [by exists m'|].
      pose proof (proj1 (Hindex _ _ _) Hid) as (m0 & Hm0 & Hc & Hx). assert (m0 = m) as -> by congruence.
      exists (id, m). simpl. rewrite Hx. split; [done|]. apply list_elem_of_filter.
      split; [|by apply (elem_of_ordered Z.le)]. simpl. intros [->|Hne]; [|done].
      destruct Hrep as [[_ ->]|[Hr Hi]].
      * destruct (ec_ids _ _ _ _ _ _ _ (ew_core _ Hwf) _ _ Hm). lia.
      * apply Hkeep. split; [done|]. apply Hindex in Hi as (m1 & Hm1 & _ & Hx1). congruence.
Qed.

Definition risk_reason (r : Reject.t) : Prop :=
  r = Reject.RiskQuantity \/ r = Reject.RiskNotional \/ r = Reject.RiskOpenOrders \/ r = Reject.RiskPosition.

(** C11: The client's check is as strict as the engine's.  When its orders and
    positions agree with the engine's and it checks with the engine's rules for
    the instrument, a new order or a replacement it lets through is not refused
    for risk: not for its quantity, its notional, the number of open orders or
    the worst-case position. *)
Theorem client_check_sound c old_id e o r market max_loss :
  engine_wf e -> agrees e (m_client_id c) o -> replaces c old_id e ->
  instruments_ e !! m_instrument_id c = Some r -> is_Some (clients_ e !! m_client_id c) ->
  om_check c r (market : MarketReplica B) max_loss o = Reject.None ->
  exists v, pre_trade c old_id e = Ret v /\ forall reason, v = Some reason -> ~ risk_reason reason.
Proof.
  intros Hwf Hag Hrep Hr [st Hst]. pose proof (exposures_agree c old_id e o Hwf Hag Hrep) as Hexp.
  unfold om_check, pre_trade. rewrite Hr. rewrite decide_False by (destruct Hrep as [[-> _]|[-> _]]; intros [?|?]; discriminate).
  destruct (negb (rp_synchronized market)); [discriminate|]. destruct (decide (_ \/ _)) as [|Hq]; [discriminate|].
  cbv zeta. destruct (ld_ltb _ _); [discriminate|]. destruct (decide (max_notional r < _)) as [|Hn]; [discriminate|].
  destruct (om_exposure c o) as [reserved open]. cbn [fst snd] in Hexp.
  destruct (decide (max_open_orders r <= _)) as [|Hopen]; [discriminate|].
  destruct (decide (max_position r < _)) as [|Hpos]; [discriminate|]. intros _.
  destruct (check_fields r c old_id) as [reason|] eqn:Ec.
  { exists (Some reason). split; [done|]. intros reason' [= <-]. revert Ec. unfold check_fields.
    destruct (decide (_ \/ _)); [intros [= <-]; unfold risk_reason; naive_solver|].
    destruct (decide (_ \/ _)); [intros [= <-]; unfold risk_reason; naive_solver|].
    destruct (decide (_ /\ _)); [intros [= <-]; unfold risk_reason; naive_solver|].
    rewrite decide_False by lia. by rewrite decide_False by lia. }
  rewrite (at_key_Some _ _ _ Hst), bind_Ret. destruct (decide (old_id = 0 /\ _)).
  { exists (Some Reject.DuplicateOrder). split; [done|]. intros reason [= <-]. unfold risk_reason. naive_solver. }
  rewrite Hexp. rewrite decide_False by lia.
  assert (pos_quantity (position (m_client_id c) (m_instrument_id c) e) = pos_quantity (om_position (m_instrument_id c) o)) as ->.
  { rewrite (ag_positions _ _ _ Hag). done. }
  rewrite decide_False by lia. exists None. split; [done|]. discriminate.
Qed.
End check.

(** ** The taker *)

(** The taker only trades with an edge: its quote hits the best opposite
    price, for one clip, at least the edge better than the fair price, and its
    fill keeps the inventory in the limit; it buys whenever the best ask allows
    it and otherwise sells whenever the best bid does. *)
Theorem taker_quote_correct {B : Type} {Bops : BookOps B} {Blaws : BookLaws B} c (b : B) inventory :
  bk_wf b -> config_typed c -> 0 < sc_clip c -> 0 < sc_inventory_limit c ->
  let buys ask := lob_best Ask (bk_abs b) = Some ask /\ ask + sc_edge c <= sc_fair_price c /\
                  inventory + sc_clip c <= sc_inventory_limit c in
  let sells bid := lob_best Bid (bk_abs b) = Some bid /\ sc_fair_price c + sc_edge c <= bid /\
                   - sc_inventory_limit c <= inventory - sc_clip c in
  match taker_quote c (Some b) inventory with
  | Some q => qt_quantity q = sc_clip c /\
      ((qt_side q = Bid /\ buys (qt_price q)) \/
       (qt_side q = Ask /\ sells (qt_price q) /\ forall ask, ~ buys ask))
  | None => (forall ask, ~ buys ask) /\ forall bid, ~ sells bid
  end.
Proof.
  intros Hb [Hc Hf He Ht Hl] Hc0 Hl0 buys sells. unfold is_u32 in *. unfold taker_quote.
  rewrite decide_False by lia. rewrite (bk_best_spec Ask b Hb), (bk_best_spec Bid b Hb) by (unfold valid_side; auto).
  pose proof (bk_abs_wf b Hb) as Hwf.
  assert (forall ask, lob_best Ask (bk_abs b) = Some ask -> u64 (ask + sc_edge c) = ask + sc_edge c) as Hask.
  { intros ask Ea. apply u64_small. unfold lob_best in Ea.
    destruct (queue Ask (bk_abs b)) as [|v q] eqn:Eq; [done|]. injection Ea as <-.
    destruct (wf_order _ Hwf Ask v) as [_ Hp _]; [rewrite Eq; left|]. unfold is_u64. lia. }
  rewrite (u64_small (sc_fair_price c + sc_edge c)) by (unfold is_u64; lia). cbv zeta.
  destruct (lob_best Ask (bk_abs b)) as [ask|] eqn:Ea.
  - rewrite (Hask ask eq_refl). destruct (decide (_ /\ _)) as [Hbuy|Hno]; [by split; [done|left; repeat split; tauto]|].
    assert (forall a, ~ buys a) as Hnb by (intros a (E & ?); injection E as <-; tauto).
    destruct (lob_best Bid (bk_abs b)) as [bid|] eqn:Eb; [|split; [done|by intros x []]].
    destruct (decide (_ /\ _)) as [Hsell|Hns].
    + split; [done|]. right. split; [done|]. split; [|done]. by split.
    + split; [done|]. intros x (E & ?). injection E as <-. tauto.
  - assert (forall a, ~ buys a) as Hnb by by intros a [].
    destruct (lob_best Bid (bk_abs b)) as [bid|] eqn:Eb; [|split; [done|by intros x []]].
    destruct (decide (_ /\ _)) as [Hsell|Hns].
    + split; [done|]. right. split; [done|]. split; [|done]. by split.
    + split; [done|]. intros x (E & ?). injection E as <-. tauto.
Qed.

(** ** Concrete instances *)

(** A client known to the engine, with no orders yet. *)
Definition sample_known_engine : Engine (OrderBook Pool) :=
  (from_ret ([], engine_empty) (engine_run [(sample_heap, command Action.Cancel Bid 3 1 99 0 0)] sample_engine)).2.

Lemma sample_known_wf : engine_wf sample_known_engine.
Proof.
  destruct (engine_run_step [(sample_heap, command Action.Cancel Bid 3 1 99 0 0)] sample_engine sample_engine_wf)
    as (bs & e & E & He & _).
  - repeat constructor; vm_compute; congruence.
  - vm_compute. reflexivity.
  - unfold sample_known_engine. by rewrite E.
Qed.

Lemma sample_agrees : agrees sample_known_engine 3 manager_new.
Proof.
  assert (map_Forall (fun k (_ : OrderId) => k.1 <> 3) (by_client_ sample_known_engine)) as H1.
  { apply (bool_decide_unpack _). vm_compute. exact I. }
  assert (map_Forall (fun k (_ : Position) => k.1 <> 3) (positions_ sample_known_engine)) as H2.
  { apply (bool_decide_unpack _). vm_compute. exact I. }
  split.
  - intros x t. split.
    + intros (m & Hm & _). cbn [om_orders manager_new] in Hm. by rewrite lookup_empty in Hm.
    + intros (id & m & Hid & _). by destruct (H1 _ _ Hid).
  - intros i. unfold quantity_of. destruct (positions_ sample_known_engine !! (3, i)) as [p|] eqn:E; [|done].
    by destruct (H2 _ _ E).
Qed.

Definition sample_order : Message := command Action.New Bid 3 2 31 100 5.
Definition sample_market : MarketReplica (OrderBook Pool) :=
  mkReplica (e_books sample_engine) 1 (e_sequence sample_engine) true.

Lemma client_check_sound_witness :
  om_check sample_order default_rules sample_market (ld_of_Z 1000) manager_new = Reject.None /\
  exists v, pre_trade sample_order 0 sample_known_engine = Ret v /\ forall reason, v = Some reason -> ~ risk_reason reason.
Proof.
  assert (om_check sample_order default_rules sample_market (ld_of_Z 1000) manager_new = Reject.None) as E
    by (vm_compute; reflexivity).
  refine (conj E (client_check_sound sample_order 0 sample_known_engine manager_new default_rules sample_market
    (ld_of_Z 1000) sample_known_wf sample_agrees (or_introl (conj eq_refl eq_refl)) _ _ E)).
  - vm_compute. reflexivity.
  - vm_compute. by eexists.
Defined.

Lemma config_default_typed : config_typed config_default.
Proof. split; unfold is_u32; simpl; lia. Qed.

Lemma maker_quotes_correct_witness :
  exists qs, maker_quotes config_default 12 = Ret qs /\ Forall (good_quote config_default 12) qs.
Proof.
  destruct (maker_quotes_correct config_default 12 config_default_typed) as (qs & E & H & _).
  - vm_compute. congruence.
  - exists qs. exact (conj E H).
Defined.

Definition sample_config : StrategyConfig := mkConfig 1 5 110 2 1 50 false false (ld_of_Z 1).

Lemma taker_quote_correct_witness :
  match taker_quote sample_config (Some sample_book) 0 with
  | Some q => qt_quantity q = 5
  | None => True
  end.
Proof.
  assert (config_typed sample_config) as Hc by (split; unfold is_u32; simpl; lia).
  pose proof (taker_quote_correct sample_config sample_book 0 sample_book_wf Hc eq_refl eq_refl) as H.
  destruct (taker_quote sample_config (Some sample_book) 0) as [q|]; [exact (proj1 H)|exact I].
Defined.
