(* ===== verification/Journal.v ===== *)
(** * The command journal

    [include/order_book/trading/journal.hpp] and [src/trading/journal.cpp].
    The system calls are the operations of a class [FileSystem] over any state
    of the world, with what POSIX documents of them for a regular file as the
    laws [FileLaws]: short transfers, interruptions and errors included. *)
From S2P Require Import Prelude Bytes Fnv Messages.

Inductive ReadResult := ReadBytes (bs : list Z) | ReadEof | ReadIntr | ReadError.
Inductive WriteResult := Wrote (n : nat) | WriteIntr | WriteError.

(** The calls the journal makes; a [bool] tells success. *)
Class FileSystem (W : Type) := {
  os_open : W -> bool * W;
  os_flock : W -> bool * W;
  os_read : nat -> W -> ReadResult * W;
  os_write : list Z -> W -> WriteResult * W;
  os_fdatasync : W -> bool * W;
  os_open_parent : W -> bool * W;
  os_fsync_parent : W -> bool * W;
  os_close_parent : W -> W;
  os_close : W -> W
}.

(** ** Computations on the world that may throw *)
Definition io (W A : Type) : Type := W -> outcome A * W.

#[export] Instance io_ret {W} : MRet (io W) := fun A a w => (Ret a, w).
#[export] Instance io_bind {W} : MBind (io W) := fun A B f m w =>
  match m w with (Ret a, w) => f a w | (Throw e, w) => (Throw e, w) end.

Definition io_throw {W A} (e : exn) : io W A := fun w => (Throw e, w).
Definition io_call {W A} (f : W -> A * W) : io W A := fun w => let (a, w) := f w in (Ret a, w).

Section journal.
Context {W : Type} {FS : FileSystem W}.

(** [fail(operation)] when a call fails. *)
Definition must (ok : bool) (operation : string) : io W unit :=
  if ok then mret () else io_throw (SystemError operation).

(** [void write_all(int, const std::uint8_t* data, std::size_t)].  Every round
    moves on or uses up a signal, so [fuel] bounds the rounds. *)
Fixpoint write_all (fuel : nat) (data : list Z) : io W unit :=
  match data, fuel with
  | [], _ => mret ()
  | _, O => io_throw (Undefined "out of fuel")
  | _, S fuel =>
    n ← io_call (os_write data);
    match n with
    | WriteIntr => write_all fuel data
    | WriteError => io_throw (SystemError "write journal")
    | Wrote O => io_throw (RuntimeError "Journal write made no progress")
    | Wrote n => write_all fuel (drop n data)
    end
  end.

(** [bool read_all(int, std::uint8_t* data, std::size_t)]: the bytes when it
    returns true, [None] when it returns false.  [got] is what it has so far. *)
Fixpoint read_all (fuel : nat) (got : list Z) (size : nat) : io W (option (list Z)) :=
  match size, fuel with
  | O, _ => mret (Some got)
  | _, O => io_throw (Undefined "out of fuel")
  | _, S fuel =>
    r ← io_call (os_read size);
    match r with
    | ReadIntr => read_all fuel got size
    | ReadError => io_throw (SystemError "read journal")
    | ReadEof =>
      match got with
      | [] => mret None
      | _ => io_throw (RuntimeError "Torn journal record; restore a verified journal backup")
      end
    | ReadBytes bs => read_all fuel (got ++ bs) (size - length bs)
    end
  end.
Arguments read_all : simpl never.
Arguments write_all : simpl never.

(** [std::uint32_t checksum(const Frame&)]: FNV-1a. *)
Definition fnv_prime : Z := 16777619.
Definition fnv_step (hash b : Z) : Z := u32 (Z.lxor hash b * fnv_prime).
Definition checksum (bytes : list Z) : Z := foldl fnv_step 2166136261 bytes.

(** [void sync(int)] *)
Definition sync : io W unit := ok ← io_call os_fdatasync; must ok "fdatasync journal".

(** The sixteen bytes a journal begins with. *)
Definition journal_header (config_hash : Z) : list Z :=
  foldl (fun b i => <[(15 - i)%nat := Z.land (Z.shiftr config_hash (8 * Z.of_nat i)) 255]> b)
    [76; 74; 82; 49; 1; 0; 0; 0; 0; 0; 0; 0; 0; 0; 0; 0] (seq 0 8).

(** [stored = (stored << 8U) | b] over the four checksum bytes. *)
Definition stored_checksum (crc : list Z) : Z :=
  foldl (fun stored b => Z.lor (u32 (Z.shiftl stored 8)) b) 0 crc.

(** The record of a frame. *)
Definition record_of (bytes : list Z) : list Z :=
  let hash := checksum bytes in
  bytes ++ ((fun i => Z.land (Z.shiftr hash (24 - 8 * Z.of_nat i)) 255) <$> seq 0 4).

(** What recovery asks of a frame and its stored checksum. *)
Definition record_command (bytes crc : list Z) : option Message :=
  match decode bytes with
  | Some m =>
    if decide (stored_checksum crc <> checksum bytes \/ m_kind m <> Kind.Command \/
               m_action m = Action.Status \/ m_action m = Action.Snapshot)
    then None else Some m
  | None => None
  end.

(** The loop over the records; [fuel] bounds their number too. *)
Fixpoint recover (fuel rounds : nat) (recovered : list Message) : io W (list Message) :=
  match rounds with
  | O => io_throw (Undefined "out of fuel")
  | S rounds =>
    bytes ← read_all fuel [] frame_size;
    match bytes with
    | None => mret recovered
    | Some bytes =>
      crc ← read_all fuel [] 4;
      match crc with
      | None => io_throw (RuntimeError "Missing journal checksum")
      | Some crc =>
        match record_command bytes crc with
        | Some m => recover fuel rounds (recovered ++ [m])
        | None => io_throw (RuntimeError "Corrupt journal record")
        end
      end
    end
  end.

(** [catch (...) { ::close(fd_); fd_ = -1; throw; }] *)
Definition closing {A} (m : io W A) : io W A := fun w =>
  match m w with (Throw e, w) => (Throw e, os_close w) | r => r end.

(** A new journal gets its header, and its directory entry is made durable. *)
Definition create_header (fuel : nat) (expected : list Z) : io W unit :=
  _ ← write_all fuel expected;
  _ ← sync;
  dir ← io_call os_open_parent;
  _ ← must dir "open journal directory";
  result ← io_call os_fsync_parent;
  _ ← io_call (fun w => ((), os_close_parent w));
  must result "fsync journal directory".

(** [Journal(const std::string&, std::uint64_t)], returning [recovered_]. *)
Definition journal_open (fuel : nat) (config_hash : Z) : io W (list Message) :=
  ok ← io_call os_open;
  _ ← must ok "open journal";
  closing (
    ok ← io_call os_flock;
    _ ← must ok "lock journal";
    header ← read_all fuel [] 16;
    _ ← (match header with
         | None => create_header fuel (journal_header config_hash)
         | Some h =>
           if decide (h <> journal_header config_hash)
           then io_throw (RuntimeError "Journal version/instrument configuration mismatch")
           else mret ()
         end);
    recover fuel fuel []).

(** [void append(const Message&)] *)
Definition journal_append (fuel : nat) (command : Message) : io W unit :=
  bytes ← (fun w => (encode command, w));
  _ ← write_all fuel (record_of bytes);
  sync.
End journal.

(** ** The checksum *)

Lemma fnv_step_range h b : is_u32 (fnv_step h b).
Proof. apply u32_range. Qed.

(** The prime has an inverse modulo 2^32. *)
Lemma fnv_prime_inverse : (fnv_prime * 899433627) mod 2 ^ 32 = 1 mod 2 ^ 32.
Proof. vm_compute. reflexivity. Qed.

(** Changing one byte of a frame always changes its checksum. *)
Lemma checksum_detects pre x y post :
  Forall is_u8 pre -> is_u8 x -> is_u8 y -> Forall is_u8 post ->
  checksum (pre ++ x :: post) = checksum (pre ++ y :: post) -> x = y.
Proof.
  intros Hpre Hx Hy Hpost.
  assert (forall b, is_u8 b -> in_word 32 b) as Hb by (intros b; unfold is_u8, in_word; lia).
  apply (fnv_detects 32 fnv_prime 899433627 eq_refl fnv_prime_inverse); auto; [by vm_compute| |];
    eapply Forall_impl; eauto.
Qed.
