(* ===== verification/JournalTheorems.v ===== *)
(** * What the journal guarantees

    Commands that were appended come back when the journal is opened again, and
    a journal that was torn, damaged or written under another configuration is
    refused. *)
From S2P Require Import Prelude Bytes Messages Journal.

(** What POSIX says of the calls on one regular file that no one else writes:
    [disk] is its content, [offset] the file position, [signals] how many
    interruptions are still to come. *)
Class FileLaws (W : Type) {FS : FileSystem W} := {
  disk : W -> list Z;
  offset : W -> nat;
  signals : W -> nat;
  law_open w w' : os_open w = (true, w') ->
    disk w' = disk w /\ offset w' = 0%nat /\ (signals w' <= signals w)%nat;
  law_read n w : n <> 0%nat ->
    match os_read n w with
    | (ReadBytes bs, w') => bs <> [] /\ (length bs <= n)%nat /\
        bs = take (length bs) (drop (offset w) (disk w)) /\ disk w' = disk w /\
        offset w' = (offset w + length bs)%nat /\ (signals w' <= signals w)%nat
    | (ReadEof, w') => (length (disk w) <= offset w)%nat /\ disk w' = disk w /\ offset w' = offset w /\
        (signals w' <= signals w)%nat
    | (ReadIntr, w') => disk w' = disk w /\ offset w' = offset w /\ (signals w' < signals w)%nat
    | (ReadError, _) => True
    end;
  law_write data w : data <> [] ->
    match os_write data w with
    | (Wrote n, w') => (0 < n <= length data)%nat /\
        disk w' = take (offset w) (disk w) ++ take n data ++ drop (offset w + n) (disk w) /\
        offset w' = (offset w + n)%nat /\ (signals w' <= signals w)%nat
    | (WriteIntr, w') => disk w' = disk w /\ offset w' = offset w /\ (signals w' < signals w)%nat
    | (WriteError, _) => True
    end;
  law_quiet (f : W -> bool * W) w :
    f = os_flock \/ f = os_fdatasync \/ f = os_open_parent \/ f = os_fsync_parent ->
    disk (f w).2 = disk w /\ offset (f w).2 = offset w /\ (signals (f w).2 <= signals w)%nat;
  law_close_parent w : disk (os_close_parent w) = disk w /\ offset (os_close_parent w) = offset w /\
    (signals (os_close_parent w) <= signals w)%nat
}.

(** ** The bytes of a journal *)

Lemma stored_checksum_num l : (length l <= 4)%nat -> Forall is_u8 l -> stored_checksum l = be_num l.
Proof.
  unfold stored_checksum. induction l as [|x l IH] using rev_ind; intros Hlen Hl; [done|].
  apply Forall_app in Hl as [Hl Hx]. rewrite length_app in Hlen. simpl in Hlen.
  rewrite foldl_app. simpl. rewrite IH by (done || lia). rewrite be_num_snoc.
  pose proof (be_num_range l Hl) as Hr.
  assert (be_num l < 2 ^ 24) as Hlt.
  { eapply Z.lt_le_trans; [apply Hr|]. change (2 ^ 24) with (256 ^ 3). apply Z.pow_le_mono_r; lia. }
  rewrite Forall_singleton in Hx. rewrite <- (shift_in_num (be_num l) x) by (done || lia). unfold shift_in. f_equal.
  rewrite Z.shiftl_mul_pow2 by lia. rewrite u32_small, u64_small by (unfold is_u32, is_u64; lia). done.
Qed.

Lemma crc_bytes h : (fun i => Z.land (Z.shiftr h (24 - 8 * Z.of_nat i)) 255) <$> seq 0 4 = be_bytes 4 h.
Proof.
  cbn [seq fmap list_fmap be_bytes app]. rewrite !land_255, !Z.shiftr_div_pow2 by lia.
  rewrite !Z.div_div by lia. by rewrite Z.div_1_r.
Qed.

Lemma journal_header_bytes h : journal_header h = [76; 74; 82; 49; 1; 0; 0; 0] ++ be_bytes 8 h.
Proof.
  unfold journal_header. cbn [seq foldl be_bytes app]. cbn -[Z.land Z.shiftr Z.div Z.modulo Z.mul Z.of_nat Z.sub].
  rewrite !land_255, !Z.shiftr_div_pow2 by lia. rewrite !Z.div_div by lia. by rewrite Z.div_1_r.
Qed.

Lemma header_inj h h' : is_u64 h -> is_u64 h' -> journal_header h = journal_header h' -> h = h'.
Proof.
  intros Hh Hh'. rewrite !journal_header_bytes. intros E%app_inv_head. apply (f_equal be_num) in E.
  by rewrite !be_num_small in E.
Qed.

Lemma checksum_range b : is_u32 (checksum b).
Proof.
  unfold checksum. destruct b as [|x b] using rev_ind; [split; vm_compute; congruence|].
  rewrite foldl_app. apply fnv_step_range.
Qed.

(** A command the journal accepts back. *)
Record storable (c : Message) : Prop := {
  st_typed : message_typed c;
  st_enums : message_enums c = true;
  st_kind : m_kind c = Kind.Command;
  st_action : m_action c <> Action.Status /\ m_action c <> Action.Snapshot
}.

Definition record_bytes (c : Message) : list Z := record_of (frame_of c).
Arguments record_bytes : simpl never.
Definition journal_bytes (hash : Z) (cs : list Message) : list Z := journal_header hash ++ concat (record_bytes <$> cs).

Lemma record_bytes_eq c : record_bytes c = frame_of c ++ be_bytes 4 (checksum (frame_of c)).
Proof. unfold record_bytes, record_of. by rewrite crc_bytes. Qed.

Lemma length_frame c : length (frame_of c) = frame_size.
Proof. done. Qed.

Lemma length_record c : length (record_bytes c) = 100%nat.
Proof. rewrite record_bytes_eq, length_app, length_be_bytes. done. Qed.

Lemma storable_encode c : storable c -> encode c = Ret (frame_of c).
Proof. intros [Ht He _ _]. rewrite (encode_cases c Ht), He. done. Qed.

Lemma storable_record c : storable c -> record_command (frame_of c) (be_bytes 4 (checksum (frame_of c))) = Some c.
Proof.
  intros Hc. pose proof Hc as [Ht He Hk [Ha1 Ha2]]. unfold record_command.
  rewrite (decode_encode c _ Ht (storable_encode c Hc)).
  rewrite stored_checksum_num by (rewrite ?length_be_bytes; (lia || apply be_bytes_ok)).
  rewrite be_num_small by apply checksum_range. rewrite decide_False; [done|]. intros [?|[?|[?|?]]]; done.
Qed.

(** Records of any other content are refused: one byte changed anywhere. *)
Lemma record_flipped c pre x y post :
  storable c -> record_bytes c = pre ++ x :: post -> is_u8 y -> x <> y ->
  record_command (take frame_size (pre ++ y :: post)) (take 4 (drop frame_size (pre ++ y :: post))) = None.
Proof.
  intros Hc E Hy Hne. pose proof (frame_of_ok c (st_typed c Hc)) as [Hlen Hb]. rewrite record_bytes_eq in E.
  pose proof (be_bytes_ok 4 (checksum (frame_of c))) as Hcrc.
  pose proof (be_num_small 4 (checksum (frame_of c)) (checksum_range _)) as Hnum.
  pose proof (length_be_bytes 4 (checksum (frame_of c))) as Hcl.
  revert E Hcrc Hnum Hcl. generalize (be_bytes 4 (checksum (frame_of c))). intros crc E Hcrc Hnum Hcl.
  unfold record_command. destruct (decode _) as [m|]; [|done]. rewrite decide_True; [done|]. left.
  assert (forall k, crc = k ++ x :: post -> pre = frame_of c ++ k ->
    stored_checksum (take 4 (drop frame_size (pre ++ y :: post))) <> checksum (take frame_size (pre ++ y :: post))) as Htail.
  { intros k -> ->. rewrite <- app_assoc, take_app_length', drop_app_length' by done.
    rewrite length_app in Hcl. simpl in Hcl. apply Forall_app in Hcrc as [Hk [Hx Hp]%Forall_cons].
    rewrite take_ge by (rewrite length_app; simpl; lia).
    rewrite stored_checksum_num by ((rewrite length_app; simpl; lia) || (apply Forall_app; split; [done|by constructor])).
    intros E2. rewrite <- Hnum in E2.
    assert (k ++ y :: post = k ++ x :: post) as Eq; [|apply app_inv_head in Eq; congruence].
    rewrite <- (be_bytes_num (k ++ y :: post)), <- (be_bytes_num (k ++ x :: post))
      by (apply Forall_app; split; [done|by constructor]).
    rewrite !length_app. simpl. by rewrite E2. }
  apply app_eq_inv in E as [([|z mid] & Ef & Ep)|(k & Ep & Ec)].
  - rewrite app_nil_r in Ef. apply (Htail []); [done|]. by rewrite app_nil_r.
  - injection Ep as <- ->. rewrite app_comm_cons, app_assoc.
    assert (length (pre ++ y :: mid) = frame_size) as Hl.
    { rewrite <- Hlen, Ef, !length_app. done. }
    rewrite take_app_length', drop_app_length' by done. rewrite take_ge by lia.
    rewrite stored_checksum_num by (lia || done). rewrite Hnum, Ef. intros E2. apply Hne.
    rewrite Ef in Hb. apply Forall_app in Hb as [Hpre [Hx Hmid]%Forall_cons]. exact (checksum_detects pre x y mid Hpre Hx Hy Hmid E2).
  - by apply (Htail k).
Qed.

Section laws.
Context {W : Type} {FS : FileSystem W} {FL : FileLaws W}.
Implicit Types (w : W).

Definition unread w : list Z := drop (offset w) (disk w).

(** The outcome when no call fails, the failure of one when some does. *)
Definition or_fails {A} (r : outcome A * W) (P : outcome A -> W -> Prop) : Prop :=
  (exists what w', r = (Throw (SystemError what), w')) \/ (exists a w', r = (a, w') /\ P a w').

Lemma or_fails_weaken {A} (r : outcome A * W) (P Q : outcome A -> W -> Prop) :
  or_fails r P -> (forall a w, P a w -> Q a w) -> or_fails r Q.
Proof. intros [?|(a & w & -> & H)] HPQ; [by left|right]. exists a, w. auto. Qed.

(** Sequencing. *)
Lemma or_fails_bind {A C} (m : io W A) (f : A -> io W C) w P Q :
  or_fails (m w) P ->
  (forall a w', P (Ret a) w' -> or_fails (f a w') Q) ->
  (forall e w', P (Throw e) w' -> Q (Throw e) w') ->
  or_fails ((m ≫= f) w) Q.
Proof.
  intros [(what & w' & E)|(a & w' & E & HP)] Hf He; unfold mbind, io_bind; rewrite E.
  - left. by exists what, w'.
  - destruct a as [a|e]; [by apply Hf|]. right. exists (Throw e), w'. auto.
Qed.

Definition torn : exn := RuntimeError "Torn journal record; restore a verified journal backup".

(** Reading a block: exactly the next [size] bytes, whatever the pieces they
    come in, or the end of the file. *)
Lemma read_all_spec fuel : forall got size w,
  (signals w + size <= fuel)%nat ->
  or_fails (read_all fuel got size w) (fun r w' =>
    disk w' = disk w /\ (signals w' <= signals w)%nat /\
    if decide (size <= length (unread w))%nat
    then r = Ret (Some (got ++ take size (unread w))) /\ offset w' = (offset w + size)%nat
    else r = (if decide (got ++ unread w = []) then Ret None else Throw torn) /\
         offset w' = (offset w + length (unread w))%nat).
Proof.
  induction fuel as [|fuel IH]; intros got size w Hf.
  { assert (size = 0%nat) as -> by lia. right. eexists _, w. split; [done|].
    rewrite decide_True by lia. rewrite take_0, app_nil_r, Nat.add_0_r. done. }
  destruct size as [|size'].
  { right. eexists _, w. split; [done|]. rewrite decide_True by lia. rewrite take_0, app_nil_r, Nat.add_0_r. done. }
  set (size := S size') in *.
  assert (read_all (S fuel) got size = (r ← io_call (os_read size);
    match r with
    | ReadIntr => read_all fuel got size
    | ReadError => io_throw (SystemError "read journal")
    | ReadEof => match got with [] => mret None | _ => io_throw torn end
    | ReadBytes bs => read_all fuel (got ++ bs) (size - length bs)
    end)) as -> by done.
  pose proof (law_read size w ltac:(unfold size; lia)) as Hlaw.
  unfold mbind, io_bind, io_call. destruct (os_read size w) as [[bs| | |] w'].
  - destruct Hlaw as (Hne & Hlen & Ebs & Hd & Ho & Hs).
    assert (unread w' = drop (length bs) (unread w)) as Eu.
    { unfold unread. by rewrite Hd, Ho, drop_drop. }
    assert (0 < length bs)%nat as Hpos by (destruct bs; [done|simpl; lia]).
    assert (length bs <= length (unread w))%nat as Hle.
    { unfold unread. rewrite Ebs, length_take. lia. }
    eapply or_fails_weaken; [apply IH; lia|]. cbn beta. intros a w2 (Hd2 & Hs2 & H2).
    rewrite Eu, length_drop in H2. split; [congruence|]. split; [lia|]. case_decide as Hc.
    + rewrite decide_True by lia. destruct H2 as [-> Ho2]. split; [|lia]. do 2 f_equal.
      rewrite <- app_assoc. f_equal.
      replace size with (length bs + (size - length bs))%nat at 2 by lia.
      rewrite <- take_take_drop. f_equal. exact Ebs.
    + rewrite decide_False by lia. destruct H2 as [-> Ho2]. split; [|lia]. rewrite <- app_assoc.
      assert (bs ++ drop (length bs) (unread w) = unread w) as ->; [|done].
      etransitivity; [|apply (take_drop (length bs))]. f_equal. exact Ebs.
  - destruct Hlaw as (Hle & Hd & Ho & Hs). assert (unread w = []) as Eu by (apply drop_ge; lia).
    rewrite Eu, app_nil_r. right. destruct got as [|g got].
    + eexists _, w'. split; [done|]. split; [done|]. split; [done|]. rewrite decide_False by (simpl; lia).
      split; [done|simpl; lia].
    + eexists _, w'. split; [done|]. split; [done|]. split; [done|]. rewrite decide_False by (simpl; lia).
      split; [done|simpl; lia].
  - destruct Hlaw as (Hd & Ho & Hs). eapply or_fails_weaken; [apply IH; lia|].
    assert (unread w' = unread w) as Eu by (unfold unread; by rewrite Hd, Ho). rewrite Eu, Ho, Hd.
    intros a w2 (Hd2 & Hs2 & H2). split; [done|]. split; [lia|done].
  - left. by eexists _, w'.
Qed.

(** Writing at the end of the file: all of the data, however it is taken. *)
Lemma write_all_spec fuel : forall data w,
  (signals w + length data <= fuel)%nat -> offset w = length (disk w) ->
  or_fails (write_all fuel data w) (fun r w' =>
    r = Ret () /\ disk w' = disk w ++ data /\ offset w' = length (disk w') /\ (signals w' <= signals w)%nat).
Proof.
  induction fuel as [|fuel IH]; intros data w Hf Ho.
  { assert (data = []) as -> by (destruct data; [done|simpl in Hf; lia]). right. eexists _, w.
    by rewrite app_nil_r. }
  destruct data as [|b data']; [right; eexists _, w; by rewrite app_nil_r|]. set (data := b :: data') in *.
  assert (write_all (S fuel) data = (n ← io_call (os_write data);
    match n with
    | WriteIntr => write_all fuel data
    | WriteError => io_throw (SystemError "write journal")
    | Wrote O => io_throw (RuntimeError "Journal write made no progress")
    | Wrote n => write_all fuel (drop n data)
    end)) as -> by done.
  pose proof (law_write data w ltac:(done)) as Hlaw.
  unfold mbind, io_bind, io_call. destruct (os_write data w) as [[n| |] w'].
  - destruct Hlaw as (Hn & Hd & Ho' & Hs). destruct n as [|n']; [lia|]. set (n := S n') in *.
    rewrite Ho, take_ge, drop_ge, app_nil_r in Hd by lia.
    eapply or_fails_weaken; [apply IH; [rewrite length_drop; lia|rewrite Hd, length_app, length_take; lia]|].
    cbn beta. intros a w2 (-> & Hd2 & Ho2 & Hs2). split; [done|]. split; [|split; [done|lia]].
    by rewrite Hd2, Hd, <- app_assoc, take_drop.
  - destruct Hlaw as (Hd & Ho' & Hs). eapply or_fails_weaken; [apply IH; [lia|congruence]|].
    cbn beta. intros a w2 (-> & Hd2 & Ho2 & Hs2). rewrite Hd2, Hd. split; [done|]. split; [done|]. split; [|lia].
    by rewrite <- Hd, <- Hd2.
  - left. by eexists _, w'.
Qed.

(** ** Recovery *)

Definition missing : exn := RuntimeError "Missing journal checksum".
Definition corrupt : exn := RuntimeError "Corrupt journal record".

(** The loop over the records, on the bytes themselves. *)
Fixpoint parse (rounds : nat) (d : list Z) (acc : list Message) : outcome (list Message) :=
  match rounds with
  | O => Throw (Undefined "out of fuel")
  | S rounds =>
    if decide (frame_size <= length d)%nat then
      let rest := drop frame_size d in
      if decide (4 <= length rest)%nat then
        match record_command (take frame_size d) (take 4 rest) with
        | Some m => parse rounds (drop 4 rest) (acc ++ [m])
        | None => Throw corrupt
        end
      else Throw (if decide (rest = []) then missing else torn)
    else if decide (d = []) then Ret acc else Throw torn
  end.

Lemma unread_after w w' n :
  disk w' = disk w -> offset w' = (offset w + n)%nat -> unread w' = drop n (unread w).
Proof. intros Hd Ho. unfold unread. by rewrite Hd, Ho, drop_drop. Qed.

(** Reading a journal is parsing what is left of its bytes. *)
Lemma recover_spec fuel rounds : forall acc w,
  (signals w + frame_size <= fuel)%nat -> (offset w <= length (disk w))%nat ->
  or_fails (recover fuel rounds acc w) (fun r w' =>
    r = parse rounds (unread w) acc /\ disk w' = disk w /\ (signals w' <= signals w)%nat /\
    forall ms, r = Ret ms -> offset w' = length (disk w)).
Proof.
  induction rounds as [|rounds IH]; intros acc w Hf Hle.
  { right. eexists _, w. split; [done|]. by split_and!. }
  cbn [recover parse]. assert (length (unread w) = length (disk w) - offset w)%nat as Elen by apply length_drop.
  eapply or_fails_bind; [apply read_all_spec; exact Hf| |].
  2: { intros e w' (Hd & Hs & H). case_decide; [by destruct H|]. rewrite app_nil_l in H. destruct H as [H _].
       destruct (decide (unread w = [])); [done|]. injection H as ->. by split_and!. }
  cbn beta. intros bytes w1 (Hd1 & Hs1 & H1). case_decide as Hlen.
  2: { rewrite app_nil_l in H1. destruct H1 as [H1 Ho1].
       destruct (decide (unread w = [])) as [E|]; [|done]. injection H1 as ->.
       right. eexists _, w1. split; [done|]. split_and!; try done. intros _ _. lia. }
  destruct H1 as [[= ->] Ho1]. cbn [app]. pose proof (unread_after w w1 _ Hd1 Ho1) as Eu.
  eapply or_fails_bind; [apply read_all_spec; unfold frame_size in *; lia| |].
  2: { intros e w' (Hd & Hs & H). rewrite Eu in H. case_decide; [by destruct H|]. rewrite app_nil_l in H.
       destruct H as [H _]. destruct (decide (drop frame_size (unread w) = [])); [done|]. injection H as ->.
       split_and!; [done|congruence|lia|done]. }
  cbn beta. intros crc w2 (Hd2 & Hs2 & H2). rewrite Eu in H2. case_decide as Hlen2.
  2: { rewrite app_nil_l in H2. destruct H2 as [H2 _].
       destruct (decide (drop frame_size (unread w) = [])); [|done]. injection H2 as ->.
       right. eexists _, w2. split; [done|]. split_and!; [done|congruence|lia|done]. }
  destruct H2 as [[= ->] Ho2]. cbn [app]. pose proof (unread_after w1 w2 _ Hd2 Ho2) as Eu2.
  rewrite length_drop in Hlen2. destruct (record_command _ _) as [m|].
  - eapply or_fails_weaken; [apply IH; [lia|rewrite Ho2, Ho1, Hd2, Hd1; lia]|]. cbn beta.
    intros a w3 (-> & Hd3 & Hs3 & Ho3). rewrite Eu2, Eu in *. split; [done|]. split; [congruence|].
    split; [lia|]. intros ms E. rewrite (Ho3 ms E). congruence.
  - right. eexists _, w2. split; [done|]. split_and!; [done|congruence|lia|done].
Qed.

Lemma parse_record rounds c d acc :
  storable c -> parse (S rounds) (record_bytes c ++ d) acc = parse rounds d (acc ++ [c]).
Proof.
  intros Hc. cbn [parse]. rewrite record_bytes_eq, <- app_assoc.
  pose proof (length_be_bytes 4 (checksum (frame_of c))) as Hcl.
  rewrite decide_True by (rewrite length_app, length_frame; lia).
  rewrite take_app_length', drop_app_length' by done. rewrite decide_True by (rewrite length_app, Hcl; lia).
  rewrite take_app_length', drop_app_length' by done. by rewrite storable_record.
Qed.

Lemma parse_records cs : forall rounds d acc,
  Forall storable cs -> (length cs <= rounds)%nat ->
  parse rounds (concat (record_bytes <$> cs) ++ d) acc = parse (rounds - length cs) d (acc ++ cs).
Proof.
  induction cs as [|c cs IH]; intros rounds d acc Hcs Hr.
  { rewrite app_nil_r. cbn [length fmap list_fmap concat app]. by rewrite Nat.sub_0_r. }
  apply Forall_cons in Hcs as [Hc Hcs]. rewrite fmap_cons. cbn [concat length] in *.
  destruct rounds as [|rounds]; [lia|].
  rewrite <- app_assoc, parse_record by done. rewrite IH by (done || lia). by rewrite <- app_assoc.
Qed.

(** ** Opening *)

Definition mismatch : exn := RuntimeError "Journal version/instrument configuration mismatch".

Lemma length_header hash : length (journal_header hash) = 16%nat.
Proof. rewrite journal_header_bytes, length_app, length_be_bytes. done. Qed.

Lemma must_spec (ok : bool) what w : or_fails (must ok what w) (fun r w' => r = Ret () /\ w' = w /\ ok = true).
Proof. destruct ok; [right; eexists _, w; by split|left; by eexists _, w]. Qed.

Lemma quiet_call (f : W -> bool * W) w :
  f = os_flock \/ f = os_fdatasync \/ f = os_open_parent \/ f = os_fsync_parent ->
  or_fails (io_call f w) (fun r w' => (exists ok, r = Ret ok) /\ disk w' = disk w /\ offset w' = offset w /\
    (signals w' <= signals w)%nat).
Proof.
  intros Hf. pose proof (law_quiet f w Hf) as H. unfold io_call. destruct (f w) as [ok w']. right.
  eexists _, w'. split; [done|]. split; [by eexists|exact H].
Qed.

(** A state with the file of another, perhaps fewer signals to come. *)
Definition same_file w w' : Prop := disk w' = disk w /\ offset w' = offset w /\ (signals w' <= signals w)%nat.

Lemma checked_call (f : W -> bool * W) what w :
  f = os_flock \/ f = os_fdatasync \/ f = os_open_parent \/ f = os_fsync_parent ->
  or_fails ((ok ← io_call f; must ok what) w) (fun r w' => r = Ret () /\ same_file w w').
Proof.
  intros Hf. eapply or_fails_bind; [by apply quiet_call| |]; cbn beta.
  - intros ok w1 (_ & H). eapply or_fails_weaken; [apply must_spec|]. cbn beta. intros a w2 (-> & -> & _). by split.
  - intros e w' [[? ?] _]. done.
Qed.

Lemma create_header_spec fuel expected w :
  (signals w + length expected <= fuel)%nat -> offset w = length (disk w) ->
  or_fails (create_header fuel expected w) (fun r w' =>
    r = Ret () /\ disk w' = disk w ++ expected /\ offset w' = length (disk w') /\ (signals w' <= signals w)%nat).
Proof.
  intros Hf Ho. unfold create_header.
  eapply or_fails_bind; [by apply write_all_spec| |]; cbn beta; [|by intros e w' [? _]].
  intros _ w1 (_ & Hd1 & Ho1 & Hs1).
  eapply or_fails_bind; [apply checked_call; auto| |]; cbn beta; [|by intros e w' [? _]].
  intros _ w2 (_ & Hd2 & Ho2 & Hs2).
  eapply or_fails_bind; [apply quiet_call; auto| |]; cbn beta; [|by intros e w' [[? ?] _]].
  intros dir w3 (_ & Hd3 & Ho3 & Hs3).
  eapply or_fails_bind; [apply must_spec| |]; cbn beta; [|by intros e w' [? _]].
  intros _ w4 (_ & -> & _).
  eapply or_fails_bind; [apply quiet_call; auto| |]; cbn beta; [|by intros e w' [[? ?] _]].
  intros result w5 (_ & Hd5 & Ho5 & Hs5).
  eapply or_fails_bind with (P := fun r w' => r = Ret () /\ w' = os_close_parent w5);
    [right; by eexists _, _| |]; cbn beta; [|by intros e w' [? _]].
  intros _ w6 [_ ->]. destruct (law_close_parent w5) as (Hd6 & Ho6 & Hs6).
  eapply or_fails_weaken; [apply must_spec|]. cbn beta. intros a w7 (-> & -> & _).
  split; [done|]. split; [congruence|]. split; [congruence|lia].
Qed.

(** What opening a file with these bytes yields. *)
Definition open_result (fuel : nat) (hash : Z) (d : list Z) : outcome (list Message) :=
  if decide (16 <= length d)%nat then
    if decide (take 16 d <> journal_header hash) then Throw mismatch else parse fuel (drop 16 d) []
  else if decide (d = []) then parse fuel [] [] else Throw torn.

Lemma closing_spec {A} (m : io W A) w P :
  or_fails (m w) P -> or_fails (closing m w) (fun r w' =>
    match r with Ret a => P (Ret a) w' | Throw e => exists w0, P (Throw e) w0 end).
Proof.
  unfold closing. intros [(what & w' & ->)|([a|e] & w' & -> & HP)]; [left; by eexists _, _|right; by eexists _, w'|].
  right. eexists _, _. split; [done|]. by exists w'.
Qed.

Lemma journal_open_spec fuel hash w :
  (signals w + 100 <= fuel)%nat ->
  or_fails (journal_open fuel hash w) (fun r w' =>
    r = open_result fuel hash (disk w) /\
    forall ms, r = Ret ms -> disk w' = (if decide (disk w = []) then journal_header hash else disk w) /\
      (signals w' <= signals w)%nat /\ offset w' = length (disk w')).
Proof.
  intros Hf. unfold journal_open. unfold mbind at 1, io_bind at 1, io_call at 1.
  destruct (os_open w) as [ok w1] eqn:Eo. destruct ok; [|left; by eexists _, w1].
  destruct (law_open w w1 Eo) as (Hd1 & Ho1 & Hs1).
  assert (forall (k : io W (list Message)), (must true "open journal" ≫= (fun _ => k)) w1 = k w1) as -> by done.
  eapply or_fails_weaken; [apply closing_spec|].
  { eapply or_fails_bind; [apply quiet_call; auto| |]; cbn beta; [|by intros e w' [[? ?] _]].
    intros ok w2 (_ & Hd2 & Ho2 & Hs2).
    eapply or_fails_bind; [apply must_spec| |]; cbn beta; [|by intros e w' [? _]].
    intros _ w3 (_ & -> & _). assert (unread w2 = disk w) as Eu by (unfold unread; rewrite Ho2, Ho1; rewrite drop_0; congruence).
    eapply or_fails_bind with (Q := fun r w' => r = open_result fuel hash (disk w) /\
      forall ms, r = Ret ms -> disk w' = (if decide (disk w = []) then journal_header hash else disk w) /\
      (signals w' <= signals w)%nat /\ offset w' = length (disk w')); [apply read_all_spec; lia| |]; cbn beta; rewrite Eu; unfold open_result.
    - intros header w4 (Hd4 & Hs4 & H4). case_decide as Hlen.
      + destruct H4 as [[= ->] Ho4]. cbn [app]. destruct (decide (take 16 (disk w) <> _)) as [Hm|Hm].
        { right. eexists _, w4. split; [done|]. by split. }
        unfold mbind, io_bind. cbn [mret io_ret].
        eapply or_fails_weaken; [apply recover_spec; [unfold frame_size; lia|]|]; cbn beta.
        { rewrite Ho4, Hd4, Hd2, Hd1, Ho2, Ho1. lia. }
        intros a w5 (-> & Hd5 & Hs5 & Ho5). rewrite (unread_after w2 w4 16) in * by congruence. rewrite Eu in *.
        split; [done|]. intros ms Ems.
        rewrite decide_False by (intros E; rewrite E in Hlen; simpl in Hlen; lia).
        split; [congruence|]. split; [lia|]. rewrite (Ho5 ms Ems). congruence.
      + cbn [app] in H4. destruct H4 as [H4 Ho4]. destruct (decide (disk w = [])) as [E|]; [|done]. injection H4 as ->.
        eapply or_fails_bind; [apply create_header_spec; [rewrite length_header; lia|]| |]; cbn beta; [|..|by intros e w' [? _]].
        { rewrite Hd4, Hd2, Hd1, E, Ho4, Ho2, Ho1. by rewrite E. }
        intros _ w5 (_ & Hd5 & Ho5 & Hs5).
        eapply or_fails_weaken; [apply recover_spec; [unfold frame_size; lia|lia]|]. cbn beta.
        intros a w6 (-> & Hd6 & Hs6 & Ho6). assert (unread w5 = []) as Eu5 by (apply drop_ge; lia).
        rewrite Eu5 in *. split; [done|]. intros ms Ems.
        rewrite (Ho6 ms Ems), Hd6, Hd5, Hd4, Hd2, Hd1, E. split; [done|]. split; [lia|done].
    - intros e w' (Hd & Hs & H). case_decide; [by destruct H|]. cbn [app] in H. destruct H as [H _].
      destruct (decide (disk w = [])); [done|]. injection H as ->. by split. }
  cbn beta. intros [a|e] w2; [done|]. intros (w0 & <- & _). split; [done|discriminate].
Qed.

Lemma open_result_valid fuel hash cs d :
  (d = [] /\ cs = [] \/ d = journal_bytes hash cs) -> Forall storable cs -> (length cs < fuel)%nat ->
  open_result fuel hash d = Ret cs.
Proof.
  intros Hd Hcs Hf. destruct fuel as [|fuel]; [lia|]. unfold open_result. destruct Hd as [[-> ->]| ->].
  { rewrite decide_False by (simpl; lia). by rewrite decide_True by done. }
  unfold journal_bytes. rewrite length_app, length_header. rewrite decide_True by lia.
  rewrite take_app_length', drop_app_length' by (by rewrite length_header). rewrite decide_False by tauto.
  rewrite <- (app_nil_r (concat _)), parse_records by (done || lia).
  by replace (S fuel - length cs)%nat with (S (fuel - length cs)) by lia.
Qed.

Lemma journal_append_spec fuel c w :
  storable c -> (signals w + 100 <= fuel)%nat -> offset w = length (disk w) ->
  or_fails (journal_append fuel c w) (fun r w' =>
    r = Ret () /\ disk w' = disk w ++ record_bytes c /\ offset w' = length (disk w') /\ (signals w' <= signals w)%nat).
Proof.
  intros Hc Hf Ho. unfold journal_append. unfold mbind at 1, io_bind at 1. rewrite (storable_encode c Hc).
  eapply or_fails_bind; [apply write_all_spec; [|done]| |]; cbn beta; [|..|by intros e w' [? _]].
  { change (record_of (frame_of c)) with (record_bytes c). rewrite length_record. lia. }
  intros _ w1 (_ & Hd1 & Ho1 & Hs1).
  eapply or_fails_weaken; [apply checked_call; auto|]. cbn beta. intros a w2 (-> & Hd2 & Ho2 & Hs2).
  split; [done|]. split; [by rewrite Hd2, Hd1|]. split; [congruence|lia].
Qed.

(** One life of a journal: opened, appended to, left. *)
Fixpoint append_all (fuel : nat) (cs : list Message) : io W unit :=
  match cs with
  | [] => mret ()
  | c :: cs => _ ← journal_append fuel c; append_all fuel cs
  end.

Definition journal_session (fuel : nat) (hash : Z) (cs : list Message) : io W (list Message) :=
  ms ← journal_open fuel hash; _ ← append_all fuel cs; mret ms.

Lemma append_all_spec fuel cs : forall w,
  Forall storable cs -> (signals w + 100 <= fuel)%nat -> offset w = length (disk w) ->
  or_fails (append_all fuel cs w) (fun r w' => r = Ret () /\ disk w' = disk w ++ concat (record_bytes <$> cs)).
Proof.
  induction cs as [|c cs IH]; intros w Hcs Hf Ho.
  { right. eexists _, w. split; [done|]. cbn [fmap list_fmap concat]. by rewrite app_nil_r. }
  apply Forall_cons in Hcs as [Hc Hcs]. cbn [append_all].
  eapply or_fails_bind; [by apply journal_append_spec| |]; cbn beta; [|by intros e w' [? _]].
  intros _ w1 (_ & Hd1 & Ho1 & Hs1). eapply or_fails_weaken; [apply IH; [done|lia|done]|]. cbn beta.
  intros a w2 [-> Hd2]. split; [done|]. rewrite Hd2, Hd1, fmap_cons. cbn [concat]. by rewrite <- app_assoc.
Qed.


(** ** Damage *)

(** The bytes of a journal that must not be trusted. *)
Inductive damaged (hash : Z) : list Z -> Prop :=
| OtherConfiguration hash' d : is_u64 hash' -> hash' <> hash -> damaged hash (journal_header hash' ++ d)
| TornRecord cs c n : Forall storable cs -> (0 < n < 100)%nat ->
    damaged hash (journal_bytes hash cs ++ take n (record_bytes c))
| FlippedByte cs c pre x y post d : Forall storable cs -> storable c ->
    record_bytes c = pre ++ x :: post -> is_u8 y -> x <> y ->
    damaged hash (journal_bytes hash cs ++ (pre ++ y :: post) ++ d).

Lemma damaged_refused fuel hash d :
  is_u64 hash -> damaged hash d -> (length d < fuel)%nat ->
  exists what, open_result fuel hash d = Throw (RuntimeError what).
Proof.
  intros Hh Hd Hf. unfold open_result.
  assert (forall cs t, Forall storable cs -> length t <> 0%nat -> (length (journal_bytes hash cs ++ t) < fuel)%nat ->
    (if decide (16 <= length (journal_bytes hash cs ++ t))%nat then
       if decide (take 16 (journal_bytes hash cs ++ t) <> journal_header hash) then Throw mismatch
       else parse fuel (drop 16 (journal_bytes hash cs ++ t)) []
     else if decide (journal_bytes hash cs ++ t = []) then parse fuel [] [] else Throw torn) =
    parse (S (fuel - S (length cs))) t cs) as Hvalid.
  { intros cs t Hcs Ht Hlt. unfold journal_bytes in *. rewrite <- app_assoc in *. rewrite length_app, length_header in *.
    rewrite decide_True by lia. rewrite take_app_length', drop_app_length' by (by rewrite length_header).
    rewrite decide_False by tauto.
    assert (length cs <= length (concat (record_bytes <$> cs)))%nat as Hcl.
    { clear. induction cs as [|c cs IH]; [done|]. rewrite fmap_cons. cbn [concat length].
      rewrite length_app, length_record. lia. }
    rewrite length_app in Hlt. rewrite parse_records by (done || lia). f_equal. lia. }
  destruct Hd as [hash' d Hh' Hne|cs c n Hcs Hn|cs c pre x y post d Hcs Hc E Hy Hne].
  - rewrite length_app, length_header, decide_True by lia. rewrite take_app_length' by (by rewrite length_header).
    rewrite decide_True by (intros E; by apply header_inj in E). by eexists.
  - rewrite Hvalid; [|done|rewrite length_take, length_record; lia|done]. cbn [parse].
    rewrite length_drop, length_take, length_record. unfold frame_size.
    destruct (decide (96 <= n `min` 100)%nat).
    + rewrite decide_False by lia. case_decide; by eexists.
    + rewrite decide_False; [by eexists|]. intros E. apply (f_equal length) in E.
      rewrite length_take, length_record in E. simpl in E. lia.
  - assert (length (pre ++ y :: post) = 100%nat) as Hl.
    { rewrite <- (length_record c), E, !length_app. done. }
    rewrite Hvalid; [|done|rewrite !length_app in *; simpl; lia|done]. cbn [parse].
    rewrite length_drop, length_app, Hl. unfold frame_size. rewrite decide_True by lia. rewrite decide_True by lia.
    pose proof (record_flipped c pre x y post Hc E Hy Hne) as Hno. unfold frame_size in Hno.
    rewrite (take_app_le (pre ++ y :: post) d 96), (drop_app_le (pre ++ y :: post) d 96) by lia.
    rewrite (take_app_le (drop 96 (pre ++ y :: post)) d 4) by (rewrite length_drop; lia).
    rewrite Hno. by eexists.
Qed.

(** C15: A journal never guesses.  Written for another configuration, ending in
    the middle of a record, or with any single byte of any record changed (the
    frame's or the checksum's), it is refused: opening it throws, and no command
    is recovered. *)
Theorem journal_rejects_damage fuel hash w :
  is_u64 hash -> damaged hash (disk w) -> (signals w + 100 + length (disk w) < fuel)%nat ->
  exists e w', journal_open fuel hash w = (Throw e, w') /\
    ((exists what, e = RuntimeError what) \/ (exists what, e = SystemError what)).
Proof.
  intros Hh Hd Hf. destruct (journal_open_spec fuel hash w) as [(what & w' & E)|(a & w' & E & -> & _)]; [lia|eauto 6|].
  destruct (damaged_refused fuel hash (disk w) Hh Hd) as [what Ew]; [lia|].
  rewrite Ew in E. eauto 6.
Qed.
End laws.
