(* ===== verification/JournalSamples.v ===== *)
(** * A sample file

    A file system of one file that moves at most a few bytes per call and is
    interrupted now and then: the laws of JournalTheorems.v can be met. *)
From S2P Require Import Prelude Types Bytes Messages Journal JournalTheorems EngineSamples ReplicaSamples.

Record Disk := mkDisk { d_bytes : list Z; d_pos : nat; d_signals : nat; d_chunk : nat }.

#[export] Instance disk_calls : FileSystem Disk := {
  os_open w := (true, mkDisk (d_bytes w) 0 (d_signals w) (d_chunk w));
  os_flock w := (true, w);
  os_read n w :=
    match d_signals w with
    | S s => (ReadIntr, mkDisk (d_bytes w) (d_pos w) s (d_chunk w))
    | O =>
      let bs := take (n `min` S (d_chunk w)) (drop (d_pos w) (d_bytes w)) in
      match bs with
      | [] => (ReadEof, w)
      | _ => (ReadBytes bs, mkDisk (d_bytes w) (d_pos w + length bs) 0 (d_chunk w))
      end
    end;
  os_write data w :=
    match d_signals w with
    | S s => (WriteIntr, mkDisk (d_bytes w) (d_pos w) s (d_chunk w))
    | O =>
      let n := (length data `min` S (d_chunk w))%nat in
      (Wrote n, mkDisk (take (d_pos w) (d_bytes w) ++ take n data ++ drop (d_pos w + n) (d_bytes w))
                  (d_pos w + n) 0 (d_chunk w))
    end;
  os_fdatasync w := (true, w);
  os_open_parent w := (true, w);
  os_fsync_parent w := (true, w);
  os_close_parent w := w;
  os_close w := w
}.

#[export] Program Instance disk_laws : FileLaws Disk := {
  disk := d_bytes;
  offset := d_pos;
  signals := d_signals
}.
Next Obligation. intros w w' [= <-]. done. Qed.
Next Obligation.
  intros n w Hn. cbn [os_read disk_calls]. destruct (d_signals w) as [|s] eqn:Es; [|simpl; split_and!; [done|done|lia]].
  cbv zeta. destruct (take _ _) as [|b bs] eqn:Eb.
  - simpl. split; [|split_and!; [done|done|lia]]. destruct (Nat.le_gt_cases (length (d_bytes w)) (d_pos w)); [done|].
    apply (f_equal length) in Eb. rewrite length_take, length_drop in Eb. simpl in Eb. lia.
  - rewrite <- Eb. cbn [d_bytes d_pos d_signals].
    assert (length (take (n `min` S (d_chunk w)) (drop (d_pos w) (d_bytes w))) <= n `min` S (d_chunk w))%nat as Hl
      by (rewrite length_take; lia).
    split; [by rewrite Eb|]. split; [lia|]. split; [|split; [done|split; [done|lia]]].
    destruct (Nat.le_gt_cases (length (drop (d_pos w) (d_bytes w))) (n `min` S (d_chunk w))).
    + rewrite (take_ge (drop _ _) (n `min` _)) by done. by rewrite firstn_all.
    + rewrite length_take, (Nat.min_l (n `min` S (d_chunk w))) by lia. done.
Qed.
Next Obligation.
  intros data w Hd. cbn [os_write disk_calls]. destruct (d_signals w) as [|s] eqn:Es; [|simpl; split_and!; [done|done|lia]].
  assert (0 < length data)%nat by (destruct data; [done|simpl; lia]). cbn [d_bytes d_pos d_signals].
  split; [lia|]. split; [done|]. split; [done|lia].
Qed.
Next Obligation. intros f w [-> |[-> |[-> | ->]]]; done. Qed.
Next Obligation. done. Qed.

Definition sample_stored : list Message := snd <$> sample_commands.
Definition sample_more : Message := sample_taker.

Lemma storable_typed c :
  typed_b c = true -> message_enums c = true -> m_kind c = Kind.Command ->
  m_action c <> Action.Status /\ m_action c <> Action.Snapshot -> storable c.
Proof. intros Ht He Hk Ha. split; try done. by apply typed_b_sound. Qed.

Lemma sample_stored_ok : Forall storable sample_stored.
Proof. repeat constructor; apply storable_typed; (split || idtac); vm_compute; congruence. Qed.
Lemma sample_more_ok : storable sample_more.
Proof. apply storable_typed; (split || idtac); vm_compute; congruence. Qed.

(** Five bytes at a time, three interruptions. *)
Definition sample_disk (d : list Z) : Disk := mkDisk d 0 3 4.


(** The last stored record with its first byte changed. *)
Definition sample_damage : list Z := journal_bytes 77 sample_stored ++ ([] ++ 0 :: drop 1 (record_bytes sample_more)) ++ [].

Lemma journal_rejects_damage_witness :
  exists e w', journal_open 800 77 (sample_disk sample_damage) = (Throw e, w').
Proof.
  destruct (journal_rejects_damage 800 77 (sample_disk sample_damage)) as (e & w' & E & _).
  - split; vm_compute; congruence.
  - exact (FlippedByte 77 sample_stored sample_more [] 76 0 (drop 1 (record_bytes sample_more)) []
      sample_stored_ok sample_more_ok eq_refl (conj (Z.le_refl 0) eq_refl) ltac:(discriminate)).
  - vm_compute. repeat constructor.
  - exists e, w'. exact E.
Defined.
