(* ===== verification/Decoder.v ===== *)
(** * What the feed decoders share

    [include/order_book/feed/decoder.hpp] and [src/feed/bytes.hpp]: normalized
    events and the field readers.  A feed message is a list of bytes; a symbol
    is a string. *)
From Stdlib Require Import Ascii.
From S2P Require Import Prelude Types Bytes Decimal.

Inductive EventType :=
| Metadata | Directory | Add | Reduce | Execute | Delete | Replace | ExecuteRemaining | Trade | Clear.

#[export] Instance EventType_eq_dec : EqDecision EventType.
Proof. solve_decision. Defined.

Record Event := mkFeedEvent {
  fe_type : EventType;
  fe_sequence : Z;
  fe_timestamp : Z;
  fe_channel : Z;
  fe_symbol : string;
  fe_order_id : OrderId;
  fe_new_order_id : OrderId;
  fe_side : Side;
  fe_price : Z;
  fe_quantity : Z;
  fe_remaining : Z;
  fe_match_id : Z;
  fe_maintain_priority : bool
}.

(** [Event e;] with the members every decoder sets first. *)
Definition event_default (sequence timestamp channel : Z) : Event :=
  mkFeedEvent Metadata sequence timestamp channel "" 0 0 Bid 0 0 0 0 false.

(** Assignments to members. *)
Definition with_type (t : EventType) (e : Event) : Event :=
  mkFeedEvent t (fe_sequence e) (fe_timestamp e) (fe_channel e) (fe_symbol e) (fe_order_id e) (fe_new_order_id e)
    (fe_side e) (fe_price e) (fe_quantity e) (fe_remaining e) (fe_match_id e) (fe_maintain_priority e).
Definition with_symbol (s : string) (e : Event) : Event :=
  mkFeedEvent (fe_type e) (fe_sequence e) (fe_timestamp e) (fe_channel e) s (fe_order_id e) (fe_new_order_id e)
    (fe_side e) (fe_price e) (fe_quantity e) (fe_remaining e) (fe_match_id e) (fe_maintain_priority e).
Definition with_order (id new_id : OrderId) (e : Event) : Event :=
  mkFeedEvent (fe_type e) (fe_sequence e) (fe_timestamp e) (fe_channel e) (fe_symbol e) id new_id
    (fe_side e) (fe_price e) (fe_quantity e) (fe_remaining e) (fe_match_id e) (fe_maintain_priority e).
Definition with_side (s : Side) (e : Event) : Event :=
  mkFeedEvent (fe_type e) (fe_sequence e) (fe_timestamp e) (fe_channel e) (fe_symbol e) (fe_order_id e)
    (fe_new_order_id e) s (fe_price e) (fe_quantity e) (fe_remaining e) (fe_match_id e) (fe_maintain_priority e).
Definition with_amounts (price quantity remaining match_id : Z) (e : Event) : Event :=
  mkFeedEvent (fe_type e) (fe_sequence e) (fe_timestamp e) (fe_channel e) (fe_symbol e) (fe_order_id e)
    (fe_new_order_id e) (fe_side e) price quantity remaining match_id (fe_maintain_priority e).
Definition with_priority (keep : bool) (e : Event) : Event :=
  mkFeedEvent (fe_type e) (fe_sequence e) (fe_timestamp e) (fe_channel e) (fe_symbol e) (fe_order_id e)
    (fe_new_order_id e) (fe_side e) (fe_price e) (fe_quantity e) (fe_remaining e) (fe_match_id e) keep.

(** [require(value, message)] *)
Definition demand (value : bool) (message : string) : outcome unit :=
  if value then Ret () else Throw (FeedError message).

(** [m[i]] inside the message. *)
Definition byte_at (m : list Z) (i : nat) : Z := default 0 (m !! i).

Fixpoint string_of_bytes (l : list Z) : string :=
  match l with
  | [] => ""
  | b :: l => String (char_of b) (string_of_bytes l)
  end.

(** [while (!result.empty() && result.back() == ' ') result.pop_back();] *)
Fixpoint strip_front (l : list Z) : list Z :=
  match l with
  | [] => []
  | b :: l' => if decide (b = 32) then strip_front l' else l
  end.
Definition strip_spaces (l : list Z) : list Z := reverse (strip_front (reverse l)).

(** [std::string symbol(std::span<const std::uint8_t>, std::size_t, std::size_t)] *)
Definition symbol (b : list Z) (pos size : nat) : outcome string :=
  _ ← demand (bool_decide ((pos <= length b)%nat /\ (size <= length b - pos)%nat)) "Truncated symbol";
  let field := take size (drop pos b) in
  _ ← demand (forallb (fun c => (32 <=? c) && (c <=? 126)) field) "Non-ASCII symbol";
  let result := strip_spaces field in
  _ ← demand (bool_decide (result <> [] /\ head result <> Some 32 /\ 32 ∉ result)) "Empty or malformed symbol";
  Ret (string_of_bytes result).

(** [Side side(std::uint8_t)] *)
Definition feed_side (c : Z) : outcome Side :=
  _ ← demand (bool_decide (c = code "B" \/ c = code "S")) "Invalid order side";
  Ret (if decide (c = code "B") then Bid else Ask).
