(* ===== verification/Itch.v ===== *)
(** * The ITCH 5.0 decoder

    [src/feed/itch.cpp]: one archive record at a time, with the directory of
    stock locates.  An error poisons the decoder. *)
From Stdlib Require Import Ascii.
From S2P Require Import Prelude Types Bytes Decimal Decoder.

#[local] Open Scope char_scope.
#[local] Open Scope Z_scope.

Record Itch50Decoder := mkItch {
  it_record : Z;
  it_failed : bool;
  it_complete : bool;
  it_symbols : gmap Z string
}.

Definition itch_new : Itch50Decoder := mkItch 0 false false ∅.

(** The length of each message type. *)
Definition itch_lengths : list (ascii * nat) :=
  [("S"%char, 12%nat); ("R"%char, 39%nat); ("H"%char, 25%nat); ("Y"%char, 20%nat); ("L"%char, 26%nat);
   ("V"%char, 35%nat); ("W"%char, 12%nat); ("K"%char, 28%nat); ("J"%char, 35%nat); ("h"%char, 21%nat);
   ("A"%char, 36%nat); ("F"%char, 40%nat); ("E"%char, 31%nat); ("C"%char, 36%nat); ("X"%char, 23%nat);
   ("D"%char, 19%nat); ("U"%char, 35%nat); ("P"%char, 44%nat); ("Q"%char, 40%nat); ("B"%char, 19%nat);
   ("I"%char, 50%nat); ("N"%char, 20%nat); ("O"%char, 48%nat)].

Fixpoint length_of (type : Z) (l : list (ascii * nat)) : option nat :=
  match l with
  | [] => None
  | (c, n) :: l => if decide (type = code c) then Some n else length_of type l
  end.

(** [std::string(set).find(static_cast<char>(b)) != npos] *)
Fixpoint one_of (set : string) (b : Z) : bool :=
  match set with
  | EmptyString => false
  | String c set => bool_decide (b = code c) || one_of set b
  end.

(** The fields of the order and trade messages. *)
Definition itch_order_event (m : list Z) (type : Z) (e : Event) : outcome Event :=
  if one_of "AF" type then
    id ← integer m 11 8 false;
    side ← feed_side (byte_at m 19);
    quantity ← integer m 20 4 false;
    s ← symbol m 24 8;
    _ ← demand (bool_decide (s = fe_symbol e)) "ITCH symbol disagrees with locate";
    price ← integer m 32 4 false;
    Ret (with_amounts price quantity 0 0 (with_side side (with_order id 0 (with_type Add e))))
  else if one_of "U" type then
    id ← integer m 11 8 false;
    new_id ← integer m 19 8 false;
    quantity ← integer m 27 4 false;
    price ← integer m 31 4 false;
    Ret (with_amounts price quantity 0 0 (with_order id new_id (with_type Replace e)))
  else if one_of "PQ" type then
    let cross := bool_decide (type = code "Q") in
    quantity ← integer m (if cross then 11 else 20)%nat (if cross then 8 else 4)%nat false;
    s ← symbol m (if cross then 19 else 24)%nat 8;
    _ ← demand (bool_decide (s = fe_symbol e)) "ITCH trade symbol mismatch";
    price ← integer m (if cross then 27 else 32)%nat 4 false;
    match_id ← integer m (if cross then 31 else 36)%nat 8 false;
    Ret (with_amounts price quantity 0 match_id (with_type Trade e))
  else
    id ← integer m 11 8 false;
    if decide (type = code "D") then Ret (with_order id 0 (with_type Delete e))
    else
      let e := with_order id 0 (with_type (if decide (type = code "X") then Reduce else Execute) e) in
      quantity ← integer m 19 4 false;
      match_id ← (if decide (type <> code "X") then integer m 23 8 false else Ret 0);
      if decide (type = code "C") then
        _ ← demand (one_of "YN" (byte_at m 31)) "Invalid printable flag";
        price ← integer m 32 4 false;
        Ret (with_amounts price quantity 0 match_id e)
      else Ret (with_amounts 0 quantity 0 match_id e).

(** The body of the [try]. *)
Definition itch_body (m : list Z) (d : Itch50Decoder) : outcome (Event * Itch50Decoder) :=
  _ ← demand (negb (it_complete d)) "ITCH message follows End of Messages";
  _ ← demand (bool_decide (m <> [])) "Empty ITCH message";
  let type := byte_at m 0 in
  length_wanted ← from_option_or (FeedError ("Unsupported ITCH message type " ++ to_decimal type)) (length_of type itch_lengths);
  _ ← demand (bool_decide (length m = length_wanted)) "Invalid ITCH message length";
  _ ← (if decide (it_record d = 0)
       then demand (bool_decide (type = code "S" /\ byte_at m 11 = code "O"))
              "ITCH archive must start at Start of Messages"
       else Ret ());
  timestamp ← integer m 5 6 false;
  _ ← demand (timestamp <? 86400000000000) "Invalid ITCH timestamp";
  locate ← integer m 1 2 false;
  let locate := u16 locate in
  let e := event_default (u64 (it_record d + 1)) timestamp 0 in
  let next := u64 (it_record d + 1) in
  if decide (type = code "S") then
    let event := byte_at m 11 in
    _ ← demand (one_of "OSQMEC" event) "Invalid ITCH system event";
    let starts := bool_decide (event = code "O") in
    Ret (if (starts : bool) then with_type Clear e else e,
         mkItch next (it_failed d) (it_complete d || bool_decide (event = code "C"))
           (if starts then ∅ else it_symbols d))
  else if decide (type = code "R") then
    _ ← demand (bool_decide (locate <> 0)) "Zero stock locate";
    s ← symbol m 11 8;
    let known := it_symbols d !! locate in
    _ ← demand (bool_decide (known = None \/ known = Some s)) "Stock locate changed within session";
    Ret (with_symbol s (with_type Directory e),
         mkItch next (it_failed d) (it_complete d)
           (match known with None => <[locate := s]> (it_symbols d) | Some _ => it_symbols d end))
  else if one_of "AFECXDUPQ" type then
    s ← from_option_or (FeedError "ITCH order/trade precedes Stock Directory") (it_symbols d !! locate);
    e ← itch_order_event m type (with_symbol s e);
    Ret (e, mkItch next (it_failed d) (it_complete d) (it_symbols d))
  else Ret (e, mkItch next (it_failed d) (it_complete d) (it_symbols d)).

(** [Event Itch50Decoder::decode(std::span<const std::uint8_t>)]; what a
    throwing body changed before is nothing, so only [failed_] is set. *)
Definition itch_decode (m : list Z) (d : Itch50Decoder) : outcome Event * Itch50Decoder :=
  if it_failed d then (Throw (FeedError "ITCH decoder requires restart after error"), d)
  else match itch_body m d with
       | Ret (e, d') => (Ret e, d')
       | Throw x => (Throw x, mkItch (it_record d) true (it_complete d) (it_symbols d))
       end.

(** [bool complete() const noexcept] *)
Definition itch_complete (d : Itch50Decoder) : bool := it_complete d && negb (it_failed d).
