(* ===== verification/Pitch.v ===== *)
(** * The PITCH 2.x decoder

    [src/feed/pitch.cpp]: whole sequenced-unit packets, with one sequence and
    clock per unit.  A packet is applied as a whole or not at all, and an error
    poisons the decoder. *)
From S2P Require Import Prelude Types Bytes Decimal Decoder.

Record PitchUnit := mkUnit { ut_next : Z; ut_seconds : Z; ut_timed : bool; ut_ended : bool }.

Definition unit_new : PitchUnit := mkUnit 1 0 false false.

Record PitchDecoder := mkPitch { pt_units : list PitchUnit; pt_failed : bool }.

Definition pitch_new : PitchDecoder := mkPitch (replicate 256 unit_new) false.

Definition unit_of (channel : Z) (d : PitchDecoder) : PitchUnit := default unit_new (pt_units d !! Z.to_nat channel).

(** [bool complete() const noexcept] *)
Definition pitch_complete (d : PitchDecoder) : bool :=
  let seen := filter (fun u => ut_next u <> 1) (pt_units d) in
  forallb ut_ended seen && negb (bool_decide (seen = [])) && negb (pt_failed d).

(** The lambdas [number] and [sized]. *)
Definition number (m : list Z) (pos size : nat) : outcome Z := integer m pos size true.
Definition sized (length type want : Z) : outcome unit :=
  demand (length =? want) ("Unexpected PITCH equities message length/type " ++ to_decimal type).

Definition pitch_add (m : list Z) (length type : Z) (short expanded : bool) (e : Event) : outcome Event :=
  _ ← (if expanded then demand ((length =? 40) || (length =? 41)) "Unsupported expanded PITCH Add (equities only)"
       else sized length type (if short then 26 else 34));
  id ← number m 6 8;
  side ← feed_side (byte_at m 14);
  quantity ← number m 15 (if short then 2 else 4)%nat;
  s ← symbol m (if short then 17 else 19)%nat (if expanded then 8 else 6)%nat;
  price ← (if short then p ← number m 23 2; Ret (u64 (p * 100))
           else number m (if expanded then 27 else 25)%nat 8);
  Ret (with_amounts price quantity 0 0 (with_symbol s (with_side side (with_order id 0 (with_type Add e))))).

Definition pitch_execute (m : list Z) (length type : Z) (e : Event) : outcome Event :=
  _ ← sized length type 26;
  id ← number m 6 8; quantity ← number m 14 4; match_id ← number m 18 8;
  Ret (with_amounts 0 quantity 0 match_id (with_order id 0 (with_type Execute e))).

Definition pitch_execute_remaining (m : list Z) (length type : Z) (e : Event) : outcome Event :=
  _ ← sized length type 38;
  id ← number m 6 8; quantity ← number m 14 4; remaining ← number m 18 4; match_id ← number m 22 8;
  price ← number m 30 8;
  Ret (with_amounts price quantity remaining match_id (with_order id 0 (with_type ExecuteRemaining e))).

Definition pitch_reduce (m : list Z) (length type : Z) (long : bool) (e : Event) : outcome Event :=
  _ ← sized length type (if long then 18 else 16);
  id ← number m 6 8; quantity ← number m 14 (if long then 4 else 2)%nat;
  Ret (with_amounts 0 quantity 0 0 (with_order id 0 (with_type Reduce e))).

Definition pitch_modify (m : list Z) (length type : Z) (short : bool) (e : Event) : outcome Event :=
  _ ← sized length type (if short then 19 else 27);
  id ← number m 6 8;
  quantity ← number m 14 (if short then 2 else 4)%nat;
  price ← (if short then p ← number m 16 2; Ret (u64 (p * 100)) else number m 18 8);
  let keep := negb (Z.land (byte_at m (if short then 18 else 26)%nat) 2 =? 0) in
  Ret (with_priority keep (with_amounts price quantity 0 0 (with_order id id (with_type Replace e)))).

Definition pitch_trade (m : list Z) (length type : Z) (short expanded : bool) (e : Event) : outcome Event :=
  _ ← sized length type (if short then 33 else if expanded then 43 else 41);
  quantity ← number m 15 (if short then 2 else 4)%nat;
  s ← symbol m (if short then 17 else 19)%nat (if expanded then 8 else 6)%nat;
  price ← (if short then p ← number m 23 2; Ret (u64 (p * 100))
           else number m (if expanded then 27 else 25)%nat 8);
  match_id ← number m (if short then 25 else if expanded then 35 else 33)%nat 8;
  Ret (with_amounts price quantity 0 match_id (with_symbol s (with_type Trade e))).

(** The [switch] on the type: the event and whether the session ended. *)
Definition pitch_switch (m : list Z) (length type : Z) (e : Event) : outcome (Event * bool) :=
  let event (r : outcome Event) := e ← r; Ret (e, false) in
  match type with
  | 0x21 | 0x22 | 0x2f => event (pitch_add m length type (type =? 0x22) (type =? 0x2f) e)
  | 0x23 => event (pitch_execute m length type e)
  | 0x24 => event (pitch_execute_remaining m length type e)
  | 0x25 | 0x26 => event (pitch_reduce m length type (type =? 0x25) e)
  | 0x27 | 0x28 => event (pitch_modify m length type (type =? 0x28) e)
  | 0x29 => _ ← sized length type 14; id ← number m 6 8; Ret (with_order id 0 (with_type Delete e), false)
  | 0x2a | 0x2b | 0x30 => event (pitch_trade m length type (type =? 0x2b) (type =? 0x30) e)
  | 0x97 => _ ← sized length type 6; Ret (with_type Clear e, false)
  | 0x2c => _ ← sized length type 14; Ret (e, false)
  | 0x2d => _ ← sized length type 6; Ret (e, true)
  | 0x31 => _ ← sized length type 18; Ret (e, false)
  | _ => Throw (FeedError ("Unsupported PITCH equities message type " ++ to_decimal type))
  end.

(** One message of the packet: the event, the unit after it, and its length. *)
Definition pitch_message (p : list Z) (offset : nat) (channel sequence : Z) (u : PitchUnit)
    : outcome (Event * PitchUnit * nat) :=
  _ ← demand (negb (ut_ended u)) "PITCH message follows End of Session";
  _ ← demand (bool_decide (offset + 2 <= length p)%nat) "Truncated PITCH message header";
  let len := byte_at p offset in
  _ ← demand ((6 <=? len) && (len <=? Z.of_nat (length p - offset))) "Invalid PITCH message length";
  let m := take (Z.to_nat len) (drop offset p) in
  let type := byte_at m 1 in
  if decide (type = 0x20) then
    _ ← demand ((len =? 6) || (len =? 10)) "Invalid PITCH Time length";
    seconds ← number m 2 4;
    _ ← demand (seconds <? 86400) "Invalid PITCH seconds since midnight";
    Ret (event_default sequence (seconds * 1000000000) channel,
         mkUnit (ut_next u) seconds true (ut_ended u), Z.to_nat len)
  else
    _ ← demand (ut_timed u) "PITCH message precedes Time";
    nanos ← number m 2 4;
    _ ← demand (nanos <? 1000000000) "Invalid PITCH nanosecond offset";
    '(e, ended) ← pitch_switch m len type
       (event_default sequence (ut_seconds u * 1000000000 + nanos) channel);
    Ret (e, mkUnit (ut_next u) (ut_seconds u) (ut_timed u) (ut_ended u || ended), Z.to_nat len).

(** The loop over the [count] messages. *)
Fixpoint pitch_messages (count : nat) (p : list Z) (offset : nat) (channel sequence : Z) (u : PitchUnit)
    (events : list Event) : outcome (list Event * PitchUnit * nat) :=
  match count with
  | O => Ret (events, u, offset)
  | S count =>
    '(e, u, len) ← pitch_message p offset channel sequence u;
    pitch_messages count p (offset + len) channel (sequence + 1) u (events ++ [e])
  end.

(** The body of the [try]. *)
Definition pitch_body (p : list Z) (d : PitchDecoder) : outcome (list Event * PitchDecoder) :=
  _ ← demand (bool_decide (8 <= length p)%nat) "Invalid PITCH packet length";
  size ← integer p 0 2 true;
  _ ← demand (size =? Z.of_nat (length p)) "Invalid PITCH packet length";
  let count := byte_at p 2 in
  let channel := byte_at p 3 in
  sequence ← integer p 4 4 true;
  let state := unit_of channel d in
  if decide (count = 0) then
    _ ← demand (bool_decide (length p = 8%nat) && ((sequence =? ut_next state) || (sequence =? 0)))
          "PITCH heartbeat sequence gap";
    Ret ([], d)
  else
    _ ← demand (sequence =? ut_next state) "PITCH sequence gap/duplicate or mid-session capture";
    _ ← demand (negb (ut_ended state)) "PITCH sequenced message follows End of Session";
    _ ← demand (sequence + count - 1 <=? 2 ^ 32 - 1) "PITCH sequence rollover requires a new decoder/session";
    '(events, state, offset) ← pitch_messages (Z.to_nat count) p 8 channel sequence state [];
    _ ← demand (bool_decide (offset = length p)) "PITCH message count/trailing bytes mismatch";
    let state := mkUnit (sequence + count) (ut_seconds state) (ut_timed state) (ut_ended state) in
    Ret (events, mkPitch (<[Z.to_nat channel := state]> (pt_units d)) (pt_failed d)).

(** [std::vector<Event> PitchDecoder::decode(std::span<const std::uint8_t>)] *)
Definition pitch_decode (p : list Z) (d : PitchDecoder) : outcome (list Event) * PitchDecoder :=
  if pt_failed d then (Throw (FeedError "PITCH decoder requires restart after error"), d)
  else match pitch_body p d with
       | Ret (events, d') => (Ret events, d')
       | Throw x => (Throw x, mkPitch (pt_units d) true)
       end.
