(* ===== verification/DecoderTheorems.v ===== *)
(** * What the decoders guarantee

    The events they produce are in range, stamped in order, and an error leaves
    everything but the poison as it was. *)
From Stdlib Require Import Ascii.
From S2P Require Import Prelude Types Bytes Decimal Decoder Itch Pitch.

(** Every member in the range of its type, and what each kind of event relies on. *)
Record event_typed (e : Event) : Prop := {
  et_side : valid_side (fe_side e);
  et_order : is_u64 (fe_order_id e) /\ is_u64 (fe_new_order_id e);
  et_price : is_u64 (fe_price e);
  et_quantity : is_u64 (fe_quantity e) /\ (fe_type e <> Trade -> is_u32 (fe_quantity e));
  et_remaining : is_u32 (fe_remaining e);
  et_match : is_u64 (fe_match_id e);
  et_symbol : fe_type e = Add \/ fe_type e = Trade \/ fe_type e = Directory -> fe_symbol e <> ""%string
}.

(** The stamp of an event: sequence, time and channel. *)
Definition stamp (e : Event) : Z * Z * Z := (fe_sequence e, fe_timestamp e, fe_channel e).

(** ** The field readers *)

Lemma integer_range b pos size little v :
  Forall is_u8 b -> integer b pos size little = Ret v -> 0 <= v < 256 ^ Z.of_nat size.
Proof.
  intros Hb. unfold integer. case_decide as Hs; [|done]. intros [= <-].
  set (field := take size (drop pos b)).
  assert (Forall is_u8 field) as Hf by (by apply Forall_take, Forall_drop).
  assert (length field = size) as Hl by (unfold field; rewrite length_take, length_drop; lia).
  assert (Forall is_u8 (if little then reverse field else field) /\
          length (if little then reverse field else field) = size) as [Hf' Hl'].
  { destruct little; [|done]. split; [by apply Forall_reverse|by rewrite length_reverse]. }
  rewrite fold_shift_in by (lia || done). pose proof (be_num_range _ Hf') as R. by rewrite Hl' in R.
Qed.

Lemma demand_Ret b what x : demand b what = Ret x -> b = true.
Proof. by destruct b. Qed.

Lemma symbol_nonempty b pos size s : symbol b pos size = Ret s -> s <> ""%string.
Proof.
  unfold symbol. intros (x & _ & (y & _ & (z & H & [= <-])%bind_Ret_inv)%bind_Ret_inv)%bind_Ret_inv.
  apply demand_Ret, bool_decide_eq_true in H as (Hne & _). by destruct (strip_spaces _).
Qed.

Lemma feed_side_valid c s : feed_side c = Ret s -> valid_side s.
Proof.
  unfold feed_side. intros (x & _ & [= <-])%bind_Ret_inv. unfold valid_side. case_decide; auto.
Qed.

Lemma number_range m pos size v :
  Forall is_u8 m -> number m pos size = Ret v -> 0 <= v < 256 ^ Z.of_nat size.
Proof. apply integer_range. Qed.

(** Inverts the binds of a hypothesis, naming nothing. *)
Ltac unbind H :=
  repeat (let a := fresh "x" in let Ha := fresh "Hx" in apply bind_Ret_inv in H as (a & Ha & H)).

(** Turns every successful field read into its range. *)
Ltac ranges Hm :=
  repeat match goal with
  | H : number _ _ ?n = Ret ?v |- _ => apply (number_range _ _ _ _ Hm) in H
  | H : integer _ _ _ _ = Ret ?v |- _ => apply (integer_range _ _ _ _ _ Hm) in H
  | H : symbol _ _ _ = Ret _ |- _ => apply symbol_nonempty in H
  | H : feed_side _ = Ret _ |- _ => apply feed_side_valid in H
  end.

(** ** PITCH *)

Section pitch.
Context (m : list Z) (Hm : Forall is_u8 m).

Lemma event_default_typed s t c : event_typed (event_default s t c).
Proof. split; simpl; try (unfold valid_side; auto; fail); unfold is_u64, is_u32; try lia. naive_solver. Qed.

Ltac typed := split; [split; simpl; try done; unfold is_u64, is_u32, valid_side in *; intuition (lia || congruence || auto)|done].

Lemma short_price (short : bool) p1 p2 v :
  (if short then p ← number m p1 2; Ret (u64 (p * 100)) else number m p2 8) = Ret v -> is_u64 v.
Proof.
  destruct short.
  - intros (p & _ & [= <-])%bind_Ret_inv. apply u64_range.
  - intros H. apply (number_range _ _ _ _ Hm) in H. exact H.
Qed.

Lemma short_quantity (short : bool) p n1 n2 v :
  (n1 <= 4)%nat -> (n2 <= 4)%nat -> number m p (if short then n1 else n2) = Ret v -> is_u32 v.
Proof.
  intros H1 H2 H. apply (number_range _ _ _ _ Hm) in H. unfold is_u32.
  assert (256 ^ Z.of_nat (if short then n1 else n2) <= 256 ^ 4) by (apply Z.pow_le_mono_r; destruct short; lia). lia.
Qed.

(** What every case of the switch yields. *)
Definition decoded (e e' : Event) : Prop := event_typed e' /\ stamp e' = stamp e.

Context (s t c : Z).
Let e0 := event_default s t c.

Lemma pitch_add_typed length type short expanded e : pitch_add m length type short expanded e0 = Ret e -> decoded e0 e.
Proof.
  unfold pitch_add. intros H. unbind H. injection H as <-.
  match goal with H : context [u64 (_ * 100)] |- _ => apply short_price in H end.
  match goal with H : number _ 15 _ = Ret _ |- _ => apply short_quantity in H; [|lia..] end. ranges Hm. typed.
Qed.

Lemma pitch_execute_typed length type e : pitch_execute m length type e0 = Ret e -> decoded e0 e.
Proof. unfold pitch_execute. intros H. unbind H. injection H as <-. ranges Hm. typed. Qed.

Lemma pitch_execute_remaining_typed length type e : pitch_execute_remaining m length type e0 = Ret e -> decoded e0 e.
Proof. unfold pitch_execute_remaining. intros H. unbind H. injection H as <-. ranges Hm. typed. Qed.

Lemma pitch_reduce_typed length type long e : pitch_reduce m length type long e0 = Ret e -> decoded e0 e.
Proof.
  unfold pitch_reduce. intros H. unbind H. injection H as <-.
  match goal with H : number _ 14 _ = Ret _ |- _ => apply short_quantity in H; [|lia..] end. ranges Hm. typed.
Qed.

Lemma pitch_modify_typed length type short e : pitch_modify m length type short e0 = Ret e -> decoded e0 e.
Proof.
  unfold pitch_modify. intros H. unbind H. injection H as <-.
  match goal with H : context [u64 (_ * 100)] |- _ => apply short_price in H end.
  match goal with H : number _ 14 _ = Ret _ |- _ => apply short_quantity in H; [|lia..] end. ranges Hm. typed.
Qed.

Lemma pitch_trade_typed length type short expanded e : pitch_trade m length type short expanded e0 = Ret e -> decoded e0 e.
Proof.
  unfold pitch_trade. intros H. unbind H. injection H as <-.
  match goal with H : context [u64 (_ * 100)] |- _ => apply short_price in H end.
  match goal with H : number _ 15 _ = Ret _ |- _ => apply short_quantity in H; [|lia..] end. ranges Hm. typed.
Qed.

Lemma pitch_switch_typed length type e ended : pitch_switch m length type e0 = Ret (e, ended) -> decoded e0 e.
Proof.
  assert (forall r : outcome Event, (e ← r; Ret (e, false)) = Ret (e, ended) -> r = Ret e) as Hev.
  { intros r (x & Hx & [= <- <-])%bind_Ret_inv. done. }
  assert (forall n b, (_ ← sized length type n; Ret (e0, b)) = Ret (e, ended) -> decoded e0 e) as Hsame.
  { intros n b (x & _ & [= <- _])%bind_Ret_inv. split; [apply event_default_typed|done]. }
  unfold pitch_switch. destruct type as [|p|p]; try done.
  repeat (destruct p as [p|p|]; try done); intros H;
    try (apply Hev in H; eauto using pitch_add_typed, pitch_execute_typed, pitch_execute_remaining_typed,
           pitch_reduce_typed, pitch_modify_typed, pitch_trade_typed; fail);
    try (eapply Hsame; exact H).
  all: unbind H; injection H as <- _; ranges Hm; typed.
Qed.
End pitch.

(** An event of the channel with its sequence number. *)
Definition numbered_event (channel sequence : Z) (e : Event) : Prop :=
  event_typed e /\ fe_channel e = channel /\ fe_sequence e = sequence.

Lemma decoded_numbered s t c e : decoded (event_default s t c) e -> numbered_event c s e.
Proof. intros [Ht [= <- _ <-]]. done. Qed.

Lemma pitch_message_spec p offset channel sequence u e u' len :
  Forall is_u8 p -> pitch_message p offset channel sequence u = Ret (e, u', len) ->
  numbered_event channel sequence e /\ ut_next u' = ut_next u.
Proof.
  intros Hp. unfold pitch_message. intros H.
  apply bind_Ret_inv in H as (? & _ & H). apply bind_Ret_inv in H as (? & _ & H).
  apply bind_Ret_inv in H as (? & _ & H). cbv zeta in H.
  set (m := take _ _) in H. assert (Forall is_u8 m) as Hm by (by apply Forall_take, Forall_drop).
  case_decide.
  - unbind H. injection H as <- <- _. split; [|done]. by split; [apply event_default_typed|].
  - apply bind_Ret_inv in H as (? & _ & H). apply bind_Ret_inv in H as (nanos & _ & H).
    apply bind_Ret_inv in H as (? & _ & H). apply bind_Ret_inv in H as ([e1 ended] & He & [= <- <- _]).
    split; [|done]. apply decoded_numbered with (t := ut_seconds u * 1000000000 + nanos).
    by apply (pitch_switch_typed m Hm _ _ _ _ _ _ _ He).
Qed.

(** Consecutive events of a channel from [sequence] on. *)
Fixpoint consecutive (channel sequence : Z) (es : list Event) : Prop :=
  match es with
  | [] => True
  | e :: es => numbered_event channel sequence e /\ consecutive channel (sequence + 1) es
  end.

Lemma pitch_messages_spec count : forall p offset channel sequence u events r,
  Forall is_u8 p -> pitch_messages count p offset channel sequence u events = Ret r ->
  exists es, r.1.1 = events ++ es /\ length es = count /\ consecutive channel sequence es.
Proof.
  induction count as [|count IH]; intros p offset channel sequence u events r Hp; cbn [pitch_messages].
  - intros [= <-]. exists []. by rewrite app_nil_r.
  - intros ([[e u'] len] & H1 & H2)%bind_Ret_inv. destruct (pitch_message_spec _ _ _ _ _ _ _ _ Hp H1) as [He _].
    destruct (IH _ _ _ _ _ _ _ Hp H2) as (es & -> & <- & Hes). exists (e :: es).
    by rewrite <- app_assoc.
Qed.

Lemma length_units_insert d channel u : length (<[Z.to_nat channel := u]> (pt_units d)) = length (pt_units d).
Proof. apply length_insert. Qed.


(** ** ITCH *)

Section itch.
Context (m : list Z) (Hm : Forall is_u8 m).

Ltac itch_typed := ranges Hm; split; [split; simpl; try done; unfold is_u64, is_u32, valid_side in *;
  intuition (lia || congruence || auto)|done].

Lemma itch_order_typed type s sequence timestamp e :
  s <> ""%string ->
  itch_order_event m type (with_symbol s (event_default sequence timestamp 0)) = Ret e ->
  event_typed e /\ (fe_symbol e = s /\ fe_sequence e = sequence).
Proof.
  intros Hs. unfold itch_order_event.
  destruct (one_of "AF" type); [intros H; unbind H; injection H as <-; itch_typed|].
  destruct (one_of "U" type); [intros H; unbind H; injection H as <-; itch_typed|].
  destruct (one_of "PQ" type).
  { cbv zeta. destruct (bool_decide _); intros H; unbind H; injection H as <-; itch_typed. }
  intros (id & Hid & H)%bind_Ret_inv. case_decide as HD; [injection H as <-; itch_typed|].
  cbv zeta in H. apply bind_Ret_inv in H as (quantity & Hq & H). apply bind_Ret_inv in H as (match_id & Hmatch & H).
  assert (is_u64 match_id) as Hmatch'.
  { destruct (decide (type <> code "X")); [by apply (integer_range _ _ _ _ _ Hm) in Hmatch|].
    injection Hmatch as <-. split; vm_compute; congruence. }
  clear Hmatch. case_decide as HC.
  - apply bind_Ret_inv in H as (? & _ & H). apply bind_Ret_inv in H as (price & Hp & [= <-]).
    destruct (decide (type = code "X")); itch_typed.
  - injection H as <-. destruct (decide (type = code "X")); itch_typed.
Qed.

(** The symbols a directory holds are never empty. *)
Definition symbols_ok (d : Itch50Decoder) : Prop := map_Forall (fun _ s => s <> ""%string) (it_symbols d).

Lemma itch_body_spec d e d' :
  symbols_ok d -> itch_body m d = Ret (e, d') ->
  it_complete d = false /\ event_typed e /\ fe_sequence e = u64 (it_record d + 1) /\
  it_record d' = u64 (it_record d + 1) /\ it_failed d' = it_failed d /\ symbols_ok d' /\
  (one_of "AFECXDUPQ" (byte_at m 0) = true ->
   exists locate, integer m 1 2 false = Ret locate /\ it_symbols d !! u16 locate = Some (fe_symbol e)).
Proof.
  intros Hd H. unfold itch_body in H. apply bind_Ret_inv in H as (? & Hcomplete & H).
  apply demand_Ret, negb_true_iff in Hcomplete. split; [done|].
  apply bind_Ret_inv in H as (? & _ & H). cbv zeta in H. apply bind_Ret_inv in H as (? & _ & H).
  apply bind_Ret_inv in H as (? & _ & H). apply bind_Ret_inv in H as (? & _ & H).
  apply bind_Ret_inv in H as (timestamp & Ht & H). apply bind_Ret_inv in H as (? & _ & H).
  apply bind_Ret_inv in H as (locate & Hlocate & H).
  assert (exists l, integer m 1 2 false = Ret l /\ l = locate) as Hl by eauto. ranges Hm. destruct Hl as (locate' & Hlocate' & ->).
  assert (event_typed (event_default (u64 (it_record d + 1)) timestamp 0)) as He0 by apply event_default_typed.
  case_decide as HS.
  { apply bind_Ret_inv in H as (? & _ & [= <- <-]).
    split; [destruct (bool_decide (_ = code "O")); [destruct He0; split; simpl; try done; naive_solver|done]|].
    split; [by destruct (bool_decide (_ = code "O"))|]. split; [done|]. split; [done|]. split.
    - unfold symbols_ok. simpl. by destruct (bool_decide (_ = code "O")).
    - rewrite HS. intros Hno. vm_compute in Hno. discriminate. }
  case_decide as HR.
  { apply bind_Ret_inv in H as (? & _ & H). apply bind_Ret_inv in H as (s & Hs & H). apply symbol_nonempty in Hs.
    cbv zeta in H. apply bind_Ret_inv in H as (? & _ & [= <- <-]).
    split; [destruct He0; by split|]. split; [done|]. split; [done|]. split; [done|]. split.
    - unfold symbols_ok. simpl. destruct (it_symbols d !! _); [done|]. by apply map_Forall_insert_2.
    - rewrite HR. intros Hno. vm_compute in Hno. discriminate. }
  destruct (one_of "AFECXDUPQ" (byte_at m 0)) eqn:Horder.
  - apply bind_Ret_inv in H as (s & Hs & H). apply bind_Ret_inv in H as (e1 & He1 & [= <- <-]).
    apply from_option_or_Ret in Hs. pose proof (Hd _ _ Hs) as Hne. simpl in Hne.
    destruct (itch_order_typed _ s _ _ _ Hne He1) as (Hty & Hsym & Hseq).
    split; [done|]. split; [done|]. split; [done|]. split; [done|]. split; [done|].
    intros _. exists locate. by rewrite Hsym.
  - injection H as <- <-. by split_and!.
Qed.
End itch.


(** ** Concrete instances *)

(** One Time message of unit 5. *)
Definition sample_packet : list Z := [14; 0; 1; 5; 1; 0; 0; 0; 6; 0x20; 10; 0; 0; 0].

Lemma sample_packet_bytes : Forall is_u8 sample_packet.
Proof. repeat constructor; vm_compute; congruence. Qed.


(** Start of Messages. *)
Definition sample_record : list Z := [83; 0; 0; 0; 0; 0; 0; 0; 0; 0; 0; 79].

Lemma sample_record_bytes : Forall is_u8 sample_record.
Proof. repeat constructor; vm_compute; congruence. Qed.

