(* ===== verification/FeedBooks.v ===== *)
(** * Books rebuilt from a feed

    [include/order_book/feed/books.hpp] and [src/feed/books.cpp]: the displayed
    orders of every venue and channel, and a book for each selected symbol.  A
    throwing operation may have changed the maps already, so the operations
    return the outcome beside the state. *)
From S2P Require Import Prelude StdMap Keys Types LOB OrderBook Pool BookInterface Decoder.

Record BookKey := mkKey { k_venue : string; k_channel : Z; k_symbol : string }.

#[export] Instance BookKey_eq_dec : EqDecision BookKey.
Proof. solve_decision. Defined.

#[export] Program Instance BookKey_countable : Countable BookKey :=
  inj_countable' (fun k => (k_venue k, k_channel k, k_symbol k)) (fun t => mkKey t.1.1 t.1.2 t.2) _.
Next Obligation. by intros []. Qed.

Definition OrderKey : Type := string * Z * OrderId.

(** Both maps are ordered member by member. *)
Definition venue_compare : string * Z -> string * Z -> comparison :=
  fun p q => lex (string_compare p.1 q.1) (Z.compare p.2 q.2).
Definition order_key_compare : OrderKey -> OrderKey -> comparison :=
  fun p q => lex (venue_compare p.1 q.1) (Z.compare p.2 q.2).
Definition book_key_compare : BookKey -> BookKey -> comparison :=
  fun p q => lex (venue_compare (k_venue p, k_channel p) (k_venue q, k_channel q))
               (string_compare (k_symbol p) (k_symbol q)).

Lemma venue_comparing : comparing venue_compare.
Proof.
  apply lex_comparing; [apply string_comparing|apply Z_comparing|]. by intros [] [] ? ?; simplify_eq/=.
Qed.
Lemma order_key_comparing : comparing order_key_compare.
Proof.
  apply lex_comparing; [apply venue_comparing|apply Z_comparing|]. by intros [] [] ? ?; simplify_eq/=.
Qed.
Lemma book_key_comparing : comparing book_key_compare.
Proof.
  apply (lex_comparing (fun k => (k_venue k, k_channel k))); [apply venue_comparing|apply string_comparing|].
  by intros [] [] ? ?; simplify_eq/=.
Qed.

#[export] Instance order_key_dec : RelDecision (at_most order_key_compare) := at_most_dec _.
#[export] Instance book_key_dec : RelDecision (at_most book_key_compare) := at_most_dec _.

Record Tracked := mkTracked { t_book : BookKey; t_side : Side; t_price : Z; t_quantity : Z }.

#[export] Instance Tracked_eq_dec : EqDecision Tracked.
Proof. solve_decision. Defined.

Section books.
Context {B : Type} {Bops : BookOps B}.

Record Books := mkBooks {
  fb_filter : string;
  fb_pool_bytes : Z;
  fb_valid : bool;
  fb_updates : Z;
  fb_books : gmap BookKey B;
  fb_orders : gmap OrderKey Tracked
}.

(** [Books(std::string symbol_filter, std::size_t pool_bytes)] *)
Definition books_new (filter : string) (pool_bytes : Z) : outcome Books :=
  _ ← demand (0 <? pool_bytes) "Nonzero per-book pool budget required";
  Ret (mkBooks filter pool_bytes true 0 ∅ ∅).

Definition put_books (books : gmap BookKey B) (s : Books) : Books :=
  mkBooks (fb_filter s) (fb_pool_bytes s) (fb_valid s) (fb_updates s) books (fb_orders s).
Definition put_orders (orders : gmap OrderKey Tracked) (s : Books) : Books :=
  mkBooks (fb_filter s) (fb_pool_bytes s) (fb_valid s) (fb_updates s) (fb_books s) orders.
Definition count_update (s : Books) : Books :=
  mkBooks (fb_filter s) (fb_pool_bytes s) (fb_valid s) (u64 (fb_updates s + 1)) (fb_books s) (fb_orders s).

(** [bool selected(const std::string&) const] *)
Definition selected (sym : string) (s : Books) : bool :=
  bool_decide (fb_filter s = "") || bool_decide (fb_filter s = sym).

(** ** Computations on the books that may throw *)
Definition on_books (A : Type) : Type := Books -> outcome A * Books.

#[local] Instance on_books_ret : MRet on_books := fun A a s => (Ret a, s).
#[local] Instance on_books_bind : MBind on_books := fun A C f m s =>
  match m s with (Ret a, s) => f a s | (Throw e, s) => (Throw e, s) end.

Definition lift {A} (m : outcome A) : on_books A := fun s => (m, s).
Definition modify (f : Books -> Books) : on_books unit := fun s => (Ret (), f s).
Definition gets {A} (f : Books -> A) : on_books A := fun s => (Ret (f s), s).

(** [void applied(ApplyResult)] *)
Definition applied (r : ApplyResult) : outcome unit :=
  if decide (r = Ok) then Ret () else Throw (FeedError ("LOB apply failed: " ++ result_to_string r)).

(** [AddOrder add(OrderId, Side, std::uint64_t price, std::uint64_t quantity)] *)
Definition core_order (id : OrderId) (side : Side) (price quantity : Z) : outcome AddOrder :=
  _ ← demand ((0 <? price) && (price <=? 2 ^ 32 - 1)) "Feed price cannot be represented by the core LOB";
  _ ← demand ((0 <? quantity) && (quantity <=? 2 ^ 32 - 1)) "Feed quantity cannot be represented by the core LOB";
  Ret (mkAdd id side (u32 price) (u32 quantity)).

(** [applied(book.apply(...))] on the book under a key. *)
Definition applied_to (k : BookKey) (op : B -> outcome (ApplyResult * B)) : on_books unit := fun s =>
  match fb_books s !! k with
  | None => (Throw OutOfRange, s)
  | Some b =>
    match op b with
    | Throw e => (Throw e, s)
    | Ret (r, b) => (applied r, put_books (<[k := b]> (fb_books s)) s)
    end
  end.

(** [books_.try_emplace(book, pool_bytes_)] *)
Definition emplace_book (h : Heap) (k : BookKey) : on_books unit := fun s =>
  match fb_books s !! k with
  | Some _ => (Ret (), s)
  | None =>
    match bk_new h (fb_pool_bytes s) with
    | Ret b => (Ret (), put_books (<[k := b]> (fb_books s)) s)
    | Throw e => (Throw e, s)
    end
  end.

(** [Clear]: everything of the venue's channel. *)
Definition clear_channel (venue : string) (channel : Z) (s : Books) : Books :=
  put_books (filter (fun kb => ~ (k_venue kb.1 = venue /\ k_channel kb.1 = channel)) (fb_books s))
    (put_orders (filter (fun kt => ~ (kt.1.1.1 = venue /\ kt.1.1.2 = channel)) (fb_orders s)) s).

Definition feed_add (h : Heap) (venue : string) (e : Event) : on_books unit :=
  let key := (venue, fe_channel e, fe_order_id e) in
  orders ← gets fb_orders;
  _ ← lift (demand (negb (bool_decide (fe_symbol e = "")) && bool_decide (orders !! key = None))
              "Missing symbol or duplicate order ID");
  _ ← lift (demand ((0 <? fe_price e) && (0 <? fe_quantity e)) "Nonpositive feed price/quantity");
  let book := mkKey venue (fe_channel e) (fe_symbol e) in
  wanted ← gets (selected (fe_symbol e));
  _ ← (if (wanted : bool) then
         order ← lift (core_order (fe_order_id e) (fe_side e) (fe_price e) (fe_quantity e));
         _ ← emplace_book h book;
         _ ← applied_to book (bk_add h order);
         modify count_update
       else mret ());
  modify (fun s => put_orders (<[key := mkTracked book (fe_side e) (fe_price e) (fe_quantity e)]> (fb_orders s)) s).

(** [if (book) applied(...)] *)
Definition when_book (has : bool) (m : on_books unit) : on_books unit := if has then m else mret ().

Definition feed_delete (key : OrderKey) (old : Tracked) (has : bool) (e : Event) : on_books unit :=
  _ ← when_book has (applied_to (t_book old) (bk_cancel (mkCancel (fe_order_id e))));
  modify (fun s => put_orders (delete key (fb_orders s)) s).

Definition feed_decrement (key : OrderKey) (old : Tracked) (has : bool) (e : Event) : on_books unit :=
  _ ← lift (demand ((0 <? fe_quantity e) && (fe_quantity e <=? t_quantity old)) "Invalid feed decrement");
  _ ← when_book has (applied_to (t_book old) (bk_execute (mkExecute (fe_order_id e) (u32 (fe_quantity e)))));
  let left := t_quantity old - fe_quantity e in
  modify (fun s => put_orders (if decide (left = 0) then delete key (fb_orders s)
    else <[key := mkTracked (t_book old) (t_side old) (t_price old) left]> (fb_orders s)) s).

Definition feed_remaining (h : Heap) (key : OrderKey) (old : Tracked) (has : bool) (e : Event) : on_books unit :=
  _ ← lift (demand ((0 <? fe_quantity e) && (fe_remaining e <=? 2 ^ 32 - 1)) "Invalid PITCH execution/remaining quantity");
  _ ← when_book has
        (if decide (fe_remaining e = 0) then applied_to (t_book old) (bk_cancel (mkCancel (fe_order_id e)))
         else
           order ← lift (core_order (fe_order_id e) (t_side old) (t_price old) (fe_remaining e));
           applied_to (t_book old) (bk_replace h (fe_order_id e) order true));
  modify (fun s => put_orders (if decide (fe_remaining e = 0) then delete key (fb_orders s)
    else <[key := mkTracked (t_book old) (t_side old) (t_price old) (fe_remaining e)]> (fb_orders s)) s).

Definition feed_replace (h : Heap) (venue : string) (key : OrderKey) (old : Tracked) (has : bool) (e : Event)
    : on_books unit :=
  let next := (venue, fe_channel e, fe_new_order_id e) in
  orders ← gets fb_orders;
  _ ← lift (demand (bool_decide (next = key) || bool_decide (orders !! next = None)) "Replacement ID already exists");
  _ ← lift (demand ((0 <? fe_price e) && (0 <? fe_quantity e)) "Nonpositive replacement price/quantity");
  _ ← lift (demand (negb (fe_maintain_priority e) || bool_decide (next = key /\ fe_price e = t_price old))
              "Maintain-priority replacement changes price/ID");
  _ ← when_book has
        (order ← lift (core_order (fe_new_order_id e) (t_side old) (fe_price e) (fe_quantity e));
         applied_to (t_book old) (bk_replace h (fe_order_id e) order (fe_maintain_priority e)));
  let t := mkTracked (t_book old) (t_side old) (fe_price e) (fe_quantity e) in
  modify (fun s => put_orders (if decide (next = key) then <[key := t]> (fb_orders s)
    else delete key (<[next := t]> (fb_orders s))) s).

(** [void apply(const std::string& venue, const Event&)] *)
Definition feed_apply (h : Heap) (venue : string) (e : Event) : on_books unit :=
  _ ← lift (demand (negb (bool_decide (venue = ""))) "Venue namespace required");
  match fe_type e with
  | Metadata | Directory | Trade => mret ()
  | Clear => modify (clear_channel venue (fe_channel e))
  | Add => feed_add h venue e
  | _ =>
    let key := (venue, fe_channel e, fe_order_id e) in
    found ← gets (fun s => fb_orders s !! key);
    old ← lift (from_option_or (FeedError "Unknown feed order; missing history or wrong channel") found);
    _ ← lift (demand (bool_decide (fe_symbol e = "") || bool_decide (k_symbol (t_book old) = fe_symbol e))
                "Order belongs to another symbol");
    has ← gets (fun s => bool_decide (is_Some (fb_books s !! t_book old)));
    _ ← (match fe_type e with
         | Delete => feed_delete key old has e
         | Reduce | Execute => feed_decrement key old has e
         | ExecuteRemaining => feed_remaining h key old has e
         | _ => feed_replace h venue key old has e
         end);
    when_book has (modify count_update)
  end.

(** [void consume(const std::string& venue, const Event&)] *)
Definition feed_consume (h : Heap) (venue : string) (e : Event) : on_books unit := fun s =>
  if negb (fb_valid s) then (Throw (FeedError "Feed books require rebuild after error"), s)
  else match feed_apply h venue e s with
       | (Throw x, s) => (Throw x, mkBooks (fb_filter s) (fb_pool_bytes s) false (fb_updates s) (fb_books s) (fb_orders s))
       | r => r
       end.

(** [bool validate_invariants(std::string* reason) const] *)
Definition check_tracked (s : Books) (key : OrderKey) (t : Tracked) : outcome (option string) :=
  if negb (selected (k_symbol (t_book t)) s) then Ret None
  else match fb_books s !! t_book t with
  | None => Ret (Some "Missing reconstructed book")
  | Some b =>
    order ← bk_order key.2 b;
    match order with
    | Some o =>
      if decide (ov_price o <> t_price t \/ ov_quantity o <> t_quantity t \/ ov_side o <> t_side t)
      then Ret (Some "Routing state and core book disagree") else Ret None
    | None => Ret (Some "Routing state and core book disagree")
    end
  end.

(** The first complaint of a list of checks. *)
Definition first_reason {A} (f : A -> outcome (option string)) (l : list A) : outcome (option string) :=
  foldM (fun found a => match found with Some r => Ret (Some r) | None => f a end) None l.

Definition feed_validate (s : Books) : outcome (option string) :=
  if negb (fb_valid s) then Ret (Some "Feed stream is invalid")
  else
    bad ← first_reason (fun kt => check_tracked s kt.1 kt.2) (ordered (at_most order_key_compare) (fb_orders s));
    match bad with
    | Some r => Ret (Some r)
    | None =>
      bad ← first_reason (fun kb => bk_validate kb.2) (ordered (at_most book_key_compare) (fb_books s));
      match bad with
      | Some r => Ret (Some r)
      | None =>
        let selected_orders := length (filter (fun kt => selected (k_symbol (t_book kt.2)) s = true)
                                         (ordered (at_most order_key_compare) (fb_orders s))) in
        if decide (sum_list ((fun kb => bk_count kb.2) <$> ordered (at_most book_key_compare) (fb_books s)) = selected_orders)
        then Ret None else Ret (Some "Untracked reconstructed orders")
      end
    end.
End books.
Arguments Books : clear implicits.
