(* ===== verification/FeedView.v ===== *)
(** * What a feed says

    The contract of the feed books with no pools, no maps of books and no
    exceptions: the displayed orders by venue, channel and identifier, one
    abstract book per venue, channel and symbol, and the effect of one event on
    both, or that the event is refused. *)
From S2P Require Import Prelude StdMap Types LOB Market Decoder FeedBooks.

Section view.
Context (wants : string -> bool).

Record FeedView := mkFeed { fv_orders : gmap OrderKey Tracked; fv_books : BookKey -> LOB }.

Definition order_key_of (k : BookKey) (id : OrderId) : OrderKey := (k_venue k, k_channel k, id).
Definition tracked_view (id : OrderId) (t : Tracked) : OrderView :=
  mkView id (t_side t) (t_price t) (t_quantity t).

(** Prices and quantities the core book can hold. *)
Definition fits (x : Z) : bool := (0 <? x) && (x <=? 2 ^ 32 - 1).

Definition on_book (k : BookKey) (f : LOB -> LOB) (books : BookKey -> LOB) : BookKey -> LOB :=
  fun k' => if decide (k' = k /\ wants (k_symbol k) = true) then f (books k') else books k'.

Definition view_insert (key : OrderKey) (t : Tracked) (v : FeedView) : FeedView :=
  mkFeed (<[key := t]> (fv_orders v)) (on_book (t_book t) (lob_insert (tracked_view key.2 t)) (fv_books v)).
Definition view_remove (key : OrderKey) (t : Tracked) (v : FeedView) : FeedView :=
  mkFeed (delete key (fv_orders v)) (on_book (t_book t) (lob_remove key.2) (fv_books v)).
Definition tracked_resize (q : Z) (t : Tracked) : Tracked := mkTracked (t_book t) (t_side t) (t_price t) q.
Definition view_resize (key : OrderKey) (t : Tracked) (q : Z) (v : FeedView) : FeedView :=
  mkFeed (<[key := tracked_resize q t]> (fv_orders v)) (on_book (t_book t) (lob_resize key.2 q) (fv_books v)).
Definition view_clear (venue : string) (channel : Z) (v : FeedView) : FeedView :=
  mkFeed (filter (fun kt => ~ (kt.1.1.1 = venue /\ kt.1.1.2 = channel)) (fv_orders v))
    (fun k => if decide (k_venue k = venue /\ k_channel k = channel) then lob_empty else fv_books v k).

Definition guarded (b : bool) (v : option FeedView) : option FeedView := if b then v else None.

(** The quantity left on an order, which goes when there is none. *)
Definition view_left (key : OrderKey) (t : Tracked) (q : Z) (v : FeedView) : FeedView :=
  if decide (q = 0) then view_remove key t v else view_resize key t q v.

Definition view_add (venue : string) (e : Event) (v : FeedView) : option FeedView :=
  let key := (venue, fe_channel e, fe_order_id e) in
  guarded (negb (bool_decide (fe_symbol e = "")) && bool_decide (fv_orders v !! key = None) &&
           (0 <? fe_price e) && (0 <? fe_quantity e) &&
           (negb (wants (fe_symbol e)) || (fits (fe_price e) && fits (fe_quantity e))))
    (Some (view_insert key (mkTracked (mkKey venue (fe_channel e) (fe_symbol e)) (fe_side e) (fe_price e) (fe_quantity e)) v)).

Definition view_replace (venue : string) (e : Event) (key : OrderKey) (old : Tracked) (v : FeedView) : option FeedView :=
  let next := (venue, fe_channel e, fe_new_order_id e) in
  guarded ((bool_decide (next = key) || bool_decide (fv_orders v !! next = None)) &&
           (0 <? fe_price e) && (0 <? fe_quantity e) &&
           (negb (fe_maintain_priority e) || bool_decide (next = key /\ fe_price e = t_price old)) &&
           (negb (wants (k_symbol (t_book old))) || (fits (fe_price e) && fits (fe_quantity e))))
    (Some (if fe_maintain_priority e then view_resize key old (fe_quantity e) v
           else view_insert next (mkTracked (t_book old) (t_side old) (fe_price e) (fe_quantity e)) (view_remove key old v))).

Definition view_order (venue : string) (e : Event) (key : OrderKey) (old : Tracked) (v : FeedView) : option FeedView :=
  match fe_type e with
  | Delete => Some (view_remove key old v)
  | Reduce | Execute =>
    guarded ((0 <? fe_quantity e) && (fe_quantity e <=? t_quantity old))
      (Some (view_left key old (t_quantity old - fe_quantity e) v))
  | ExecuteRemaining =>
    guarded ((0 <? fe_quantity e) && (fe_remaining e <=? 2 ^ 32 - 1)) (Some (view_left key old (fe_remaining e) v))
  | _ => view_replace venue e key old v
  end.

(** The effect of one event. *)
Definition view_event (venue : string) (e : Event) (v : FeedView) : option FeedView :=
  guarded (negb (bool_decide (venue = "")))
    (match fe_type e with
     | Metadata | Directory | Trade => Some v
     | Clear => Some (view_clear venue (fe_channel e) v)
     | Add => view_add venue e v
     | _ =>
       let key := (venue, fe_channel e, fe_order_id e) in
       match fv_orders v !! key with
       | None => None
       | Some old =>
         guarded (bool_decide (fe_symbol e = "") || bool_decide (k_symbol (t_book old) = fe_symbol e))
           (view_order venue e key old v)
       end
     end).

(** ** The books hold exactly the displayed orders *)

Record view_ok (v : FeedView) : Prop := {
  vo_wf k : lob_wf (fv_books v k);
  vo_match k id w :
    lob_find id (fv_books v k) = Some w <->
    wants (k_symbol k) = true /\
    exists t, fv_orders v !! order_key_of k id = Some t /\ t_book t = k /\ w = tracked_view id t;
  vo_home key t : fv_orders v !! key = Some t -> key.1 = (k_venue (t_book t), k_channel (t_book t));
  vo_live key t : fv_orders v !! key = Some t -> valid_side (t_side t) /\ 0 < t_price t /\ 0 < t_quantity t
}.

Lemma order_key_of_home key k : key.1 = (k_venue k, k_channel k) -> order_key_of k key.2 = key.
Proof. destruct key as [[? ?] ?]. unfold order_key_of. simpl. by intros [= -> ->]. Qed.

Lemma on_book_wf k f books :
  (forall k, lob_wf (books k)) -> (wants (k_symbol k) = true -> lob_wf (f (books k))) ->
  forall k', lob_wf (on_book k f books k').
Proof. intros H Hf k'. unfold on_book. case_decide as E; [destruct E as [-> Hw]; auto|done]. Qed.

Lemma lob_find_resize l v q id :
  lob_wf l -> lob_find (ov_id v) l = Some v ->
  lob_find id (lob_resize (ov_id v) q l) = if decide (id = ov_id v) then Some (with_quantity q v) else lob_find id l.
Proof.
  intros Hwf Hv. pose proof (lob_find_Some l (ov_id v) v Hwf) as [Hin _]. specialize (Hin Hv) as [Hin _].
  assert (Hnd : NoDup (ov_id <$> lob_orders (lob_resize (ov_id v) q l))).
  { assert (lob_orders (lob_resize (ov_id v) q l) = q_resize (ov_id v) q (lob_orders l)) as ->
      by (unfold lob_orders; simpl; symmetry; apply q_resize_app).
    rewrite q_resize_ids. apply Hwf. }
  case_decide as E.
  - subst id. apply find_id_elem; [done| |done]. apply elem_of_lob_resize; auto.
  - destruct (lob_find id l) as [w|] eqn:Ew.
    + apply lob_find_Some in Ew as [Hw <-]; [|done]. apply find_id_elem; [done| |done].
      apply elem_of_lob_resize; auto.
    + apply find_id_None. intros (w & -> & Hw)%list_elem_of_fmap.
      apply elem_of_lob_resize in Hw as [->|[Hw _]]; [by apply E|..|done|done].
      apply find_id_None in Ew. apply Ew. apply list_elem_of_fmap. eauto.
Qed.

Lemma lob_find_insert l v :
  lob_wf l -> valid_side (ov_side v) -> lob_find (ov_id v) l = None -> lob_find (ov_id v) (lob_insert v l) = Some v.
Proof.
  intros Hwf Hs Hn. apply find_id_elem; [|by apply elem_of_lob_insert; [|left]|done].
  rewrite (lob_orders_insert v l Hs). apply find_id_None in Hn. csimpl. constructor; [done|apply Hwf].
Qed.

(** Views that agree book by book. *)
Definition view_same (v w : FeedView) : Prop := fv_orders v = fv_orders w /\ forall k, fv_books v k = fv_books w k.

Lemma view_ok_same v w : view_same v w -> view_ok v -> view_ok w.
Proof.
  intros [Eo Eb] Hok. split; rewrite <- ?Eo.
  - intros k. rewrite <- Eb. apply Hok.
  - intros k id u. rewrite <- Eb. apply (vo_match v Hok).
  - apply (vo_home v Hok).
  - apply (vo_live v Hok).
Qed.

(** An order that is not tracked is in no book. *)
Lemma view_fresh v k id : view_ok v -> fv_orders v !! order_key_of k id = None -> lob_find id (fv_books v k) = None.
Proof.
  intros Hok Hn. destruct (lob_find id (fv_books v k)) as [w|] eqn:E; [|done].
  apply (vo_match v Hok) in E as (_ & t & Ht & _). congruence.
Qed.

Lemma fits_spec x : fits x = true <-> 0 < x < 2 ^ 32.
Proof. unfold fits. rewrite andb_true_iff, Z.ltb_lt, Z.leb_le. lia. Qed.

Lemma view_insert_ok key t v :
  view_ok v -> fv_orders v !! key = None -> key.1 = (k_venue (t_book t), k_channel (t_book t)) ->
  valid_side (t_side t) -> 0 < t_price t -> 0 < t_quantity t ->
  (wants (k_symbol (t_book t)) = true -> fits (t_price t) = true /\ fits (t_quantity t) = true) ->
  view_ok (view_insert key t v).
Proof.
  intros Hok Hn Hhome Hs Hp Hq Hfits. pose proof (order_key_of_home _ _ Hhome) as Hkey.
  assert (Hfree : lob_find key.2 (fv_books v (t_book t)) = None) by (apply (view_fresh v _ _ Hok); by rewrite Hkey).
  split.
  - apply on_book_wf; [apply Hok|]. intros [Hp' Hq']%Hfits. apply fits_spec in Hp', Hq'.
    apply lob_wf_insert; [apply Hok|done|split; simpl; done|done].
  - intros k id w. cbn [view_insert fv_books fv_orders]. unfold on_book. case_decide as E.
    + destruct E as [-> Hw]. destruct (decide (id = key.2)) as [->|Hne].
      * rewrite (lob_find_insert _ (tracked_view key.2 t) (vo_wf v Hok _) Hs Hfree : lob_find key.2 _ = _).
        rewrite Hkey. setoid_rewrite lookup_insert_eq. split; [intros [= <-]; split; [done|]; by exists t|].
        by intros (_ & t' & [= <-] & _ & ->).
      * rewrite lob_find_insert_ne by (simpl; congruence). rewrite (vo_match v Hok).
        setoid_rewrite lookup_insert_ne; [done|]. intros Ek. apply Hne. by rewrite Ek.
    + rewrite (vo_match v Hok). destruct (decide (order_key_of k id = key)) as [Ek|Hne].
      * rewrite Ek. setoid_rewrite lookup_insert_eq. setoid_rewrite Hn. split; [naive_solver|]. intros (Hw & t' & [= <-] & <- & _). destruct E. by auto.
      * setoid_rewrite lookup_insert_ne; [done|congruence].
  - intros k t'. cbn [view_insert fv_orders]. rewrite lookup_insert_Some. intros [[<- <-]|[_ H]]; [done|by apply (vo_home v Hok)].
  - intros k t'. cbn [view_insert fv_orders]. rewrite lookup_insert_Some. intros [[_ <-]|[_ H]]; [done|by apply (vo_live v Hok _ _ H)].
Qed.

Lemma view_remove_ok key t v : view_ok v -> fv_orders v !! key = Some t -> view_ok (view_remove key t v).
Proof.
  intros Hok Ht. pose proof (order_key_of_home _ _ (vo_home v Hok _ _ Ht)) as Hkey. split.
  - apply on_book_wf; [apply Hok|]. intros _. apply lob_wf_remove, Hok.
  - intros k id w. cbn [view_remove fv_books fv_orders]. unfold on_book. case_decide as E.
    + destruct E as [-> Hw]. destruct (decide (id = key.2)) as [->|Hne].
      * rewrite lob_find_remove, Hkey. setoid_rewrite lookup_delete_eq. naive_solver.
      * rewrite lob_find_remove_ne by done. rewrite (vo_match v Hok).
        setoid_rewrite lookup_delete_ne; [done|]. intros Ek. apply Hne. by rewrite Ek.
    + rewrite (vo_match v Hok). destruct (decide (order_key_of k id = key)) as [Ek|Hne].
      * rewrite Ek. setoid_rewrite lookup_delete_eq. setoid_rewrite Ht. split; [|naive_solver].
        intros (Hw & t' & [= <-] & <- & _). destruct E. by auto.
      * setoid_rewrite lookup_delete_ne; [done|congruence].
  - intros k t'. cbn [view_remove fv_orders]. intros [_ H]%lookup_delete_Some. by apply (vo_home v Hok).
  - intros k t'. cbn [view_remove fv_orders]. intros [_ H]%lookup_delete_Some. by apply (vo_live v Hok _ _ H).
Qed.

Lemma view_resize_ok key t q v :
  view_ok v -> fv_orders v !! key = Some t -> 0 < q ->
  (wants (k_symbol (t_book t)) = true -> fits q = true) -> view_ok (view_resize key t q v).
Proof.
  intros Hok Ht Hq Hfits. pose proof (order_key_of_home _ _ (vo_home v Hok _ _ Ht)) as Hkey.
  destruct (vo_live v Hok _ _ Ht) as (Hs & Hp & _). split.
  - apply on_book_wf; [apply Hok|]. intros Hq'%Hfits%fits_spec. apply lob_wf_resize; [apply Hok|done].
  - intros k id w. cbn [view_resize fv_books fv_orders]. unfold on_book. case_decide as E.
    + destruct E as [-> Hw].
      assert (lob_find key.2 (fv_books v (t_book t)) = Some (tracked_view key.2 t)) as Hold.
      { apply (vo_match v Hok). split; [done|]. exists t. by rewrite Hkey. }
      rewrite (lob_find_resize _ (tracked_view key.2 t) q id (vo_wf v Hok _) Hold : lob_find id (lob_resize key.2 q _) = _).
      cbn [ov_id tracked_view].
      case_decide as Eid.
      * subst id. rewrite Hkey. setoid_rewrite lookup_insert_eq. unfold tracked_view, with_quantity. simpl. split.
        -- intros [= <-]. split; [done|]. by eexists.
        -- by intros (_ & t' & [= <-] & _ & ->).
      * rewrite (vo_match v Hok). setoid_rewrite lookup_insert_ne; [done|]. intros Ek. apply Eid. by rewrite Ek.
    + rewrite (vo_match v Hok). destruct (decide (order_key_of k id = key)) as [Ek|Hne].
      * rewrite Ek. setoid_rewrite lookup_insert_eq. setoid_rewrite Ht. split; intros (Hw & t' & [= <-] & Eb & _); simpl in Eb; destruct E;
          rewrite Eb; auto.
      * setoid_rewrite lookup_insert_ne; [done|congruence].
  - intros k t'. cbn [view_resize fv_orders]. rewrite lookup_insert_Some.
    intros [[<- <-]|[_ H]]; [exact (vo_home v Hok _ _ Ht)|by apply (vo_home v Hok)].
  - intros k t'. cbn [view_resize fv_orders]. rewrite lookup_insert_Some.
    intros [[_ <-]|[_ H]]; [done|by apply (vo_live v Hok _ _ H)].
Qed.

Lemma view_clear_ok venue channel v : view_ok v -> view_ok (view_clear venue channel v).
Proof.
  intros Hok. split.
  - intros k. cbn [view_clear fv_books]. case_decide; [apply lob_wf_empty|apply Hok].
  - intros k id w. cbn [view_clear fv_books fv_orders]. setoid_rewrite map_lookup_filter_Some. simpl. case_decide as E.
    + split; [done|]. naive_solver.
    + rewrite (vo_match v Hok). naive_solver.
  - intros k t. cbn [view_clear fv_orders]. intros [H _]%map_lookup_filter_Some. by apply (vo_home v Hok).
  - intros k t. cbn [view_clear fv_orders]. intros [H _]%map_lookup_filter_Some. by apply (vo_live v Hok _ _ H).
Qed.

(** A tracked order of a selected symbol is in its book, so the core can hold it. *)
Lemma view_find v key t :
  view_ok v -> fv_orders v !! key = Some t -> wants (k_symbol (t_book t)) = true ->
  lob_find key.2 (fv_books v (t_book t)) = Some (tracked_view key.2 t).
Proof.
  intros Hok Ht Hw. apply (vo_match v Hok). split; [done|]. exists t.
  by rewrite (order_key_of_home _ _ (vo_home v Hok _ _ Ht)).
Qed.

Lemma view_fits v key t :
  view_ok v -> fv_orders v !! key = Some t -> wants (k_symbol (t_book t)) = true ->
  fits (t_price t) = true /\ fits (t_quantity t) = true.
Proof.
  intros Hok Ht Hw. pose proof (view_find v key t Hok Ht Hw) as H.
  apply lob_find_Some in H as [Hin _]; [|apply Hok].
  destruct (order_of_book _ _ (vo_wf v Hok _) Hin) as (_ & [_ Hp Hq] & _).
  by rewrite !fits_spec.
Qed.

Lemma view_left_ok key t q v :
  view_ok v -> fv_orders v !! key = Some t -> 0 <= q ->
  (wants (k_symbol (t_book t)) = true -> q <= 2 ^ 32 - 1) -> view_ok (view_left key t q v).
Proof.
  intros Hok Ht Hq Hmax. unfold view_left. case_decide; [by apply view_remove_ok|].
  apply view_resize_ok; try done; [lia|]. intros Hw%Hmax. apply fits_spec. lia.
Qed.

Lemma guarded_Some b v v' : guarded b v = Some v' -> b = true /\ v = Some v'.
Proof. by destruct b. Qed.

Lemma view_event_ok venue e v v' :
  view_ok v -> valid_side (fe_side e) -> 0 <= fe_remaining e -> view_event venue e v = Some v' -> view_ok v'.
Proof.
  intros Hok Hside Hrem [_ H]%guarded_Some.
  assert (forall key old, fv_orders v !! key = Some old -> key.1 = (venue, fe_channel e) ->
    view_order venue e key old v = Some v' -> view_ok v') as Horder.
  { clear H. intros key old Hold Hkey. pose proof (vo_live v Hok _ _ Hold) as (Hs & Hp & Hq).
    pose proof (vo_home v Hok _ _ Hold) as Hhome.
    assert (view_replace venue e key old v = Some v' -> view_ok v') as Hreplace.
    { intros [Hg [= <-]]%guarded_Some. rewrite !andb_true_iff, !orb_true_iff, !bool_decide_eq_true, !Z.ltb_lt, !negb_true_iff in Hg.
      destruct Hg as ((((Hnext & Hprice) & Hquantity) & Hkeep) & Hfits).
      assert (forall b, b = true -> wants (k_symbol (t_book old)) = b ->
        fits (fe_price e) = true /\ fits (fe_quantity e) = true) as Hfits'.
      { intros b -> Hw. rewrite Hw in Hfits. destruct Hfits as [?|?%andb_true_iff]; done. }
      destruct (fe_maintain_priority e) eqn:Ek; [apply view_resize_ok; naive_solver|].
      apply view_insert_ok; [by apply view_remove_ok| |cbn [t_book]; by rewrite <- Hhome, Hkey|done..|naive_solver].
      cbn [view_remove fv_orders]. rewrite lookup_delete_None.
      destruct Hnext as [->|Hn]; [by left|by right]. }
    unfold view_order. destruct (fe_type e); try done; [| | by intros [= <-]; apply view_remove_ok |];
      intros [Hg [= <-]]%guarded_Some; rewrite andb_true_iff, Z.ltb_lt, Z.leb_le in Hg; apply view_left_ok; try done; try lia;
      intros Hw; destruct (view_fits v key old Hok Hold Hw) as [_ Hf%fits_spec]; lia. }
  cbv zeta in H. destruct (fe_type e) in H; try (injection H as <-; done);
    try (destruct (fv_orders v !! _) as [old|] eqn:Hold; [|done]; apply guarded_Some in H as [_ H]; by eapply Horder).
  - apply guarded_Some in H as [Hg [= <-]].
    rewrite !andb_true_iff, !bool_decide_eq_true, !Z.ltb_lt, orb_true_iff, !negb_true_iff in Hg.
    destruct Hg as ((((_ & Hn) & Hp) & Hq) & Hf). apply view_insert_ok; try done; cbn [t_book t_price t_quantity k_symbol].
    intros Hw. rewrite Hw in Hf. destruct Hf as [?|?%andb_true_iff]; done.
  - injection H as <-. by apply view_clear_ok.
Qed.
End view.
