(* ===== verification/FeedBooksTheorems.v ===== *)
(** * The feed books implement the feed

    [consume] of the books against [view_event]: an accepted event has exactly
    its effect, a refused one changes nothing and poisons the object, and only
    memory stands between the two. *)
From S2P Require Import Prelude StdMap Keys Types LOB OrderBook Pool BookInterface Market Decoder DecoderTheorems.
From S2P Require Import FeedBooks FeedView.

Section theorems.
Context {B : Type} {Bops : BookOps B} {Blaws : BookLaws B}.
Implicit Types (s : Books B) (h : Heap).

Definition wanted (s : Books B) : string -> bool := fun sym => selected sym s.

Definition book_view s (k : BookKey) : LOB :=
  match fb_books s !! k with Some b => bk_abs b | None => lob_empty end.
Definition feed_view s : FeedView := mkFeed (fb_orders s) (book_view s).

(** Every book is well formed and of a selected symbol, and every tracked order
    of a selected symbol has one. *)
Record books_ok s : Prop := {
  bo_book k b : fb_books s !! k = Some b -> bk_wf b /\ selected (k_symbol k) s = true;
  bo_home key t : fb_orders s !! key = Some t -> selected (k_symbol (t_book t)) s = true -> is_Some (fb_books s !! t_book t)
}.

Record feed_ok s : Prop := {
  fo_books : books_ok s;
  fo_view : view_ok (wanted s) (feed_view s);
  fo_pool : 0 < fb_pool_bytes s
}.

(** [s'] holds the view [v], with what an event never changes as in [s]. *)
Record holds s s' (v : FeedView) : Prop := {
  ho_books : books_ok s';
  ho_view : view_same (feed_view s') v;
  ho_filter : fb_filter s' = fb_filter s;
  ho_pool : fb_pool_bytes s' = fb_pool_bytes s;
  ho_valid : fb_valid s' = fb_valid s
}.

(** The heap refused, or a book's pool is full. *)
Definition memory_short h s : Prop :=
  heap_block h = None \/ ~ heap_grants h \/
  exists k b, fb_books s !! k = Some b /\ (bk_slots b <= lob_count (bk_abs b))%nat.

(** What an event that means [spec] does: its effect; or, refused, nothing but
    a feed error; or it ran out of memory. *)
Definition finishes h s (spec : option FeedView) (r : outcome unit * Books B) : Prop :=
  match r with
  | (Ret _, s') => exists v, spec = Some v /\ holds s s' v
  | (Throw x, s') => (spec = None /\ s' = s /\ exists what, x = FeedError what) \/ memory_short h s'
  end.

(** ** One call on one book *)

Lemma effect_alloc h b m spec :
  effect bk_wf bk_abs bk_slots b m spec -> alloc_effect bk_wf bk_abs bk_slots h b m spec.
Proof. intros (r & b' & -> & Hwf & Hs & E). exists r, b'. split_and!; try done. by left. Qed.

Lemma applied_to_spec h s k b op f :
  fb_books s !! k = Some b -> alloc_effect bk_wf bk_abs bk_slots h b (op b) (Ok, f (bk_abs b)) ->
  exists b', bk_wf b' /\
    (applied_to k op s = (Ret (), put_books (<[k := b']> (fb_books s)) s) /\ bk_abs b' = f (bk_abs b) \/
     exists x, applied_to k op s = (Throw x, put_books (<[k := b']> (fb_books s)) s) /\
       memory_short h (put_books (<[k := b']> (fb_books s)) s)).
Proof.
  intros Hb (r & b' & E & Hwf & Hs & H). exists b'. split; [done|]. unfold applied_to. rewrite Hb, E.
  destruct H as [[= -> Ha]|(-> & _ & Ha & Hno)]; [by left|right].
  eexists. split; [done|]. right. destruct Hno as [?|?]; [by left|right].
  exists k, b'. cbn [fb_books put_books]. rewrite lookup_insert_eq, Hs, Ha. done.
Qed.

Lemma book_view_put s k b orders f k' :
  bk_abs b = f (book_view s k) -> selected (k_symbol k) s = true ->
  book_view (put_orders orders (put_books (<[k := b]> (fb_books s)) s)) k' = on_book (wanted s) k f (book_view s) k'.
Proof.
  intros Ha Hw. unfold book_view at 1, on_book, wanted. cbn [fb_books put_books put_orders]. destruct (decide (k' = k)) as [->|Hne].
  - by rewrite lookup_insert_eq, decide_True.
  - rewrite lookup_insert_ne by done. by rewrite decide_False by naive_solver.
Qed.

(** The new orders live in the book [k] or in books of orders there were. *)
Definition homes s (k : BookKey) (orders : gmap OrderKey Tracked) : Prop :=
  forall key t, orders !! key = Some t -> t_book t = k \/ exists key' t', fb_orders s !! key' = Some t' /\ t_book t' = t_book t.

Lemma holds_put s k b orders f :
  books_ok s -> homes s k orders -> bk_wf b -> bk_abs b = f (book_view s k) -> selected (k_symbol k) s = true ->
  holds s (put_orders orders (put_books (<[k := b]> (fb_books s)) s)) (mkFeed orders (on_book (wanted s) k f (book_view s))).
Proof.
  intros [Hb Ho] Hhome Hwf Ha Hw. split; try done.
  - split.
    + intros k' b'. cbn [fb_books put_books put_orders]. rewrite lookup_insert_Some. intros [[<- <-]|[_ H]]; [done|by apply Hb].
    + intros key t. cbn [fb_books fb_orders put_books put_orders]. intros Ht Hs. destruct (Hhome key t Ht) as [->|(key' & t' & Ht' & E)].
      * rewrite lookup_insert_eq. by eexists.
      * apply lookup_insert_is_Some'. right. rewrite <- E in *. by apply (Ho key' t').
  - split; [done|]. intros k'. cbn [feed_view fv_books]. by apply book_view_put.
Qed.

Lemma holds_skip s k orders f :
  books_ok s -> homes s k orders -> selected (k_symbol k) s = false ->
  holds s (put_orders orders s) (mkFeed orders (on_book (wanted s) k f (book_view s))).
Proof.
  intros [Hb Ho] Hhome Hw. split; try done.
  - split; [done|]. intros key t. cbn [fb_books fb_orders put_orders]. intros Ht Hs. destruct (Hhome key t Ht) as [E|(key' & t' & Ht' & E)].
    + rewrite E in Hs. unfold selected in *. cbn [fb_filter put_orders] in Hs. congruence.
    + rewrite <- E in *. by apply (Ho key' t').
  - split; [done|]. intros k'. cbn [feed_view fv_books]. unfold on_book, wanted. rewrite Hw.
    rewrite decide_False by naive_solver. done.
Qed.

Lemma holds_count s s' v : holds s s' v -> holds s (count_update s') v.
Proof. intros [[Hb Ho] Hv Hf Hp Hva]. by split; [split|..]. Qed.

Lemma has_selected s key t :
  feed_ok s -> fb_orders s !! key = Some t ->
  bool_decide (is_Some (fb_books s !! t_book t)) = selected (k_symbol (t_book t)) s.
Proof.
  intros [[Hb Ho] _ _] Ht. case_bool_decide as H.
  - destruct H as [b H]. symmetry. by eapply Hb.
  - destruct (selected _ _) eqn:E; [|done]. by destruct H; eapply Ho.
Qed.

(** ** The handlers *)

#[local] Existing Instance on_books_bind.
#[local] Existing Instance on_books_ret.

Lemma lift_demand {A} b what (m : on_books A) s :
  (_ ← lift (demand b what); m) s = if b then m s else (Throw (FeedError what), s).
Proof. by destruct b. Qed.

Lemma feed_refused h s what : finishes h s None (Throw (FeedError what), s).
Proof. left. split_and!; eauto. Qed.

Lemma lift_demand_finishes h s b what (m : on_books unit) v :
  (b = true -> finishes h s v (m s)) -> finishes h s (guarded b v) ((_ ← lift (demand b what); m) s).
Proof. intros H. rewrite lift_demand. destruct b; [by apply H|]. apply feed_refused. Qed.

(** The call on the book, the routing entry, and the count of updates. *)
Definition on_order (has : bool) (k : BookKey) (op : B -> outcome (ApplyResult * B))
    (entry : gmap OrderKey Tracked -> gmap OrderKey Tracked) : on_books unit :=
  _ ← (_ ← when_book has (applied_to k op); modify (fun s => put_orders (entry (fb_orders s)) s));
  when_book has (modify count_update).

Lemma on_order_spec h s (k : BookKey) op entry f :
  feed_ok s -> homes s k (entry (fb_orders s)) ->
  (forall b, fb_books s !! k = Some b -> bk_wf b -> alloc_effect bk_wf bk_abs bk_slots h b (op b) (Ok, f (bk_abs b))) ->
  (selected (k_symbol k) s = true -> is_Some (fb_books s !! k)) ->
  finishes h s (Some (mkFeed (entry (fb_orders s)) (on_book (wanted s) k f (book_view s))))
    (on_order (selected (k_symbol k) s) k op entry s).
Proof.
  intros Hok Hhome Hop Hhas. unfold on_order. destruct (selected (k_symbol k) s) eqn:Hs.
  - destruct (Hhas eq_refl) as [b Hb]. destruct (bo_book s (fo_books s Hok) k b Hb) as [Hwf _].
    destruct (applied_to_spec h s k b op f Hb (Hop b Hb Hwf)) as (b' & Hwf' & [[E Ha]|(x & E & Hm)]);
      unfold mbind, on_books_bind, when_book; rewrite E; [|by right].
    eexists. split; [done|]. apply holds_count. apply (holds_put s k b' _ f); try done; [apply Hok|].
    unfold book_view. by rewrite Hb.
  - eexists. split; [done|]. apply holds_skip; [apply Hok|done|done].
Qed.

Lemma order_known s key t :
  feed_ok s -> fb_orders s !! key = Some t -> selected (k_symbol (t_book t)) s = true -> is_Some (fb_books s !! t_book t).
Proof. intros Hok Ht. by apply (bo_home s (fo_books s Hok) key). Qed.

Lemma book_find s key t b :
  feed_ok s -> fb_orders s !! key = Some t -> fb_books s !! t_book t = Some b ->
  lob_find key.2 (bk_abs b) = Some (tracked_view key.2 t) /\ fits (t_price t) = true /\ fits (t_quantity t) = true.
Proof.
  intros Hok Ht Hb. destruct (bo_book s (fo_books s Hok) _ b Hb) as [_ Hs].
  pose proof (view_find (wanted s) (feed_view s) key t (fo_view s Hok) Ht Hs) as H.
  cbn [feed_view fv_books] in H. unfold book_view in H. rewrite Hb in H. split; [done|].
  by apply (view_fits (wanted s) (feed_view s) key t (fo_view s Hok) Ht Hs).
Qed.

(** Entries that come from an order there was. *)
Lemma homes_delete s key t : homes s (t_book t) (delete key (fb_orders s)).
Proof. intros key' t' [_ H]%lookup_delete_Some. right. eauto. Qed.
Lemma homes_insert s (k : BookKey) key t : t_book t = k -> homes s k (<[key := t]> (fb_orders s)).
Proof. intros E key' t' [[_ <-]|[_ H]]%lookup_insert_Some; [by left|right; eauto]. Qed.

Lemma guarded_andb (a b : bool) (v : option FeedView) : guarded (a && b) v = guarded a (guarded b v).
Proof. by destruct a. Qed.

Lemma finishes_same h s v w r : view_same v w -> finishes h s (Some v) r -> finishes h s (Some w) r.
Proof.
  intros [Eo Eb]. destruct r as [[u|x] s']; simpl; [|naive_solver].
  intros (v' & [= <-] & [Hb [Ho Hv] Hf Hp Hva]). exists w. split; [done|]. split; try done.
  split; [congruence|]. intros k. by rewrite Hv.
Qed.

(** The four operations of the core book on an order it holds. *)
Section calls.
Context (h : Heap) (b : B) (Hwf : bk_wf b) (id : OrderId) (v : OrderView).
Context (Hv : lob_find id (bk_abs b) = Some v).

Lemma cancel_call : alloc_effect bk_wf bk_abs bk_slots h b (bk_cancel (mkCancel id) b) (Ok, lob_remove id (bk_abs b)).
Proof.
  apply effect_alloc. pose proof (bk_cancel_spec (mkCancel id) b Hwf) as H.
  unfold lob_cancel in H. cbn [cancel_id] in H. by rewrite Hv in H.
Qed.

Lemma execute_call q :
  0 < q <= ov_quantity v -> is_u32 (ov_quantity v) ->
  alloc_effect bk_wf bk_abs bk_slots h b (bk_execute (mkExecute id (u32 q)) b)
    (Ok, if decide (ov_quantity v - q = 0) then lob_remove id (bk_abs b) else lob_resize id (ov_quantity v - q) (bk_abs b)).
Proof.
  intros Hq Hu. unfold is_u32 in Hu. rewrite (u32_small q) by (unfold is_u32; lia). apply effect_alloc.
  assert (is_u32 q) as Hq' by (unfold is_u32; lia).
  pose proof (bk_execute_spec (mkExecute id q) b Hwf Hq') as H.
  unfold lob_execute in H. cbn [execute_id execute_quantity] in H. rewrite Hv in H.
  rewrite decide_False in H by lia. rewrite decide_False in H by lia.
  destruct (decide (ov_quantity v = q)); [rewrite decide_True by lia|rewrite decide_False by lia]; done.
Qed.

Lemma replace_call side new_id price quantity (keep : bool) :
  is_u64 new_id -> fits price = true -> fits quantity = true -> side = ov_side v -> valid_side side ->
  (new_id <> id -> lob_find new_id (bk_abs b) = None) -> (keep = true -> new_id = id /\ price = ov_price v) ->
  alloc_effect bk_wf bk_abs bk_slots h b (bk_replace h id (mkAdd new_id side price quantity) keep b)
    (Ok, if keep then lob_resize id quantity (bk_abs b)
         else lob_insert (mkView new_id side price quantity) (lob_remove id (bk_abs b))).
Proof.
  intros Hid Hp%fits_spec Hq%fits_spec -> Hs Hnew Hkeep.
  assert (AddOrder_ok (mkAdd new_id (ov_side v) price quantity)) as Hok.
  { split; simpl; unfold is_u32; try done; lia. }
  pose proof (bk_replace_spec h id _ keep b Hwf Hok) as H. unfold lob_replace in H.
  cbn [add_id add_side add_price add_quantity] in H. rewrite Hv in H. do 2 rewrite decide_False in H by lia. rewrite decide_False in H by (by intros []).
  rewrite decide_False in H by (intros [Hne [w Hw]]; rewrite Hnew in Hw; done).
  destruct keep; [|done]. destruct (Hkeep eq_refl) as [-> ->]. rewrite decide_False in H by naive_solver. done.
Qed.
End calls.

(** ** Each kind of event *)

Section event.
Context (h : Heap) (s : Books B) (venue : string) (e : Event).
Context (Hok : feed_ok s) (He : event_typed e).

Section order.
Context (old : Tracked).
Let key : OrderKey := (venue, fe_channel e, fe_order_id e).
Context (Hold : fb_orders s !! key = Some old).
Let has := selected (k_symbol (t_book old)) s.

Let step op entry f := on_order_spec h s (t_book old) op entry f Hok.

Lemma key_home : key.1 = (k_venue (t_book old), k_channel (t_book old)).
Proof. exact (vo_home _ _ (fo_view s Hok) key old Hold). Qed.

Definition run_order (m : on_books unit) : outcome unit * Books B := (_ ← m; when_book has (modify count_update)) s.

Lemma feed_delete_spec :
  finishes h s (Some (view_remove (wanted s) key old (feed_view s))) (run_order (feed_delete key old has e)).
Proof.
  apply (step _ (delete key) (lob_remove key.2)); [apply homes_delete| |by eapply order_known].
  intros b Hb Hwf. by eapply cancel_call, book_find.
Qed.

Lemma run_demand b what (m : on_books unit) v :
  (b = true -> finishes h s v (run_order m)) -> finishes h s (guarded b v) (run_order (_ ← lift (demand b what); m)).
Proof. destruct b; intros H; [by apply H|]. apply feed_refused. Qed.

(** The entry and the book after a quantity is taken off. *)
Lemma left_spec (q : Z) (op : B -> outcome (ApplyResult * B)) (entry : gmap OrderKey Tracked -> gmap OrderKey Tracked) :
  entry (fb_orders s) = (if decide (q = 0) then delete key (fb_orders s) else <[key := tracked_resize q old]> (fb_orders s)) ->
  (forall b, fb_books s !! t_book old = Some b -> bk_wf b -> alloc_effect bk_wf bk_abs bk_slots h b (op b)
     (Ok, if decide (q = 0) then lob_remove key.2 (bk_abs b) else lob_resize key.2 q (bk_abs b))) ->
  finishes h s (Some (view_left (wanted s) key old q (feed_view s))) (on_order has (t_book old) op entry s).
Proof.
  intros Ee Hop. unfold view_left. case_decide.
  - pose proof (step op entry (lob_remove key.2)) as H'. rewrite Ee in H'.
    apply H'; [apply homes_delete|done|by eapply order_known].
  - pose proof (step op entry (lob_resize key.2 q)) as H'. rewrite Ee in H'.
    apply H'; [by apply homes_insert|done|by eapply order_known].
Qed.

Lemma feed_decrement_spec :
  finishes h s (guarded ((0 <? fe_quantity e) && (fe_quantity e <=? t_quantity old))
      (Some (view_left (wanted s) key old (t_quantity old - fe_quantity e) (feed_view s))))
    (run_order (feed_decrement key old has e)).
Proof.
  unfold feed_decrement. apply run_demand. rewrite andb_true_iff, Z.ltb_lt, Z.leb_le. intros Hq.
  apply (left_spec (t_quantity old - fe_quantity e) _ (fun o => if decide (t_quantity old - fe_quantity e = 0)
    then delete key o else <[key := tracked_resize (t_quantity old - fe_quantity e) old]> o)); [done|].
  intros b Hb Hwf. destruct (book_find s key old b Hok Hold Hb) as (Hv & _ & Hf%fits_spec).
  apply (execute_call h b Hwf key.2 (tracked_view key.2 old)); [done..|]. unfold is_u32. simpl. lia.
Qed.

Lemma core_order_fits id side price quantity :
  fits price = true -> fits quantity = true -> core_order id side price quantity = Ret (mkAdd id side price quantity).
Proof.
  intros Hp Hq. unfold core_order. unfold fits in Hp, Hq. rewrite Hp, Hq. apply fits_spec in Hp, Hq.
  cbn [demand mbind outcome_bind]. by rewrite !u32_small by (unfold is_u32; lia).
Qed.

Lemma feed_remaining_spec :
  finishes h s (guarded ((0 <? fe_quantity e) && (fe_remaining e <=? 2 ^ 32 - 1))
      (Some (view_left (wanted s) key old (fe_remaining e) (feed_view s))))
    (run_order (feed_remaining h key old has e)).
Proof.
  unfold feed_remaining. apply run_demand. rewrite andb_true_iff, Z.ltb_lt, Z.leb_le. intros Hq.
  pose proof (et_remaining e He) as [Hr _]. destruct (et_order e He) as [Hid _].
  set (entry := fun o : gmap OrderKey Tracked => if decide (fe_remaining e = 0)
    then delete key o else <[key := tracked_resize (fe_remaining e) old]> o).
  destruct (decide (fe_remaining e = 0)) as [E|E].
  - apply (left_spec (fe_remaining e) (bk_cancel (mkCancel (fe_order_id e))) entry); [by rewrite decide_True|].
    intros b Hb Hwf. rewrite decide_True by done. by eapply cancel_call, book_find.
  - unfold run_order. destruct has eqn:Ehas.
    + destruct (view_fits _ _ _ _ (fo_view s Hok) Hold Ehas) as [Hfp _].
      assert (fits (fe_remaining e) = true) as Hfr by (apply fits_spec; lia).
      rewrite (core_order_fits _ _ _ _ Hfp Hfr).
      pose proof (left_spec (fe_remaining e) (bk_replace h (fe_order_id e)
        (mkAdd (fe_order_id e) (t_side old) (t_price old) (fe_remaining e)) true) entry) as H. rewrite Ehas in H.
      apply H; [by rewrite decide_False|]. intros b Hb Hwf. rewrite decide_False by done. destruct (book_find s key old b Hok Hold Hb) as (Hv & _).
      destruct (vo_live _ _ (fo_view s Hok) _ _ Hold) as (Hs & _).
      by apply (replace_call h b Hwf key.2 (tracked_view key.2 old) Hv).
    + pose proof (left_spec (fe_remaining e) (bk_cancel (mkCancel (fe_order_id e))) entry) as H. rewrite Ehas in H.
      apply H; [by rewrite decide_False|]. intros b Hb.
      destruct (bo_book s (fo_books s Hok) _ b Hb) as [_ Hs]. unfold has in Ehas. congruence.
Qed.
Let next : OrderKey := (venue, fe_channel e, fe_new_order_id e).
Let renewed : Tracked := mkTracked (t_book old) (t_side old) (fe_price e) (fe_quantity e).
Let entry (o : gmap OrderKey Tracked) : gmap OrderKey Tracked :=
  if decide (next = key) then <[key := renewed]> o else delete key (<[next := renewed]> o).

Lemma entry_renewed o : entry o = <[next := renewed]> (delete key o).
Proof.
  unfold entry. case_decide as E; [by rewrite E, insert_delete_eq|].
  by rewrite delete_insert_ne.
Qed.

Lemma homes_entry : homes s (t_book old) (entry (fb_orders s)).
Proof.
  rewrite entry_renewed. intros key' t'. rewrite lookup_insert_Some, lookup_delete_Some.
  intros [[_ <-]|(_ & _ & H)]; [by left|right; eauto].
Qed.

(** The replacement once its guards passed. *)
Lemma replace_step :
  next = key \/ fb_orders s !! next = None ->
  (fe_maintain_priority e = true -> next = key /\ fe_price e = t_price old) ->
  (has = true -> fits (fe_price e) = true /\ fits (fe_quantity e) = true) ->
  finishes h s (Some (if fe_maintain_priority e then view_resize (wanted s) key old (fe_quantity e) (feed_view s)
      else view_insert (wanted s) next renewed (view_remove (wanted s) key old (feed_view s))))
    (on_order has (t_book old)
       (bk_replace h (fe_order_id e) (mkAdd (fe_new_order_id e) (t_side old) (fe_price e) (fe_quantity e)) (fe_maintain_priority e))
       entry s).
Proof.
  intros Hnext Hkeep Hfits. set (keep := fe_maintain_priority e) in *.
  pose proof (step (bk_replace h (fe_order_id e) (mkAdd (fe_new_order_id e) (t_side old) (fe_price e) (fe_quantity e)) keep) entry
    (fun l => if keep then lob_resize key.2 (fe_quantity e) l
              else lob_insert (tracked_view next.2 renewed) (lob_remove key.2 l)) homes_entry) as H.
  eapply finishes_same; [|apply H; [|by eapply order_known]].
  - destruct keep eqn:Ek.
    + destruct (Hkeep eq_refl) as [E Ep]. split; [|done]. simpl. unfold entry. rewrite decide_True by done.
      unfold renewed, tracked_resize. by rewrite Ep.
    + split; [apply entry_renewed|]. intros k. cbn [fv_books view_insert view_remove]. unfold on_book.
      change (t_book renewed) with (t_book old). repeat case_decide; tauto.
  - intros b Hb Hwf. destruct (book_find s key old b Hok Hold Hb) as (Hv & _).
    destruct (bo_book s (fo_books s Hok) _ b Hb) as [_ Hs]. destruct (Hfits Hs) as [Hp Hq].
    destruct (vo_live _ _ (fo_view s Hok) _ _ Hold) as (Hside & _). destruct (et_order e He) as [_ Hid].
    apply (replace_call h b Hwf key.2 (tracked_view key.2 old) Hv); try done.
    + intros Hne. destruct Hnext as [[= E]|Hn]; [done|].
      pose proof (view_fresh _ _ (t_book old) (fe_new_order_id e) (fo_view s Hok)) as Hfree.
      cbn [feed_view fv_orders fv_books] in Hfree. unfold book_view in Hfree. rewrite Hb in Hfree. apply Hfree.
      assert (order_key_of (t_book old) next.2 = next) as Ek by (by apply order_key_of_home; rewrite <- key_home).
      cbn [snd next] in Ek. by rewrite Ek.
    + intros Hk. destruct (Hkeep Hk) as [[= E] Ep]. done.
Qed.

Lemma feed_replace_spec :
  finishes h s (view_replace (wanted s) venue e key old (feed_view s)) (run_order (feed_replace h venue key old has e)).
Proof.
  unfold view_replace. cbv zeta. rewrite <- !andb_assoc, !guarded_andb.
  unfold feed_replace. cbv zeta. fold next key.
  change (finishes h s (guarded (bool_decide (next = key) || bool_decide (fb_orders s !! next = None))
    (guarded (0 <? fe_price e) (guarded (0 <? fe_quantity e)
       (guarded (negb (fe_maintain_priority e) || bool_decide (next = key /\ fe_price e = t_price old))
          (guarded (negb has || (fits (fe_price e) && fits (fe_quantity e)))
          (Some (if fe_maintain_priority e then view_resize (wanted s) key old (fe_quantity e) (feed_view s)
             else view_insert (wanted s) next renewed (view_remove (wanted s) key old (feed_view s)))))))))
    (run_order (_ ← lift (demand (bool_decide (next = key) || bool_decide (fb_orders s !! next = None)) "Replacement ID already exists");
      _ ← lift (demand ((0 <? fe_price e) && (0 <? fe_quantity e)) "Nonpositive replacement price/quantity");
      _ ← lift (demand (negb (fe_maintain_priority e) || bool_decide (next = key /\ fe_price e = t_price old))
              "Maintain-priority replacement changes price/ID");
      _ ← when_book has
        (order ← lift (core_order (fe_new_order_id e) (t_side old) (fe_price e) (fe_quantity e));
         applied_to (t_book old) (bk_replace h (fe_order_id e) order (fe_maintain_priority e)));
      modify (fun s => put_orders (entry (fb_orders s)) s)))).
  apply run_demand. rewrite orb_true_iff, !bool_decide_eq_true. intros Hnext. rewrite <- guarded_andb.
  apply run_demand. intros _.
  apply run_demand. rewrite orb_true_iff, bool_decide_eq_true, negb_true_iff. intros Hkeep.
  pose proof (replace_step Hnext) as H. unfold run_order. destruct has eqn:Ehas.
  - simpl negb. cbn [orb]. destruct (fits (fe_price e)) eqn:Hp; [destruct (fits (fe_quantity e)) eqn:Hq|].
    + cbn [andb guarded]. rewrite (core_order_fits _ _ _ _ Hp Hq). apply H; [|done]. intros Hk. destruct Hkeep; [congruence|done].
    + unfold core_order. unfold fits in Hp, Hq. rewrite Hp, Hq. apply feed_refused.
    + unfold core_order. unfold fits in Hp. rewrite Hp. apply feed_refused.
  - apply H; [|done]. intros Hk. destruct Hkeep; [congruence|done].
Qed.
End order.
(** A new order. *)
Section add.
Context (Hadd : fe_type e = Add) (Hheap : heap_ok h (fb_pool_bytes s)).
Let key : OrderKey := (venue, fe_channel e, fe_order_id e).
Let book := mkKey venue (fe_channel e) (fe_symbol e).
Let t := mkTracked book (fe_side e) (fe_price e) (fe_quantity e).
Context (Hnew : fb_orders s !! key = None).

Lemma homes_add : homes s book (<[key := t]> (fb_orders s)).
Proof. by apply homes_insert. Qed.

(** [try_emplace] leaves a book under the key that shows what was there. *)
Lemma emplace_spec :
  (exists b, emplace_book h book s = (Ret (), put_books (<[book := b]> (fb_books s)) s) /\ bk_wf b /\ bk_abs b = book_view s book) \/
  (exists x, emplace_book h book s = (Throw x, s) /\ memory_short h s).
Proof.
  unfold emplace_book, book_view. destruct (fb_books s !! book) as [b|] eqn:Hb.
  - left. exists b. rewrite insert_id by done. split; [by destruct s|]. split; [|done]. by eapply (bo_book s (fo_books s Hok)).
  - pose proof (fo_pool s Hok) as Hpool. assert (0 <= fb_pool_bytes s) as Hpool' by lia.
    destruct (bk_new_spec h _ Hpool' Hheap) as [(b & -> & Hwf & Ha)|[-> Hno]]; [left; by exists b|right].
    eexists. split; [done|]. left. destruct Hno; [done|lia].
Qed.

Lemma add_call b :
  bk_wf b -> bk_abs b = book_view s book -> fits (fe_price e) = true -> fits (fe_quantity e) = true ->
  alloc_effect bk_wf bk_abs bk_slots h b (bk_add h (mkAdd (fe_order_id e) (fe_side e) (fe_price e) (fe_quantity e)) b)
    (Ok, lob_insert (tracked_view key.2 t) (bk_abs b)).
Proof.
  intros Hwf Ha Hp%fits_spec Hq%fits_spec. destruct (et_order e He) as [Hid _]. pose proof (et_side e He) as Hs.
  assert (AddOrder_ok (mkAdd (fe_order_id e) (fe_side e) (fe_price e) (fe_quantity e))) as Hadd'
    by (split; simpl; unfold is_u32; try done; lia).
  pose proof (bk_add_spec h _ b Hwf Hadd') as H. unfold lob_add in H. cbn [add_id add_side add_price add_quantity] in H.
  do 2 rewrite decide_False in H by lia. rewrite decide_False in H.
  { rewrite decide_False in H by (by intros []). exact H. }
  pose proof (view_fresh _ _ book (fe_order_id e) (fo_view s Hok) Hnew) as Hfree.
  cbn [feed_view fv_books] in Hfree. rewrite Ha, Hfree. by intros [].
Qed.

Lemma add_step :
  selected (fe_symbol e) s = true -> fits (fe_price e) = true -> fits (fe_quantity e) = true ->
  finishes h s (Some (view_insert (wanted s) key t (feed_view s)))
    ((_ ← (_ ← emplace_book h book; _ ← applied_to book (bk_add h (mkAdd (fe_order_id e) (fe_side e) (fe_price e) (fe_quantity e)));
           modify count_update);
      modify (fun s => put_orders (<[key := t]> (fb_orders s)) s)) s).
Proof.
  intros Hs Hp Hq. unfold mbind, on_books_bind.
  destruct emplace_spec as [(b & -> & Hwf & Ha)|(x & -> & Hm)]; [|by right].
  set (s1 := put_books _ s). assert (fb_books s1 !! book = Some b) as Hb by apply lookup_insert_eq.
  destruct (applied_to_spec h s1 book b (bk_add h (mkAdd (fe_order_id e) (fe_side e) (fe_price e) (fe_quantity e)))
    (lob_insert (tracked_view key.2 t)) Hb (add_call b Hwf Ha Hp Hq)) as (b' & Hwf' & [[-> Ha']|(x & -> & Hm)]); [|by right].
  eexists. split; [done|].
  pose proof (holds_put s book b' (<[key := t]> (fb_orders s)) (lob_insert (tracked_view key.2 t)) (fo_books s Hok)
    homes_add Hwf') as H. rewrite Ha in Ha'. specialize (H Ha' Hs). apply holds_count in H.
  unfold s1. cbn [fb_books put_books]. rewrite insert_insert_eq. exact H.
Qed.
End add.

Lemma feed_add_spec :
  fe_type e = Add -> heap_ok h (fb_pool_bytes s) ->
  finishes h s (view_add (wanted s) venue e (feed_view s)) (feed_add h venue e s).
Proof.
  intros Hadd Hheap. unfold view_add. cbv zeta. rewrite <- !andb_assoc, !guarded_andb.
  unfold feed_add. cbv zeta. set (key := (venue, fe_channel e, fe_order_id e)).
  set (book := mkKey venue (fe_channel e) (fe_symbol e)). set (t := mkTracked book _ _ _).
  rewrite <- guarded_andb. unfold mbind at 1, on_books_bind at 1, gets at 1. apply lift_demand_finishes.
  rewrite andb_true_iff, bool_decide_eq_true. intros [_ Hnew].
  rewrite <- guarded_andb. apply lift_demand_finishes. intros _.
  unfold mbind at 1, on_books_bind at 1, gets at 1. unfold wanted at 1. destruct (selected (fe_symbol e) s) eqn:Hs.
  - cbn [negb orb]. destruct (fits (fe_price e)) eqn:Hp; [destruct (fits (fe_quantity e)) eqn:Hq|].
    + rewrite (core_order_fits _ _ _ _ Hp Hq). by apply add_step.
    + unfold core_order. unfold fits in Hp, Hq. rewrite Hp, Hq. apply feed_refused.
    + unfold core_order. unfold fits in Hp. rewrite Hp. apply feed_refused.
  - cbn [negb orb guarded]. eexists. split; [done|]. apply holds_skip; [apply Hok|by apply homes_insert|done].
Qed.
Lemma clear_spec channel : holds s (clear_channel venue channel s) (view_clear venue channel (feed_view s)).
Proof.
  destruct (fo_books s Hok) as [Hb Ho]. split; try done.
  - split; cbn [clear_channel fb_books fb_orders put_books put_orders].
    + intros k b [H _]%map_lookup_filter_Some. by apply Hb.
    + intros key t [Ht Hk]%map_lookup_filter_Some Hs. cbn [fst] in Hk.
      destruct (Ho key t Ht Hs) as [b Hbk]. exists b. apply map_lookup_filter_Some. split; [done|]. simpl.
      pose proof (vo_home _ _ (fo_view s Hok) key t Ht) as Hhome. rewrite Hhome in Hk. exact Hk.
  - split; [done|]. intros k. cbn [feed_view fv_books view_clear]. unfold book_view.
    cbn [clear_channel fb_books put_books put_orders]. case_decide as E.
    + by rewrite map_lookup_filter_None_2 by naive_solver.
    + destruct (fb_books s !! k) as [b|] eqn:Hk; [|by rewrite map_lookup_filter_None_2 by auto].
      by rewrite (map_lookup_filter_Some_2 _ (fb_books s) k b Hk).
Qed.

Lemma holds_unchanged : holds s s (feed_view s).
Proof. split; try done. apply Hok. Qed.

Lemma feed_apply_spec :
  heap_ok h (fb_pool_bytes s) -> finishes h s (view_event (wanted s) venue e (feed_view s)) (feed_apply h venue e s).
Proof.
  intros Hheap. unfold view_event, feed_apply. apply lift_demand_finishes. intros _. cbv zeta.
  set (key := (venue, fe_channel e, fe_order_id e)).
  destruct (fe_type e) eqn:Et; try (eexists; split; [done|]; apply holds_unchanged);
    [by apply feed_add_spec| | | | | |eexists; split; [done|]; apply clear_spec].
  all: unfold mbind at 1, on_books_bind at 1, gets at 1; cbn [feed_view fv_orders].
  all: destruct (fb_orders s !! key) as [old|] eqn:Hold; [|apply feed_refused].
  all: cbn [from_option_or]; unfold mbind at 1, on_books_bind at 1, lift at 1; apply lift_demand_finishes; intros _.
  all: unfold mbind at 1, on_books_bind at 1, gets at 1; rewrite (has_selected s key old Hok Hold).
  all: unfold view_order; rewrite Et.
  - by apply feed_decrement_spec.
  - by apply feed_decrement_spec.
  - by apply feed_delete_spec.
  - by apply feed_replace_spec.
  - by apply feed_remaining_spec.
Qed.
End event.

(** ** The theorem *)

Lemma wanted_filter s s' : fb_filter s' = fb_filter s -> wanted s' = wanted s.
Proof. unfold wanted, selected. by intros ->. Qed.

Lemma holds_ok s s' venue e v :
  feed_ok s -> event_typed e -> view_event (wanted s) venue e (feed_view s) = Some v -> holds s s' v -> feed_ok s'.
Proof.
  intros Hok He Hv [Hb Hs Hf Hp _]. split; [done| |by rewrite Hp; apply Hok].
  rewrite (wanted_filter s s' Hf). apply (view_ok_same _ v); [destruct Hs; by split|].
  apply (view_event_ok _ venue e (feed_view s)); [apply Hok|apply He|apply (et_remaining e He)|done].
Qed.

(** C16: Consuming an event does what the feed says.  Accepted, the routing
    table and every book are exactly what the event makes of the displayed
    orders, price-time priority included, and the books stay in agreement with
    the routing table.  Otherwise it throws and the object stays poisoned: the
    event was refused and neither the routing table nor a book changed, or
    memory was short. *)
Theorem feed_consume_correct h venue e s :
  feed_ok s -> fb_valid s = true -> event_typed e -> heap_ok h (fb_pool_bytes s) ->
  match feed_consume h venue e s with
  | (Ret _, s') =>
    feed_ok s' /\ fb_valid s' = true /\
    exists v, view_event (wanted s) venue e (feed_view s) = Some v /\ view_same (feed_view s') v
  | (Throw x, s') =>
    fb_valid s' = false /\
    (forall h' venue' e', feed_consume h' venue' e' s' = (Throw (FeedError "Feed books require rebuild after error"), s')) /\
    ((view_event (wanted s) venue e (feed_view s) = None /\ fb_orders s' = fb_orders s /\ fb_books s' = fb_books s /\
      exists what, x = FeedError what) \/ memory_short h s')
  end.
Proof.
  intros Hok Hvalid He Hheap. unfold feed_consume at 1. rewrite Hvalid. cbn [negb].
  pose proof (feed_apply_spec h s venue e Hok He Hheap) as H.
  destruct (feed_apply h venue e s) as [[u|x] s']; simpl in H.
  - destruct H as (v & Hv & Hh). split; [by eapply holds_ok|]. split; [by rewrite (ho_valid _ _ _ Hh)|].
    exists v. split; [done|]. apply (ho_view _ _ _ Hh).
  - split; [done|]. split; [done|]. destruct H as [(Hn & -> & Hx)|Hm]; [by left|by right].
Qed.

(** ** The consistency check *)

Lemma first_reason_none {A} (f : A -> outcome (option string)) (l : list A) :
  (forall a, a ∈ l -> f a = Ret None) -> first_reason f l = Ret None.
Proof.
  unfold first_reason. induction l as [|a l IH]; intros H; [done|]. cbn [foldM].
  rewrite (H a) by left. cbn [mbind outcome_bind]. apply IH. intros a' Ha'. apply H. by right.
Qed.

Lemma check_tracked_none s key t : feed_ok s -> fb_orders s !! key = Some t -> check_tracked s key t = Ret None.
Proof.
  intros Hok Ht. unfold check_tracked. destruct (selected _ s) eqn:Hs; [|done]. cbn [negb].
  destruct (order_known s key t Hok Ht Hs) as [b Hb]. rewrite Hb.
  destruct (bo_book s (fo_books s Hok) _ b Hb) as [Hwf _]. rewrite bk_order_spec by done.
  destruct (book_find s key t b Hok Ht Hb) as [-> _]. cbn [mbind outcome_bind].
  rewrite decide_False; [done|]. simpl. naive_solver.
Qed.

(** The orders of a book under their keys, as the routing table has them. *)
Definition routed (kb : BookKey * B) : list (OrderKey * Tracked) :=
  (fun v => (order_key_of kb.1 (ov_id v), mkTracked kb.1 (ov_side v) (ov_price v) (ov_quantity v))) <$> lob_orders (bk_abs kb.2).

Lemma elem_of_routed s key t :
  feed_ok s ->
  (exists kb, kb ∈ map_to_list (fb_books s) /\ (key, t) ∈ routed kb) <->
  fb_orders s !! key = Some t /\ selected (k_symbol (t_book t)) s = true.
Proof.
  intros Hok. split.
  - intros ([k b] & Hb%elem_of_map_to_list & (v & [= -> ->] & Hv)%list_elem_of_fmap). cbn [fst snd t_book] in *.
    destruct (bo_book s (fo_books s Hok) k b Hb) as [Hwf Hs]. split; [|done].
    assert (lob_find (ov_id v) (fv_books (feed_view s) k) = Some v) as Hf.
    { cbn [feed_view fv_books]. unfold book_view. rewrite Hb. apply lob_find_Some; [by apply bk_abs_wf|done]. }
    apply (vo_match _ _ (fo_view s Hok)) in Hf as (_ & t & Ht & <- & ->). by destruct t.
  - intros [Ht Hs]. destruct (order_known s key t Hok Ht Hs) as [b Hb].
    destruct (book_find s key t b Hok Ht Hb) as [Hf _]. exists (t_book t, b). split; [by apply elem_of_map_to_list|].
    apply list_elem_of_fmap. exists (tracked_view key.2 t). destruct (bo_book s (fo_books s Hok) _ b Hb) as [Hwf _].
    apply lob_find_Some in Hf as [Hin _]; [|by apply bk_abs_wf]. split; [|done]. cbn [fst ov_id tracked_view].
    rewrite (order_key_of_home _ _ (vo_home _ _ (fo_view s Hok) key t Ht)). by destruct t.
Qed.

Lemma NoDup_routed s (l : list (BookKey * B)) :
  NoDup l.*1 -> Forall (fun kb => bk_wf kb.2) l -> NoDup (l ≫= routed).
Proof.
  induction l as [|[k b] l IH]; intros Hn Hw; [constructor|]. csimpl in *.
  apply NoDup_cons in Hn as [Hk Hn]. apply Forall_cons in Hw as [Hb Hw]. apply NoDup_app. split_and!; [| |by apply IH].
  - apply NoDup_fmap_2_strong.
    + intros [] [] _ _ [= ]. congruence.
    + eapply NoDup_fmap_1, wf_ids, bk_abs_wf, Hb.
  - intros [key t] (v & [= -> ->] & _)%list_elem_of_fmap ([k' b'] & (v' & Ek & _)%list_elem_of_fmap & Hin)%list_elem_of_bind.
    apply Hk, list_elem_of_fmap. exists (k', b'). split; [|done]. simpl in *. congruence.
Qed.

Lemma selected_count s :
  feed_ok s ->
  sum_list ((fun kb => bk_count kb.2) <$> ordered (at_most book_key_compare) (fb_books s)) =
  length (filter (fun kt => selected (k_symbol (t_book kt.2)) s = true) (ordered (at_most order_key_compare) (fb_orders s))).
Proof.
  intros Hok. set (books := ordered _ (fb_books s)). set (chosen := filter _ _).
  assert (books ≡ₚ map_to_list (fb_books s)) as Hbooks by apply ordered_Permutation.
  assert (Forall (fun kb => bk_wf kb.2) books) as Hwf.
  { apply Forall_forall. intros [k b]. rewrite Hbooks, elem_of_map_to_list. intros H. by eapply (bo_book s (fo_books s Hok)). }
  assert (sum_list ((fun kb => bk_count kb.2) <$> books) = length (books ≫= routed)) as ->.
  { clear -Hwf. induction books as [|kb l IH]; [done|]. apply Forall_cons in Hwf as [Hb Hw]. csimpl.
    rewrite length_app, <- IH by done. f_equal. unfold routed. rewrite length_fmap. by apply bk_count_spec. }
  apply Permutation_length, NoDup_Permutation.
  - apply (NoDup_routed s); [|done]. rewrite Hbooks. apply NoDup_fst_map_to_list.
  - apply NoDup_filter. unfold ordered. rewrite merge_sort_Permutation. apply NoDup_map_to_list.
  - intros [key t]. unfold chosen. rewrite list_elem_of_filter, list_elem_of_bind. unfold ordered.
    rewrite merge_sort_Permutation, elem_of_map_to_list. setoid_rewrite Hbooks.
    pose proof (elem_of_routed s key t Hok) as H. naive_solver.
Qed.

End theorems.
