(* ===== verification/FeedBooksSamples.v ===== *)
(** * The feed-book theorems at work

    A new order of a selected symbol, over the real book and its pool. *)
From S2P Require Import Prelude StdMap Types LOB OrderBook Pool BookInterface BookTheorems Market Decoder DecoderTheorems.
From S2P Require Import FeedBooks FeedView FeedBooksTheorems.

Section new.
Context {B : Type} {Bops : BookOps B} {Blaws : BookLaws B}.

(** Books just constructed have nothing to disagree about. *)
Lemma books_new_ok filter pool_bytes (s : Books B) : books_new filter pool_bytes = Ret s -> feed_ok s /\ fb_valid s = true.
Proof.
  unfold books_new. destruct (0 <? pool_bytes) eqn:E; [|done]. intros [= <-]. apply Z.ltb_lt in E. split; [|done].
  split; [by split| |done]. split; try done; cbn [feed_view fv_books fv_orders]; unfold book_view; cbn [fb_books fb_orders].
  - intros k. rewrite lookup_empty. apply lob_wf_empty.
  - intros k id w. rewrite lookup_empty. split; [done|]. by intros (_ & t & ? & _).
Qed.
End new.

Definition sample_books : Books (OrderBook Pool) := mkBooks "" 512 true 0 ∅ ∅.

Lemma sample_books_ok : feed_ok sample_books /\ fb_valid sample_books = true.
Proof. apply (books_new_ok "" 512). reflexivity. Qed.

Definition sample_add : Event := mkFeedEvent Add 1 0 5 "ABC" 42 0 Bid 10000 100 0 0 false.

Lemma sample_add_typed : event_typed sample_add.
Proof. split; simpl; try done; unfold valid_side, is_u64, is_u32; try (split; lia); auto; split; try split; intros; lia. Qed.

Lemma feed_heap_ok bytes : 0 <= bytes <= 2 ^ 20 -> heap_ok sample_heap bytes.
Proof. intros H base [= <-]. lia. Qed.

Lemma feed_consume_correct_witness :
  exists s', feed_consume sample_heap "BZX" sample_add sample_books = (Ret (), s') /\ feed_ok s' /\
    fb_orders s' !! ("BZX"%string, 5, 42) = Some (mkTracked (mkKey "BZX" 5 "ABC") Bid 10000 100).
Proof.
  assert (fb_pool_bytes sample_books = 512) as Hpool by reflexivity.
  pose proof (feed_consume_correct sample_heap "BZX" sample_add sample_books (proj1 sample_books_ok) (proj2 sample_books_ok)
    sample_add_typed ltac:(apply feed_heap_ok; rewrite Hpool; lia)) as H.
  assert (match feed_consume sample_heap "BZX" sample_add sample_books with
          | (Ret _, s') => fb_orders s' !! ("BZX"%string, 5, 42) = Some (mkTracked (mkKey "BZX" 5 "ABC") Bid 10000 100)
          | _ => False end) as E by (vm_compute; reflexivity).
  destruct (feed_consume sample_heap "BZX" sample_add sample_books) as [[[]|x] s']; [|destruct E].
  exists s'. exact (conj eq_refl (conj (proj1 H) E)).
Defined.

