(* ===== verification/EventIO.v ===== *)
(** * Events as CSV

    [src/io/event_io.cpp]: one event per line, parsed and written. *)
From Stdlib Require Import Ascii.
From S2P Require Import Prelude Types Decimal Text.

#[local] Open Scope string_scope.
#[local] Open Scope Z_scope.

(** [struct ParseResult] *)
Record ParseResult := mkParse { pr_event : option MarketEvent; pr_error : string }.

Definition split_csv (line : string) : list string := split_on comma line.

Definition parse_side (text : string) : option Side :=
  if decide (text = "BID" \/ text = "B" \/ text = "bid") then Some Bid
  else if decide (text = "ASK" \/ text = "A" \/ text = "ask") then Some Ask
  else None.

Definition parse_u64 : string -> option Z := parse_integer max_u64.
Definition parse_u32 : string -> option Z := parse_integer max_u32.

(** A result with an event, and one with an error. *)
Definition parsed (sequence instrument_id : Z) (p : EventPayload) : ParseResult :=
  mkParse (Some (mkEvent sequence instrument_id p)) "".
Definition bad (what : string) : ParseResult := mkParse None what.

Definition is_line_end (c : ascii) : bool := bool_decide (c = newline \/ c = carriage_return).

(** The three branches on the event type. *)
Definition parse_add (sequence instrument_id order_id : Z) (side price quantity : string) : ParseResult :=
  match parse_side side with
  | None => bad "invalid side"
  | Some side =>
    match parse_u32 price with
    | None => bad "invalid price"
    | Some price =>
      match parse_u32 quantity with
      | None => bad "invalid quantity"
      | Some quantity => parsed sequence instrument_id (PAdd (mkAdd order_id side price quantity))
      end
    end
  end.

Definition parse_cancel (sequence instrument_id order_id : Z) (side price quantity : string) : ParseResult :=
  if decide (side <> "" \/ price <> "" \/ quantity <> "")
  then bad "cancel fields side, price, and quantity must be empty"
  else parsed sequence instrument_id (PCancel (mkCancel order_id)).

Definition parse_execute (sequence instrument_id order_id : Z) (side price quantity : string) : ParseResult :=
  if decide (side <> "" \/ price <> "") then bad "execute fields side and price must be empty"
  else match parse_u32 quantity with
       | None => bad "invalid quantity"
       | Some quantity => parsed sequence instrument_id (PExecute (mkExecute order_id quantity))
       end.

(** [ParseResult parse_event_line(std::string_view)] *)
Definition parse_event_line (line : string) : ParseResult :=
  let line := strip_end is_line_end line in
  if bool_decide (line = "") || starts_with "#" line || String.prefix "sequence," line then mkParse None ""
  else match split_csv line with
  | [sequence; instrument_id; type; order_id; side; price; quantity] =>
    match parse_u64 sequence with
    | None => bad "invalid sequence"
    | Some sequence =>
      match parse_u64 instrument_id with
      | None => bad "invalid instrument_id"
      | Some instrument_id =>
        match parse_u64 order_id with
        | None => bad "invalid order_id"
        | Some order_id =>
          if decide (type = "ADD") then parse_add sequence instrument_id order_id side price quantity
          else if decide (type = "CANCEL") then parse_cancel sequence instrument_id order_id side price quantity
          else if decide (type = "EXECUTE") then parse_execute sequence instrument_id order_id side price quantity
          else bad "unknown event type"
        end
      end
    end
  | _ => bad "expected 7 CSV fields"
  end.

(** What [write_csv_header] and [write_event_csv] put on the stream. *)
Definition endl : string := String newline "".

Definition write_csv_header : string := "sequence,instrument_id,event_type,order_id,side,price,quantity" ++ endl.

Definition write_payload (p : EventPayload) : string :=
  match p with
  | PAdd e => "ADD," ++ to_decimal (add_id e) ++ "," ++ (if decide (add_side e = Bid) then "BID" else "ASK") ++ ","
                ++ to_decimal (add_price e) ++ "," ++ to_decimal (add_quantity e) ++ endl
  | PCancel e => "CANCEL," ++ to_decimal (cancel_id e) ++ ",,," ++ endl
  | PExecute e => "EXECUTE," ++ to_decimal (execute_id e) ++ ",,," ++ to_decimal (execute_quantity e) ++ endl
  end.

Definition write_event_csv (e : MarketEvent) : string :=
  to_decimal (ev_sequence e) ++ "," ++ to_decimal (ev_instrument e) ++ "," ++ write_payload (ev_payload e).

(** ** A written line is read back *)

Lemma digit_not_line_end c : is_digit c -> is_line_end c = false.
Proof. intros Hc. apply bool_decide_eq_false. intros [-> | ->]; vm_compute in Hc; intuition congruence. Qed.

Lemma decimal_without_comma n : 0 <= n -> without comma (to_decimal n).
Proof. intros Hn. apply digits_without; [|by apply to_decimal_chars]. intros H. vm_compute in H. intuition congruence. Qed.

(** The seven fields of an event, and the line they make. *)
Definition fields (e : MarketEvent) : list string :=
  [to_decimal (ev_sequence e); to_decimal (ev_instrument e)] ++
  match ev_payload e with
  | PAdd e => ["ADD"; to_decimal (add_id e); if decide (add_side e = Bid) then "BID" else "ASK";
               to_decimal (add_price e); to_decimal (add_quantity e)]
  | PCancel e => ["CANCEL"; to_decimal (cancel_id e); ""; ""; ""]
  | PExecute e => ["EXECUTE"; to_decimal (execute_id e); ""; ""; to_decimal (execute_quantity e)]
  end%list.

Lemma write_join e : write_event_csv e = join (fields e) ++ endl.
Proof.
  unfold write_event_csv, write_payload, fields. destruct (ev_payload e) as [[? side ? ?]| |].
  all: cbn [join app]; repeat (rewrite append_assoc || rewrite app_String); reflexivity.
Qed.

(** Characters that stay inside a field. *)
Definition plain (c : ascii) : Prop := c <> comma /\ is_line_end c = false.

Lemma decimal_plain n : 0 <= n -> all_chars plain (to_decimal n).
Proof.
  intros Hn. eapply all_chars_impl; [|by apply to_decimal_chars]. intros c Hc. split; [|by apply digit_not_line_end].
  intros ->. vm_compute in Hc. intuition congruence.
Qed.

Lemma fields_plain e : MarketEvent_ok e -> Forall (all_chars plain) (fields e).
Proof.
  intros [[Hs _] [Hi _] Hp]. apply Forall_app. split; [repeat constructor; by apply decimal_plain|].
  destruct (ev_payload e) as [a|c|x]; simpl in Hp.
  - destruct Hp as [[? _] [? _] [? _]].
    repeat (constructor; [first [by apply decimal_plain|try case_decide; vm_compute; intuition congruence]|]). constructor.
  - destruct Hp as [? _]. repeat (constructor; [first [by apply decimal_plain|vm_compute; intuition congruence]|]). constructor.
  - destruct Hp as [[? _] [? _]]. repeat (constructor; [first [by apply decimal_plain|vm_compute; intuition congruence]|]). constructor.
Qed.

(** A line of fields that starts with a number is not skipped. *)
Lemma data_line n fs :
  0 <= n -> Forall (all_chars plain) fs -> let line := join (to_decimal n :: fs) in
  strip_end is_line_end line = line /\
  bool_decide (line = "") || starts_with "#" line || String.prefix "sequence," line = false /\
  split_csv line = to_decimal n :: fs.
Proof.
  intros Hn Hfs line. assert (Forall (all_chars plain) (to_decimal n :: fs)) as Hall by (constructor; [by apply decimal_plain|done]).
  split; [|split].
  - apply strip_end_id, join_chars; [done|]. eapply Forall_impl; [exact Hall|]. intros f. apply all_chars_impl. by intros c [].
  - destruct (to_decimal_head n Hn) as (c & s & E & Hc). unfold line. rewrite E.
    assert (exists r, join (String c s :: fs) = String c r) as [r ->]
      by (destruct fs as [|g fs]; [by exists s|by exists (s ++ String comma (join (g :: fs)))]).
    unfold is_digit in Hc. rewrite bool_decide_eq_false_2 by done. cbn [starts_with String.prefix orb]. rewrite bool_decide_eq_false_2.
    + destruct (ascii_dec "s" c) as [<-|]; [|done]. vm_compute in Hc. intuition congruence.
    + intros ->. vm_compute in Hc. intuition congruence.
  - apply split_join; [done|]. eapply Forall_impl; [exact Hall|]. intros f. apply all_chars_impl. by intros c [].
Qed.

(** What the program's events carry: fields in range and a side that is one of the two. *)
Definition csv_event (e : MarketEvent) : Prop :=
  MarketEvent_ok e /\ match ev_payload e with PAdd a => valid_side (add_side a) | _ => True end.

Lemma parse_u64_decimal n : is_u64 n -> parse_u64 (to_decimal n) = Some n.
Proof. intros H. apply parse_to_decimal; [done|]. unfold is_u64, max_u64 in *. lia. Qed.

Lemma parse_u32_decimal n : is_u32 n -> parse_u32 (to_decimal n) = Some n.
Proof. intros H. apply parse_to_decimal; unfold is_u64, is_u32, max_u32 in *; lia. Qed.

#[local] Hint Rewrite parse_u64_decimal parse_u32_decimal using done : csv.

(** C23: Reading a written event gives the event back, whatever line ends follow it. *)
Theorem event_csv_roundtrip e line_end :
  csv_event e -> all_chars (fun c => is_line_end c = true) line_end ->
  parse_event_line (write_event_csv e ++ line_end) = mkParse (Some e) "".
Proof.
  intros [Hok Hside] Hend. unfold parse_event_line. rewrite write_join, append_assoc.
  rewrite strip_end_app by (apply all_chars_app; by split; [split; vm_compute|]).
  pose proof (fields_plain e Hok) as Hplain. destruct Hok as [Hs Hi Hp]. unfold fields in *. cbn [app] in *.
  apply Forall_cons in Hplain as [_ Hplain]. destruct (data_line _ _ (proj1 Hs) Hplain) as (-> & -> & ->).
  destruct e as [sequence instrument [a|c|x]]; cbn [ev_payload ev_sequence ev_instrument payload_ok] in *;
    autorewrite with csv.
  - destruct a as [id side price quantity], Hp as [Hid Hpr Hq]; cbn [add_id add_price add_quantity add_side] in *.
    autorewrite with csv. rewrite decide_True by done. unfold parse_add.
    destruct Hside as [-> | ->]; simpl; by autorewrite with csv.
  - destruct c as [id]. cbn [cancel_id] in *. by autorewrite with csv.
  - destruct x as [id quantity], Hp as [Hid Hq]. cbn [execute_id execute_quantity] in *. autorewrite with csv.
    unfold parse_execute. simpl. by autorewrite with csv.
Qed.

Lemma event_csv_roundtrip_witness :
  parse_event_line ("7,1,ADD,42,BID,10000,100" ++ String newline (String newline "")) =
  mkParse (Some (mkEvent 7 1 (PAdd (mkAdd 42 Bid 10000 100)))) "".
Proof.
  refine (event_csv_roundtrip (mkEvent 7 1 (PAdd (mkAdd 42 Bid 10000 100))) (String newline "") _ _).
  - split; [split; [|vm_compute; intuition congruence|split]|left]; vm_compute; intuition congruence.
  - vm_compute. split; reflexivity.
Defined.

Lemma parse_u64_range s v : parse_u64 s = Some v -> is_u64 v.
Proof. intros H%parse_integer_range. unfold max_u64, is_u64 in *. lia. Qed.
Lemma parse_u32_range s v : parse_u32 s = Some v -> is_u32 v.
Proof. intros H%parse_integer_range. unfold max_u32, is_u32 in *. lia. Qed.

