(* ===== verification/Rules.v ===== *)
(** * Instrument rules from a file, and their fingerprint

    [load_instruments] and [config_fingerprint] of [src/trading/engine.cpp]:
    the configuration the matching engine starts with and that a journal is
    bound to. *)
From Stdlib Require Import Ascii.
From S2P Require Import Prelude StdMap Types Decimal Text Messages Engine.

#[local] Open Scope string_scope.
#[local] Open Scope Z_scope.

(** A file as a stream gives it: what can be read, and whether the reading
    failed there instead of reaching the end. *)
Inductive InputFile := Missing | Contents (text : string) (failed : bool).

(** The complete lines [std::getline] hands over; a piece that a failing read
    cut short is not one of them. *)
Definition lines_of (text : string) (failed : bool) : list string :=
  let ls := getline_on newline text in
  if failed && negb (bool_decide (last (split_on newline text) = Some "")) then removelast ls else ls.

(** [std::uint64_t config_number(const std::string&)] *)
Definition config_number (s : string) : outcome Z :=
  from_option_or (InvalidArgument "Invalid rule number") (parse_integer max_u64 s).

(** The nine numbers of a line. *)
Definition rules_of (values : list Z) : outcome (InstrumentId * InstrumentRules) :=
  match values with
  | [id; tick; lot; low; high; quantity; notional; pos; open] =>
    if decide (id = 0) then Throw (InvalidArgument "Expected nine instrument rule fields")
    else if decide (max_u32 < tick \/ max_u32 < lot \/ max_u32 < low \/ max_u32 < high \/ max_u32 < quantity)
    then Throw (InvalidArgument "Instrument field overflow")
    else if decide (1000000000000 < pos \/ 4096 < open) then Throw (InvalidArgument "Instrument limit overflow")
    else Ret (id, mkRules tick lot low high quantity notional pos open)
  | _ => Throw (InvalidArgument "Expected nine instrument rule fields")
  end.

(** One round of the loop over the lines. *)
Definition load_line (result : Instruments) (line : string) : outcome Instruments :=
  let line := pop_return line in
  if bool_decide (line = "") || starts_with "#" line || String.prefix "instrument," line then Ret result
  else
    values ← mapO config_number (getline_on comma line);
    '(id, r) ← rules_of values;
    match result !! id with
    | Some _ => Throw (InvalidArgument "Duplicate instrument")
    | None => Ret (<[id := r]> result)
    end.

(** [Instruments load_instruments(const std::string& path)] *)
Definition load_instruments (file : InputFile) : outcome Instruments :=
  match file with
  | Missing => Throw (RuntimeError "Cannot open instrument rules")
  | Contents text failed =>
    result ← foldM load_line ∅ (lines_of text failed);
    if (failed : bool) then Throw (RuntimeError "Instrument rules read failed") else Ret result
  end.

(** ** The fingerprint *)

(** One byte of the 64-bit FNV hash. *)
Definition fnv64_prime : Z := 1099511628211.
Definition mix_byte (hash b : Z) : Z := u64 (Z.lxor hash b * fnv64_prime).

(** The lambda [mix]: eight rounds, least significant byte first. *)
Fixpoint mix_rounds (n : nat) (hash value : Z) : Z :=
  match n with
  | O => hash
  | S n => mix_rounds n (mix_byte hash (Z.land value 255)) (Z.shiftr value 8)
  end.
Definition mix (hash value : Z) : Z := mix_rounds 8 hash value.

(** The numbers mixed for one instrument. *)
Definition rule_values (ir : InstrumentId * InstrumentRules) : list Z :=
  let '(id, r) := ir in
  [id; tick_size r; lot_size r; min_price r; max_price r; max_order_quantity r; max_notional r;
   u64 (max_position r); max_open_orders r].

(** [std::uint64_t config_fingerprint(const Instruments&)] *)
Definition config_fingerprint (instruments : Instruments) : Z :=
  foldl mix (mix 14695981039346656037 1) (ordered Z.le instruments ≫= rule_values).
