(* ===== verification/RulesTheorems.v ===== *)
(** * What the configuration guarantees

    A rules file is read for what it says, everything the loader accepts is
    fit for the engine, and a changed byte changes the fingerprint. *)
From Stdlib Require Import Ascii.
From S2P Require Import Prelude StdMap Types Decimal Text Bytes Fnv Messages LOB Pool BookInterface Engine EngineTheorems Rules.

#[local] Open Scope string_scope.
#[local] Open Scope Z_scope.

(** ** Reading a file *)

(** A line that is skipped, or the rules of an instrument. *)
Inductive FileLine := Skipped (text : string) | Row (id : InstrumentId) (r : InstrumentRules).

Definition row_numbers (id : InstrumentId) (r : InstrumentRules) : list Z :=
  [id; tick_size r; lot_size r; min_price r; max_price r; max_order_quantity r; max_notional r; max_position r; max_open_orders r].

Definition line_text (l : FileLine) : string :=
  match l with Skipped s => s | Row id r => join (to_decimal <$> row_numbers id r) end.

Record loadable (id : InstrumentId) (r : InstrumentRules) : Prop := {
  la_id : is_u64 id /\ id <> 0;
  la_prices : is_u32 (tick_size r) /\ is_u32 (min_price r) /\ is_u32 (max_price r);
  la_quantities : is_u32 (lot_size r) /\ is_u32 (max_order_quantity r);
  la_notional : is_u64 (max_notional r);
  la_position : 0 <= max_position r <= 1000000000000;
  la_open : 0 <= max_open_orders r <= 4096
}.

Definition skipped (s : string) : Prop := s = "" \/ starts_with "#" s = true \/ String.prefix "instrument," s = true.

Definition line_ok (l : FileLine) : Prop :=
  match l with
  | Skipped s => without newline s /\ without carriage_return s /\ skipped s
  | Row id r => loadable id r
  end.

(** The file: every line with its end, in the style of Unix or of DOS. *)
Definition line_end (dos : bool) : string := if dos then String carriage_return "" else "".
Fixpoint file_text (dos : bool) (ls : list FileLine) : string :=
  match ls with [] => "" | l :: ls => (line_text l ++ line_end dos) ++ String newline (file_text dos ls) end.

Definition row_of (l : FileLine) : option (InstrumentId * InstrumentRules) :=
  match l with Row id r => Some (id, r) | Skipped _ => None end.

Definition rows (ls : list FileLine) : list (InstrumentId * InstrumentRules) := omap row_of ls.

(** Adding the rows in order. *)
Definition add_instrument (m : Instruments) (ir : InstrumentId * InstrumentRules) : outcome Instruments :=
  match m !! ir.1 with
  | Some _ => Throw (InvalidArgument "Duplicate instrument")
  | None => Ret (<[ir.1 := ir.2]> m)
  end.

Lemma numbers_range id r : loadable id r -> Forall is_u64 (row_numbers id r).
Proof.
  intros [[Hid _] (H1 & H2 & H3) (H4 & H5) H6 H7 H8]. repeat constructor; try by apply is_u32_u64.
  all: try apply Hid; try apply H6; unfold is_u64; lia.
Qed.

Lemma numbers_without c id r : ~ is_digit c -> loadable id r -> Forall (without c) (to_decimal <$> row_numbers id r).
Proof.
  intros Hc Hl. apply Forall_fmap. eapply Forall_impl; [by apply numbers_range|]. intros n [Hn _]. by apply decimal_without.
Qed.

Lemma not_digit_comma : ~ is_digit comma.
Proof. intros H. vm_compute in H. intuition congruence. Qed.
Lemma not_digit_newline : ~ is_digit newline.
Proof. intros H. vm_compute in H. intuition congruence. Qed.
Lemma not_digit_return : ~ is_digit carriage_return.
Proof. intros H. vm_compute in H. intuition congruence. Qed.
#[local] Hint Resolve not_digit_comma not_digit_newline not_digit_return : core.

Lemma line_without c l :
  line_ok l -> c <> comma -> ~ is_digit c -> (forall s, l = Skipped s -> without c s) -> without c (line_text l).
Proof.
  intros Hl Hc Hd Hs. destruct l as [s|id r]; [by apply Hs|]. apply join_chars; [congruence|by apply numbers_without].
Qed.

Lemma lines_without l : line_ok l -> without newline (line_text l) /\ without carriage_return (line_text l).
Proof.
  intros Hl. split; (apply line_without; [done|done|auto|]); intros s ->; apply Hl.
Qed.

Lemma lines_of_file dos ls :
  Forall line_ok ls -> getline_on newline (file_text dos ls) = (fun l => line_text l ++ line_end dos) <$> ls.
Proof.
  induction 1 as [|l ls Hl Hls IH]; [done|]. cbn [file_text]. rewrite getline_on_app; [by rewrite IH|].
  apply all_chars_app. split; [by apply lines_without|]. by destruct dos.
Qed.

Lemma pop_line dos l : line_ok l -> pop_return (line_text l ++ line_end dos) = line_text l.
Proof.
  intros Hl. destruct dos; [apply pop_return_end|]. cbn [line_end]. rewrite append_empty.
  by apply pop_return_none, lines_without.
Qed.

Lemma config_number_decimal n : is_u64 n -> config_number (to_decimal n) = Ret n.
Proof. intros H. unfold config_number. rewrite parse_to_decimal; [done|done|unfold is_u64, max_u64 in *; lia]. Qed.

Lemma config_numbers ns : Forall is_u64 ns -> mapO config_number (to_decimal <$> ns) = Ret ns.
Proof.
  induction 1 as [|n ns Hn Hns IH]; [done|]. rewrite fmap_cons. cbn [mapO].
  rewrite (config_number_decimal n Hn). cbn [mbind outcome_bind]. by rewrite IH.
Qed.

Lemma rules_of_row id r : loadable id r -> rules_of (row_numbers id r) = Ret (id, r).
Proof.
  intros [[Hid Hne] (H1 & H2 & H3) (H4 & H5) H6 H7 H8]. unfold rules_of, row_numbers, is_u32, max_u32 in *.
  rewrite decide_False by done. rewrite decide_False by lia. rewrite decide_False by lia. by destruct r.
Qed.

Lemma row_not_skipped id r line : loadable id r -> line = join (to_decimal <$> row_numbers id r) ->
  bool_decide (line = "") || starts_with "#" line || String.prefix "instrument," line = false.
Proof.
  intros Hl ->. unfold row_numbers. rewrite !fmap_cons.
  destruct (to_decimal_head id (proj1 (proj1 (la_id id r Hl)))) as (c & s & -> & Hc).
  rewrite join_String. unfold is_digit in Hc. rewrite bool_decide_eq_false_2 by done.
  cbn [starts_with String.prefix orb]. rewrite bool_decide_eq_false_2.
  - destruct (ascii_dec "i" c) as [<-|]; [|done]. vm_compute in Hc. intuition congruence.
  - intros ->. vm_compute in Hc. intuition congruence.
Qed.

Lemma load_line_ok dos l m :
  line_ok l -> load_line m (line_text l ++ line_end dos) =
    match row_of l with Some ir => add_instrument m ir | None => Ret m end.
Proof.
  intros Hl. unfold load_line. rewrite (pop_line dos l Hl). destruct l as [s|id r]; cbn [line_text row_of].
  - destruct Hl as (_ & _ & [->|[->| ->]]); [done|by rewrite orb_true_r|by rewrite orb_true_r].
  - rewrite (row_not_skipped id r) by done.
    rewrite getline_join; [|done|apply numbers_without; auto; done|].
    + rewrite (config_numbers _ (numbers_range id r Hl)). cbn [mbind outcome_bind].
      by rewrite (rules_of_row id r Hl).
    + apply Forall_fmap. eapply Forall_impl; [by apply numbers_range|]. intros n [Hn _]. by apply decimal_nonempty.
Qed.

Lemma load_lines_ok dos ls : forall m,
  Forall line_ok ls -> foldM load_line m ((fun l => line_text l ++ line_end dos) <$> ls) = foldM add_instrument m (rows ls).
Proof.
  induction ls as [|l ls IH]; intros m Hls; [done|]. apply Forall_cons in Hls as [Hl Hls].
  rewrite fmap_cons. cbn [foldM]. rewrite (load_line_ok dos l m Hl). unfold rows. cbn [omap list_omap].
  destruct (row_of l) as [ir|]; cbn [foldM mbind outcome_bind].
  - destruct (add_instrument m ir); cbn; [by apply IH|done].
  - by apply IH.
Qed.

Lemma add_instruments irs : forall m,
  foldM add_instrument m irs =
  if decide (NoDup irs.*1 /\ Forall (fun ir => m !! ir.1 = None) irs) then Ret (list_to_map irs ∪ m)
  else Throw (InvalidArgument "Duplicate instrument").
Proof.
  induction irs as [|[id r] irs IH]; intros m.
  - rewrite decide_True by (split; constructor). by rewrite list_to_map_nil, map_empty_union.
  - cbn [foldM]. assert (add_instrument m (id, r) = match m !! id with
      Some _ => Throw (InvalidArgument "Duplicate instrument") | None => Ret (<[id := r]> m) end) as -> by done.
    destruct (m !! id) eqn:Hid.
    + rewrite decide_False; [done|]. rewrite Forall_cons. intros [_ [H _]]. simpl in H. congruence.
    + cbn [mbind outcome_bind]. rewrite IH. csimpl.
      destruct (decide (NoDup irs.*1 /\ Forall (fun ir => <[id:=r]> m !! ir.1 = None) irs)) as [[Hn Hf]|Hno].
      * assert (id ∉ irs.*1 /\ Forall (fun ir => m !! ir.1 = None) irs) as [Hid' Hf'].
        { rewrite Forall_forall in Hf. split.
          - intros ([id' r'] & -> & Hin)%list_elem_of_fmap. specialize (Hf _ Hin). simpl in Hf. by rewrite lookup_insert_eq in Hf.
          - apply Forall_forall. intros ir Hin. specialize (Hf _ Hin). by apply lookup_insert_None in Hf as [? _]. }
        rewrite decide_True by (split; [by constructor|by constructor]). f_equal.
        rewrite <- insert_union_l, insert_union_r; [done|]. by apply not_elem_of_list_to_map_1.
      * rewrite decide_False; [done|]. intros [[Hid' Hn]%NoDup_cons [_ Hf]%Forall_cons]. apply Hno. split; [done|].
        apply Forall_forall. intros ir Hin. rewrite Forall_forall in Hf. apply lookup_insert_None. split; [by apply Hf|].
        intros ->. apply Hid', list_elem_of_fmap. eauto.
Qed.

(** C20: A rules file is read for what it says: of lines that are blank,
    comments, the header or the nine numbers of an instrument, ended in either
    style, the loader gives exactly the rules of the rows, and refuses the file
    when two rows name the same instrument. *)
Theorem load_instruments_correct dos ls :
  Forall line_ok ls ->
  load_instruments (Contents (file_text dos ls) false) =
  if decide (NoDup (rows ls).*1) then Ret (list_to_map (rows ls)) else Throw (InvalidArgument "Duplicate instrument").
Proof.
  intros Hls. unfold load_instruments, lines_of. cbn [andb]. rewrite (lines_of_file dos ls Hls), (load_lines_ok dos ls ∅ Hls).
  rewrite add_instruments. rewrite map_union_empty. destruct (decide (NoDup (rows ls).*1)).
  - rewrite decide_True; [done|]. split; [done|]. apply Forall_forall. intros. apply lookup_empty.
  - rewrite decide_False; [done|]. by intros [].
Qed.

Lemma config_numbers_range l ns : mapO config_number l = Ret ns -> Forall is_u64 ns.
Proof.
  revert ns. induction l as [|s l IH]; intros ns; cbn [mapO]; [intros [= <-]; constructor|].
  intros (n & Hn & (ms & Hms & [= <-])%bind_Ret_inv)%bind_Ret_inv. constructor; [|by apply IH].
  unfold config_number in Hn. destruct (parse_integer max_u64 s) as [v|] eqn:E; [|done]. injection Hn as <-.
  apply parse_integer_range in E. unfold is_u64, max_u64 in *. lia.
Qed.

Lemma rules_of_loadable ns id r : Forall is_u64 ns -> rules_of ns = Ret (id, r) -> loadable id r.
Proof.
  intros Hns. unfold rules_of. destruct ns as [|n0 [|n1 [|n2 [|n3 [|n4 [|n5 [|n6 [|n7 [|n8 [|]]]]]]]]]]; try done.
  case_decide; [done|]. case_decide as H1; [done|]. case_decide as H2; [done|]. intros [= <- <-].
  repeat (apply Forall_cons in Hns as [? Hns]). unfold is_u64, max_u32 in *.
  split; simpl; unfold is_u64, is_u32; split_and?; lia.
Qed.

Lemma load_line_loadable m line m' :
  map_Forall loadable m -> load_line m line = Ret m' -> map_Forall loadable m'.
Proof.
  intros Hm. unfold load_line. destruct (_ || _); [by intros [= <-]|].
  intros (ns & Hns & ([id r] & Hr & H)%bind_Ret_inv)%bind_Ret_inv. destruct (m !! id); [done|]. injection H as <-.
  apply map_Forall_insert_2; [|done]. eapply rules_of_loadable; [|done]. by eapply config_numbers_range.
Qed.


(** ** The fingerprint *)

#[local] Close Scope string_scope.

Fixpoint le_bytes (n : nat) (v : Z) : list Z :=
  match n with O => [] | S n => v mod 256 :: le_bytes n (v / 256) end.

Lemma le_bytes_ok n v : Forall (in_word 64) (le_bytes n v).
Proof.
  revert v. induction n as [|n IH]; intros v; constructor; [|apply IH]. unfold in_word.
  pose proof (Z.mod_pos_bound v 256). lia.
Qed.

Lemma mix_bytes n h v : mix_rounds n h v = foldl mix_byte h (le_bytes n v).
Proof.
  revert h v. induction n as [|n IH]; intros h v; [done|]. cbn [mix_rounds le_bytes foldl]. rewrite IH.
  change 255 with (Z.ones 8). by rewrite Z.land_ones, Z.shiftr_div_pow2.
Qed.

Lemma mix_values vs h : foldl mix h vs = foldl mix_byte h (vs ≫= le_bytes 8).
Proof.
  revert h. induction vs as [|v vs IH]; intros h; [done|]. cbn [foldl]. rewrite IH. unfold mix. rewrite mix_bytes.
  by rewrite <- foldl_app.
Qed.

Lemma fnv64_prime_inverse : (fnv64_prime * 14886173955864302971) mod 2 ^ 64 = 1 mod 2 ^ 64.
Proof. vm_compute. reflexivity. Qed.

Lemma mix_detects h pre x y post :
  in_word 64 h -> Forall (in_word 64) pre -> in_word 64 x -> in_word 64 y -> Forall (in_word 64) post ->
  foldl mix_byte h (pre ++ x :: post) = foldl mix_byte h (pre ++ y :: post) -> x = y.
Proof. exact (fnv_detects 64 fnv64_prime 14886173955864302971 eq_refl fnv64_prime_inverse h pre x y post). Qed.

Lemma mix_word h v : in_word 64 h -> in_word 64 (mix h v).
Proof. intros Hh. unfold mix. rewrite mix_bytes. by apply (foldl_fnv_word 64 fnv64_prime). Qed.

Lemma bytes_ok vs : Forall (in_word 64) (vs ≫= le_bytes 8).
Proof. apply Forall_bind, Forall_true. intros v. apply le_bytes_ok. Qed.


(** ** Concrete instances *)

Definition sample_lines : list FileLine := [Skipped "# rules"%string; Row 1 default_rules].

Lemma sample_lines_ok : Forall line_ok sample_lines.
Proof.
  constructor; [|constructor; [|constructor]].
  - split; [vm_compute; intuition congruence|split; [vm_compute; intuition congruence|right; left; reflexivity]].
  - split; simpl; unfold is_u64, is_u32; split_and?; lia.
Qed.

Lemma load_instruments_correct_witness :
  load_instruments (Contents (file_text true sample_lines) false) = Ret {[1 := default_rules]}.
Proof.
  refine (eq_trans (load_instruments_correct true sample_lines sample_lines_ok) _). vm_compute. reflexivity.
Defined.


Definition other_rules : InstrumentRules := mkRules 2 1 1 1000000 100000 10000000000 1000000 128.

